(* ===== verification/_CoqProject ===== *)
-Q . S2P
Prelude.v
GoLang.v
GoText.v
GoBytes.v
Crypto.v
Rlp.v
Domain.v
Json.v
Evm.v
Config.v
World.v
Reference.v
Decimal.v
TxBuilder.v
MemStore.v
MemStoreFacts.v
MemStoreFrames.v
MemStoreProps.v
StoreMutex.v
StoreHistories.v
Lock.v
Nonce.v
Utxo.v
AuditOutbox.v
KeyMapping.v
Balance.v
Cache.v
Deriver.v
Wallet.v
Funding.v
Withdrawal.v
WithdrawalSaga.v
WithdrawalResources.v
WithdrawalProps.v
Resolver.v
Http.v
AuthToken.v
GrpcServer.v
Rest.v
PgEngine.v
PgReference.v
Postgres.v
PostgresFacts.v
PostgresProps.v
PostgresRuns.v
PostgresServices.v
StoreInterface.v
Refinement.v
NonceRefinement.v
UtxoRefinement.v
AuditRefinement.v
KeyRefinement.v
AddressRefinement.v
FundingRefinement.v
StoreRefinement.v
Clients.v
GoTime.v
AuditSink.v
Drainer.v
DevMode.v
Telemetry.v
Process.v
Lifecycle.v
Migrations.v
Redis.v
App.v
