(* ===== verification/Prelude.v ===== *)
(** * wallet-manager: a verification development

    wallet-manager is a Go service that keeps the wallets of a crypto on-ramp: it
    derives receive addresses, keeps balances from chain events, reserves nonces and
    Bitcoin outputs, maps wallets to MPC keys, asks the treasury for funds, and runs the
    withdrawal saga (policy check, reservation, signing, broadcast, confirmation).  This
    library is a shallow embedding of that program with the theorems that make it
    correct.

    ** How the program is modelled

    A Go function is a Rocq function; a method with effects is a computation
    [GoM S A = S -> result A * S] ([Prelude]), with [error] values as the sources compare
    them ([errors.Is], wrapping).  Services share the state [World] ([World.v]): the
    tables of the store, the locks and the cache of the process, the readings taken of
    the clock and of the UUID generator, and the trace of exchanges with outside
    services, whose answers are arbitrary functions of that trace.  A loop has a
    structural or counted recursion; a panic is an error value.

    ** Files, components and sources (under src/)

    - [Prelude], [GoLang], [GoText], [GoBytes], [GoTime], [Json], [Http]: the language and
      its standard library as far as the sources use them (fixed-width integers, map
      iteration, sorting, text, big integers, dates, [encoding/json], [net/http]).
    - [Crypto], [Decimal]: the cryptographic and decimal libraries, as parameters with
      documented laws.  [Reference], [PgReference]: concrete instances of every
      parameter, used by the witnesses.
    - [Domain]: internal/domain, the rows of internal/storage/store.go.
      [Config]: internal/config.
    - [MemStore]: internal/storage/memstore, every method; [MemStoreFacts],
      [MemStoreFrames], [MemStoreProps]: table invariants, which table a method can
      change, transactions.  [StoreMutex]: its reentrant mutex ([goID], [lock], [InTx])
      as programs of instructions that goroutines run interleaved; [StoreHistories]: the
      methods under that mutex.
    - [PgEngine], [Postgres]: internal/storage/postgres, every method with the SQL it
      sends over the tables and constraints of the schema; [PostgresFacts],
      [PostgresProps]: transactions, locks of outputs and reservations of nonces are
      all-or-nothing whatever faults the server has; [PostgresRuns]: what a statement does
      when the server has no faults; [PostgresServices]: services on that store.
    - [StoreInterface]: the interface storage.Store with both stores as instances;
      [Refinement]: simulation of an abstract table, for any operations and any adaptive
      client, and its composition over tables that do not disturb each other;
      [NonceRefinement], [UtxoRefinement], [AuditRefinement], [KeyRefinement],
      [AddressRefinement], [FundingRefinement]: abstract tables of nonces, outputs, audit
      rows, key mappings, addresses and funding requests that both stores implement;
      [StoreRefinement]: the six together.
    - [Lock], [Cache]: the interfaces of internal/lock and internal/cache as records of
      operations with laws, and their in-process implementations; [Redis]: the Redis
      implementations as programs of commands, interleaved.
    - [Nonce], [Utxo], [KeyMapping], [Balance], [Wallet], [Funding], [AuditOutbox]: the
      services of the packages of those names; [AuditSink]: the Kafka sink; [Drainer]:
      the background worker of the outbox.  [Deriver]: internal/deriver.
    - [Rlp], [Evm], [TxBuilder]: internal/withdrawal/txbuilder.go; [Withdrawal]:
      withdrawal.go; [WithdrawalSaga]: the abstract state machine and the proof that the
      service follows it; [WithdrawalResources], [WithdrawalProps]: reservations, policy
      safety, life cycle; [Resolver]: resolver.go and the wiring of the service.
    - [AuthToken]: internal/authtoken; [Rest]: internal/api/rest; [GrpcServer]:
      internal/api/grpc; [Clients]: internal/policy, the HTTP client of internal/funding,
      internal/clients and internal/withdrawal/solana_rpc.go.
    - [Process]: start-up of cmd/wallet-manager/main.go; [Lifecycle]: [run] to its exit,
      with the resources it acquires and its deferred functions; [Telemetry]:
      internal/otel; [DevMode]: the stand-ins of internal/grpcclient and internal/policy
      that DEV_MODE selects; [App]: the services behind the two servers and the background
      tasks, wired as [run] wires them and run in any order; [Migrations]: internal/migrations and cmd/migrate.

    Components meet through interfaces: [LockerLaws], [CacheLaws], [EmitterLaws] and
    [CollaboratorLaws] state what a service relies on, the client's theorems are proved
    against them, and the implementations discharge them ([MemLocker_laws],
    [MemCache_laws], [EmitterService_laws], [wired_laws]).  [StoreAPI] holds the
    operations of a store; a class [Refines] relates them to an abstract table, with an
    instance for each store.

    ** What the theorems show

    - Money: nothing is signed or broadcast without an approval of that very request
      ([WithdrawalProps.only_approved_spend]); rows move along the saga only
      ([withdrawal_lifecycle]); a failed signing releases what it reserved, also when
      writes of the row fail, with one stated exception, and a broadcast settles the
      reservation ([WithdrawalResources]); nonces are not reused and outputs not locked
      twice; on the in-memory store balances are the sums of the deposits; the
      transaction builders encode what was requested, and what is signed determines the
      nonce, the recipient and the amount of an EVM transfer.
    - State: the table invariants of the in-memory store hold after every history whose
      funding updates do not reopen a request; locks of outputs and reservations of
      nonces on Postgres are all-or-nothing under faults; both stores refine the abstract
      tables of nonces, outputs, the audit outbox, key mappings, addresses and funding
      requests on the calls where they agree, in the form in which these tables compare
      rows, so that a client of the six tables gets the same compared answers from both
      ([StoreRefinement.stores_indistinguishable]).
    - Keys and addresses: an address handed out is fresh, stored and owned by the
      wallet's key; an EVM address of a key with full-width coordinates is that key's;
      caching does not change what is derived; a wallet with a bound key can always
      resolve one; retirement is final.
    - Audit: the numbers of a wallet's events are unique, an event is marked delivered
      only after the sink accepted it, enough ticks of the worker deliver everything that
      is pending while the sink accepts, and a consumer reads back what was published.
    - Surface: every REST request but the probes needs a valid token, and a probe runs
      the readiness checks only; no request or callback makes the services sign or
      broadcast ([App.surface_never_spends]); a redelivered confirmation counts once;
      what a process without DEV_MODE starts with, and the two fallbacks it still has
      ([Process.production_start]).
    - Process: what [run] acquired is released when it returns, and what is not
      ([Lifecycle.run_releases]).
    - Concurrency: goroutines never touch the tables of the in-memory store at once, every
      call returns, and what a concurrent execution leaves is what whole calls leave in
      some order ([StoreHistories.concurrent_histories]), so that the theorems on
      histories hold of concurrent clients; mutual exclusion of the Redis lock for every
      interleaving, late releases included, in which no lock expires between the two
      commands of one release, and a run that shows what happens otherwise.

    Several theorems state defects of the program as it is (lost first deposits and
    refused withdrawals on the Postgres store, Solana wallets refused there because every
    one derives the same address, a Solana instruction that is no transfer, outputs kept
    locked by [Fail], a nonce kept when the state SIGNED cannot be written, gRPC methods
    served without tokens, a Redis client that is never closed, the release race of the
    Redis lock); each is stated positively, as what the code does.  The services are
    modelled over the in-memory store; [run] wires the Postgres store, and
    [PostgresServices] holds what differs there.

    ** Parameters

    [GoRuntime] (iteration order of maps, [sort.Slice]), [UUIDLib], [Environment] (clock
    and UUIDs), [DecimalLib], [FloatLib], [CryptoLib], [PgServer] (faults, clock, commit
    outcomes, collation, row order, NUMERIC text), [ChiRouter] (path matching), the HTTP and Kafka
    transports, and the collaborators of the services.  Their laws are documented
    behaviour; each class has an instance.

    ** Bounds and fuel

    [reserve_loop] makes the 50 attempts of the source and [deriveNewLocked_loop] its
    20.  The JSON parser runs on fuel twice the length of the text plus two, which
    [json_need_bound] shows to be enough for printed values, and keeps the nesting limit
    of 10000.  [strip_all] and [quote_chars] run on the length of the text.
    [grpcConnReady] counts readings of a connection state; it returns when the context
    ends ([grpcConnReady_returns]).

    ** Not modelled

    Log lines; the generated protobuf code (internal/pb, the messages are records here);
    sockets and connection pools behind the servers and clients (a listener is only
    opened and closed); the
    parsing of SQL text (a query is the operation on tables that it denotes); test
    doubles other than those DEV_MODE selects.  A section under [depthMu] is one
    instruction of [StoreMutex].

    ** Further work

    Three tables are outside [StoreRefinement].  The withdrawal tables of the two stores
    do not refine one abstract table: the Postgres store refuses a row without outpoints
    that the in-memory store accepts ([PostgresServices]).  The balance table stores
    amounts as NUMERIC and refuses the empty text of a new row.  The wallet table is compared by
    the separate theorems of the two stores.  [ExpireCooling] is no operation of
    [KeyRefinement]: one store compares with the clock of the process, the other with the
    clock of the server. *)
From stdpp Require Import base tactics list option gmap strings numbers sorting.
From Stdlib Require Import ZArith Lia.

#[global] Set Default Goal Selector "!".

(** ** Go errors

    A Go [error] is a sentinel value, a fresh text ([errors.New], or
    [fmt.Errorf] without [%w]) or a wrapped error ([fmt.Errorf] with [%w]).
    The sentinels are those the sources compare against with [errors.Is]. *)
Inductive error : Type :=
  | ErrNoRows
  | ErrDuplicateEvent
  | ErrDuplicateWithdrawal
  | ErrDuplicateFunding
  | ErrDuplicateAudit
  | ErrWalletRetired
  | ErrNoSolanaRPC
  | ErrNew (msg : string)
  | ErrWrap (msg : string) (cause : error).

#[export] Instance error_eq_dec : EqDecision error.
Proof. solve_decision. Defined.

(** [errors.Is]: the error itself or one it wraps. *)
Fixpoint errors_Is (e target : error) : bool :=
  bool_decide (e = target) ||
  match e with
  | ErrWrap _ c => errors_Is c target
  | _ => false
  end.

(** ** Results and the Go state monad

    A Go method reads and writes shared state and returns [(value, error)].
    It becomes a function from the state before to the result and the state
    after; the state reached before an error is kept, as in Go. *)
Inductive result (A : Type) : Type :=
  | Ok (a : A)
  | Err (e : error).
Arguments Ok {A} a.
Arguments Err {A} e.

Definition is_ok {A} (r : result A) : bool :=
  match r with Ok _ => true | Err _ => false end.

(** Pure fallible code: [(value, error)] without state. *)
#[export] Instance result_ret : MRet result := λ A a, Ok a.
#[export] Instance result_bind : MBind result := λ A B f r,
  match r with Ok a => f a | Err e => Err e end.

Definition wrap_result {A} (msg : string) (r : result A) : result A :=
  match r with Ok a => Ok a | Err e => Err (ErrWrap msg e) end.

Definition GoM (S A : Type) : Type := S → result A * S.

Section monad.
Context {S : Type}.

#[export] Instance GoM_ret : MRet (GoM S) := λ A a w, (Ok a, w).

#[export] Instance GoM_bind : MBind (GoM S) := λ A B f m w,
  match m w with
  | (Ok a, w') => f a w'
  | (Err e, w') => (Err e, w')
  end.

(** [return ..., err]. *)
Definition throw {A} (e : error) : GoM S A := λ w, (Err e, w).

(** [if err != nil] handled by the caller: the result becomes a value. *)
Definition attempt {A} (m : GoM S A) : GoM S (result A) := λ w,
  let '(r, w') := m w in (Ok r, w').

(** [_ = m()]: the outcome is dropped, the effects are kept. *)
Definition ignore {A} (m : GoM S A) : GoM S unit := λ w,
  let '(_, w') := m w in (Ok tt, w').

(** [return fmt.Errorf("msg: %w", err)]. *)
Definition wrap_err {A} (msg : string) (m : GoM S A) : GoM S A := λ w,
  match m w with
  | (Err e, w') => (Err (ErrWrap msg e), w')
  | r => r
  end.

Definition of_result {A} (r : result A) : GoM S A := λ w, (r, w).

Definition gets {A} (f : S → A) : GoM S A := λ w, (Ok (f w), w).

Definition modify (f : S → S) : GoM S unit := λ w, (Ok tt, f w).

Definition when (b : bool) (m : GoM S unit) : GoM S unit :=
  if b then m else mret tt.

(** [for _, x := range l { if err := body(x); err != nil { return err } }]. *)
Fixpoint for_each {A} (l : list A) (body : A → GoM S unit) : GoM S unit :=
  match l with
  | [] => mret tt
  | x :: l => body x ≫= λ _, for_each l body
  end.

(** *** Relational specifications of whole methods

    [within R m]: whatever [m] returns, the state it leaves is related by
    [R] to the state it started from.  With [R] a preorder this composes
    along the code, so frame conditions, invariants and transition systems
    of a handler follow from those of the calls it makes. *)
Definition within {A} (R : relation S) (m : GoM S A) : Prop :=
  ∀ w, R w (m w).2.

Context (R : relation S) `{!PreOrder R}.

Lemma within_ret {A} (a : A) : within R (mret a).
Proof. intros w. reflexivity. Qed.

Lemma within_throw {A} e : within R (throw (A := A) e).
Proof. intros w. reflexivity. Qed.

Lemma within_gets {A} (f : S → A) : within R (gets f).
Proof. intros w. reflexivity. Qed.

Lemma within_of_result {A} (r : result A) : within R (of_result r).
Proof. intros w. reflexivity. Qed.

Lemma within_modify f : (∀ w, R w (f w)) → within R (modify f).
Proof. intros H w. apply H. Qed.

Lemma within_bind {A B} (m : GoM S A) (f : A → GoM S B) :
  within R m → (∀ a, within R (f a)) → within R (m ≫= f).
Proof.
  intros Hm Hf w. specialize (Hm w). unfold mbind, GoM_bind.
  destruct (m w) as [[a|e] w']; simpl in *; [|done].
  etrans; [exact Hm|apply Hf].
Qed.

Lemma within_attempt {A} (m : GoM S A) : within R m → within R (attempt m).
Proof. intros Hm w. specialize (Hm w). unfold attempt. by destruct (m w). Qed.

Lemma within_ignore {A} (m : GoM S A) : within R m → within R (ignore m).
Proof. intros Hm w. specialize (Hm w). unfold ignore. by destruct (m w). Qed.

Lemma within_wrap_err {A} msg (m : GoM S A) :
  within R m → within R (wrap_err msg m).
Proof.
  intros Hm w. specialize (Hm w). unfold wrap_err.
  by destruct (m w) as [[|] ?].
Qed.

Lemma within_when b m : within R m → within R (when b m).
Proof. destruct b; simpl; auto using within_ret. Qed.

Lemma within_for_each {A} (l : list A) body :
  (∀ x, within R (body x)) → within R (for_each l body).
Proof.
  intros Hb. induction l; simpl; auto using within_ret, within_bind.
Qed.

(** Hints stated on the sort of [match] a translated handler contains. *)
Lemma within_if {A} (b : bool) (m n : GoM S A) :
  within R m → within R n → within R (if b then m else n).
Proof. by destruct b. Qed.

Lemma within_option {A B} (o : option A) (f : A → GoM S B) n :
  (∀ a, within R (f a)) → within R n →
  within R (match o with Some a => f a | None => n end).
Proof. destruct o; auto. Qed.

Lemma within_result {A B} (r : result A) (f : A → GoM S B) g :
  (∀ a, within R (f a)) → (∀ e, within R (g e)) →
  within R (match r with Ok a => f a | Err e => g e end).
Proof. destruct r; auto. Qed.
End monad.

(** A run is its result and the state it leaves. *)
Lemma run_eq {S A} (m : GoM S A) w r : (m w).1 = r → m w = (r, (m w).2).
Proof. intros <-. by destruct (m w). Qed.

Lemma bind_Ok {S A B} (m : GoM S A) (f : A → GoM S B) w a w1 :
  m w = (Ok a, w1) → (m ≫= f) w = f a w1.
Proof. intros Hm. unfold mbind, GoM_bind. by rewrite Hm. Qed.

(** Inversion of a run that returned. *)
Lemma bind_inv {S A B} (m : GoM S A) (f : A → GoM S B) w b w' :
  (m ≫= f) w = (Ok b, w') → ∃ a w1, m w = (Ok a, w1) ∧ f a w1 = (Ok b, w').
Proof. unfold mbind, GoM_bind. destruct (m w) as [[a|e] w1]; [eauto|done]. Qed.

Lemma wrap_err_inv {S A} msg (m : GoM S A) w a w' :
  wrap_err msg m w = (Ok a, w') → m w = (Ok a, w').
Proof. unfold wrap_err. by destruct (m w) as [[|]]. Qed.

(** The first two of three calls, run together. *)
Lemma then_run {S A} (m k : GoM S unit) (f : GoM S A) w w' :
  (m ≫= λ _, k) w = (Ok tt, w') → (m ≫= λ _, k ≫= λ _, f) w = f w'.
Proof.
  unfold mbind, GoM_bind. destruct (m w) as [[[]|e] w1]; [|done]. by intros ->.
Qed.

(** What happens after a call that returned. *)
Lemma within_after {S A B} (R : relation S) (m : GoM S A) (f : A → GoM S B) w a w1 :
  m w = (Ok a, w1) → within R (f a) → R w1 ((m ≫= f) w).2.
Proof. intros Hm Hf. unfold mbind, GoM_bind. rewrite Hm. apply Hf. Qed.

(** Methods are opaque to the database, so that a goal is matched by its name. *)
Create HintDb within discriminated.
#[export] Hint Constants Opaque : within.
#[export] Hint Resolve within_ret within_throw within_gets within_of_result
  within_modify within_bind within_attempt within_ignore within_wrap_err
  within_when within_for_each within_if within_option within_result : within.

(** [solve_within] closes a [within] goal of a translated handler from the
    [within] lemmas of the methods it calls (database [within]). *)
Ltac solve_within :=
  repeat first
    [ progress intros
    | solve [eauto 3 with within typeclass_instances]
    | apply within_bind | apply within_if | apply within_option
    | apply within_result | apply within_for_each | apply within_when
    | apply within_ignore | apply within_attempt | apply within_wrap_err
    | solve [eauto with within typeclass_instances]
    | case_match ].
