(* ===== verification/GoLang.v ===== *)
(** * GoLang: what the sources use of Go and its standard library

    Fixed-width integers, map iteration and [sort.Slice] (through the class
    [GoRuntime], since the language leaves their order open), string order,
    time stamps and the [uuid.UUID] values that key every table. *)
From stdpp Require Import base tactics list gmap strings numbers sorting.
From Stdlib Require Import ZArith Lia.
From S2P Require Import Prelude.

#[local] Open Scope Z_scope.

(** ** Integers at their width *)

(** Go [int]/[int64] arithmetic wraps in two's complement. *)
Definition int64 (z : Z) : Z := (z + 2 ^ 63) mod 2 ^ 64 - 2 ^ 63.

(** Go [uint64] conversion and arithmetic. *)
Definition uint64 (z : Z) : Z := z mod 2 ^ 64.

Definition in_int64 (z : Z) : Prop := - 2 ^ 63 ≤ z < 2 ^ 63.

Lemma int64_id z : in_int64 z → int64 z = z.
Proof. unfold in_int64, int64. intros. rewrite Z.mod_small; lia. Qed.

Lemma int64_range z : in_int64 (int64 z).
Proof.
  unfold in_int64, int64.
  pose proof (Z.mod_pos_bound (z + 2 ^ 63) (2 ^ 64) ltac:(lia)). lia.
Qed.

Lemma int64_succ_lt z : 0 ≤ z < 2 ^ 63 - 1 → int64 (z + 1) = z + 1.
Proof. intros. apply int64_id. unfold in_int64. lia. Qed.

#[export] Hint Resolve int64_range : core.

(** ** Time

    A [time.Time] is its number of nanoseconds; the zero [time.Time] is 0. *)
Abbreviation time := Z (only parsing).
Abbreviation duration := Z (only parsing).
Definition time_IsZero (t : time) : bool := t =? 0.
Definition time_Before (t u : time) : bool := t <? u.
Definition time_After (t u : time) : bool := u <? t.
Definition time_Add (t : time) (d : duration) : time := t + d.
(** [UnixNano]: the zero time is the start of year 1. *)
Definition time_UnixNano (t : time) : Z := int64 (t - 62135596800000000000).
Definition Hour : duration := 3600000000000.

(** ** UUIDs: 16 bytes *)
Record uuid : Type := UUID {
  uuid_bits : Z;
  uuid_wf : (0 <=? uuid_bits) && (uuid_bits <? 2 ^ 128) = true
}.

Lemma uuid_eq (u v : uuid) : uuid_bits u = uuid_bits v → u = v.
Proof.
  destruct u as [u Hu], v as [v Hv]; simpl. intros ->. f_equal.
  apply proof_irrel.
Qed.

#[export] Instance uuid_eq_dec : EqDecision uuid.
Proof.
  refine (λ u v, cast_if (decide (uuid_bits u = uuid_bits v)));
    [by apply uuid_eq|congruence].
Defined.

Lemma uuid_of_Z_wf z : (0 <=? z mod 2 ^ 128) && (z mod 2 ^ 128 <? 2 ^ 128) = true.
Proof.
  pose proof (Z.mod_pos_bound z (2 ^ 128) ltac:(lia)).
  apply andb_true_intro. lia.
Qed.

Definition uuid_of_Z (z : Z) : uuid := UUID (z mod 2 ^ 128) (uuid_of_Z_wf z).

Lemma uuid_of_Z_bits u : uuid_of_Z (uuid_bits u) = u.
Proof.
  apply uuid_eq. simpl. destruct u as [u Hu]; simpl.
  apply andb_prop in Hu. rewrite Z.mod_small; lia.
Qed.

#[export] Instance uuid_countable : Countable uuid :=
  inj_countable' uuid_bits uuid_of_Z uuid_of_Z_bits.

Definition uuid_Nil : uuid := uuid_of_Z 0.

(** The text form of [github.com/google/uuid]: the package is not part of the
    sources; the store keys its maps by [String()], and relies on the canonical
    form being 36 bytes long and parseable back. *)
Class UUIDLib : Type := {
  uuid_String : uuid → string;
  uuid_Parse : string → result uuid;
  uuid_Parse_String u : uuid_Parse (uuid_String u) = Ok u;
  uuid_String_length u : String.length (uuid_String u) = 36%nat
}.

#[export] Instance uuid_String_inj `{UUIDLib} : Inj (=) (=) uuid_String.
Proof.
  intros u v Huv. pose proof (uuid_Parse_String u) as Hu.
  rewrite Huv, uuid_Parse_String in Hu. congruence.
Qed.

(** ** Strings *)

(** Go's [<] on strings: bytewise lexicographic order. *)
Fixpoint string_lt (s t : string) : bool :=
  match s, t with
  | _, EmptyString => false
  | EmptyString, String _ _ => true
  | String a s, String b t =>
      match N.compare (Ascii.N_of_ascii a) (Ascii.N_of_ascii b) with
      | Lt => true
      | Eq => string_lt s t
      | Gt => false
      end
  end.

(** [strings.HasPrefix]. *)
Definition strings_HasPrefix (s prefix : string) : bool := String.prefix prefix s.

Lemma string_app_inj_length (a b c d : string) :
  String.length a = String.length b → (a +:+ c = b +:+ d)%string → a = b ∧ c = d.
Proof.
  revert b. induction a as [|x a IH]; intros [|y b]; simpl; try done.
  intros Hl Heq. injection Heq as -> Heq. injection Hl as Hl.
  destruct (IH b Hl Heq) as [-> ->]. done.
Qed.

Lemma prefix_spec (p s : string) :
  String.prefix p s = true ↔ ∃ t, s = (p +:+ t)%string.
Proof.
  revert s. induction p as [|x p IH]; intros [|y s]; simpl.
  - split; [by exists ""%string|done].
  - split; [by exists (String y s)|done].
  - split; [done|]. by intros [t Ht].
  - destruct (Ascii.ascii_dec x y) as [->|Hne].
    + rewrite IH. split; intros [t Ht]; exists t; [by rewrite Ht|by injection Ht].
    + split; [done|]. intros [t Ht]. by injection Ht.
Qed.

Lemma string_app_length (a b : string) :
  String.length (a +:+ b) = (String.length a + String.length b)%nat.
Proof. induction a; simpl; auto. Qed.

Lemma string_app_assoc (a b c : string) :
  ((a +:+ b) +:+ c = a +:+ (b +:+ c))%string.
Proof. induction a as [|x a IH]; [done|]. by apply (f_equal (String x)). Qed.

Lemma string_app_nil_r (a : string) : (a +:+ "")%string = a.
Proof. induction a as [|x a IH]; [done|]. by apply (f_equal (String x)). Qed.

(** ** Order of map iteration and of [sort.Slice]

    The language leaves the order in which [range] visits a map unspecified,
    and [sort.Slice] is not stable.  The model takes any iteration order and
    any sorting function with their documented guarantees. *)
Record strict_weak {A} (lt : A → A → bool) : Prop := {
  sw_irrefl x : lt x x = false;
  sw_trans x y z : lt x y = true → lt y z = true → lt x z = true;
  sw_negtrans x y z : lt x z = true → lt x y = true ∨ lt y z = true
}.

Class GoRuntime : Type := {
  range_map : ∀ {K V : Type} `{Countable K}, gmap K V → list (K * V);
  range_map_perm : ∀ {K V : Type} `{Countable K} (m : gmap K V),
    range_map m ≡ₚ map_to_list m;
  sort_Slice : ∀ {A : Type}, (A → A → bool) → list A → list A;
  sort_Slice_perm : ∀ {A : Type} (lt : A → A → bool) (l : list A),
    sort_Slice lt l ≡ₚ l;
  sort_Slice_sorted : ∀ {A : Type} (lt : A → A → bool) (l : list A),
    strict_weak lt → StronglySorted (λ x y, lt y x = false) (sort_Slice lt l)
}.

Section range.
Context `{GoRuntime} `{Countable K} {V : Type}.

Lemma elem_of_range_map (m : gmap K V) k v :
  (k, v) ∈ range_map m ↔ m !! k = Some v.
Proof. by rewrite range_map_perm, elem_of_map_to_list. Qed.

Lemma range_map_NoDup (m : gmap K V) : NoDup (range_map m).*1.
Proof. rewrite range_map_perm. apply NoDup_fst_map_to_list. Qed.

(** [for _, v := range m { if p(v) { return ... } }]: the value found. *)
Definition range_find (p : V → bool) (m : gmap K V) : option V :=
  snd <$> find (λ kv, p kv.2) (range_map m).

Definition range_any (p : V → bool) (m : gmap K V) : bool :=
  existsb (λ kv, p kv.2) (range_map m).

(** [for _, v := range m { if p(v) { out = append(out, v) } }]. *)
Definition range_filter (p : V → bool) (m : gmap K V) : list V :=
  List.filter p (range_map m).*2.

Lemma range_any_true p (m : gmap K V) :
  range_any p m = true ↔ ∃ k v, m !! k = Some v ∧ p v = true.
Proof.
  unfold range_any. rewrite existsb_exists. split.
  - intros ([k v] & Hin & Hp). exists k, v.
    by rewrite <-elem_of_range_map, list_elem_of_In.
  - intros (k & v & Hin & Hp). exists (k, v).
    by rewrite <-list_elem_of_In, elem_of_range_map.
Qed.

Lemma range_any_false p (m : gmap K V) :
  range_any p m = false ↔ ∀ k v, m !! k = Some v → p v = false.
Proof.
  rewrite <-not_true_iff_false, range_any_true. split.
  - intros Hn k v Hkv. destruct (p v) eqn:?; [|done]. destruct Hn. eauto.
  - intros Hf (k & v & Hkv & Hp). rewrite (Hf _ _ Hkv) in Hp. done.
Qed.

Lemma range_find_Some p (m : gmap K V) v :
  range_find p m = Some v → p v = true ∧ ∃ k, m !! k = Some v.
Proof.
  unfold range_find. rewrite fmap_Some. intros ([k v'] & Hf & ->); simpl.
  apply List.find_some in Hf as [Hin Hp]. split; [done|]. exists k.
  by rewrite <-elem_of_range_map, list_elem_of_In.
Qed.

Lemma range_find_None p (m : gmap K V) :
  range_find p m = None ↔ ∀ k v, m !! k = Some v → p v = false.
Proof.
  unfold range_find. rewrite fmap_None. split.
  - intros Hf k v Hkv. apply (List.find_none _ _ Hf (k, v)).
    by rewrite <-list_elem_of_In, elem_of_range_map.
  - intros Hall. destruct (find _ _) as [[k v]|] eqn:Hf; [|done].
    apply List.find_some in Hf as [Hin Hp]. simpl in Hp.
    rewrite <-list_elem_of_In, elem_of_range_map in Hin.
    by rewrite (Hall _ _ Hin) in Hp.
Qed.

Lemma elem_of_range_filter p (m : gmap K V) v :
  v ∈ range_filter p m ↔ p v = true ∧ ∃ k, m !! k = Some v.
Proof.
  unfold range_filter. rewrite list_elem_of_In, filter_In, <-list_elem_of_In.
  rewrite list_elem_of_fmap. split.
  - intros [([k v'] & -> & Hin) Hp]. split; [done|]. exists k.
    by rewrite elem_of_range_map in Hin.
  - intros [Hp [k Hk]]. split; [|done]. exists (k, v). split; [done|].
    by rewrite elem_of_range_map.
Qed.
End range.
