(* ===== verification/GoText.v ===== *)
(** * GoText: the text functions of Go's standard library the sources use

    Decimal printing and parsing ([fmt] with [%d], [strconv.Atoi],
    [strconv.ParseUint], [big.Int.SetString]), [strings.TrimSpace], splitting,
    and their round trips. *)
From stdpp Require Import base tactics list strings numbers pretty.
From Stdlib Require Import ZArith Lia Ascii.
From S2P Require Import Prelude.
From S2P Require Import GoLang.

#[local] Open Scope string_scope.
#[local] Open Scope list_scope.
#[local] Open Scope Z_scope.

(** ** Bytes *)
Definition byte_of (c : ascii) : Z := Z.of_N (N_of_ascii c).
Definition of_byte (b : Z) : ascii := ascii_of_N (Z.to_N b).
Definition string_bytes (s : string) : list Z := byte_of <$> String.list_ascii_of_string s.

Lemma byte_of_range c : 0 ≤ byte_of c < 256.
Proof. unfold byte_of. pose proof (N_ascii_bounded c). lia. Qed.

Lemma of_byte_of c : of_byte (byte_of c) = c.
Proof. unfold of_byte, byte_of. by rewrite N2Z.id, ascii_N_embedding. Qed.

Lemma byte_of_of b : 0 ≤ b < 256 → byte_of (of_byte b) = b.
Proof. intros Hb. unfold byte_of, of_byte. rewrite N_ascii_embedding; lia. Qed.

Lemma list_ascii_length s :
  length (String.list_ascii_of_string s) = String.length s.
Proof. induction s; simpl; auto. Qed.

(** ** Decimal numbers *)
Definition is_digit (c : ascii) : bool := (48 <=? byte_of c) && (byte_of c <=? 57).

Fixpoint parse_digits (acc : Z) (s : string) : option Z :=
  match s with
  | EmptyString => Some acc
  | String c s =>
      if is_digit c then parse_digits (10 * acc + (byte_of c - 48)) s else None
  end.

(** A non-empty run of digits. *)
Definition parse_nat (s : string) : option Z :=
  match s with EmptyString => None | _ => parse_digits 0 s end.

(** [new(big.Int).SetString(s, 10)]: an optional sign, then digits. *)
Definition big_SetString (s : string) : option Z :=
  match s with
  | String c s' =>
      if bool_decide (c = "-"%char) then Z.opp <$> parse_nat s'
      else if bool_decide (c = "+"%char) then parse_nat s'
      else parse_nat s
  | EmptyString => None
  end.

Lemma parse_digits_dot acc s t : parse_digits acc (s +:+ String "." t) = None.
Proof.
  revert acc. induction s as [|c s IH]; intros acc; [done|].
  change (String c s +:+ String "." t) with (String c (s +:+ String "." t)). simpl.
  destruct (is_digit c); [apply IH|done].
Qed.

(** A number with a fraction is not an integer to [big.Int]. *)
Lemma big_SetString_dot s t : big_SetString (s +:+ String "." t) = None.
Proof.
  assert (∀ u, parse_nat (u +:+ String "." t) = None) as Hp.
  { intros u. unfold parse_nat. destruct u as [|c u]; [done|]. apply parse_digits_dot. }
  destruct s as [|c s]; [done|].
  change (String c s +:+ String "." t) with (String c (s +:+ String "." t)). simpl.
  rewrite Hp. do 2 (case_bool_decide; [done|]). apply (Hp (String c s)).
Qed.

(** [strconv.ParseUint(s, 10, bits)]. *)
Definition strconv_ParseUint (bits : Z) (s : string) : result Z :=
  match parse_nat s with
  | None => Err (ErrNew "strconv.ParseUint: invalid syntax")
  | Some n =>
      if n <? 2 ^ bits then Ok n else Err (ErrNew "strconv.ParseUint: value out of range")
  end.

(** [strconv.Atoi]: a 64-bit [int]. *)
Definition strconv_Atoi (s : string) : result Z :=
  match big_SetString s with
  | None => Err (ErrNew "strconv.Atoi: invalid syntax")
  | Some n =>
      if (- 2 ^ 63 <=? n) && (n <? 2 ^ 63) then Ok n
      else Err (ErrNew "strconv.Atoi: value out of range")
  end.

Lemma parse_digits_nonneg acc s n : 0 ≤ acc → parse_digits acc s = Some n → 0 ≤ n.
Proof.
  revert acc. induction s as [|c s IH]; simpl; intros acc Ha; [congruence|].
  destruct (is_digit c) eqn:Hd; [|done]. apply IH. unfold is_digit in Hd. lia.
Qed.

Lemma strconv_ParseUint_range bits s n : strconv_ParseUint bits s = Ok n → 0 ≤ n < 2 ^ bits.
Proof.
  unfold strconv_ParseUint, parse_nat. destruct s as [|c s]; [done|].
  destruct (parse_digits 0 (String c s)) as [m|] eqn:Hp; [|done].
  destruct (Z.ltb_spec m (2 ^ bits)); [|done]. intros [= <-].
  apply parse_digits_nonneg in Hp; lia.
Qed.

Lemma pretty_digit x : (x < 10)%N →
  is_digit (pretty_N_char x) = true ∧ byte_of (pretty_N_char x) - 48 = Z.of_N x.
Proof.
  intros Hx. assert (x = 0 ∨ x = 1 ∨ x = 2 ∨ x = 3 ∨ x = 4 ∨ x = 5
    ∨ x = 6 ∨ x = 7 ∨ x = 8 ∨ x = 9)%N as Hc by lia.
  by repeat destruct Hc as [->|Hc]; [..|subst].
Qed.

Lemma parse_pretty_go x s :
  parse_digits 0 (pretty_N_go x s) = parse_digits (Z.of_N x) s.
Proof.
  revert s. induction (N.lt_wf_0 x) as [x _ IH]; intros s.
  assert (x = 0 ∨ 0 < x)%N as [->|Hx] by lia; [done|].
  rewrite pretty_N_go_step, IH by (done || by apply N.div_lt). simpl.
  destruct (pretty_digit (x `mod` 10)%N) as [-> ->]; [by apply N.mod_lt|].
  f_equal. pose proof (N.div_mod x 10 ltac:(done)). lia.
Qed.

Lemma pretty_N_first x : ∃ c s, pretty (x : N) = String c s ∧ is_digit c = true.
Proof.
  unfold pretty, pretty_N. case_decide as Hx; [by eexists _, _|].
  assert (∀ s, (∃ c s', s = String c s' ∧ is_digit c = true) ∨ (0 < x)%N →
    ∃ c s', pretty_N_go x s = String c s' ∧ is_digit c = true) as Hgo.
  { clear Hx. induction (N.lt_wf_0 x) as [x _ IH]; intros s Hs.
    assert (x = 0 ∨ 0 < x)%N as [->|Hx] by lia.
    - destruct Hs; [done|lia].
    - rewrite pretty_N_go_step by done. apply IH; [by apply N.div_lt|].
      left. eexists _, _. split; [done|]. apply pretty_digit, N.mod_lt. done. }
  apply Hgo. right. lia.
Qed.

Lemma parse_pretty_N (x : N) : parse_nat (pretty x) = Some (Z.of_N x).
Proof.
  destruct (pretty_N_first x) as (c & s & Hp & _).
  unfold parse_nat. rewrite Hp, <-Hp. unfold pretty, pretty_N.
  case_decide as Hx; [by subst|]. by rewrite parse_pretty_go.
Qed.

(** A printed natural number is a non-empty text of digits. *)
Lemma pretty_N_digits (x : N) :
  Forall (λ c, is_digit c = true) (String.list_ascii_of_string (pretty x)) ∧ pretty x ≠ "".
Proof.
  destruct (pretty_N_first x) as (c & s & Hp & _). split; [|by rewrite Hp].
  clear Hp. unfold pretty, pretty_N. case_decide; [by repeat constructor|].
  assert (∀ s, Forall (λ c, is_digit c = true) (String.list_ascii_of_string s) →
    Forall (λ c, is_digit c = true) (String.list_ascii_of_string (pretty_N_go x s))) as Hgo;
    [|by apply Hgo]. clear.
  induction (N.lt_wf_0 x) as [x _ IH]; intros s Hs.
  assert (x = 0 ∨ 0 < x)%N as [->|Hx] by lia; [done|].
  rewrite pretty_N_go_step by done. apply IH; [by apply N.div_lt|].
  constructor; [|done]. apply pretty_digit, N.mod_lt. done.
Qed.

(** Printing an integer and reading it back. *)
Lemma big_SetString_pretty (z : Z) : big_SetString (pretty z) = Some z.
Proof.
  destruct z as [|p|p]; [done| |].
  - change (pretty (Z.pos p)) with (pretty (N.pos p)).
    destruct (pretty_N_first (N.pos p)) as (c & s & Hp & Hd).
    rewrite Hp. unfold big_SetString.
    rewrite !bool_decide_false by (intros ->; done).
    by rewrite <-Hp, parse_pretty_N.
  - change (pretty (Z.neg p)) with (String "-" (pretty (N.pos p))). simpl.
    by rewrite parse_pretty_N.
Qed.

Lemma strconv_Atoi_pretty (z : Z) : in_int64 z → strconv_Atoi (pretty z) = Ok z.
Proof.
  unfold in_int64. intros Hz. unfold strconv_Atoi. rewrite big_SetString_pretty.
  by rewrite (proj2 (Z.leb_le _ _)), (proj2 (Z.ltb_lt _ _)) by lia.
Qed.

(** [%q] of a text without characters to escape. *)
Definition quote (s : string) : string :=
  String (ascii_of_N 34) (s +:+ String (ascii_of_N 34) "").

(** [strings.TrimPrefix]. *)
Definition strings_TrimPrefix (s prefix : string) : string :=
  if strings_HasPrefix s prefix
  then String.string_of_list_ascii
    (drop (String.length prefix) (String.list_ascii_of_string s))
  else s.

Lemma strings_TrimPrefix_app p s : strings_TrimPrefix (p +:+ s) p = s.
Proof.
  unfold strings_TrimPrefix, strings_HasPrefix.
  rewrite (proj2 (prefix_spec p (p +:+ s))) by (by exists s).
  induction p as [|c p IH]; simpl; [|exact IH].
  by rewrite drop_0, String.string_of_list_ascii_of_string.
Qed.

(** ** Splitting *)

(** [strings.Split(s, sep)] for a one-byte separator. *)
Fixpoint strings_Split (sep : ascii) (s : string) : list string :=
  match s with
  | EmptyString => [""]
  | String c s' =>
      if bool_decide (c = sep) then "" :: strings_Split sep s'
      else match strings_Split sep s' with
           | x :: l => String c x :: l
           | [] => [String c ""]
           end
  end.

(** [strings.SplitN(s, sep, 2)]: [None] when the separator does not occur. *)
Fixpoint strings_Cut (sep : ascii) (s : string) : option (string * string) :=
  match s with
  | EmptyString => None
  | String c s' =>
      if bool_decide (c = sep) then Some ("", s')
      else (λ p, (String c p.1, p.2)) <$> strings_Cut sep s'
  end.

Definition no_char (sep : ascii) (s : string) : bool :=
  forallb (λ c, negb (bool_decide (c = sep))) (String.list_ascii_of_string s).

Lemma strings_Split_app sep s t :
  no_char sep s = true → strings_Split sep (s +:+ String sep t) = s :: strings_Split sep t.
Proof.
  induction s as [|c s IH]; simpl; intros Hs.
  - change ("" +:+ String sep t) with (String sep t). simpl. by rewrite bool_decide_true.
  - apply andb_prop in Hs as [Hc Hs]. apply negb_true_iff in Hc.
    change (String c s +:+ String sep t) with (String c (s +:+ String sep t)).
    simpl. by rewrite Hc, (IH Hs).
Qed.

Lemma strings_Split_last sep s : no_char sep s = true → strings_Split sep s = [s].
Proof.
  induction s as [|c s IH]; simpl; intros Hs; [done|].
  apply andb_prop in Hs as [Hc Hs]. apply negb_true_iff in Hc.
  by rewrite Hc, (IH Hs).
Qed.

Lemma pretty_N_go_no_char sep x s :
  is_digit sep = false → no_char sep s = true → no_char sep (pretty_N_go x s) = true.
Proof.
  intros Hsep. revert s. induction (N.lt_wf_0 x) as [x _ IH]; intros s Hs.
  assert (x = 0 ∨ 0 < x)%N as [->|Hx] by lia; [done|].
  rewrite pretty_N_go_step by done. apply IH; [by apply N.div_lt|].
  unfold no_char in *. simpl. rewrite Hs, andb_true_r, negb_true_iff.
  apply bool_decide_eq_false. intros <-.
  destruct (pretty_digit (x `mod` 10)%N) as [Hd _]; [by apply N.mod_lt|congruence].
Qed.

(** A printed integer contains no separator. *)
Lemma pretty_no_char sep (z : Z) :
  is_digit sep = false → sep ≠ "-"%char → no_char sep (pretty z) = true.
Proof.
  intros Hd Hm. assert (∀ x : N, no_char sep (pretty x) = true) as HN.
  { intros x. unfold pretty, pretty_N. case_decide; [|by apply pretty_N_go_no_char].
    unfold no_char. simpl. rewrite bool_decide_false; [done|]. by intros <-. }
  destruct z as [|p|p]; [apply (HN 0%N)|apply (HN (N.pos p))|].
  change (pretty (Z.neg p)) with (String "-" (pretty (N.pos p))).
  unfold no_char. simpl. rewrite bool_decide_false by done. apply HN.
Qed.

(** ** [strings.TrimSpace] *)

(** The UTF-8 encodings of the characters [unicode.IsSpace] accepts. *)
Definition space_runes : list (list Z) :=
  [[9]; [10]; [11]; [12]; [13]; [32]; [194; 133]; [194; 160]; [225; 154; 128];
   [226; 128; 128]; [226; 128; 129]; [226; 128; 130]; [226; 128; 131];
   [226; 128; 132]; [226; 128; 133]; [226; 128; 134]; [226; 128; 135];
   [226; 128; 136]; [226; 128; 137]; [226; 128; 138]; [226; 128; 168];
   [226; 128; 169]; [226; 128; 175]; [226; 129; 159]; [227; 128; 128]].

Fixpoint strip_prefix (p l : list Z) : option (list Z) :=
  match p, l with
  | [], _ => Some l
  | x :: p, y :: l => if x =? y then strip_prefix p l else None
  | _, [] => None
  end.

Definition strip_one (runes : list (list Z)) (l : list Z) : option (list Z) :=
  foldr (λ r acc, match strip_prefix r l with Some l' => Some l' | None => acc end)
    None runes.

(** Every step drops at least one byte, so the length is enough fuel. *)
Fixpoint strip_all (fuel : nat) (runes : list (list Z)) (l : list Z) : list Z :=
  match fuel with
  | O => l
  | S fuel =>
      match strip_one runes l with
      | Some l' => strip_all fuel runes l'
      | None => l
      end
  end.

Definition trim_bytes (l : list Z) : list Z :=
  let l := strip_all (length l) space_runes l in
  reverse (strip_all (length l) (reverse <$> space_runes) (reverse l)).

Definition strings_TrimSpace (s : string) : string :=
  String.string_of_list_ascii (of_byte <$> trim_bytes (string_bytes s)).

Lemma strip_prefix_length p l l' :
  strip_prefix p l = Some l' → length l = (length p + length l')%nat.
Proof.
  revert l. induction p as [|x p IH]; intros l; simpl; [congruence|].
  destruct l as [|y l]; [done|]. destruct (x =? y); [|done]. intros Hs. simpl.
  by rewrite (IH l Hs).
Qed.

(** Text that starts and ends with bytes no space begins or ends with is left
    alone. *)
Definition trim_stable (l : list Z) : bool :=
  match strip_one space_runes l, strip_one (reverse <$> space_runes) (reverse l) with
  | None, None => true
  | _, _ => false
  end.

Lemma strip_all_stable fuel runes l : strip_one runes l = None → strip_all fuel runes l = l.
Proof. intros Hs. destruct fuel; simpl; [done|]. by rewrite Hs. Qed.

Lemma strings_TrimSpace_stable s :
  trim_stable (string_bytes s) = true → strings_TrimSpace s = s.
Proof.
  unfold trim_stable. destruct (strip_one space_runes _) eqn:H1; [done|].
  destruct (strip_one (reverse <$> space_runes) _) eqn:H2; [done|]. intros _.
  unfold strings_TrimSpace, trim_bytes. rewrite !strip_all_stable by (by rewrite ?strip_all_stable).
  rewrite reverse_involutive. unfold string_bytes. rewrite <-list_fmap_compose.
  rewrite (list_fmap_ext _ id); [|intros; apply of_byte_of].
  rewrite list_fmap_id. apply String.string_of_list_ascii_of_string.
Qed.

(** A byte no space starts or ends with. *)
Definition not_space_edge (runes : list (list Z)) (b : Z) : bool :=
  forallb (λ r, match r with x :: _ => negb (x =? b) | [] => false end) runes.

Lemma strip_one_edge runes b l :
  not_space_edge runes b = true → strip_one runes (b :: l) = None.
Proof.
  unfold strip_one. induction runes as [|r runes IH]; simpl; [done|].
  intros [Hr Hrs]%andb_prop. rewrite (IH Hrs).
  destruct r as [|x r]; [done|]. simpl. by destruct (x =? b).
Qed.
