(* ===== verification/GoBytes.v ===== *)
(** * GoBytes: byte strings, [math/big] and [encoding/binary]

    Big-endian and little-endian encodings, minimal encodings of natural
    numbers and their uniqueness, hexadecimal text. *)
From stdpp Require Import base tactics list strings numbers.
From Stdlib Require Import ZArith Lia Ascii.
From S2P Require Import Prelude.
From S2P Require Import GoLang.
From S2P Require Import GoText.

#[local] Open Scope string_scope.
#[local] Open Scope list_scope.
#[local] Open Scope Z_scope.

Definition is_byte (b : Z) : Prop := 0 ≤ b < 256.

(** ** Positional encodings *)

(** [n] bytes of [z], most significant first. *)
Fixpoint be_bytes (n : nat) (z : Z) : list Z :=
  match n with
  | O => []
  | S n => be_bytes n (z / 256) ++ [z mod 256]
  end.

Definition le_bytes (n : nat) (z : Z) : list Z := reverse (be_bytes n z).

(** [big.Int.SetBytes]. *)
Definition be_value (l : list Z) : Z := foldl (λ acc b, 256 * acc + b) 0 l.

Definition le_value (l : list Z) : Z := be_value (reverse l).

Fixpoint strip_zeros (l : list Z) : list Z :=
  match l with
  | [] => []
  | b :: l' => if b =? 0 then strip_zeros l' else l
  end.

(** The number of bytes of [|z|]. *)
Definition byte_width (z : Z) : nat :=
  if z =? 0 then 0%nat else Z.to_nat (Z.log2 (Z.abs z) / 8 + 1).

(** [big.Int.Bytes]: the absolute value, without leading zeros. *)
Definition big_Bytes (z : Z) : list Z := be_bytes (byte_width z) (Z.abs z).

(** [copy(out[from:], src)] into a zeroed array of [n] bytes from its start. *)
Definition copy_into (n : nat) (src : list Z) : list Z :=
  take n (src ++ replicate n 0).

Lemma be_bytes_length n z : length (be_bytes n z) = n.
Proof.
  revert z. induction n as [|n IH]; intros z; simpl; [done|].
  rewrite length_app, IH. simpl. lia.
Qed.

Lemma le_bytes_length n z : length (le_bytes n z) = n.
Proof. unfold le_bytes. by rewrite length_reverse, be_bytes_length. Qed.

Lemma be_bytes_range n z : Forall is_byte (be_bytes n z).
Proof.
  revert z. induction n as [|n IH]; intros z; simpl; [constructor|].
  apply Forall_app. split; [apply IH|]. repeat constructor; apply Z.mod_pos_bound; lia.
Qed.

Lemma be_value_snoc l b : be_value (l ++ [b]) = 256 * be_value l + b.
Proof. unfold be_value. by rewrite foldl_app. Qed.

Lemma be_value_bytes n z : be_value (be_bytes n z) = z mod 256 ^ Z.of_nat n.
Proof.
  revert z. induction n as [|n IH]; intros z.
  - simpl. by rewrite Z.mod_1_r.
  - cbn [be_bytes]. rewrite be_value_snoc, IH, Nat2Z.inj_succ, Z.pow_succ_r by lia.
    rewrite Z.rem_mul_r by lia. lia.
Qed.

Lemma be_value_bound l :
  Forall is_byte l → 0 ≤ be_value l < 256 ^ Z.of_nat (length l).
Proof.
  induction l as [|b l IH] using rev_ind; intros Hl; [by vm_compute|].
  apply Forall_app in Hl as [Hl [Hb _]%Forall_cons_1].
  specialize (IH Hl). unfold is_byte in Hb. rewrite be_value_snoc, length_app, Nat.add_1_r.
  rewrite Nat2Z.inj_succ, Z.pow_succ_r by lia. lia.
Qed.

(** Reading [n] bytes back. *)
Lemma be_bytes_value l : Forall is_byte l → be_bytes (length l) (be_value l) = l.
Proof.
  induction l as [|b l IH] using rev_ind; intros Hl; [done|].
  apply Forall_app in Hl as [Hl [Hb _]%Forall_cons_1]. unfold is_byte in Hb.
  rewrite length_app, Nat.add_1_r. cbn [be_bytes]. rewrite be_value_snoc.
  rewrite Z.mul_comm, Z.div_add_l, (Z.div_small b), Z.add_0_r by lia.
  rewrite IH by done. rewrite Z.add_comm, Z.mod_add, Z.mod_small by lia. done.
Qed.

Lemma le_value_bytes n z : le_value (le_bytes n z) = z mod 256 ^ Z.of_nat n.
Proof. unfold le_value, le_bytes. by rewrite reverse_involutive, be_value_bytes. Qed.

(** ** Minimal encodings *)
Definition canonical (l : list Z) : Prop :=
  Forall is_byte l ∧ match l with [] => True | b :: _ => b ≠ 0 end.

Lemma be_value_zeros n : be_value (replicate n 0) = 0.
Proof.
  induction n as [|n IH]; [done|].
  rewrite replicate_S_end, be_value_snoc. lia.
Qed.

Lemma be_value_zero_cons l : be_value (0 :: l) = be_value l.
Proof. done. Qed.

Lemma be_value_app l1 l2 :
  be_value (l1 ++ l2) = be_value l1 * 256 ^ Z.of_nat (length l2) + be_value l2.
Proof.
  induction l2 as [|b l IH] using rev_ind.
  - rewrite app_nil_r. simpl. unfold be_value at 3. simpl. lia.
  - rewrite app_assoc, !be_value_snoc, IH, length_app, Nat.add_1_r, Nat2Z.inj_succ,
      Z.pow_succ_r by lia. lia.
Qed.

Lemma canonical_lower b l :
  canonical (b :: l) → 256 ^ Z.of_nat (length l) ≤ be_value (b :: l).
Proof.
  intros [[Hb Hl]%Forall_cons_1 Hne]. change (b :: l) with ([b] ++ l). unfold is_byte in Hb.
  rewrite be_value_app. pose proof (be_value_bound l Hl).
  change (be_value [b]) with (256 * 0 + b). nia.
Qed.

(** A number has one minimal encoding. *)
Lemma canonical_unique l1 l2 :
  canonical l1 → canonical l2 → be_value l1 = be_value l2 → l1 = l2.
Proof.
  intros H1 H2 Heq.
  assert (length l1 = length l2) as Hlen.
  { assert (∀ a b, canonical a → canonical b → be_value a = be_value b →
      (length a ≤ length b)%nat) as Hle.
    { intros a b Ha Hb Hab. destruct a as [|x a]; [simpl; lia|].
      pose proof (canonical_lower _ _ Ha) as Hlow.
      pose proof (be_value_bound b (proj1 Hb)) as Hup. rewrite Hab in Hlow. simpl.
      assert (256 ^ Z.of_nat (length a) < 256 ^ Z.of_nat (length b)) as Hlt by lia.
      apply Z.pow_lt_mono_r_iff in Hlt; lia. }
    pose proof (Hle l1 l2 H1 H2 Heq). pose proof (Hle l2 l1 H2 H1 (eq_sym Heq)). lia. }
  rewrite <-(be_bytes_value l1), <-(be_bytes_value l2) by (apply H1 || apply H2).
  by rewrite Hlen, Heq.
Qed.

Lemma strip_zeros_canonical l : Forall is_byte l → canonical (strip_zeros l).
Proof.
  induction 1 as [|b l Hb Hl IH]; simpl; [split; [constructor|done]|].
  destruct (Z.eqb_spec b 0); [done|]. split; [by constructor|done].
Qed.

Lemma strip_zeros_value l : be_value (strip_zeros l) = be_value l.
Proof.
  induction l as [|b l IH]; simpl; [done|].
  destruct (Z.eqb_spec b 0) as [->|]; [by rewrite be_value_zero_cons|done].
Qed.

Lemma strip_zeros_length l : (length (strip_zeros l) ≤ length l)%nat.
Proof. induction l as [|b l IH]; simpl; [lia|]. destruct (b =? 0); simpl; lia. Qed.

Lemma byte_width_bounds z :
  z ≠ 0 → 256 ^ (Z.of_nat (byte_width z) - 1) ≤ Z.abs z < 256 ^ Z.of_nat (byte_width z) ∧
    (0 < byte_width z)%nat.
Proof.
  intros Hz. unfold byte_width. destruct (Z.eqb_spec z 0); [done|].
  pose proof (Z.log2_spec (Z.abs z) ltac:(lia)) as [Hlo Hhi].
  pose proof (Z.log2_nonneg (Z.abs z)) as H0.
  pose proof (Z.div_mod (Z.log2 (Z.abs z)) 8 ltac:(lia)) as Hdm.
  pose proof (Z.mod_pos_bound (Z.log2 (Z.abs z)) 8 ltac:(lia)) as Hmb.
  pose proof (Z.div_pos (Z.log2 (Z.abs z)) 8 ltac:(lia) ltac:(lia)) as Hq.
  rewrite Z2Nat.id by lia. change 256 with (2 ^ 8). rewrite <-!Z.pow_mul_r by lia.
  split_and!; [|..|lia].
  - etrans; [|exact Hlo]. apply Z.pow_le_mono_r; lia.
  - eapply Z.lt_le_trans; [exact Hhi|]. apply Z.pow_le_mono_r; lia.
Qed.

Lemma big_Bytes_value z : be_value (big_Bytes z) = Z.abs z.
Proof.
  unfold big_Bytes. rewrite be_value_bytes. destruct (decide (z = 0)) as [->|Hz]; [done|].
  destruct (byte_width_bounds z Hz) as [? _]. apply Z.mod_small. lia.
Qed.

Lemma big_Bytes_canonical z : canonical (big_Bytes z).
Proof.
  split; [apply be_bytes_range|]. pose proof (big_Bytes_value z) as Hv.
  destruct (big_Bytes z) as [|b l] eqn:Hb; [done|]. intros ->.
  destruct (decide (z = 0)) as [->|Hz]; [done|].
  destruct (byte_width_bounds z Hz) as [[Hlo _] Hw].
  pose proof (be_bytes_length (byte_width z) (Z.abs z)) as Hlen.
  fold (big_Bytes z) in Hlen. rewrite Hb in Hlen. simpl in Hlen.
  pose proof (be_bytes_range (byte_width z) (Z.abs z)) as Hr.
  fold (big_Bytes z) in Hr. rewrite Hb in Hr. apply Forall_cons_1 in Hr as [_ Hr].
  rewrite be_value_zero_cons in Hv. pose proof (be_value_bound l Hr).
  replace (Z.of_nat (byte_width z) - 1) with (Z.of_nat (length l)) in Hlo by lia. lia.
Qed.

Lemma big_Bytes_unique l : canonical l → big_Bytes (be_value l) = l.
Proof.
  intros Hl. apply canonical_unique; [apply big_Bytes_canonical|done|].
  rewrite big_Bytes_value. pose proof (be_value_bound l (proj1 Hl)). lia.
Qed.

Lemma big_Bytes_length z n :
  Z.abs z < 256 ^ Z.of_nat n → (length (big_Bytes z) ≤ n)%nat.
Proof.
  intros Hz. unfold big_Bytes. rewrite be_bytes_length.
  destruct (decide (z = 0)) as [->|Hne]; [change (0 ≤ n)%nat; lia|].
  destruct (byte_width_bounds z Hne) as [[Hlo _] Hw].
  assert (256 ^ (Z.of_nat (byte_width z) - 1) < 256 ^ Z.of_nat n) as Hlt by lia.
  apply Z.pow_lt_mono_r_iff in Hlt; lia.
Qed.

(** ** Hexadecimal text *)
Definition hex_digit (d : Z) : ascii :=
  of_byte (if d <? 10 then 48 + d else 87 + d).

(** [hex.EncodeToString]. *)
Fixpoint hex_EncodeToString (l : list Z) : string :=
  match l with
  | [] => ""
  | b :: l => String (hex_digit (b / 16)) (String (hex_digit (b mod 16)) (hex_EncodeToString l))
  end.

Lemma hex_EncodeToString_length l :
  String.length (hex_EncodeToString l) = (2 * length l)%nat.
Proof. induction l as [|b l IH]; simpl; [done|]. rewrite IH. lia. Qed.
