(* ===== verification/Crypto.v ===== *)
(** * Crypto: the cryptographic libraries the service calls

    Hash functions, base58, HD keys and the [btcd] packages are not part of
    the sources.  They are parameters here, with the few documented facts the
    service relies on; [ref_crypto] is a toy instance that satisfies them. *)
From stdpp Require Import base tactics list strings numbers pretty.
From Stdlib Require Import ZArith Lia Ascii.
From S2P Require Import Prelude.
From S2P Require Import GoLang.
From S2P Require Import GoText.
From S2P Require Import GoBytes.

#[local] Open Scope string_scope.
#[local] Open Scope list_scope.
#[local] Open Scope Z_scope.

(** The parts of [wire.MsgTx] the builder fills in. *)
Record OutPoint : Type := MkOutPoint { op_Hash : list Z; op_Index : Z }.
Record TxIn : Type := MkTxIn {
  ti_PreviousOutPoint : OutPoint;
  ti_Witness : list (list Z);
  ti_Sequence : Z
}.
Record TxOut : Type := MkTxOut { to_Value : Z; to_PkScript : list Z }.
Record MsgTx : Type := MkMsgTx {
  mt_Version : Z;
  mt_TxIn : list TxIn;
  mt_TxOut : list TxOut
}.

Class CryptoLib : Type := {
  (** Hashes. *)
  Keccak256 : list Z → list Z;
  Sha256 : list Z → list Z;
  Hash160 : list Z → list Z;
  Keccak256_bytes l : length (Keccak256 l) = 32%nat ∧ Forall is_byte (Keccak256 l);
  Sha256_bytes l : length (Sha256 l) = 32%nat ∧ Forall is_byte (Sha256 l);
  Hash160_bytes l : length (Hash160 l) = 20%nat ∧ Forall is_byte (Hash160 l);
  (** [btcutil/base58]. *)
  base58_Encode : list Z → string;
  base58_Decode : string → list Z;
  base58_roundtrip l : Forall is_byte l → base58_Decode (base58_Encode l) = l;
  base58_Decode_bytes s : Forall is_byte (base58_Decode s);
  (** Each leading [1] is a zero byte. *)
  base58_Decode_ones :
    base58_Decode "11111111111111111111111111111111" = replicate 32 0;
  (** [hdkeychain] and [btcec]. *)
  HDKey : Type;
  PublicKey : Type;
  NewKeyFromString : string → result HDKey;
  Derive : HDKey → Z → result HDKey;
  ECPubKey : HDKey → result PublicKey;
  SerializeCompressed : PublicKey → list Z;
  ParsePubKey : list Z → result PublicKey;
  PublicKey_X : PublicKey → Z;
  PublicKey_Y : PublicKey → Z;
  SerializeCompressed_bytes p :
    length (SerializeCompressed p) = 33%nat ∧ Forall is_byte (SerializeCompressed p);
  ParsePubKey_Serialize p : ParsePubKey (SerializeCompressed p) = Ok p;
  PublicKey_coords p : 0 ≤ PublicKey_X p < 2 ^ 256 ∧ 0 ≤ PublicKey_Y p < 2 ^ 256;
  (** [bech32]. *)
  ConvertBits : list Z → Z → Z → bool → result (list Z);
  bech32_Encode : string → list Z → result string;
  (** Addresses, scripts and transactions of [btcd], on the main network. *)
  BTCAddress : Type;
  DecodeAddress : string → result BTCAddress;
  NewAddressWitnessPubKeyHash : list Z → result BTCAddress;
  PayToAddrScript : BTCAddress → result (list Z);
  (** The script of a witness-key-hash address: version 0 and the 20 bytes. *)
  WitnessPubKeyHash_script h : length h = 20%nat →
    ∃ a, NewAddressWitnessPubKeyHash h = Ok a ∧ PayToAddrScript a = Ok (0 :: 20 :: h);
  NewHashFromStr : string → result (list Z);
  CalcWitnessSigHash : list Z → MsgTx → nat → Z → result (list Z);
  MsgTx_Serialize : MsgTx → result (list Z)
}.

(** ** A toy instance *)
Definition toy_hash (n : nat) (l : list Z) : list Z := be_bytes n (be_value l + 1).

Definition toy_base58_Encode (l : list Z) : string :=
  String "b" (String.string_of_list_ascii (of_byte <$> l)).

Definition toy_base58_Decode (s : string) : list Z :=
  if bool_decide (s = "11111111111111111111111111111111") then replicate 32 0
  else match s with
       | String _ s => string_bytes s
       | EmptyString => []
       end.

Lemma toy_base58_roundtrip l :
  Forall is_byte l → toy_base58_Decode (toy_base58_Encode l) = l.
Proof.
  intros Hl. unfold toy_base58_Decode, toy_base58_Encode, string_bytes.
  rewrite bool_decide_false by done.
  rewrite String.list_ascii_of_string_of_list_ascii, <-list_fmap_compose.
  induction Hl as [|b l Hb Hl IH]; csimpl; [done|]. rewrite IH. f_equal.
  by apply byte_of_of.
Qed.

Lemma string_bytes_range s : Forall is_byte (string_bytes s).
Proof. apply Forall_fmap, Forall_true. intros c. apply byte_of_range. Qed.

Definition toy_key (b : bool) : list Z := (if b then 3 else 2) :: replicate 32 1.

Definition toy_ParsePubKey (l : list Z) : result bool :=
  if bool_decide (l = toy_key true) then Ok true
  else if bool_decide (l = toy_key false) then Ok false
  else Err (ErrNew "invalid public key").

#[local] Obligation Tactic := idtac.

#[program] Definition ref_crypto : CryptoLib := {|
  Keccak256 := toy_hash 32;
  Sha256 := toy_hash 32;
  Hash160 := toy_hash 20;
  base58_Encode := toy_base58_Encode;
  base58_Decode := toy_base58_Decode;
  HDKey := string;
  PublicKey := bool;
  NewKeyFromString := λ s, Ok s;
  Derive := λ k i, Ok (k +:+ "/" +:+ pretty i);
  ECPubKey := λ k, Ok (Nat.even (String.length k));
  SerializeCompressed := toy_key;
  ParsePubKey := toy_ParsePubKey;
  PublicKey_X := λ b, if b then 2 ^ 255 else 1;
  PublicKey_Y := λ b, 2 ^ 255 + (if b then 3 else 2);
  ConvertBits := λ l _ _ _, Ok l;
  bech32_Encode := λ hrp l, Ok (hrp +:+ "1" +:+ hex_EncodeToString l);
  BTCAddress := list Z;
  DecodeAddress := λ s,
    if bool_decide (s = "") then Err (ErrNew "empty") else Ok (string_bytes s);
  NewAddressWitnessPubKeyHash := λ l, Ok l;
  PayToAddrScript := λ l, Ok (0 :: 20 :: l);
  NewHashFromStr := λ s, Ok (toy_hash 32 (string_bytes s));
  CalcWitnessSigHash := λ script tx i amount, Ok (toy_hash 32 [Z.of_nat i; amount]);
  MsgTx_Serialize := λ tx, Ok (concat (concat (ti_Witness <$> mt_TxIn tx)))
|}.
Next Obligation. intros l. split; [apply be_bytes_length|apply be_bytes_range]. Qed.
Next Obligation. intros l. split; [apply be_bytes_length|apply be_bytes_range]. Qed.
Next Obligation. intros l. split; [apply be_bytes_length|apply be_bytes_range]. Qed.
Next Obligation. apply toy_base58_roundtrip. Qed.
Next Obligation.
  intros s. unfold toy_base58_Decode. case_bool_decide.
  - apply Forall_replicate. unfold is_byte. lia.
  - destruct s; [constructor|apply string_bytes_range].
Qed.
Next Obligation. done. Qed.
Next Obligation.
  intros []; (split; [done|]); apply Forall_forall; vm_compute; intros x Hx;
    repeat (apply elem_of_cons in Hx as [->|Hx]; [by split|]); by apply elem_of_nil in Hx.
Qed.
Next Obligation. by intros []. Qed.
Next Obligation. intros []; vm_compute; intuition discriminate. Qed.
Next Obligation. intros h _. by exists h. Qed.
