(* ===== verification/Rlp.v ===== *)
(** * Rlp: the RLP encoder of [internal/withdrawal/txbuilder.go]

    The encoder as written, a reference decoder that accepts canonical RLP
    only, and the round trip between the two. *)
From stdpp Require Import base tactics list numbers.
From Stdlib Require Import ZArith Lia.
From S2P Require Import Prelude.
From S2P Require Import GoLang.
From S2P Require Import GoBytes.

#[local] Open Scope list_scope.
#[local] Open Scope Z_scope.

(** ** The encoder *)

(** [bigUint]: eight big-endian bytes from the first one that is not zero. *)
Fixpoint from_first_nonzero (b : list Z) : option (list Z) :=
  match b with
  | [] => None
  | c :: b' => if c =? 0 then from_first_nonzero b' else Some b
  end.

Definition bigUint (n : Z) : list Z :=
  if n =? 0 then []
  else let b := be_bytes 8 n in
       match from_first_nonzero b with
       | Some b' => b'
       | None => drop 7 b
       end.

Definition stripZero (b : list Z) : list Z :=
  if bool_decide (length b = 0%nat) then [] else b.

(** [byte(n) + offset] wraps at 256. *)
Definition byte_add (a b : Z) : Z := (a + b) mod 256.

Definition rlpEncodeLenPrefix (n offset longOffset : Z) : list Z :=
  if n <=? 55 then [byte_add (n mod 256) offset]
  else let lenBytes := bigUint (uint64 n) in
       byte_add longOffset (Z.of_nat (length lenBytes) mod 256) :: lenBytes.

Definition rlpEncodeItem (b : list Z) : list Z :=
  match b with
  | [x] => if x <? 0x80 then b else rlpEncodeLenPrefix 1 0x80 0xb7 ++ b
  | _ => rlpEncodeLenPrefix (Z.of_nat (length b)) 0x80 0xb7 ++ b
  end.

Definition evmEncodeList (elems : list (list Z)) : list Z :=
  let inner := concat (rlpEncodeItem <$> elems) in
  rlpEncodeLenPrefix (Z.of_nat (length inner)) 0xc0 0xf7 ++ inner.

(** ** A reference decoder *)

(** The payload length announced by a header byte relative to [offset], and
    what follows the header. *)
Definition rlp_length (offset b : Z) (rest : list Z) : option (Z * list Z) :=
  if b <=? offset + 55 then Some (b - offset, rest)
  else
    let k := Z.to_nat (b - (offset + 55)) in
    let lenBytes := take k rest in
    if bool_decide (length lenBytes = k) && negb (bool_decide (head lenBytes = Some 0)) &&
       (55 <? be_value lenBytes)
    then Some (be_value lenBytes, drop k rest)
    else None.

(** One item and the rest; a byte below 0x80 must stand for itself. *)
Definition rlp_split_item (l : list Z) : option (list Z * list Z) :=
  match l with
  | [] => None
  | b :: rest =>
      if b <? 0x80 then Some ([b], rest)
      else if b <=? 0xbf then
        '(n, rest) ← rlp_length 0x80 b rest;
        let e := take (Z.to_nat n) rest in
        if bool_decide (length e = Z.to_nat n) &&
           negb (match e with [x] => x <? 0x80 | _ => false end)
        then Some (e, drop (Z.to_nat n) rest)
        else None
      else None
  end.

(** Every item has at least one byte, so the length is enough fuel. *)
Fixpoint rlp_items (fuel : nat) (l : list Z) : option (list (list Z)) :=
  match l with
  | [] => Some []
  | _ =>
      match fuel with
      | O => None
      | S fuel =>
          '(e, rest) ← rlp_split_item l;
          es ← rlp_items fuel rest;
          Some (e :: es)
      end
  end.

Definition rlp_decode_list (l : list Z) : option (list (list Z)) :=
  match l with
  | [] => None
  | b :: rest =>
      if b <? 0xc0 then None
      else
        '(n, inner) ← rlp_length 0xc0 b rest;
        if Z.of_nat (length inner) =? n then rlp_items (length inner) inner else None
  end.

(** ** [bigUint] is the minimal encoding *)
Lemma from_first_nonzero_strip b :
  from_first_nonzero b = match strip_zeros b with [] => None | l => Some l end.
Proof.
  induction b as [|c b IH]; simpl; [done|]. by destruct (c =? 0).
Qed.

Lemma bigUint_Bytes n : 0 ≤ n < 2 ^ 64 → bigUint n = big_Bytes n.
Proof.
  intros Hn. unfold bigUint. destruct (Z.eqb_spec n 0) as [->|Hz]; [done|].
  rewrite from_first_nonzero_strip.
  assert (be_value (strip_zeros (be_bytes 8 n)) = n) as Hv.
  { rewrite strip_zeros_value, be_value_bytes, Z.mod_small; [done|].
    change (256 ^ Z.of_nat 8) with (2 ^ 64). lia. }
  destruct (strip_zeros (be_bytes 8 n)) as [|c l] eqn:Hs; [by subst|].
  apply canonical_unique; [rewrite <-Hs; apply strip_zeros_canonical, be_bytes_range
    |apply big_Bytes_canonical|].
  rewrite Hv, big_Bytes_value. lia.
Qed.

Lemma big_Bytes_uint64_length n : 0 < n < 2 ^ 64 → (1 ≤ length (big_Bytes n) ≤ 8)%nat.
Proof.
  intros Hn. split; [|apply big_Bytes_length; change (256 ^ Z.of_nat 8) with (2 ^ 64); lia].
  pose proof (big_Bytes_value n) as Hv. destruct (big_Bytes n); simpl; [|lia].
  unfold be_value in Hv. simpl in Hv. lia.
Qed.

(** ** Round trip *)

(** The header of a payload of [n] bytes announces [n]. *)
Lemma rlp_length_prefix n offset rest :
  (offset = 0x80 ∨ offset = 0xc0) → 0 ≤ n < 2 ^ 63 →
  ∃ b hdr, rlpEncodeLenPrefix n offset (offset + 55) ++ rest = b :: hdr ++ rest ∧
    offset ≤ b < offset + 64 ∧ rlp_length offset b (hdr ++ rest) = Some (n, rest).
Proof.
  intros Ho Hn. unfold rlpEncodeLenPrefix. destruct (Z.leb_spec n 55) as [Hs|Hl].
  - exists (n + offset), []. unfold byte_add. rewrite (Z.mod_small n) by lia.
    rewrite Z.mod_small by lia. split_and!; [done|lia|lia|].
    unfold rlp_length. rewrite (proj2 (Z.leb_le _ _)) by lia. simpl. do 2 f_equal. lia.
  - unfold uint64. rewrite (Z.mod_small n) by lia. rewrite bigUint_Bytes by lia.
    pose proof (big_Bytes_uint64_length n ltac:(lia)) as Hlen.
    exists (offset + 55 + Z.of_nat (length (big_Bytes n))), (big_Bytes n).
    unfold byte_add. rewrite (Z.mod_small (Z.of_nat _)), Z.mod_small by lia.
    split_and!; [done|lia|lia|]. unfold rlp_length.
    rewrite (proj2 (Z.leb_gt _ _)) by lia.
    replace (Z.to_nat _) with (length (big_Bytes n)) by lia.
    rewrite take_app_length, drop_app_length, big_Bytes_value, bool_decide_true by done.
    destruct (big_Bytes_canonical n) as [_ Hh].
    rewrite bool_decide_false by (destruct (big_Bytes n); simpl in *; congruence).
    rewrite (proj2 (Z.ltb_lt _ _)) by lia. simpl. by rewrite Z.abs_eq by lia.
Qed.

Definition self_encoding (e : list Z) : bool :=
  match e with [x] => x <? 0x80 | _ => false end.

Lemma rlpEncodeItem_cases e :
  rlpEncodeItem e =
  if self_encoding e then e else rlpEncodeLenPrefix (Z.of_nat (length e)) 0x80 0xb7 ++ e.
Proof. destruct e as [|x [|y e]]; simpl; [done| |done]. by destruct (x <? 128). Qed.

Lemma rlp_split_item_encode e rest :
  Forall is_byte e → Z.of_nat (length e) < 2 ^ 63 →
  rlp_split_item (rlpEncodeItem e ++ rest) = Some (e, rest).
Proof.
  intros He Hlen. rewrite rlpEncodeItem_cases. destruct (self_encoding e) eqn:Hs.
  - destruct e as [|x [|y e]]; try done. simpl in *. by rewrite Hs.
  - rewrite <-app_assoc.
    destruct (rlp_length_prefix (Z.of_nat (length e)) 0x80 (e ++ rest)) as
      (b & hdr & Hp & Hb & Hl); [by left|lia|].
    change (0x80 + 55) with 0xb7 in Hp. rewrite Hp. unfold rlp_split_item.
    rewrite (proj2 (Z.ltb_ge _ _)), (proj2 (Z.leb_le _ _)), Hl by lia. simpl.
    rewrite Nat2Z.id, take_app_length, drop_app_length, bool_decide_true by done.
    fold (self_encoding e). by rewrite Hs.
Qed.

Lemma rlpEncodeItem_nonempty e : rlpEncodeItem e ≠ [].
Proof.
  rewrite rlpEncodeItem_cases. destruct (self_encoding e) eqn:Hs; [by destruct e|].
  unfold rlpEncodeLenPrefix. by destruct (_ <=? _).
Qed.

Lemma rlp_items_encode elems fuel :
  Forall (Forall is_byte) elems →
  Forall (λ e, Z.of_nat (length e) < 2 ^ 63) elems →
  (length (concat (rlpEncodeItem <$> elems)) ≤ fuel)%nat →
  rlp_items fuel (concat (rlpEncodeItem <$> elems)) = Some elems.
Proof.
  intros Hb Hl. revert fuel Hl. induction Hb as [|e elems He Hb IH]; intros fuel Hl Hf.
  - by destruct fuel.
  - apply Forall_cons_1 in Hl as [Hle Hl]. csimpl in *. rewrite length_app in Hf.
    pose proof (rlp_split_item_encode e (concat (rlpEncodeItem <$> elems)) He Hle) as Hs.
    pose proof (rlpEncodeItem_nonempty e) as Hne.
    destruct (rlpEncodeItem e) as [|b l]; [done|]. simpl in Hf. cbn [app] in Hs.
    destruct fuel as [|fuel]; [lia|]. cbn [rlp_items app]. rewrite Hs. simpl.
    by rewrite IH by (done || lia).
Qed.

Lemma evmEncodeList_roundtrip elems :
  Forall (Forall is_byte) elems →
  Z.of_nat (length (concat (rlpEncodeItem <$> elems))) < 2 ^ 63 →
  rlp_decode_list (evmEncodeList elems) = Some elems.
Proof.
  intros Hb Hlen. unfold evmEncodeList.
  assert (Forall (λ e, Z.of_nat (length e) < 2 ^ 63) elems) as Hl.
  { apply list.Forall_forall. intros e He. eapply Z.le_lt_trans; [|exact Hlen].
    apply inj_le. apply list_elem_of_split in He as (l1 & l2 & ->).
    rewrite fmap_app, concat_app. csimpl. rewrite !length_app.
    rewrite (rlpEncodeItem_cases e). destruct (self_encoding e); rewrite ?length_app; lia. }
  set (inner := concat (rlpEncodeItem <$> elems)) in *.
  destruct (rlp_length_prefix (Z.of_nat (length inner)) 0xc0 inner) as
    (b & hdr & Hp & Hbd & Hn); [by right|lia|].
  change (0xc0 + 55) with 0xf7 in Hp. rewrite Hp. unfold rlp_decode_list.
  rewrite (proj2 (Z.ltb_ge _ _)), Hn by lia. simpl. rewrite Z.eqb_refl.
  by apply rlp_items_encode.
Qed.

(** Encodings of different lists differ. *)
Lemma evmEncodeList_inj e1 e2 :
  Forall (Forall is_byte) e1 → Forall (Forall is_byte) e2 →
  Z.of_nat (length (concat (rlpEncodeItem <$> e1))) < 2 ^ 63 →
  Z.of_nat (length (concat (rlpEncodeItem <$> e2))) < 2 ^ 63 →
  evmEncodeList e1 = evmEncodeList e2 → e1 = e2.
Proof.
  intros H1 H2 L1 L2 Heq. pose proof (evmEncodeList_roundtrip e1 H1 L1) as Hr.
  rewrite Heq, evmEncodeList_roundtrip in Hr by done. by injection Hr.
Qed.

(** Sizes: a header is at most nine bytes. *)
Lemma rlpEncodeItem_length e :
  Z.of_nat (length e) < 2 ^ 63 → (length (rlpEncodeItem e) ≤ length e + 9)%nat.
Proof.
  intros Hl. rewrite rlpEncodeItem_cases. destruct (self_encoding e); [lia|].
  rewrite length_app. unfold rlpEncodeLenPrefix. destruct (Z.leb_spec (Z.of_nat (length e)) 55);
    simpl; [lia|]. unfold uint64. rewrite Z.mod_small, bigUint_Bytes by lia.
  pose proof (big_Bytes_uint64_length (Z.of_nat (length e)) ltac:(lia)). lia.
Qed.
