(* ===== verification/Domain.v ===== *)
(** * Domain: the records of [internal/domain] and the rows of
    [internal/storage/store.go]

    The chain, tier, state and rotation enumerations of the sources are Go
    string types whose values also arrive from the REST and gRPC layers
    unchecked, so they stay strings here, with the constants named as in the
    source. *)
From stdpp Require Import base tactics list gmap strings.
From Stdlib Require Import ZArith.
From S2P Require Import Prelude.
From S2P Require Import GoLang.

#[local] Open Scope string_scope.
#[local] Open Scope list_scope.
#[local] Open Scope Z_scope.

(** Boolean equality of strings, the Go [==]. *)
Notation "s =s t" := (bool_decide (s = t :> string)) (at level 70) : bool_scope.

(** A byte is its value. *)
Abbreviation byte := Z (only parsing).

(** ** Chains *)
Definition ChainEthereum : string := "ethereum".
Definition ChainPolygon : string := "polygon".
Definition ChainArbitrum : string := "arbitrum".
Definition ChainBase : string := "base".
Definition ChainOptimism : string := "optimism".
Definition ChainSolana : string := "solana".
Definition ChainBitcoin : string := "bitcoin".

Definition one_of (l : list string) (s : string) : bool := bool_decide (s ∈ l).

Definition IsEVM (c : string) : bool :=
  one_of [ChainEthereum; ChainPolygon; ChainArbitrum; ChainBase; ChainOptimism] c.

Definition ValidChain (c : string) : bool :=
  one_of [ChainEthereum; ChainPolygon; ChainArbitrum; ChainBase; ChainOptimism;
          ChainSolana; ChainBitcoin] c.

(** ** Wallet tiers and states *)
Definition WalletTypeHot : string := "HOT".
Definition WalletTypeWarm : string := "WARM".
Definition WalletTypeCold : string := "COLD".

Definition ValidWalletType (t : string) : bool :=
  one_of [WalletTypeHot; WalletTypeWarm; WalletTypeCold] t.

Definition WalletStateActive : string := "ACTIVE".
Definition WalletStatePaused : string := "PAUSED".
Definition WalletStateRetired : string := "RETIRED".

Definition ValidWalletState (s : string) : bool :=
  one_of [WalletStateActive; WalletStatePaused; WalletStateRetired] s.

Definition AddressStateActive : string := "ACTIVE".
Definition AddressStateDeprecated : string := "DEPRECATED".

(** ** Wallets and addresses *)
Record Wallet : Type := MkWallet {
  w_ID : uuid;
  w_Chain : string;
  w_Type : string;
  w_Label : string;
  w_State : string;
  w_KeyID : string;
  w_CustodianRef : string;
  w_RotationDays : option Z;
  w_RotationAfterReceives : option Z;
  w_CreatedAt : time;
  w_UpdatedAt : time
}.

Record Address : Type := MkAddress {
  a_ID : uuid;
  a_WalletID : uuid;
  a_Chain : string;
  a_Address : string;
  a_DerivationPath : string;
  a_Index : Z;
  a_Change : Z;
  a_State : string;
  a_ReceiveCount : Z;
  a_CreatedAt : time
}.

(** [domain.CreateRequest]. *)
Record CreateRequest : Type := MkCreateRequest {
  cr_Chain : string;
  cr_Type : string;
  cr_Label : string;
  cr_KeyID : string
}.

(** ** Storage enumerations *)
Definition WithdrawalStatePending : string := "PENDING".
Definition WithdrawalStateWhitelisted : string := "WHITELISTED".
Definition WithdrawalStateSigned : string := "SIGNED".
Definition WithdrawalStateBroadcast : string := "BROADCAST".
Definition WithdrawalStateConfirmed : string := "CONFIRMED".
Definition WithdrawalStateFailed : string := "FAILED".

Definition FundingStateRequested : string := "REQUESTED".
Definition FundingStateApproved : string := "APPROVED".
Definition FundingStateSettled : string := "SETTLED".
Definition FundingStateRejected : string := "REJECTED".

Definition RotationStateCurrent : string := "CURRENT".
Definition RotationStateCooling : string := "COOLING".
Definition RotationStateRetired : string := "RETIRED".

Definition UTXOLockStateFree : string := "FREE".
Definition UTXOLockStateLocked : string := "LOCKED".
Definition UTXOLockStateSpent : string := "SPENT".

(** ** Storage rows *)
Record Balance : Type := MkBalance {
  b_WalletID : uuid;
  b_Asset : string;
  b_Confirmed : string;
  b_Pending : string;
  b_Locked : string;
  b_LastBlockSeen : Z;
  b_UpdatedAt : time
}.

Record UTXO : Type := MkUTXO {
  u_Outpoint : string;
  u_WalletID : uuid;
  u_Value : string;
  u_ScriptType : string;
  u_Confirmations : Z;
  u_LockState : string;
  u_LockedAt : option time;
  u_SpentAt : option time;
  u_TxHash : string;
  u_UpdatedAt : time
}.

Record Nonce : Type := MkNonce {
  n_WalletID : uuid;
  n_Chain : string;
  n_PendingNonce : Z;
  n_BroadcastNonce : Z;
  n_Version : Z;
  n_UpdatedAt : time
}.

Record WithdrawalRequest : Type := MkWithdrawal {
  wr_ID : uuid;
  wr_WalletID : uuid;
  wr_ToAddress : string;
  wr_Asset : string;
  wr_Amount : string;
  wr_State : string;
  wr_PolicyDecisionID : string;
  wr_FailureReason : string;
  wr_TxHash : string;
  wr_NonceValue : option Z;
  wr_ReservedOutpoints : list string;
  wr_SignedTxBytes : list byte;
  wr_CreatedAt : time;
  wr_UpdatedAt : time
}.

Record KeyMapping : Type := MkKeyMapping {
  km_WalletID : uuid;
  km_KeyID : string;
  km_ActiveFrom : time;
  km_ActiveTo : option time;
  km_RotationState : string;
  km_CreatedAt : time
}.

Record FundingRequest : Type := MkFunding {
  fr_ID : uuid;
  fr_WalletID : uuid;
  fr_Asset : string;
  fr_Amount : string;
  fr_State : string;
  fr_TreasuryBatchID : string;
  fr_Reason : string;
  fr_CreatedAt : time;
  fr_UpdatedAt : time
}.

(** A value of a [map[string]any] audit payload. *)
Inductive any : Type :=
  | AString (s : string)
  | AInt (z : Z)
  | ABool (b : bool)
  | AUUID (u : uuid)
  | AStrings (l : list string)
  | ADuration (d : duration).     (** the text [d.String()] *)

(** The row keeps the payload before [json.Marshal] renders it to bytes. *)
Record AuditOutboxEvent : Type := MkAudit {
  ae_ID : uuid;
  ae_EventID : uuid;
  ae_WalletID : option uuid;
  ae_EventType : string;
  ae_Payload : list (string * any);
  ae_Seq : Z;
  ae_Delivered : bool;
  ae_Attempts : Z;
  ae_CreatedAt : time;
  ae_DeliveredAt : option time
}.

Record BalanceEvent : Type := MkBalanceEvent {
  be_ID : uuid;
  be_WalletID : uuid;
  be_Asset : string;
  be_BlockHeight : Z;
  be_EventID : string
}.

Lemma IsEVM_not_bitcoin : IsEVM ChainBitcoin = false.
Proof. reflexivity. Qed.

Lemma IsEVM_not_solana : IsEVM ChainSolana = false.
Proof. reflexivity. Qed.

(** The supported chains are exactly the EVM chains, Solana and Bitcoin: every
    valid chain is routed by the dispatches on [IsEVM], [ChainBitcoin] and
    [ChainSolana], and by exactly one of them. *)
Lemma ValidChain_cases c :
  ValidChain c = true ↔ IsEVM c = true ∨ c = ChainSolana ∨ c = ChainBitcoin.
Proof.
  unfold ValidChain, IsEVM, one_of. rewrite !bool_decide_eq_true, !elem_of_cons.
  rewrite elem_of_nil. tauto.
Qed.
