(* ===== verification/Json.v ===== *)
(** * Json: what the sources use of Go's [encoding/json]

    JSON values, the printer behind [json.Marshal], the parser behind
    [json.Unmarshal] and [json.Decoder.Decode], and the assignment of object
    members to struct fields.  The printer escapes as Go does (HTML characters,
    control characters, U+2028 and U+2029, invalid UTF-8); the parser keeps Go's
    nesting limit and its treatment of surrogates and invalid UTF-8.  Parsing
    what was printed gives the value back. *)
From stdpp Require Import base tactics numbers strings pretty list.
From Stdlib Require Import ZArith Lia Ascii.
From S2P Require Import Prelude.
From S2P Require Import GoLang.
From S2P Require Import GoText.
From S2P Require Import GoBytes.
From S2P Require Import Domain.

#[local] Open Scope string_scope.
#[local] Open Scope list_scope.
#[local] Open Scope Z_scope.

Inductive json : Type :=
  | JNull
  | JBool (b : bool)
  | JNum (lit : string)
  | JString (s : string)
  | JArray (l : list json)
  | JObject (l : list (string * json)).

(** ** UTF-8 *)
Definition in_range (lo hi : Z) (b : Z) : bool := (lo <=? b) && (b <=? hi).

Fixpoint str_drop (n : nat) (s : string) : string :=
  match n, s with
  | S n, String _ s => str_drop n s
  | _, _ => s
  end.

Fixpoint str_take (n : nat) (s : string) : string :=
  match n, s with
  | S n, String c s => String c (str_take n s)
  | _, _ => ""
  end.

(** [utf8.DecodeRuneInString] on a first byte of at least 0x80: the rune and its
    width, or nothing for an invalid sequence (width 1). *)
Definition utf8_DecodeRune (s : string) : option (Z * nat) :=
  match byte_of <$> String.list_ascii_of_string (str_take 4 s) with
  | b0 :: b1 :: rest =>
      if in_range 0xC2 0xDF b0 && in_range 0x80 0xBF b1 then
        Some ((b0 - 0xC0) * 64 + (b1 - 0x80), 2%nat)
      else match rest with
      | b2 :: rest =>
          let lo := if b0 =? 0xE0 then 0xA0 else 0x80 in
          let hi := if b0 =? 0xED then 0x9F else 0xBF in
          if in_range 0xE0 0xEF b0 && in_range lo hi b1 && in_range 0x80 0xBF b2 then
            Some (((b0 - 0xE0) * 64 + (b1 - 0x80)) * 64 + (b2 - 0x80), 3%nat)
          else match rest with
          | b3 :: _ =>
              let lo := if b0 =? 0xF0 then 0x90 else 0x80 in
              let hi := if b0 =? 0xF4 then 0x8F else 0xBF in
              if in_range 0xF0 0xF4 b0 && in_range lo hi b1 && in_range 0x80 0xBF b2
                 && in_range 0x80 0xBF b3 then
                Some ((((b0 - 0xF0) * 64 + (b1 - 0x80)) * 64 + (b2 - 0x80)) * 64
                  + (b3 - 0x80), 4%nat)
              else None
          | [] => None
          end
      | [] => None
      end
  | _ => None
  end.

(** [utf8.EncodeRune]. *)
Definition utf8_EncodeRune (r : Z) : string :=
  let bytes :=
    if r <? 0x80 then [r]
    else if r <? 0x800 then [0xC0 + r / 64; 0x80 + r mod 64]
    else if r <? 0x10000 then [0xE0 + r / 4096; 0x80 + r / 64 mod 64; 0x80 + r mod 64]
    else [0xF0 + r / 262144; 0x80 + r / 4096 mod 64; 0x80 + r / 64 mod 64;
          0x80 + r mod 64] in
  String.string_of_list_ascii (of_byte <$> bytes).

Definition RuneError : Z := 0xFFFD.

(** ** Printing *)
Definition dquote : ascii := "034".

(** A backslash, a [u] and four hexadecimal digits. *)
Definition u_escape (r : Z) : string :=
  String "\" (String "u" (String (hex_digit (r / 4096)) (String (hex_digit (r / 256 mod 16))
    (String (hex_digit (r / 16 mod 16)) (String (hex_digit (r mod 16)) ""))))).

Definition escaped (c : ascii) : string := String "\" (String c "").

Definition quote_char (c : ascii) : string :=
  let b := byte_of c in
  if (b =? 34) || (b =? 92) then escaped c
  else if b =? 8 then escaped "b"
  else if b =? 12 then escaped "f"
  else if b =? 10 then escaped "n"
  else if b =? 13 then escaped "r"
  else if b =? 9 then escaped "t"
  else if (b <? 32) || (b =? 60) || (b =? 62) || (b =? 38) then u_escape b
  else String c "".

Fixpoint quote_chars (fuel : nat) (s : string) : string :=
  match fuel, s with
  | S fuel, String c t =>
      if byte_of c <? 0x80 then quote_char c +:+ quote_chars fuel t
      else match utf8_DecodeRune s with
      | None => u_escape RuneError +:+ quote_chars fuel t
      | Some (r, n) =>
          (if (r =? 0x2028) || (r =? 0x2029) then u_escape r else str_take n s)
            +:+ quote_chars fuel (str_drop n s)
      end
  | _, _ => ""
  end.

(** A JSON string literal. *)
Definition json_quote (s : string) : string :=
  String dquote (quote_chars (String.length s) s +:+ String dquote "").

Fixpoint json_print (v : json) : string :=
  match v with
  | JNull => "null"
  | JBool true => "true"
  | JBool false => "false"
  | JNum lit => lit
  | JString s => json_quote s
  | JArray l => "[" +:+ String.concat "," (json_print <$> l) +:+ "]"
  | JObject l => "{" +:+ String.concat ","
      ((λ kv, json_quote kv.1 +:+ ":" +:+ json_print kv.2) <$> l) +:+ "}"
  end.

(** ** Parsing *)
Definition is_space (c : ascii) : bool :=
  let b := byte_of c in (b =? 32) || (b =? 9) || (b =? 10) || (b =? 13).

Fixpoint skip_ws (s : string) : string :=
  match s with
  | String c t => if is_space c then skip_ws t else s
  | EmptyString => s
  end.

Fixpoint eat (p s : string) : option string :=
  match p, s with
  | EmptyString, _ => Some s
  | String a p, String b s => if bool_decide (a = b) then eat p s else None
  | _, EmptyString => None
  end.

(** The longest run of digits and what follows it. *)
Fixpoint span_digits (s : string) : string * string :=
  match s with
  | String c t =>
      if is_digit c then let '(d, r) := span_digits t in (String c d, r) else ("", s)
  | EmptyString => ("", "")
  end.

(** At least one digit. *)
Definition some_digits (s : string) : option (string * string) :=
  match span_digits s with
  | (EmptyString, _) => None
  | dr => Some dr
  end.

Definition parse_int_part (s : string) : option (string * string) :=
  match eat "0" s with
  | Some t => Some ("0", t)
  | None => some_digits s
  end.

Definition parse_frac (s : string) : option (string * string) :=
  match eat "." s with
  | Some t => '(d, r) ← some_digits t; Some (String "." d, r)
  | None => Some ("", s)
  end.

Definition parse_exp (s : string) : option (string * string) :=
  match s with
  | String c t =>
      if bool_decide (c = "e"%char) || bool_decide (c = "E"%char) then
        let '(sg, u) := match eat "+" t, eat "-" t with
                        | Some u, _ => ("+", u)
                        | _, Some u => ("-", u)
                        | _, _ => ("", t)
                        end in
        '(d, r) ← some_digits u; Some (String c (sg +:+ d), r)
      else Some ("", s)
  | EmptyString => Some ("", s)
  end.

Definition parse_number (s : string) : option (string * string) :=
  let '(sg, t) := match eat "-" s with Some t => ("-", t) | None => ("", s) end in
  '(i, t) ← parse_int_part t;
  '(f, t) ← parse_frac t;
  '(e, t) ← parse_exp t;
  Some (sg +:+ i +:+ f +:+ e, t).

Definition hex_val (c : ascii) : option Z :=
  let b := byte_of c in
  if in_range 48 57 b then Some (b - 48)
  else if in_range 97 102 b then Some (b - 87)
  else if in_range 65 70 b then Some (b - 55)
  else None.

(** Four hexadecimal digits. *)
Definition get_u4 (s : string) : option (Z * string) :=
  match s with
  | String a (String b (String c (String d t))) =>
      x ← hex_val a; y ← hex_val b; z ← hex_val c; w ← hex_val d;
      Some (((x * 16 + y) * 16 + z) * 16 + w, t)
  | _ => None
  end.

(** The rune of an escape with a first unit [r], and what follows: a surrogate
    pair is combined, a lone surrogate is replaced. *)
Definition join_surrogate (r : Z) (t : string) : Z * string :=
  if in_range 0xD800 0xDFFF r then
    match u ← eat (String "\" "u") t; get_u4 u with
    | Some (r2, t2) =>
        if in_range 0xD800 0xDBFF r && in_range 0xDC00 0xDFFF r2
        then (0x10000 + (r - 0xD800) * 1024 + (r2 - 0xDC00), t2)
        else (RuneError, t)
    | None => (RuneError, t)
    end
  else (r, t).

(** The character an escape letter other than [u] stands for. *)
Definition unescape (c : ascii) : option ascii :=
  match c with
  | "034"%char | "\"%char | "/"%char => Some c
  | "b"%char => Some "008"%char
  | "f"%char => Some "012"%char
  | "n"%char => Some "010"%char
  | "r"%char => Some "013"%char
  | "t"%char => Some "009"%char
  | _ => None
  end.

(** The rest of a string literal, after the opening quote. *)
Fixpoint parse_chars (fuel : nat) (s : string) : option (string * string) :=
  match fuel with
  | O => None
  | S fuel =>
      match s with
      | EmptyString => None
      | String c t =>
          let b := byte_of c in
          if b =? 34 then Some ("", t)
          else if b =? 92 then
            match t with
            | EmptyString => None
            | String e u =>
                if bool_decide (e = "u"%char) then
                  '(r, u) ← get_u4 u;
                  let '(r, u) := join_surrogate r u in
                  '(out, rest) ← parse_chars fuel u;
                  Some (utf8_EncodeRune r +:+ out, rest)
                else
                  d ← unescape e;
                  '(out, rest) ← parse_chars fuel u; Some (String d out, rest)
            end
          else if b <? 32 then None
          else if b <? 0x80 then
            '(out, rest) ← parse_chars fuel t; Some (String c out, rest)
          else match utf8_DecodeRune s with
          | None =>
              '(out, rest) ← parse_chars fuel t;
              Some (utf8_EncodeRune RuneError +:+ out, rest)
          | Some (_, n) =>
              '(out, rest) ← parse_chars fuel (str_drop n s);
              Some (str_take n s +:+ out, rest)
          end
      end
  end.

Definition parse_string (s : string) : option (string * string) :=
  parse_chars (S (String.length s)) s.

(** The key of a member and its colon. *)
Definition parse_key (s : string) : option (string * string) :=
  t ← eat (String dquote "") (skip_ws s);
  '(k, r) ← parse_string t;
  r ← eat ":" (skip_ws r);
  Some (k, r).

(** [maxNestingDepth]. *)
Definition max_depth : Z := 10000.

Fixpoint parse_value (fuel : nat) (d : Z) (s : string) : option (json * string) :=
  match fuel with
  | O => None
  | S fuel =>
      match skip_ws s with
      | EmptyString => None
      | String c t =>
          if bool_decide (c = "{"%char) then
            if max_depth <=? d then None
            else match eat "}" (skip_ws t) with
            | Some r => Some (JObject [], r)
            | None => '(l, r) ← parse_members fuel (d + 1) t; Some (JObject l, r)
            end
          else if bool_decide (c = "["%char) then
            if max_depth <=? d then None
            else match eat "]" (skip_ws t) with
            | Some r => Some (JArray [], r)
            | None => '(l, r) ← parse_elements fuel (d + 1) t; Some (JArray l, r)
            end
          else if bool_decide (c = dquote) then
            '(out, r) ← parse_string t; Some (JString out, r)
          else if bool_decide (c = "t"%char) then
            r ← eat "rue" t; Some (JBool true, r)
          else if bool_decide (c = "f"%char) then
            r ← eat "alse" t; Some (JBool false, r)
          else if bool_decide (c = "n"%char) then r ← eat "ull" t; Some (JNull, r)
          else '(lit, r) ← parse_number (String c t); Some (JNum lit, r)
      end
  end
with parse_members (fuel : nat) (d : Z) (s : string) :
    option (list (string * json) * string) :=
  match fuel with
  | O => None
  | S fuel =>
      '(k, r) ← parse_key s;
      '(v, r) ← parse_value fuel d r;
      match eat "," (skip_ws r) with
      | Some r => '(l, r) ← parse_members fuel d r; Some ((k, v) :: l, r)
      | None => r ← eat "}" (skip_ws r); Some ([(k, v)], r)
      end
  end
with parse_elements (fuel : nat) (d : Z) (s : string) : option (list json * string) :=
  match fuel with
  | O => None
  | S fuel =>
      '(v, r) ← parse_value fuel d s;
      match eat "," (skip_ws r) with
      | Some r => '(l, r) ← parse_elements fuel d r; Some (v :: l, r)
      | None => r ← eat "]" (skip_ws r); Some ([v], r)
      end
  end.

(** A call consumes a character or moves from the elements to a value. *)
Definition parse_fuel (s : string) : nat := (2 * String.length s + 2)%nat.

Definition is_container (v : json) : bool :=
  match v with JArray _ | JObject _ => true | _ => false end.

(** [json.Unmarshal] up to the assignment: one value and nothing else. *)
Definition json_Unmarshal (s : string) : result json :=
  match parse_value (parse_fuel s) 0 s with
  | Some (v, r) =>
      if skip_ws r =s "" then Ok v else Err (ErrNew "invalid character after top-level value")
  | None => Err (ErrNew "invalid JSON")
  end.

(** [json.NewDecoder(body).Decode] up to the assignment: the first value of the
    stream.  The end of an object or array is seen without the next character. *)
Definition json_Decode (s : string) : result json :=
  match parse_value (parse_fuel s) 0 s with
  | Some (v, r) =>
      if is_container v || (r =s "") || negb (skip_ws r =s r) then Ok v
      else Err (ErrNew "invalid character after top-level value")
  | None => Err (if skip_ws s =s "" then ErrNew "EOF" else ErrNew "invalid JSON")
  end.

(** ** Parsing what was printed *)
Definition ascii_text (s : string) : bool :=
  forallb (λ c, byte_of c <? 0x80) (String.list_ascii_of_string s).

(** A text that ends a number. *)
Definition delimited (s : string) : bool :=
  match s with
  | EmptyString => true
  | String c _ => bool_decide (c ∈ [","; "]"; "}"]%char)
  end.

(** One printed character. *)
Lemma parse_quote_char c fuel t :
  (byte_of c <? 0x80) = true →
  parse_chars (S fuel) (quote_char c +:+ t) =
  ('(out, rest) ← parse_chars fuel t; Some (String c out, rest)).
Proof.
  destruct c as [[] [] [] [] [] [] [] []]; intros Hc; try discriminate Hc; reflexivity.
Qed.

Lemma parse_chars_quote s n fuel rest :
  ascii_text s = true → (String.length s ≤ n)%nat → (String.length s < fuel)%nat →
  parse_chars fuel (quote_chars n s +:+ String dquote rest) = Some (s, rest).
Proof.
  revert n fuel. induction s as [|c s IH]; intros n fuel Hs Hn Hf.
  - destruct n, fuel; simpl in *; try lia; reflexivity.
  - destruct n as [|n]; simpl in Hn; [lia|]. destruct fuel as [|fuel]; simpl in Hf; [lia|].
    unfold ascii_text in Hs. simpl in Hs. apply andb_prop in Hs as [Hc Hs].
    simpl quote_chars. rewrite Hc, string_app_assoc, parse_quote_char by done.
    by rewrite (IH n fuel) by (done || lia).
Qed.

Lemma parse_string_quote s rest :
  ascii_text s = true →
  parse_string (quote_chars (String.length s) s +:+ String dquote rest) = Some (s, rest).
Proof.
  intros Hs. unfold parse_string. apply parse_chars_quote; [done|lia|].
  rewrite string_app_length. simpl.
  enough (String.length s ≤ String.length (quote_chars (String.length s) s))%nat by lia.
  clear rest. induction s as [|c s IH]; [done|]. unfold ascii_text in Hs. simpl in Hs.
  apply andb_prop in Hs as [Hc Hs]. simpl. rewrite Hc, string_app_length.
  specialize (IH Hs). enough (1 ≤ String.length (quote_char c))%nat by lia.
  clear. destruct c as [[] [] [] [] [] [] [] []]; simpl; lia.
Qed.

(** Printed integers. *)
Lemma span_digits_app d rest :
  Forall (λ c, is_digit c = true) (String.list_ascii_of_string d) →
  (∀ c t, rest = String c t → is_digit c = false) →
  span_digits (d +:+ rest) = (d, rest).
Proof.
  intros Hd Hr. induction d as [|c d IH]; simpl in *.
  - destruct rest as [|c t]; [done|]. simpl. by rewrite (Hr c t).
  - inversion_clear Hd as [|?? Hc Hd']. by rewrite Hc, (IH Hd').
Qed.

Lemma delimited_digit rest c t : delimited rest = true → rest = String c t → is_digit c = false.
Proof.
  intros Hd ->. simpl in Hd. apply bool_decide_eq_true in Hd.
  by repeat (apply elem_of_cons in Hd as [->|Hd]; [done|]); apply elem_of_nil in Hd.
Qed.

Lemma pretty_N_nonzero (x : N) t : pretty x = String "0" t → x = 0%N.
Proof.
  unfold pretty, pretty_N. case_decide as Hx; [done|]. intros Heq. exfalso.
  assert (∀ s c t', (0 < x)%N → pretty_N_go x s = String c t' → c ≠ "0"%char) as Hgo.
  { clear. induction (N.lt_wf_0 x) as [x _ IH]; intros s c t' Hx.
    rewrite pretty_N_go_step by done. destruct (decide (x / 10 = 0)%N) as [Hd|Hd].
    - rewrite Hd, pretty_N_go_0. intros [= <- <-].
      assert (x < 10)%N by (pose proof (N.div_mod x 10 ltac:(done));
        pose proof (N.mod_lt x 10 ltac:(done)); lia).
      rewrite N.mod_small by done. intros Hc.
      destruct (pretty_digit x ltac:(done)) as [_ Hv]. rewrite Hc in Hv.
      change (byte_of "0"%char - 48) with 0 in Hv. lia.
    - apply IH; [by apply N.div_lt|by apply N.neq_0_lt_0]. }
  by eapply (Hgo "" "0"%char t); [lia|exact Heq|].
Qed.

Lemma eat_other a p c t : a ≠ c → eat (String a p) (String c t) = None.
Proof. intros Hne. simpl. by rewrite bool_decide_false. Qed.

Lemma parse_tail_delimited rest :
  delimited rest = true → parse_frac rest = Some ("", rest) ∧ parse_exp rest = Some ("", rest).
Proof.
  destruct rest as [|c t]; [done|]. simpl. intros Hd. apply bool_decide_eq_true in Hd.
  by repeat (apply elem_of_cons in Hd as [->|Hd]; [done|]); apply elem_of_nil in Hd.
Qed.

Lemma parse_int_pretty (x : N) rest :
  delimited rest = true → parse_int_part (pretty x +:+ rest) = Some (pretty x, rest).
Proof.
  intros Hr. destruct (pretty_N_first x) as (c & t & Hp & Hc). unfold parse_int_part.
  destruct (decide (c = "0"%char)) as [->|Hne].
  - rewrite (pretty_N_nonzero x t Hp). done.
  - assert (eat "0" (pretty x +:+ rest) = None) as ->
      by (rewrite Hp; apply eat_other; congruence).
    unfold some_digits. rewrite span_digits_app; [by rewrite Hp|apply pretty_N_digits|].
    intros. by eapply delimited_digit.
Qed.

Lemma parse_number_pretty (z : Z) rest :
  delimited rest = true → parse_number (pretty z +:+ rest) = Some (pretty z, rest).
Proof.
  intros Hr. destruct (parse_tail_delimited rest Hr) as [Hf He]. unfold parse_number.
  assert (∀ x : N, ('(i, t) ← parse_int_part (pretty x +:+ rest); '(f, t) ← parse_frac t;
    '(e, t) ← parse_exp t; Some (i +:+ f +:+ e, t)) = Some (pretty x, rest)) as Hx.
  { intros x. rewrite parse_int_pretty by done. simpl. rewrite Hf. simpl. rewrite He. simpl.
    by rewrite string_app_nil_r. }
  destruct z as [|p|p].
  - apply (Hx 0%N).
  - change (pretty (Z.pos p)) with (pretty (N.pos p)). rewrite <- Hx.
    destruct (pretty_N_first (N.pos p)) as (c & t & Hp & Hc).
    assert (eat "-" (pretty (N.pos p) +:+ rest) = None) as ->
      by (rewrite Hp; apply eat_other; by intros <-).
    done.
  - change (pretty (Z.neg p)) with (String "-" (pretty (N.pos p))).
    simpl (eat "-" _). cbn beta iota. specialize (Hx (N.pos p)). revert Hx.
    destruct (parse_int_part _) as [[i t]|]; [|done]. simpl.
    destruct (parse_frac t) as [[f t2]|]; [|done]. simpl.
    destruct (parse_exp t2) as [[e t3]|]; [|done]. simpl.
    by intros [= <- <-].
Qed.

(** The values the service prints: integers, and text in ASCII. *)
Fixpoint printable (v : json) : bool :=
  match v with
  | JNull | JBool _ => true
  | JNum lit => match big_SetString lit with Some z => lit =s pretty z | None => false end
  | JString s => ascii_text s
  | JArray l => forallb printable l
  | JObject l => forallb (λ kv, ascii_text kv.1 && printable kv.2) l
  end.

Fixpoint json_depth (v : json) : Z :=
  match v with
  | JArray l => 1 + foldr (λ x d, Z.max (json_depth x) d) 0 l
  | JObject l => 1 + foldr (λ kv d, Z.max (json_depth kv.2) d) 0 l
  | _ => 0
  end.

(** Fuel that is enough to parse the printed value. *)
Fixpoint json_need (v : json) : nat :=
  match v with
  | JArray l => S (foldr (λ x n, S (json_need x + n)) 0%nat l)
  | JObject l => S (foldr (λ kv n, S (json_need kv.2 + n)) 0%nat l)
  | _ => 1%nat
  end.

Lemma json_print_first v : printable v = true →
  ∃ c t, json_print v = String c t ∧ is_space c = false ∧ c ≠ "]"%char ∧ c ≠ "}"%char.
Proof.
  destruct v as [|[]|lit|s|l|l]; simpl; intros Hp; try (by eexists _, _).
  destruct (big_SetString lit) as [z|]; [|done]. apply bool_decide_eq_true in Hp as ->.
  destruct z as [|p|p]; [by eexists _, _| |by eexists _, _].
  destruct (pretty_N_first (N.pos p)) as (c & t & Ht & Hc). exists c, t.
  split; [exact Ht|]. clear -Hc.
  destruct c as [[] [] [] [] [] [] [] []]; (discriminate Hc || by split_and!).
Qed.

Lemma skip_ws_first c t : is_space c = false → skip_ws (String c t) = String c t.
Proof. simpl. by intros ->. Qed.

Lemma parse_num_value (z : Z) fuel d rest :
  delimited rest = true →
  parse_value (S fuel) d (pretty z +:+ rest) = Some (JNum (pretty z), rest).
Proof.
  intros Hr. pose proof (parse_number_pretty z rest Hr) as Hn.
  assert (∃ c t, pretty z = String c t ∧ (c = "-"%char ∨ is_digit c = true))
    as (c & t & Hz & Hc).
  { destruct z as [|p|p]; [by eexists _, _; eauto| |by eexists _, _; eauto].
    destruct (pretty_N_first (N.pos p)) as (c & t & Ht & Hc). eauto. }
  rewrite Hz in Hn |- *. change (String c t +:+ rest) with (String c (t +:+ rest)) in *.
  cbn [parse_value]. rewrite skip_ws_first, !bool_decide_false, Hn; [done|..];
    clear -Hc; destruct Hc as [->|Hc]; try done;
    try (by intros ->); destruct c as [[] [] [] [] [] [] [] []]; done.
Qed.

(** [v] is parsed back from its printed form, whatever follows it. *)
Definition parses (v : json) : Prop := ∀ fuel d rest,
  printable v = true → (json_need v ≤ fuel)%nat → d + json_depth v ≤ max_depth →
  delimited rest = true → parse_value fuel d (json_print v +:+ rest) = Some (v, rest).

Lemma eat_app p s : eat p (p +:+ s) = Some s.
Proof. induction p; simpl; [done|]. by rewrite bool_decide_true. Qed.

(** One step of the loops over members and elements. *)
Lemma parse_elements_last fuel d s v r :
  parse_value fuel d s = Some (v, String "]" r) → parse_elements (S fuel) d s = Some ([v], r).
Proof. intros Hv. cbn [parse_elements]. by rewrite Hv. Qed.

Lemma parse_elements_more fuel d s v r l r' :
  parse_value fuel d s = Some (v, String "," r) → parse_elements fuel d r = Some (l, r') →
  parse_elements (S fuel) d s = Some (v :: l, r').
Proof. intros Hv Hl. cbn [parse_elements]. rewrite Hv. simpl. by rewrite Hl. Qed.

Lemma parse_key_print k s :
  ascii_text k = true → parse_key (json_quote k +:+ String ":" s) = Some (k, s).
Proof.
  intros Hk. unfold parse_key, json_quote.
  change (skip_ws (String dquote ?a +:+ ?b)) with (String dquote (a +:+ b)).
  rewrite string_app_assoc. simpl.
  change (String dquote "" +:+ ?b) with (String dquote b). by rewrite parse_string_quote.
Qed.

Lemma parse_members_last fuel d k s v r :
  ascii_text k = true → parse_value fuel d s = Some (v, String "}" r) →
  parse_members (S fuel) d (json_quote k +:+ String ":" s) = Some ([(k, v)], r).
Proof.
  intros Hk Hv. cbn [parse_members]. rewrite parse_key_print by done. simpl. by rewrite Hv.
Qed.

Lemma parse_members_more fuel d k s v r l r' :
  ascii_text k = true → parse_value fuel d s = Some (v, String "," r) →
  parse_members fuel d r = Some (l, r') →
  parse_members (S fuel) d (json_quote k +:+ String ":" s) = Some ((k, v) :: l, r').
Proof.
  intros Hk Hv Hl. cbn [parse_members]. rewrite parse_key_print by done. simpl.
  rewrite Hv. simpl. by rewrite Hl.
Qed.

Lemma concat_cons x y l s :
  String.concat "," (x :: y :: l) +:+ s = x +:+ String "," (String.concat "," (y :: l) +:+ s).
Proof.
  change (String.concat "," (x :: y :: l)) with (x +:+ "," +:+ String.concat "," (y :: l)).
  by rewrite !string_app_assoc.
Qed.

Lemma parse_elements_print x l fuel d rest :
  Forall parses (x :: l) → forallb printable (x :: l) = true →
  (foldr (λ x n, S (json_need x + n)) 0 (x :: l) ≤ fuel)%nat →
  d + foldr (λ x d, Z.max (json_depth x) d) 0 (x :: l) ≤ max_depth →
  parse_elements fuel d (String.concat "," (json_print <$> x :: l) +:+ String "]" rest)
    = Some (x :: l, rest).
Proof.
  revert x fuel. induction l as [|y l IH]; intros x fuel HF Hp Hf Hd;
    (destruct fuel as [|fuel]; [simpl in Hf; lia|]);
    inversion_clear HF as [|?? Hx HF']; simpl in Hp, Hf, Hd;
    apply andb_prop in Hp as [Hpx Hp].
  - apply parse_elements_last, Hx; done || lia.
  - rewrite !fmap_cons, concat_cons. eapply parse_elements_more.
    + apply Hx; done || lia.
    + apply IH; done || simpl; lia.
Qed.

Definition print_member (kv : string * json) : string :=
  json_quote kv.1 +:+ ":" +:+ json_print kv.2.

Lemma parse_members_print kv l fuel d rest :
  Forall (λ kv, parses kv.2) (kv :: l) →
  forallb (λ kv, ascii_text kv.1 && printable kv.2) (kv :: l) = true →
  (foldr (λ kv n, S (json_need kv.2 + n)) 0 (kv :: l) ≤ fuel)%nat →
  d + foldr (λ kv d, Z.max (json_depth kv.2) d) 0 (kv :: l) ≤ max_depth →
  parse_members fuel d (String.concat "," (print_member <$> kv :: l) +:+ String "}" rest)
    = Some (kv :: l, rest).
Proof.
  revert kv fuel. induction l as [|kv' l IH]; intros [k v] fuel HF Hp Hf Hd;
    (destruct fuel as [|fuel]; [simpl in Hf; lia|]);
    inversion_clear HF as [|?? Hx HF']; simpl in Hp, Hf, Hd, Hx;
    apply andb_prop in Hp as [Hpx Hp]; apply andb_prop in Hpx as [Hk Hpx].
  - change (String.concat "," _) with (print_member (k, v)). unfold print_member. simpl.
    rewrite !string_app_assoc. apply parse_members_last, Hx; done || lia.
  - rewrite !fmap_cons, concat_cons. unfold print_member at 1. simpl.
    rewrite !string_app_assoc. eapply parse_members_more; [done|..].
    + apply Hx; done || lia.
    + apply IH; done || simpl; lia.
Qed.

Lemma foldr_max_nonneg {A} (f : A → Z) l : 0 ≤ foldr (λ x d, Z.max (f x) d) 0 l.
Proof. induction l; simpl; lia. Qed.

Lemma parse_array_print l fuel d rest :
  Forall parses l → forallb printable l = true →
  (json_need (JArray l) ≤ S fuel)%nat → d + json_depth (JArray l) ≤ max_depth →
  parse_value (S fuel) d (json_print (JArray l) +:+ rest) = Some (JArray l, rest).
Proof.
  intros HF Hp Hf Hd. simpl json_print.
  rewrite !string_app_assoc. change ("]" +:+ rest) with (String "]" rest).
  change ("[" +:+ ?b) with (String "[" b).
  assert ((max_depth <=? d) = false) as Hmax.
  { apply Z.leb_gt. simpl in Hd. pose proof (foldr_max_nonneg json_depth l). lia. }
  destruct l as [|x l]; [simpl; by rewrite Hmax|].
  pose proof (parse_elements_print x l fuel (d + 1) rest HF Hp) as He.
  simpl in Hf, Hd. rewrite Z.add_assoc in Hd. specialize (He ltac:(simpl; lia) ltac:(done)).
  destruct (json_print_first x) as (c & t & Hc & Hs & Hb & _);
    [by simpl in Hp; apply andb_prop in Hp as [? _]|].
  set (body := String.concat _ _ +:+ _) in *.
  assert (∃ t', body = String c t') as [t' Hbody].
  { subst body. destruct l as [|y l]; [by simpl; rewrite Hc; eexists|].
    rewrite !fmap_cons, concat_cons, Hc. by eexists. }
  cbn [parse_value]. rewrite skip_ws_first by done.
  rewrite (bool_decide_false ("["%char = "{"%char)), (bool_decide_true ("["%char = "["%char))
    by done.
  rewrite Hmax, Hbody, skip_ws_first, eat_other, <- Hbody, He by congruence. done.
Qed.

Lemma parse_object_print l fuel d rest :
  Forall (λ kv, parses kv.2) l →
  forallb (λ kv, ascii_text kv.1 && printable kv.2) l = true →
  (json_need (JObject l) ≤ S fuel)%nat → d + json_depth (JObject l) ≤ max_depth →
  parse_value (S fuel) d (json_print (JObject l) +:+ rest) = Some (JObject l, rest).
Proof.
  intros HF Hp Hf Hd.
  change (json_print (JObject l)) with ("{" +:+ String.concat "," (print_member <$> l) +:+ "}").
  rewrite !string_app_assoc. change ("}" +:+ rest) with (String "}" rest).
  change ("{" +:+ ?b) with (String "{" b).
  assert ((max_depth <=? d) = false) as Hmax.
  { apply Z.leb_gt. simpl in Hd.
    pose proof (foldr_max_nonneg (λ kv : string * json, json_depth kv.2) l). lia. }
  destruct l as [|kv l]; [simpl; by rewrite Hmax|].
  pose proof (parse_members_print kv l fuel (d + 1) rest HF Hp) as He.
  simpl in Hf, Hd. rewrite Z.add_assoc in Hd. specialize (He ltac:(simpl; lia) ltac:(done)).
  set (body := String.concat _ _ +:+ _) in *.
  assert (∃ t', body = String dquote t') as [t' Hbody].
  { subst body. destruct l as [|y l]; [by eexists|].
    rewrite !fmap_cons, concat_cons. by eexists. }
  cbn [parse_value]. rewrite skip_ws_first by done.
  rewrite (bool_decide_true ("{"%char = "{"%char)) by done.
  rewrite Hmax, Hbody, skip_ws_first, eat_other, <- Hbody, He by done. done.
Qed.

Lemma parses_all v : parses v.
Proof.
  revert v. fix IH 1. intros v fuel d rest Hp Hf Hd Hr.
  destruct fuel as [|fuel]; [destruct v; simpl in Hf; lia|].
  destruct v as [|[]|lit|s|l|l]; simpl in Hp.
  - done.
  - done.
  - done.
  - destruct (big_SetString lit) as [z|]; [|done]. apply bool_decide_eq_true in Hp as ->.
    by apply parse_num_value.
  - simpl. unfold json_quote. change (String dquote ?a +:+ ?b) with (String dquote (a +:+ b)).
    simpl. rewrite string_app_assoc. change (String dquote "" +:+ ?b) with (String dquote b).
    by rewrite parse_string_quote.
  - assert (Forall parses l) as HF by (clear -IH; induction l; constructor; auto).
    by apply parse_array_print.
  - assert (Forall (λ kv, parses kv.2) l) as HF
      by (clear -IH; induction l as [|[]]; constructor; auto).
    by apply parse_object_print.
Qed.

(** *** The fuel of the entry points is enough *)
Lemma concat_length (l : list string) :
  (foldr (λ s n, String.length s + n) 0 l + length l ≤
    S (String.length (String.concat "," l)))%nat.
Proof.
  induction l as [|x [|y l] IH]; [simpl; lia..|].
  change (String.concat "," (x :: y :: l)) with (x +:+ "," +:+ String.concat "," (y :: l)).
  rewrite !string_app_length. simpl in *. lia.
Qed.

Lemma json_need_bound v :
  printable v = true → (json_need v ≤ 2 * String.length (json_print v))%nat.
Proof.
  revert v. fix IH 1. intros [|[]|lit|s|l|l]; simpl; intros Hp; try lia.
  - destruct lit; simpl in *; [done|lia].
  - rewrite string_app_length. pose proof (concat_length (json_print <$> l)) as Hc.
    rewrite length_fmap in Hc. rewrite !string_app_length. simpl.
    enough (foldr (λ x n, S (json_need x + n)) 0 l ≤ 2 *
      foldr (λ s n, String.length s + n) 0 (json_print <$> l) + length l)%nat by lia.
    clear Hc. induction l as [|x l IHl]; csimpl in *; [lia|].
    apply andb_prop in Hp as [Hx Hp]. specialize (IHl Hp). pose proof (IH x Hx). lia.
  - rewrite string_app_length. pose proof (concat_length (print_member <$> l)) as Hc.
    rewrite length_fmap in Hc. change (λ kv, json_quote kv.1 +:+ ":" +:+ json_print kv.2)
      with print_member. rewrite !string_app_length. simpl.
    enough (foldr (λ kv n, S (json_need kv.2 + n)) 0 l ≤ 2 *
      foldr (λ s n, String.length s + n) 0 (print_member <$> l) + length l)%nat by lia.
    clear Hc. induction l as [|[k x] l IHl]; csimpl in *; [lia|].
    apply andb_prop in Hp as [Hx Hp]. apply andb_prop in Hx as [_ Hx].
    specialize (IHl Hp). pose proof (IH x Hx).
    simpl. rewrite !string_app_length. simpl. lia.
Qed.

Lemma json_Unmarshal_print v :
  printable v = true → json_depth v ≤ max_depth → json_Unmarshal (json_print v) = Ok v.
Proof.
  intros Hp Hd. unfold json_Unmarshal.
  pose proof (parses_all v (parse_fuel (json_print v)) 0 "" Hp) as Hv.
  rewrite string_app_nil_r in Hv. rewrite Hv; [done|..|done|done].
  pose proof (json_need_bound v Hp). unfold parse_fuel. lia.
Qed.

Lemma json_Decode_print v :
  printable v = true → json_depth v ≤ max_depth → json_Decode (json_print v) = Ok v.
Proof.
  intros Hp Hd. unfold json_Decode.
  pose proof (parses_all v (parse_fuel (json_print v)) 0 "" Hp) as Hv.
  rewrite string_app_nil_r in Hv. rewrite Hv; [|..|done|done].
  - by rewrite orb_true_r.
  - pose proof (json_need_bound v Hp). unfold parse_fuel. lia.
Qed.

(** ** Structs

    The members of an object are assigned in order: a member whose key is the
    name of the field, exactly or up to case, sets it; [null] leaves it alone; a
    value of another type is an error.  Other members are ignored. *)
Definition ascii_upper (c : ascii) : ascii :=
  if in_range 97 122 (byte_of c) then of_byte (byte_of c - 32) else c.

(** [foldName]: besides the letters, the long s and the Kelvin sign. *)
Fixpoint fold_name (s : string) : string :=
  match s with
  | String "197" (String "191" t) => String "S" (fold_name t)
  | String "226" (String "132" (String "170" t)) => String "K" (fold_name t)
  | String c t => String (ascii_upper c) (fold_name t)
  | EmptyString => ""
  end.

Definition names_field (name key : string) : bool :=
  (key =s name) || (fold_name key =s fold_name name).

Definition type_error : error := ErrNew "json: cannot unmarshal value into Go struct field".

(** What a value does to a field: set it, leave it, or fail. *)
Definition Assign (A : Type) : Type := json → result (option A).

Definition as_string : Assign string := λ v,
  match v with JString s => Ok (Some s) | JNull => Ok None | _ => Err type_error end.
Definition as_bool : Assign bool := λ v,
  match v with JBool b => Ok (Some b) | JNull => Ok None | _ => Err type_error end.
(** An [int] or [int64] field takes an integer literal in range. *)
Definition as_int : Assign Z := λ v,
  match v with
  | JNum lit => match strconv_Atoi lit with Ok z => Ok (Some z) | Err _ => Err type_error end
  | JNull => Ok None
  | _ => Err type_error
  end.

Fixpoint as_elements (l : list json) : result (list string) :=
  match l with
  | [] => Ok []
  | v :: l => o ← as_string v; r ← as_elements l; Ok (default "" o :: r)
  end.

(** A [[]string] field. *)
Definition as_strings : Assign (list string) := λ v,
  match v with
  | JArray l => r ← as_elements l; Ok (Some r)
  | JNull => Ok (Some [])
  | _ => Err type_error
  end.

Fixpoint field {A} (assign : Assign A) (name : string) (cur : A)
    (l : list (string * json)) : result A :=
  match l with
  | [] => Ok cur
  | (k, v) :: l =>
      if names_field name k then
        o ← assign v; field assign name (default cur o) l
      else field assign name cur l
  end.

(** The members of the value a struct is filled from. *)
Definition members (v : json) : result (list (string * json)) :=
  match v with
  | JObject l => Ok l
  | JNull => Ok []
  | _ => Err type_error
  end.
