(* ===== verification/Evm.v ===== *)
(** * Evm: legacy EIP-155 transactions, [internal/withdrawal/txbuilder.go]

    The EVM part of the transaction builder: the transaction, its signing
    payload, the signature of the MPC signer and the assembled transaction. *)
From stdpp Require Import base tactics list strings numbers pretty.
From Stdlib Require Import ZArith Lia Ascii.
From S2P Require Import Prelude.
From S2P Require Import GoLang.
From S2P Require Import GoText.
From S2P Require Import GoBytes.
From S2P Require Import Crypto.
From S2P Require Import Rlp.
From S2P Require Import Domain.

#[local] Open Scope string_scope.
#[local] Open Scope list_scope.
#[local] Open Scope Z_scope.

(** The package variables; nothing in the program assigns them. *)
Definition EVMChainID : Z := 1.
Definition EVMGasPrice : Z := 1000000000.
Definition EVMGasLimit : Z := 21000.

(** [UnsignedTx]: what is signed, and how the signature completes it. *)
Record UnsignedTx : Type := MkUnsignedTx {
  ut_Chain : string;
  ut_Payload : list byte;
  ut_Assemble : list byte → result (list byte)
}.

Record evmLegacyTx : Type := MkLegacyTx {
  tx_Nonce : Z;
  tx_GasPrice : Z;
  tx_GasLimit : Z;
  tx_To : list byte;
  tx_Value : Z;
  tx_Data : list byte
}.

Definition newEVMLegacyTx (nonce gasPrice gasLimit : Z) (to : list byte) (value : Z)
    (data : list byte) : evmLegacyTx :=
  MkLegacyTx nonce gasPrice gasLimit to value data.

Record evmSignedLegacyTx : Type := MkSignedTx {
  stx_tx : evmLegacyTx;
  stx_V : Z;
  stx_R : Z;
  stx_S : Z
}.

Definition evmAssembleLegacyTx (tx : evmLegacyTx) (r s v : Z) : evmSignedLegacyTx :=
  MkSignedTx tx v r s.

(** The six fields common to both encodings. *)
Definition tx_fields (tx : evmLegacyTx) : list (list byte) :=
  [bigUint (tx_Nonce tx); big_Bytes (tx_GasPrice tx); bigUint (tx_GasLimit tx);
   tx_To tx; big_Bytes (tx_Value tx); stripZero (tx_Data tx)].

Definition evmEncodeLegacyForSigning (tx : evmLegacyTx) (chainID : Z) : list byte :=
  evmEncodeList (tx_fields tx ++ [big_Bytes chainID; []; []]).

Definition evmEncodeSignedTx (tx : evmSignedLegacyTx) : list byte :=
  evmEncodeList (tx_fields (stx_tx tx) ++
    [big_Bytes (stx_V tx); big_Bytes (stx_R tx); big_Bytes (stx_S tx)]).

(** [evmSigFromMPC]: header byte, r and s; returns (r, s, v). *)
Definition evmSigFromMPC (sig : list byte) (chainID : Z) : result (Z * Z * Z) :=
  if negb (bool_decide (length sig = 65%nat)) then
    Err (ErrNew ("evm: signature must be 65 bytes, got " +:+ pretty (length sig)))
  else
    let header := hd 0 sig in
    if (header <? 27) || (34 <? header) then
      Err (ErrNew ("evm: invalid recovery header " +:+ pretty header))
    else
      let recoveryID := header - 27 in
      let recoveryID := if 4 <=? recoveryID then recoveryID - 4 else recoveryID in
      let r := be_value (take 32 (drop 1 sig)) in
      let s := be_value (take 32 (drop 33 sig)) in
      let v := chainID * 2 + (35 + recoveryID) in
      Ok (r, s, v).

(** ** Addresses *)
Definition hexNibble (c : ascii) : result Z :=
  let b := byte_of c in
  if (48 <=? b) && (b <=? 57) then Ok (b - 48)
  else if (97 <=? b) && (b <=? 102) then Ok (b - 97 + 10)
  else if (65 <=? b) && (b <=? 70) then Ok (b - 65 + 10)
  else Err (ErrNew ("invalid hex char " +:+ String c "")).

(** [hi<<4 | lo] on bytes. *)
Definition join_nibbles (hi lo : Z) : Z := Z.lor (Z.shiftl hi 4 mod 256) lo.

(** The loop over the pairs of digits: any bad digit fails the whole. *)
Fixpoint hex_pairs (l : list ascii) : option (list byte) :=
  match l with
  | [] => Some []
  | hi :: lo :: l =>
      match hexNibble hi, hexNibble lo with
      | Ok hi, Ok lo => cons (join_nibbles hi lo) <$> hex_pairs l
      | _, _ => None
      end
  | [_] => None
  end.

Definition parseEVMAddress (s : string) : result (list byte) :=
  let s := strings_TrimSpace s in
  if negb (strings_HasPrefix s "0x") || negb (bool_decide (String.length s = 42%nat)) then
    Err (ErrNew ("invalid EVM address " +:+ quote s))
  else match hex_pairs (drop 2 (String.list_ascii_of_string s)) with
       | None => Err (ErrNew ("invalid hex in EVM address " +:+ quote s))
       | Some out => Ok out
       end.

Section evm.
Context `{CryptoLib}.

Definition evmSigningHash (tx : evmLegacyTx) (chainID : Z) : result (list byte) :=
  Ok (Keccak256 (evmEncodeLegacyForSigning tx chainID)).

Definition buildEVMUnsignedTx (w : Wallet) (wr : WithdrawalRequest) (nonce : Z) :
    result UnsignedTx :=
  to ← wrap_result "evm to_address" (parseEVMAddress (wr_ToAddress wr));
  match big_SetString (wr_Amount wr) with
  | None => Err (ErrNew ("evm amount parse: " +:+ quote (wr_Amount wr)))
  | Some value =>
      let nonce := if nonce <? 0 then 0 else nonce in
      let tx := newEVMLegacyTx (uint64 nonce) EVMGasPrice EVMGasLimit to value [] in
      signingHash ← evmSigningHash tx EVMChainID;
      Ok (MkUnsignedTx (w_Chain w) signingHash (λ signature,
        '(r, s, v) ← evmSigFromMPC signature EVMChainID;
        Ok (evmEncodeSignedTx (evmAssembleLegacyTx tx r s v))))
  end.
End evm.

(** ** Facts *)

(** A transaction the builder can produce: counters at their width, a 20-byte
    recipient, an amount of at most 256 bits. *)
Definition tx_ok (tx : evmLegacyTx) : Prop :=
  0 ≤ tx_Nonce tx < 2 ^ 64 ∧ 0 ≤ tx_GasPrice tx < 2 ^ 256 ∧
  0 ≤ tx_GasLimit tx < 2 ^ 64 ∧ Z.abs (tx_Value tx) < 2 ^ 256 ∧
  length (tx_To tx) = 20%nat ∧ Forall is_byte (tx_To tx) ∧ tx_Data tx = [].

Definition short (e : list Z) : Prop := Forall is_byte e ∧ (length e ≤ 32)%nat.

Lemma short_big_Bytes z : Z.abs z < 2 ^ 256 → short (big_Bytes z).
Proof.
  intros Hz. split; [apply big_Bytes_canonical|]. apply big_Bytes_length.
  change (256 ^ Z.of_nat 32) with (2 ^ 256). done.
Qed.

Lemma tx_fields_short tx : tx_ok tx → Forall short (tx_fields tx).
Proof.
  intros (Hn & Hg & Hl & Hv & Ht & Hb & Hd). unfold tx_fields.
  rewrite !bigUint_Bytes, Hd by lia.
  repeat apply Forall_cons_2; try (apply short_big_Bytes; lia); [..|constructor].
  - split; [done|lia].
  - split; [constructor|vm_compute; lia].
Qed.

(** Nine short fields fit any length field. *)
Lemma short_list_size elems :
  Forall short elems → (length elems ≤ 9)%nat →
  Forall (Forall is_byte) elems ∧
  Z.of_nat (length (concat (rlpEncodeItem <$> elems))) < 2 ^ 63.
Proof.
  intros Hs Hn. split; [eapply Forall_impl; [exact Hs|]; by intros ? []|].
  assert (length (concat (rlpEncodeItem <$> elems)) ≤ 41 * length elems)%nat; [|lia].
  clear Hn. induction Hs as [|e l [_ He] Hs IH]; csimpl; [lia|].
  rewrite length_app. pose proof (rlpEncodeItem_length e ltac:(lia)). lia.
Qed.

Lemma evmEncode_roundtrip fields : Forall short fields → (length fields ≤ 9)%nat →
  rlp_decode_list (evmEncodeList fields) = Some fields.
Proof.
  intros Hs Hn. destruct (short_list_size fields Hs Hn). by apply evmEncodeList_roundtrip.
Qed.

(** *** Hex digits *)
Lemma hexNibble_range c n : hexNibble c = Ok n → 0 ≤ n < 16.
Proof. unfold hexNibble. repeat case_match; intros [=]; lia. Qed.

(** Facts about all digits, checked one by one. *)
Lemma all_digits (p : Z → bool) :
  forallb p (Z.of_nat <$> seq 0 16) = true → ∀ d, 0 ≤ d < 16 → p d = true.
Proof.
  rewrite forallb_forall. intros Hp d Hd. apply Hp, list_elem_of_In.
  apply list_elem_of_fmap. exists (Z.to_nat d). rewrite elem_of_seq. lia.
Qed.

Lemma join_nibbles_spec hi lo : 0 ≤ hi < 16 → 0 ≤ lo < 16 → join_nibbles hi lo = 16 * hi + lo.
Proof.
  intros Hh Hl. apply Z.eqb_eq. revert lo Hl. apply all_digits.
  revert hi Hh. apply all_digits. vm_compute. reflexivity.
Qed.

Lemma hexNibble_digit d : 0 ≤ d < 16 → hexNibble (hex_digit d) = Ok d.
Proof.
  intros Hd. assert (match hexNibble (hex_digit d) with Ok n => n =? d | Err _ => false end
    = true) as Hok by (revert d Hd; apply all_digits; vm_compute; reflexivity).
  destruct (hexNibble (hex_digit d)) as [n|]; [|done]. by apply Z.eqb_eq in Hok as ->.
Qed.

Lemma hex_pairs_encode l :
  Forall is_byte l → hex_pairs (String.list_ascii_of_string (hex_EncodeToString l)) = Some l.
Proof.
  induction 1 as [|b l Hb Hl IH]; [done|]. unfold is_byte in Hb.
  pose proof (Z.mod_pos_bound b 16 ltac:(lia)) as Hm.
  assert (0 ≤ b / 16 < 16) as Hq by (split; [apply Z.div_pos|apply Z.div_lt_upper_bound]; lia).
  cbn [hex_EncodeToString String.list_ascii_of_string hex_pairs].
  rewrite !hexNibble_digit, IH by done. simpl. rewrite join_nibbles_spec by done.
  by rewrite <-Z.div_mod by lia.
Qed.

Lemma hex_pairs_bytes l out :
  hex_pairs l = Some out → Forall is_byte out ∧ (2 * length out = length l)%nat.
Proof.
  remember (length l) as n eqn:Hn. revert l out Hn.
  induction (lt_wf n) as [n _ IH]; intros [|hi [|lo l]] out Hn; simpl; [..|].
  - intros [= <-]. split; [constructor|simpl in *; lia].
  - done.
  - destruct (hexNibble hi) eqn:Hh; [|done]. destruct (hexNibble lo) eqn:Hl; [|done].
    intros (out' & Ho & ->)%fmap_Some. simpl in Hn.
    destruct (IH (length l) ltac:(lia) l out' eq_refl Ho) as [Hb Hlen].
    apply hexNibble_range in Hh, Hl. split; [|simpl; lia]. constructor; [|done].
    unfold is_byte. rewrite join_nibbles_spec by done. lia.
Qed.

Lemma parseEVMAddress_bytes s out :
  parseEVMAddress s = Ok out → length out = 20%nat ∧ Forall is_byte out.
Proof.
  unfold parseEVMAddress. destruct (_ || _) eqn:Hc; [done|].
  apply orb_false_iff in Hc as [_ Hl]. apply negb_false_iff, bool_decide_eq_true in Hl.
  destruct (hex_pairs _) as [l|] eqn:Hp; [|done]. intros [= <-].
  apply hex_pairs_bytes in Hp as [Hb Hlen]. split; [|done].
  rewrite length_drop, list_ascii_length in Hlen. lia.
Qed.

Lemma string_bytes_app s t : string_bytes (s +:+ t) = string_bytes s ++ string_bytes t.
Proof.
  unfold string_bytes. rewrite <-fmap_app. f_equal. induction s as [|c s IH]; [done|].
  simpl. by f_equal.
Qed.

Lemma hex_digit_edge d :
  0 ≤ d < 16 → not_space_edge (reverse <$> space_runes) (byte_of (hex_digit d)) = true.
Proof.
  revert d. apply all_digits. vm_compute. reflexivity.
Qed.

Lemma hex_last l b : ∃ l', string_bytes (hex_EncodeToString (l ++ [b])) =
  l' ++ [byte_of (hex_digit (b mod 16))].
Proof.
  induction l as [|x l [l' IH]]; [by eexists [_]|]. simpl.
  exists (byte_of (hex_digit (x / 16)) :: byte_of (hex_digit (x mod 16)) :: l').
  unfold string_bytes in *. csimpl. by rewrite IH.
Qed.

(** The canonical text of an address. *)
Definition evm_text (addr : list byte) : string := "0x" +:+ hex_EncodeToString addr.

Lemma evm_text_trimmed addr : addr ≠ [] → strings_TrimSpace (evm_text addr) = evm_text addr.
Proof.
  intros Hne. apply strings_TrimSpace_stable. unfold trim_stable, evm_text.
  rewrite string_bytes_app. change (string_bytes "0x") with [48; 120]. cbn [app].
  rewrite strip_one_edge by done.
  destruct addr as [|b l _] using rev_ind; [done|]. destruct (hex_last l b) as [l' ->].
  change (48 :: 120 :: l' ++ ?x) with ((48 :: 120 :: l') ++ x). rewrite reverse_snoc.
  rewrite strip_one_edge; [done|]. apply hex_digit_edge, Z.mod_pos_bound. lia.
Qed.

(** ** Theorems *)

(** Addresses round trip: the text [0x] followed by the hexadecimal digits
    of twenty bytes is parsed back to those bytes. *)
Theorem parseEVMAddress_roundtrip addr :
  length addr = 20%nat → Forall is_byte addr →
  parseEVMAddress (evm_text addr) = Ok addr.
Proof.
  intros Hlen Hb. unfold parseEVMAddress.
  rewrite evm_text_trimmed by by destruct addr.
  assert (strings_HasPrefix (evm_text addr) "0x" = true) as ->.
  { unfold strings_HasPrefix. apply prefix_spec. by exists (hex_EncodeToString addr). }
  rewrite bool_decide_true; [|unfold evm_text; rewrite string_app_length,
    hex_EncodeToString_length; simpl; lia].
  cbn [negb orb]. change (drop 2 (String.list_ascii_of_string (evm_text addr)))
    with (String.list_ascii_of_string (hex_EncodeToString addr)).
  by rewrite hex_pairs_encode.
Qed.

Lemma big_Bytes_abs a b : big_Bytes a = big_Bytes b → Z.abs a = Z.abs b.
Proof. intros Hab. by rewrite <-!big_Bytes_value, Hab. Qed.

(** The encoding to sign determines every field of the transaction, the amount up to
    its sign, and the chain id. *)
Lemma signing_encoding_injective tx1 tx2 c1 c2 :
  tx_ok tx1 → tx_ok tx2 → 0 ≤ c1 < 2 ^ 256 → 0 ≤ c2 < 2 ^ 256 →
  evmEncodeLegacyForSigning tx1 c1 = evmEncodeLegacyForSigning tx2 c2 →
  tx_Nonce tx1 = tx_Nonce tx2 ∧ tx_GasPrice tx1 = tx_GasPrice tx2 ∧
  tx_GasLimit tx1 = tx_GasLimit tx2 ∧ tx_To tx1 = tx_To tx2 ∧
  Z.abs (tx_Value tx1) = Z.abs (tx_Value tx2) ∧ c1 = c2.
Proof.
  intros H1 H2 C1 C2 Heq.
  assert (∀ tx c, tx_ok tx → 0 ≤ c < 2 ^ 256 →
    Forall short (tx_fields tx ++ [big_Bytes c; []; []])) as Hs.
  { intros tx c Ht Hc. apply Forall_app. split; [by apply tx_fields_short|].
    repeat apply Forall_cons_2; [apply short_big_Bytes; lia|..|constructor];
      (split; [constructor|simpl; lia]). }
  pose proof (evmEncode_roundtrip _ (Hs tx1 c1 H1 C1) ltac:(simpl; lia)) as R1.
  pose proof (evmEncode_roundtrip _ (Hs tx2 c2 H2 C2) ltac:(simpl; lia)) as R2.
  unfold evmEncodeLegacyForSigning in Heq. rewrite Heq, R2 in R1. clear R2 Heq Hs.
  destruct tx1 as [n1 g1 l1 t1 v1 d1], tx2 as [n2 g2 l2 t2 v2 d2].
  destruct H1 as (?&?&?&?&_&_&?), H2 as (?&?&?&?&_&_&?). simpl in *. subst.
  unfold tx_fields in R1. simpl in R1. rewrite !bigUint_Bytes in R1 by lia.
  injection R1 as E1 E2 E3 E4 E5 E6. subst.
  apply big_Bytes_abs in E1, E2, E3, E5, E6. split_and!; lia || done.
Qed.

Section built.
Context `{CryptoLib}.

Lemma built_tx_ok nonce to value :
  0 ≤ nonce < 2 ^ 64 → length to = 20%nat → Forall is_byte to → Z.abs value < 2 ^ 256 →
  tx_ok (newEVMLegacyTx (uint64 nonce) EVMGasPrice EVMGasLimit to value []).
Proof.
  intros Hn Hl Hb Hv. unfold tx_ok, newEVMLegacyTx, uint64, EVMGasPrice, EVMGasLimit.
  simpl. rewrite Z.mod_small by lia. split_and!; try done; lia.
Qed.

(** The header byte of a compact signature, and the recovery id it stands
    for. *)
Definition recovery_id (header : Z) : Z := (header - 27) mod 4.

(** A compact signature splits into its halves and the EIP-155 [v]. *)
Lemma evmSigFromMPC_compact header r s :
  27 ≤ header ≤ 34 → length r = 32%nat → length s = 32%nat →
  evmSigFromMPC (header :: r ++ s) EVMChainID =
    Ok (be_value r, be_value s, 35 + recovery_id header + 2 * EVMChainID).
Proof.
  intros Hh Hr Hs.
  assert (take 32 (drop 1 (header :: r ++ s)) = r) as Er
    by (rewrite <-Hr; apply take_app_length).
  assert (take 32 (drop 33 (header :: r ++ s)) = s) as Es.
  { change (drop 33 (header :: r ++ s)) with (drop 32 (r ++ s)).
    rewrite <-Hr, drop_app_length, Hr, <-Hs. apply firstn_all. }
  unfold evmSigFromMPC. rewrite bool_decide_true
    by (simpl; rewrite length_app, Hr, Hs; done).
  rewrite Er, Es. cbn [negb hd].
  rewrite (proj2 (Z.ltb_ge header 27)), (proj2 (Z.ltb_ge 34 header)) by lia.
  cbn [orb]. do 2 f_equal. unfold recovery_id.
  assert (header - 27 = (header - 27) mod 4 + 4 * ((header - 27) / 4)) as Hdm
    by (pose proof (Z.div_mod (header - 27) 4); lia).
  pose proof (Z.mod_pos_bound (header - 27) 4 ltac:(lia)).
  destruct (Z.leb_spec 4 (header - 27)); lia.
Qed.

(** C22. What is broadcast is what was asked for: a withdrawal with a valid
    recipient and a whole, non-negative amount builds, the payload is the hash
    of its signing encoding, and with any well-formed signature the assembled
    bytes decode as canonical RLP to exactly the reserved nonce, the gas
    price and limit, the recipient, the amount, empty data, the EIP-155
    [v = recovery id + 2 * chain id + 35] and the signature's r and s. *)
Theorem buildEVMUnsignedTx_correct w wr nonce to value header r s :
  parseEVMAddress (wr_ToAddress wr) = Ok to →
  big_SetString (wr_Amount wr) = Some value → 0 ≤ value < 2 ^ 256 →
  0 ≤ nonce < 2 ^ 63 → 27 ≤ header ≤ 34 →
  length r = 32%nat → length s = 32%nat → Forall is_byte r → Forall is_byte s →
  ∃ u fields,
    buildEVMUnsignedTx w wr nonce = Ok u ∧
    ut_Payload u = Keccak256 (evmEncodeLegacyForSigning
      (newEVMLegacyTx nonce EVMGasPrice EVMGasLimit to value []) EVMChainID) ∧
    (bytes ← ut_Assemble u (header :: r ++ s);
     match rlp_decode_list bytes with Some l => Ok l | None => Err (ErrNew "rlp") end)
      = Ok fields ∧
    Forall canonical (take 3 fields ++ drop 4 fields) ∧
    fields !! 3%nat = Some to ∧
    be_value <$> (take 3 fields ++ drop 4 fields) =
      [nonce; EVMGasPrice; EVMGasLimit; value; 0;
       35 + recovery_id header + 2 * EVMChainID; be_value r; be_value s].
Proof.
  intros Hto Hval Hv Hn Hh Hr Hs Hrb Hsb.
  destruct (parseEVMAddress_bytes _ _ Hto) as [Htl Htb].
  pose proof (be_value_bound r Hrb) as Br. pose proof (be_value_bound s Hsb) as Bs.
  rewrite Hr in Br. rewrite Hs in Bs. change (256 ^ Z.of_nat 32) with (2 ^ 256) in *.
  pose proof (evmSigFromMPC_compact header r s Hh Hr Hs) as Hsig.
  pose proof (built_tx_ok nonce to value ltac:(lia) Htl Htb ltac:(lia)) as Hok.
  unfold buildEVMUnsignedTx. rewrite Hto, Hval. simpl. unfold evmSigningHash. simpl.
  rewrite (proj2 (Z.ltb_ge nonce 0)) by lia.
  assert (uint64 nonce = nonce) as Hu by (apply Z.mod_small; lia).
  rewrite Hu in *. eexists _, _. split; [done|]. split; [done|]. simpl.
  rewrite Hsig. simpl. unfold evmEncodeSignedTx, evmAssembleLegacyTx. simpl stx_tx.
  rewrite evmEncode_roundtrip; [|..|simpl; lia].
  2:{ apply Forall_app. split; [by apply tx_fields_short|].
      pose proof (Z.mod_pos_bound (header - 27) 4 ltac:(lia)).
      unfold recovery_id, EVMChainID.
      repeat apply Forall_cons_2; [apply short_big_Bytes; simpl; lia..|constructor]. }
  split; [done|]. unfold tx_fields, newEVMLegacyTx.
  cbn [tx_Nonce tx_GasPrice tx_GasLimit tx_To tx_Value tx_Data stx_V stx_R stx_S app
    firstn skipn]. rewrite !bigUint_Bytes by (unfold EVMGasLimit; lia).
  split_and!; [|done|].
  - repeat apply Forall_cons_2; try apply big_Bytes_canonical; [|constructor].
    split; [constructor|done].
  - cbn [fmap list_fmap]. change (be_value (stripZero [])) with 0.
    rewrite !big_Bytes_value, !Z.abs_eq; try done; try lia.
    pose proof (Z.mod_pos_bound (header - 27) 4 ltac:(lia)).
    unfold recovery_id, EVMChainID. lia.
Qed.

(** The encoding whose hash is signed. *)
Definition signed_encoding (to : list byte) (value nonce : Z) :
    list byte :=
  evmEncodeLegacyForSigning (newEVMLegacyTx nonce EVMGasPrice EVMGasLimit to value [])
    EVMChainID.

Lemma uint64_id n : 0 ≤ n < 2 ^ 63 → uint64 n = n.
Proof. intros Hn. apply Z.mod_small. lia. Qed.

Lemma built_payload w wr n to v u :
  parseEVMAddress (wr_ToAddress wr) = Ok to → big_SetString (wr_Amount wr) = Some v →
  0 ≤ n < 2 ^ 63 → buildEVMUnsignedTx w wr n = Ok u →
  ut_Payload u = Keccak256 (signed_encoding to v n).
Proof.
  intros Hto Hv Hn. unfold buildEVMUnsignedTx. rewrite Hto, Hv. simpl.
  rewrite (proj2 (Z.ltb_ge n 0)) by lia. intros [= <-]. simpl.
  unfold signed_encoding. by rewrite (uint64_id n) by lia.
Qed.

(** C23. A signature is good for one transfer only.  Take any two EVM withdrawals with
    amounts of at most 256 bits, positive or negative, and nonces of 63 bits.  If the
    payloads the builder hands to the signer are equal, then the two have the same
    nonce, the same recipient and the same amount up to its sign, unless their two
    encodings are different texts with the same Keccak hash.  Nothing is said of the
    chain: every EVM chain is signed for with the one chain id of the source. *)
Theorem signing_payload_binding w1 w2 wr1 wr2 n1 n2 u1 u2 to1 to2 v1 v2 :
  parseEVMAddress (wr_ToAddress wr1) = Ok to1 → parseEVMAddress (wr_ToAddress wr2) = Ok to2 →
  big_SetString (wr_Amount wr1) = Some v1 → big_SetString (wr_Amount wr2) = Some v2 →
  Z.abs v1 < 2 ^ 256 → Z.abs v2 < 2 ^ 256 → 0 ≤ n1 < 2 ^ 63 → 0 ≤ n2 < 2 ^ 63 →
  buildEVMUnsignedTx w1 wr1 n1 = Ok u1 → buildEVMUnsignedTx w2 wr2 n2 = Ok u2 →
  ut_Payload u1 = ut_Payload u2 →
  (n1 = n2 ∧ to1 = to2 ∧ Z.abs v1 = Z.abs v2) ∨
  (signed_encoding to1 v1 n1 ≠ signed_encoding to2 v2 n2 ∧
   Keccak256 (signed_encoding to1 v1 n1) = Keccak256 (signed_encoding to2 v2 n2)).
Proof.
  intros Hto1 Hto2 Hv1 Hv2 Hb1 Hb2 Hn1 Hn2 Hu1 Hu2 Hp.
  rewrite (built_payload _ _ _ _ _ _ Hto1 Hv1 Hn1 Hu1),
    (built_payload _ _ _ _ _ _ Hto2 Hv2 Hn2 Hu2) in Hp.
  destruct (decide (signed_encoding to1 v1 n1 = signed_encoding to2 v2 n2)) as [He|];
    [left|by right].
  destruct (parseEVMAddress_bytes _ _ Hto1), (parseEVMAddress_bytes _ _ Hto2).
  pose proof (built_tx_ok n1 to1 v1) as Hok1. pose proof (built_tx_ok n2 to2 v2) as Hok2.
  rewrite (uint64_id n1) in Hok1 by lia. rewrite (uint64_id n2) in Hok2 by lia.
  destruct (signing_encoding_injective _ _ EVMChainID EVMChainID
    (Hok1 ltac:(lia) ltac:(done) ltac:(done) ltac:(done))
    (Hok2 ltac:(lia) ltac:(done) ltac:(done) ltac:(done))
    ltac:(done) ltac:(done) He) as (? & _ & _ & ? & ? & _). done.
Qed.

(** The sign of an amount is lost: a withdrawal of a negative amount
    builds the same payload to sign as one of its absolute value. *)
Theorem evm_negative_amount w wr1 wr2 nonce value :
  wr_ToAddress wr1 = wr_ToAddress wr2 →
  big_SetString (wr_Amount wr1) = Some (- value) →
  big_SetString (wr_Amount wr2) = Some value →
  (u ← buildEVMUnsignedTx w wr1 nonce; Ok (ut_Payload u)) =
  (u ← buildEVMUnsignedTx w wr2 nonce; Ok (ut_Payload u)).
Proof.
  intros Ht H1 H2. unfold buildEVMUnsignedTx. rewrite Ht, H1, H2.
  destruct (parseEVMAddress _) as [to|]; simpl; [|done]. do 2 f_equal.
  unfold evmEncodeLegacyForSigning, tx_fields, big_Bytes, byte_width. simpl.
  rewrite Z.abs_opp. destruct (Z.eqb_spec (- value) 0), (Z.eqb_spec value 0); try lia; done.
Qed.

(** Malformed signatures never produce a transaction: assembling fails
    unless the signature has 65 bytes and a header between 27 and 34. *)
Theorem evm_assemble_rejects w wr nonce u sig :
  buildEVMUnsignedTx w wr nonce = Ok u →
  length sig ≠ 65%nat ∨ hd 0 sig < 27 ∨ 34 < hd 0 sig →
  ∃ e, ut_Assemble u sig = Err e.
Proof.
  unfold buildEVMUnsignedTx. destruct (wrap_result _ _) as [to|]; [|done]. simpl.
  destruct (big_SetString _) as [v|]; [|done]. intros [= <-] Hbad. simpl.
  unfold evmSigFromMPC. case_bool_decide as Hlen; simpl; [|by eexists].
  destruct Hbad as [?|Hbad]; [done|].
  assert ((hd 0 sig <? 27) || (34 <? hd 0 sig) = true) as -> by lia. by eexists.
Qed.
End built.

(** ** Witnesses *)
Section witnesses.
#[local] Existing Instance ref_crypto.

Definition addr1 : list byte := be_bytes 20 0xde0b295669a9fd93d5f28d9ec85e40f4cb697bae.

Lemma addr1_bytes : Forall is_byte addr1.
Proof. apply be_bytes_range. Qed.

Lemma parseEVMAddress_roundtrip_witness : parseEVMAddress (evm_text addr1) = Ok addr1.
Proof. apply (parseEVMAddress_roundtrip addr1); [reflexivity|apply addr1_bytes]. Defined.

Definition wallet1 : Wallet := MkWallet (uuid_of_Z 1) ChainEthereum WalletTypeHot "hot"
  WalletStateActive "k" "mpc" None None 1 1.
Definition withdraw (amount : string) : WithdrawalRequest :=
  MkWithdrawal (uuid_of_Z 2) (uuid_of_Z 1) (evm_text addr1) "ETH" amount
    WithdrawalStateWhitelisted "" "" "" None [] [] 1 1.

Lemma buildEVMUnsignedTx_correct_witness :
  ∃ u fields,
    buildEVMUnsignedTx wallet1 (withdraw "1000") 9 = Ok u ∧
    ut_Payload u = Keccak256 (evmEncodeLegacyForSigning
      (newEVMLegacyTx 9 EVMGasPrice EVMGasLimit addr1 1000 []) EVMChainID) ∧
    (bytes ← ut_Assemble u (31 :: replicate 32 1 ++ replicate 32 2);
     match rlp_decode_list bytes with Some l => Ok l | None => Err (ErrNew "rlp") end)
      = Ok fields ∧
    Forall canonical (take 3 fields ++ drop 4 fields) ∧
    fields !! 3%nat = Some addr1 ∧
    be_value <$> (take 3 fields ++ drop 4 fields) =
      [9; EVMGasPrice; EVMGasLimit; 1000; 0; 35 + recovery_id 31 + 2 * EVMChainID;
       be_value (replicate 32 1); be_value (replicate 32 2)].
Proof.
  apply (buildEVMUnsignedTx_correct wallet1 (withdraw "1000") 9 addr1 1000 31
    (replicate 32 1) (replicate 32 2));
    [vm_compute; reflexivity|reflexivity|lia|lia|lia|reflexivity|reflexivity|..];
    apply Forall_replicate; unfold is_byte; lia.
Defined.

Lemma evm_negative_amount_witness :
  (u ← buildEVMUnsignedTx wallet1 (withdraw "-5") 9; Ok (ut_Payload u)) =
  (u ← buildEVMUnsignedTx wallet1 (withdraw "5") 9; Ok (ut_Payload u)).
Proof.
  apply (evm_negative_amount wallet1 (withdraw "-5") (withdraw "5") 9 5); reflexivity.
Defined.

Definition payload_of (amount : string) : UnsignedTx :=
  match buildEVMUnsignedTx wallet1 (withdraw amount) 9 with
  | Ok u => u
  | Err _ => MkUnsignedTx "" [] (λ _, Ok [])
  end.

Lemma signing_payload_binding_witness :
  (9 = 9 ∧ addr1 = addr1 ∧ Z.abs 5 = Z.abs (-5)) ∨
  (signed_encoding addr1 5 9 ≠ signed_encoding addr1 (-5) 9 ∧
   Keccak256 (signed_encoding addr1 5 9) = Keccak256 (signed_encoding addr1 (-5) 9)).
Proof.
  apply (signing_payload_binding wallet1 wallet1 (withdraw "5") (withdraw "-5") 9 9
    (payload_of "5") (payload_of "-5") addr1 addr1 5 (-5));
    [vm_compute; reflexivity|vm_compute; reflexivity|reflexivity|reflexivity|lia..| | |].
  - reflexivity.
  - reflexivity.
  - vm_compute. reflexivity.
Defined.

Definition built1 : UnsignedTx :=
  match buildEVMUnsignedTx wallet1 (withdraw "1000") 9 with
  | Ok u => u
  | Err _ => MkUnsignedTx "" [] (λ _, Ok [])
  end.

Lemma evm_assemble_rejects_witness : ∃ e, ut_Assemble built1 [27; 1; 2] = Err e.
Proof.
  apply (evm_assemble_rejects wallet1 (withdraw "1000") 9 built1 [27; 1; 2]).
  - reflexivity.
  - left. discriminate.
Defined.
End witnesses.
