(* ===== verification/World.v ===== *)
(** * World: the state the service runs on

    [Store] is the record of tables of the in-memory backend
    ([internal/storage/memstore]).  [World] adds what the services share with
    it: the transaction depth of the running goroutine, the locks of the
    in-process locker, the derivation cache, the
    readings taken of the clock and of the UUID
    generator, and the trace of requests sent to the services outside the
    repository. *)
From stdpp Require Import base tactics list gmap strings.
From Stdlib Require Import ZArith.
From S2P Require Import Prelude.
From S2P Require Import GoLang.
From S2P Require Import Domain.

#[local] Open Scope Z_scope.

(** ** Messages to the services outside the repository *)

(** [policy.CheckRequest] and [policy.CheckResponse]. *)
Record CheckRequest : Type := MkCheckRequest {
  cq_WalletID : string;
  cq_ToAddress : string;
  cq_Asset : string;
  cq_Amount : string
}.

Record CheckResponse : Type := MkCheckResponse {
  cp_Approved : bool;
  cp_DecisionID : string;
  cp_Reason : string
}.

(** [grpcclient.SignRequest] and [grpcclient.SignResponse]. *)
Record SignRequest : Type := MkSignRequest {
  sq_KeyID : string;
  sq_TxBytes : list byte;
  sq_WalletID : uuid
}.

Record SignResponse : Type := MkSignResponse {
  sp_Signature : list byte;
  sp_SignerID : string
}.

(** [grpcclient.BroadcastRequest] and [grpcclient.BroadcastResponse]. *)
Record BroadcastRequest : Type := MkBroadcastRequest {
  bq_Chain : string;
  bq_TxBytes : list byte;
  bq_WalletID : uuid
}.

Record BroadcastResponse : Type := MkBroadcastResponse {
  bp_TxHash : string
}.

(** [funding.TreasuryRequest]. *)
Record TreasuryRequest : Type := MkTreasuryRequest {
  tq_FundingRequestID : uuid;
  tq_WalletID : uuid;
  tq_Asset : string;
  tq_Amount : string;
  tq_IdempotencyKey : string;
  tq_Reason : string
}.

(** One exchange with an outside service: the request and the answer. *)
Inductive exchange : Type :=
  | XCheck (q : CheckRequest) (r : result (option CheckResponse))
  | XSign (q : SignRequest) (r : result SignResponse)
  | XBroadcast (q : BroadcastRequest) (r : result BroadcastResponse)
  | XTreasury (q : TreasuryRequest) (r : result unit)
  | XDeliver (q : list AuditOutboxEvent) (r : result unit).

(** ** The store *)
Record Store : Type := MkStore {
  wallets : gmap uuid Wallet;
  addresses : gmap uuid Address;
  balances : gmap string Balance;
  balanceEvents : gmap string bool;
  utxos : gmap string UTXO;
  nonces : gmap string Nonce;
  withdrawals : gmap uuid WithdrawalRequest;
  keyMappings : gmap uuid (list KeyMapping);
  fundingReq : gmap uuid FundingRequest;
  auditOutbox : list AuditOutboxEvent;
  auditSeqCounters : gmap uuid Z;
  inflightWithdrawals : gmap string bool
}.

(** [memstore.New]. *)
Definition New : Store :=
  MkStore ∅ ∅ ∅ ∅ ∅ ∅ ∅ ∅ ∅ [] ∅ ∅.

Section setters.
Context (s : Store).
Definition set_wallets x := MkStore x (addresses s) (balances s)
  (balanceEvents s) (utxos s) (nonces s) (withdrawals s) (keyMappings s)
  (fundingReq s) (auditOutbox s) (auditSeqCounters s) (inflightWithdrawals s).
Definition set_addresses x := MkStore (wallets s) x (balances s)
  (balanceEvents s) (utxos s) (nonces s) (withdrawals s) (keyMappings s)
  (fundingReq s) (auditOutbox s) (auditSeqCounters s) (inflightWithdrawals s).
Definition set_balances x := MkStore (wallets s) (addresses s) x
  (balanceEvents s) (utxos s) (nonces s) (withdrawals s) (keyMappings s)
  (fundingReq s) (auditOutbox s) (auditSeqCounters s) (inflightWithdrawals s).
Definition set_balanceEvents x := MkStore (wallets s) (addresses s)
  (balances s) x (utxos s) (nonces s) (withdrawals s) (keyMappings s)
  (fundingReq s) (auditOutbox s) (auditSeqCounters s) (inflightWithdrawals s).
Definition set_utxos x := MkStore (wallets s) (addresses s) (balances s)
  (balanceEvents s) x (nonces s) (withdrawals s) (keyMappings s)
  (fundingReq s) (auditOutbox s) (auditSeqCounters s) (inflightWithdrawals s).
Definition set_nonces x := MkStore (wallets s) (addresses s) (balances s)
  (balanceEvents s) (utxos s) x (withdrawals s) (keyMappings s)
  (fundingReq s) (auditOutbox s) (auditSeqCounters s) (inflightWithdrawals s).
Definition set_withdrawals x := MkStore (wallets s) (addresses s)
  (balances s) (balanceEvents s) (utxos s) (nonces s) x (keyMappings s)
  (fundingReq s) (auditOutbox s) (auditSeqCounters s) (inflightWithdrawals s).
Definition set_keyMappings x := MkStore (wallets s) (addresses s)
  (balances s) (balanceEvents s) (utxos s) (nonces s) (withdrawals s) x
  (fundingReq s) (auditOutbox s) (auditSeqCounters s) (inflightWithdrawals s).
Definition set_fundingReq x := MkStore (wallets s) (addresses s)
  (balances s) (balanceEvents s) (utxos s) (nonces s) (withdrawals s)
  (keyMappings s) x (auditOutbox s) (auditSeqCounters s)
  (inflightWithdrawals s).
Definition set_auditOutbox x := MkStore (wallets s) (addresses s)
  (balances s) (balanceEvents s) (utxos s) (nonces s) (withdrawals s)
  (keyMappings s) (fundingReq s) x (auditSeqCounters s)
  (inflightWithdrawals s).
Definition set_auditSeqCounters x := MkStore (wallets s) (addresses s)
  (balances s) (balanceEvents s) (utxos s) (nonces s) (withdrawals s)
  (keyMappings s) (fundingReq s) (auditOutbox s) x (inflightWithdrawals s).
Definition set_inflight x := MkStore (wallets s) (addresses s)
  (balances s) (balanceEvents s) (utxos s) (nonces s) (withdrawals s)
  (keyMappings s) (fundingReq s) (auditOutbox s) (auditSeqCounters s) x.
End setters.

(** ** The world *)
Record World : Type := MkWorld {
  store : Store;
  depth : nat;                    (** nesting of the goroutine's store lock *)
  locks : gmap string string;     (** [lock.MemLocker.locks] *)
  cache : gmap string (string * time);  (** [cache.MemCache.data] *)
  ticks : nat;                    (** readings taken of [time.Now] *)
  ids : nat;                      (** UUIDs generated *)
  trace : list exchange           (** requests sent out, newest last *)
}.

Definition set_store (s : Store) (w : World) : World :=
  MkWorld s (depth w) (locks w) (cache w) (ticks w) (ids w) (trace w).
Definition set_depth (d : nat) (w : World) : World :=
  MkWorld (store w) d (locks w) (cache w) (ticks w) (ids w) (trace w).
Definition set_locks (l : gmap string string) (w : World) : World :=
  MkWorld (store w) (depth w) l (cache w) (ticks w) (ids w) (trace w).
Definition set_cache (c : gmap string (string * time)) (w : World) : World :=
  MkWorld (store w) (depth w) (locks w) c (ticks w) (ids w) (trace w).
Definition log_exchange (x : exchange) (w : World) : World :=
  MkWorld (store w) (depth w) (locks w) (cache w) (ticks w) (ids w) (trace w ++ [x]).

Definition initial_world : World := MkWorld New 0 ∅ ∅ 0 0 [].

(** The clock and the UUID generator, as functions of the number of readings
    taken so far; nothing is assumed of them here. *)
Class Environment : Type := {
  clock : nat → time;
  new_uuid : nat → uuid
}.

Abbreviation Go := (GoM World).

Section primitives.
Context `{Environment}.

Definition time_Now : Go time := λ w,
  (Ok (clock (ticks w)),
   MkWorld (store w) (depth w) (locks w) (cache w) (S (ticks w)) (ids w) (trace w)).

(** [id, _ := uuid.NewV7()], also [uuid.NewString]. *)
Definition uuid_New : Go uuid := λ w,
  (Ok (new_uuid (ids w)),
   MkWorld (store w) (depth w) (locks w) (cache w) (ticks w) (S (ids w)) (trace w)).

Definition get_store : Go Store := gets store.
Definition upd_store (f : Store → Store) : Go unit :=
  modify (λ w, set_store (f (store w)) w).
(** A request to an outside service that answers as [f] says, given the
    exchanges so far. *)
Definition ask {Q R} (mk : Q → result R → exchange)
    (f : list exchange → Q → result R) (q : Q) : Go R := λ w,
  let r := f (trace w) q in (r, log_exchange (mk q r) w).
End primitives.

(** Run the monad of a method, without unfolding the methods it calls. *)
Ltac go_run :=
  unfold within, get_store, upd_store, mbind, GoM_bind, mret, GoM_ret,
    throw, gets, attempt, ignore, wrap_err, of_result, when, modify, time_Now,
    uuid_New, ask in *;
  cbn beta iota zeta delta [fst snd store depth locks cache ticks ids trace set_store
    set_depth set_locks set_cache log_exchange wallets addresses balances balanceEvents
    utxos nonces withdrawals keyMappings fundingReq auditOutbox auditSeqCounters
    inflightWithdrawals] in *.

(** [same_store]: the relation of methods that leave the tables alone. *)
Definition same_store (w w' : World) : Prop := store w = store w'.

#[export] Instance same_store_preorder : PreOrder same_store.
Proof. split; unfold same_store; [done|]. intros ???; congruence. Qed.

(** [on_store f R]: relate the part [f] of the store before and after. *)
Definition on_store {A} (f : Store → A) (R : relation A) : relation World :=
  λ w w', R (f (store w)) (f (store w')).

#[export] Instance on_store_preorder {A} (f : Store → A) (R : relation A) :
  PreOrder R → PreOrder (on_store f R).
Proof.
  intros HR. split; unfold on_store.
  - intros w. reflexivity.
  - intros x y z Hxy Hyz. by etrans.
Qed.

(** [unchanged f]: the part [f] of the store is as it was. *)
Definition unchanged {A} (f : Store → A) : relation World :=
  λ w w', f (store w') = f (store w).

#[export] Instance unchanged_preorder {A} (f : Store → A) :
  PreOrder (unchanged f).
Proof. split; unfold unchanged; [done|]. intros ???; congruence. Qed.

(** [inv_rel I]: the relation of methods that preserve the invariant [I]. *)
Definition inv_rel {S} (I : S → Prop) : relation S := λ w w', I w → I w'.

#[export] Instance inv_rel_preorder {S} (I : S → Prop) : PreOrder (inv_rel I).
Proof. split; unfold inv_rel; auto. Qed.

(** ** Relations that only look at the store

    Reading the clock, drawing a UUID or taking a lock is within every relation
    on the store and the trace ([FrameRel]); talking to an outside service as
    well is within every relation on the store alone ([StoreRel]). *)
Class FrameRel (R : relation World) : Prop := {
  frame_rel_preorder :: PreOrder R;
  frame_rel_same w w' : store w' = store w → trace w' = trace w → R w w'
}.

Class StoreRel (R : relation World) : Prop := {
  store_rel_preorder :: PreOrder R;
  store_rel_same w w' : store w' = store w → R w w'
}.

#[export] Instance store_frame_rel R : StoreRel R → FrameRel R.
Proof. intros HR. split; [apply _|]. intros w w' Hs _. by apply store_rel_same. Qed.

#[export] Instance unchanged_store_rel {A} (f : Store → A) : StoreRel (unchanged f).
Proof. split; [apply _|]. unfold unchanged. congruence. Qed.

#[export] Instance on_store_store_rel {A} (f : Store → A) (R : relation A) :
  PreOrder R → StoreRel (on_store f R).
Proof.
  intros HR. split; [apply _|]. unfold on_store. intros w w' ->. reflexivity.
Qed.

#[export] Instance inv_rel_store_rel (I : Store → Prop) :
  StoreRel (inv_rel (λ w, I (store w))).
Proof. split; [apply _|]. unfold inv_rel. by intros w w' ->. Qed.

Section store_rel.
Context `{Environment} (R : relation World) `{!FrameRel R}.

Lemma within_time_Now : within R time_Now.
Proof. intros w. by apply frame_rel_same. Qed.

Lemma within_uuid_New : within R uuid_New.
Proof. intros w. by apply frame_rel_same. Qed.

Lemma within_upd_store f : (∀ w, R w (set_store (f (store w)) w)) → within R (upd_store f).
Proof. intros Hf w. apply Hf. Qed.

Lemma within_get_store : within R get_store.
Proof. apply within_gets, _. Qed.

Lemma within_set_depth d : within R (modify (set_depth d)).
Proof. intros w. by apply frame_rel_same. Qed.

Lemma within_set_cache f : within R (modify (λ w, set_cache (f w) w)).
Proof. intros w. by apply frame_rel_same. Qed.

Lemma within_set_locks f : within R (modify (λ w, set_locks (f w) w)).
Proof. intros w. by apply frame_rel_same. Qed.
End store_rel.

Lemma within_ask (R : relation World) `{!StoreRel R} {Q A} mk f (q : Q) :
  within R (ask (R := A) mk f q).
Proof. intros w. by apply store_rel_same. Qed.

#[export] Hint Resolve within_time_Now within_uuid_New within_ask within_get_store
  within_set_depth within_set_locks within_set_cache : within.

(** [ignores set R]: [R] does not see the table written by [set]. *)
Definition ignores {X} (set : Store → X → Store) (R : relation World) : Prop :=
  ∀ w x, R w (set_store (set (store w) x) w).

(** Closed by computation for [unchanged] of another table. *)
#[export] Hint Extern 1 (ignores _ _) =>
  (intros ? ?; reflexivity) : within typeclass_instances.

Lemma within_set_table {X} (set : Store → X → Store) (R : relation World) (g : Store → X) :
  ignores set R → within R (upd_store (λ s, set s (g s))).
Proof. intros Hi w. apply Hi. Qed.

#[export] Hint Resolve within_set_table : within.
