(* ===== verification/Reference.v ===== *)
(** * Reference: concrete instances of the interfaces

    One iteration order and sorting function, one UUID text form, one clock:
    they show that the classes of [GoLang] and [World] are inhabited and let
    the witnesses of the theorems run by computation. *)
From stdpp Require Import base tactics list gmap strings numbers sorting.
From Stdlib Require Import ZArith Lia Ascii.
From S2P Require Import Prelude.
From S2P Require Import GoLang.
From S2P Require Import World.

#[local] Open Scope Z_scope.

(** ** Sorting: insertion sort, stable *)
Section insertion_sort.
Context {A : Type} (lt : A → A → bool).

Fixpoint insert_sorted (x : A) (l : list A) : list A :=
  match l with
  | [] => [x]
  | y :: l' => if lt y x then y :: insert_sorted x l' else x :: l
  end.

Definition insertion_sort (l : list A) : list A := foldr insert_sorted [] l.

Lemma insert_sorted_perm x l : insert_sorted x l ≡ₚ x :: l.
Proof.
  induction l as [|y l IH]; simpl; [done|].
  destruct (lt y x); [|done]. rewrite IH. constructor.
Qed.

Lemma insertion_sort_perm l : insertion_sort l ≡ₚ l.
Proof.
  induction l as [|x l IH]; simpl; [done|].
  rewrite insert_sorted_perm. by constructor.
Qed.

Lemma insert_sorted_sorted x l :
  strict_weak lt →
  StronglySorted (λ x y, lt y x = false) l →
  StronglySorted (λ x y, lt y x = false) (insert_sorted x l).
Proof.
  intros [Hirr Htr Hneg] Hs. induction Hs as [|y l Hs IH Hall]; simpl.
  - repeat constructor.
  - destruct (lt y x) eqn:Hyx.
    + constructor; [done|]. rewrite insert_sorted_perm. constructor; [|done].
      destruct (lt x y) eqn:Hxy; [|done].
      rewrite <-(Hirr x). by rewrite (Htr x y x).
    + constructor; [by constructor|]. constructor; [done|].
      eapply Forall_impl; [exact Hall|]. simpl. intros z Hzy.
      destruct (lt z x) eqn:Hzx; [|done].
      destruct (Hneg z y x Hzx) as [?|?]; congruence.
Qed.

Lemma insertion_sort_sorted l :
  strict_weak lt → StronglySorted (λ x y, lt y x = false) (insertion_sort l).
Proof.
  intros Hsw. induction l; simpl; [constructor|by apply insert_sorted_sorted].
Qed.
End insertion_sort.

Definition ref_runtime : GoRuntime := {|
  range_map _ _ _ _ m := map_to_list m;
  range_map_perm _ _ _ _ m := reflexivity _;
  sort_Slice _ lt l := insertion_sort lt l;
  sort_Slice_perm _ lt l := insertion_sort_perm lt l;
  sort_Slice_sorted _ lt l := insertion_sort_sorted lt l
|}.

(** ** UUID text: 8-4-4-4-12 lower-case hex digits *)
Definition hex_digits : list Ascii.ascii := String.list_ascii_of_string "0123456789abcdef".

Definition hex_char (d : Z) : Ascii.ascii :=
  default Ascii.zero (hex_digits !! Z.to_nat d).

Definition hex_value (c : Ascii.ascii) : Z :=
  default 0 (Z.of_nat ∘ fst <$> list_find (c =.) hex_digits).

(** Little-endian base-16 digits. *)
Fixpoint nibbles (n : nat) (z : Z) : list Z :=
  match n with
  | O => []
  | S n => z mod 16 :: nibbles n (z / 16)
  end.

Definition of_nibbles (l : list Z) : Z := foldr (λ d acc, d + 16 * acc) 0 l.

Lemma of_nibbles_nibbles n z : of_nibbles (nibbles n z) = z mod 16 ^ Z.of_nat n.
Proof.
  revert z. induction n as [|n IH]; intros z; simpl.
  - by rewrite Z.mod_1_r.
  - rewrite IH. replace (Z.of_nat (S n)) with (1 + Z.of_nat n) by lia.
    rewrite Z.pow_add_r, Z.pow_1_r by lia.
    rewrite (Z.rem_mul_r z 16) by lia. lia.
Qed.

Lemma nibbles_range n z : Forall (λ d, 0 ≤ d < 16) (nibbles n z).
Proof.
  revert z. induction n as [|n IH]; intros z; simpl; constructor; auto.
  apply Z.mod_pos_bound. lia.
Qed.

Lemma nibbles_length n z : length (nibbles n z) = n.
Proof. revert z. induction n; simpl; auto. Qed.

Lemma hex_char_spec d :
  0 ≤ d < 16 → hex_value (hex_char d) = d ∧ hex_char d ≠ "-"%char.
Proof.
  intros Hd. assert (d ∈ (seqZ 0 16)) as Hin by (apply elem_of_seqZ; lia).
  clear Hd. revert d Hin. apply Forall_forall.
  apply (bool_decide_unpack _). vm_compute. exact I.
Qed.

Definition uuid_chars (u : uuid) : list Ascii.ascii :=
  hex_char <$> nibbles 32 (uuid_bits u).

Definition ref_uuid_String (u : uuid) : string :=
  let l := uuid_chars u in
  String.string_of_list_ascii
    (take 8 l ++ ["-"%char] ++ take 4 (drop 8 l) ++ ["-"%char] ++
     take 4 (drop 12 l) ++ ["-"%char] ++ take 4 (drop 16 l) ++ ["-"%char] ++
     drop 20 l).

Definition ref_uuid_Parse (s : string) : result uuid :=
  let l := List.filter (λ c, negb (bool_decide (c = "-"%char)))
    (String.list_ascii_of_string s) in
  if bool_decide (length l = 32%nat)
  then Ok (uuid_of_Z (of_nibbles (hex_value <$> l)))
  else Err (ErrNew "invalid UUID length").

Definition not_dash (c : Ascii.ascii) : bool := negb (bool_decide (c = "-"%char)).

Lemma filter_all {A} (f : A → bool) l :
  Forall (λ x, f x = true) l → List.filter f l = l.
Proof. induction 1 as [|x l Hx Hl IH]; simpl; [done|]. by rewrite Hx, IH. Qed.

Lemma uuid_chars_no_dash u : Forall (λ c, not_dash c = true) (uuid_chars u).
Proof.
  apply Forall_fmap. eapply Forall_impl; [apply nibbles_range|].
  intros d Hd. unfold not_dash, compose.
  by rewrite bool_decide_false by (by apply hex_char_spec).
Qed.

Lemma uuid_chars_length u : length (uuid_chars u) = 32%nat.
Proof. unfold uuid_chars. by rewrite length_fmap, nibbles_length. Qed.

(** The five groups, dashes dropped, are the digits again. *)
Lemma groups_concat {A} (l : list A) :
  take 8 l ++ take 4 (drop 8 l) ++ take 4 (drop 12 l) ++ take 4 (drop 16 l) ++
  drop 20 l = l.
Proof.
  change 20%nat with (16 + 4)%nat at 1. rewrite <-drop_drop, take_drop.
  change 16%nat with (12 + 4)%nat at 1. rewrite <-drop_drop, take_drop.
  change 12%nat with (8 + 4)%nat at 1. rewrite <-drop_drop, take_drop.
  apply take_drop.
Qed.

Lemma ref_uuid_roundtrip u : ref_uuid_Parse (ref_uuid_String u) = Ok u.
Proof.
  unfold ref_uuid_Parse, ref_uuid_String.
  rewrite String.list_ascii_of_string_of_list_ascii, !List.filter_app.
  pose proof (uuid_chars_no_dash u) as Hd.
  change (λ c : ascii, negb (bool_decide (c = "-"%char))) with not_dash.
  assert (List.filter not_dash ["-"%char] = []) as Hdash by done.
  rewrite Hdash, !app_nil_l.
  rewrite !filter_all by auto using Forall_take, Forall_drop.
  rewrite groups_concat, uuid_chars_length, bool_decide_true by done. f_equal.
  rewrite <-(uuid_of_Z_bits u) at 2. f_equal.
  unfold uuid_chars. rewrite <-list_fmap_compose.
  rewrite (list_fmap_ext _ id).
  - rewrite list_fmap_id, of_nibbles_nibbles. pose proof (uuid_wf u) as Hb.
    apply andb_prop in Hb. rewrite Z.mod_small; lia.
  - intros i d Hi. pose proof (nibbles_range 32 (uuid_bits u)) as Hr.
    rewrite Forall_lookup in Hr. by apply hex_char_spec, (Hr i).
Qed.

Lemma string_of_list_length l :
  String.length (String.string_of_list_ascii l) = length l.
Proof. induction l; simpl; auto. Qed.

Lemma ref_uuid_length u : String.length (ref_uuid_String u) = 36%nat.
Proof.
  unfold ref_uuid_String. rewrite string_of_list_length, !length_app.
  rewrite !length_take, !length_drop, uuid_chars_length. reflexivity.
Qed.

Definition ref_uuid : UUIDLib := {|
  uuid_String := ref_uuid_String;
  uuid_Parse := ref_uuid_Parse;
  uuid_Parse_String := ref_uuid_roundtrip;
  uuid_String_length := ref_uuid_length
|}.

(** ** A clock that advances one second per reading, counting UUIDs from 1000 *)
Definition ref_env : Environment := {|
  clock n := 1000000000 * (Z.of_nat n + 1);
  new_uuid n := uuid_of_Z (Z.of_nat n + 1000)
|}.

(** ** The order of strings is a strict weak order *)
Lemma string_lt_strict_weak : strict_weak string_lt.
Proof.
  split.
  - intros x. induction x as [|a x IH]; simpl; [done|]. by rewrite N.compare_refl.
  - intros x. induction x as [|a x IH]; intros [|b y] [|c z]; simpl; try done.
    destruct (N.compare_spec (N_of_ascii a) (N_of_ascii b)) as [H1|H1|H1],
      (N.compare_spec (N_of_ascii b) (N_of_ascii c)) as [H2|H2|H2], 
      (N.compare_spec (N_of_ascii a) (N_of_ascii c)) as [H3|H3|H3];
      try done; try lia. apply IH.
  - intros x. induction x as [|a x IH]; intros [|b y] [|c z]; simpl; try done; auto.
    destruct (N.compare_spec (N_of_ascii a) (N_of_ascii b)) as [H1|H1|H1],
      (N.compare_spec (N_of_ascii b) (N_of_ascii c)) as [H2|H2|H2], 
      (N.compare_spec (N_of_ascii a) (N_of_ascii c)) as [H3|H3|H3];
      try done; try lia; auto.
Qed.
