(* ===== verification/Decimal.v ===== *)
(** * Decimal: the arbitrary-precision decimals money is kept in

    [github.com/shopspring/decimal] is not part of the sources: it is a
    parameter with the behaviour its documentation states, over the exact
    rational value of a decimal.  [parseDec] and [formatDec] are the helpers
    the [balance], [utxo] and [funding] packages each define. *)
From stdpp Require Import base tactics strings numbers pretty.
From Stdlib Require Import ZArith QArith Lqa Lia.
From S2P Require Import Prelude.
From S2P Require Import GoLang.
From S2P Require Import GoText.
From S2P Require Import Domain.

#[local] Open Scope string_scope.
#[local] Open Scope Z_scope.

Class DecimalLib : Type := {
  decimal : Type;
  dec_value : decimal → Q;
  dec_Zero : decimal;
  dec_NewFromString : string → result decimal;
  dec_String : decimal → string;
  dec_Add : decimal → decimal → decimal;
  dec_Sub : decimal → decimal → decimal;
  dec_Cmp : decimal → decimal → comparison;
  dec_IntPart : decimal → Z;

  dec_Zero_value : (dec_value dec_Zero == 0)%Q;
  dec_Add_value a b : (dec_value (dec_Add a b) == dec_value a + dec_value b)%Q;
  dec_Sub_value a b : (dec_value (dec_Sub a b) == dec_value a - dec_value b)%Q;
  dec_Cmp_value a b : dec_Cmp a b = (dec_value a ?= dec_value b)%Q;
  (** [NewFromString] reads back what [String] prints. *)
  dec_roundtrip d : ∃ d', dec_NewFromString (dec_String d) = Ok d' ∧
    (dec_value d' == dec_value d)%Q;
  dec_String_nonempty d : dec_String d ≠ "";
  (** The integer part of an integer that fits in an [int64] is itself. *)
  dec_IntPart_integer d z : (dec_value d == inject_Z z)%Q → in_int64 z →
    dec_IntPart d = z
}.

Section decimal.
Context `{DecimalLib}.

Definition dec_GreaterThan (a b : decimal) : bool :=
  match dec_Cmp a b with Gt => true | _ => false end.
Definition dec_GreaterThanOrEqual (a b : decimal) : bool :=
  match dec_Cmp a b with Lt => false | _ => true end.
Definition dec_LessThan (a b : decimal) : bool :=
  match dec_Cmp a b with Lt => true | _ => false end.
Definition dec_IsNegative (a : decimal) : bool := dec_LessThan a dec_Zero.

Definition parseDec (s : string) : decimal :=
  if s =s "" then dec_Zero
  else match dec_NewFromString s with
       | Err _ => dec_Zero
       | Ok d => d
       end.

Definition formatDec (d : decimal) : string := dec_String d.

(** The rational a money column stands for. *)
Definition money (s : string) : Q := dec_value (parseDec s).

Lemma dec_GreaterThan_spec a b :
  dec_GreaterThan a b = true ↔ (dec_value b < dec_value a)%Q.
Proof.
  unfold dec_GreaterThan. rewrite dec_Cmp_value, Qgt_alt.
  by destruct (_ ?= _)%Q.
Qed.

Lemma dec_LessThan_spec a b :
  dec_LessThan a b = true ↔ (dec_value a < dec_value b)%Q.
Proof.
  unfold dec_LessThan. rewrite dec_Cmp_value, Qlt_alt. by destruct (_ ?= _)%Q.
Qed.

Lemma dec_GreaterThanOrEqual_spec a b :
  dec_GreaterThanOrEqual a b = true ↔ (dec_value b <= dec_value a)%Q.
Proof.
  unfold dec_GreaterThanOrEqual. rewrite dec_Cmp_value, Qge_alt.
  by destruct (_ ?= _)%Q.
Qed.

Lemma dec_IsNegative_spec a : dec_IsNegative a = true ↔ (dec_value a < 0)%Q.
Proof.
  unfold dec_IsNegative. rewrite dec_LessThan_spec, dec_Zero_value. done.
Qed.

Lemma dec_GreaterThan_false a b :
  dec_GreaterThan a b = false ↔ (dec_value a <= dec_value b)%Q.
Proof. rewrite <-not_true_iff_false, dec_GreaterThan_spec. split; lra. Qed.

Lemma dec_LessThan_false a b :
  dec_LessThan a b = false ↔ (dec_value b <= dec_value a)%Q.
Proof. rewrite <-not_true_iff_false, dec_LessThan_spec. split; lra. Qed.

Lemma dec_GreaterThanOrEqual_false a b :
  dec_GreaterThanOrEqual a b = false ↔ (dec_value a < dec_value b)%Q.
Proof. rewrite <-not_true_iff_false, dec_GreaterThanOrEqual_spec. split; lra. Qed.

Lemma dec_IsNegative_false a : dec_IsNegative a = false ↔ (0 <= dec_value a)%Q.
Proof. rewrite <-not_true_iff_false, dec_IsNegative_spec. split; lra. Qed.

(** What is written to a money column is read back with its value. *)
Lemma money_format d : (money (formatDec d) == dec_value d)%Q.
Proof.
  unfold money, parseDec, formatDec.
  rewrite bool_decide_false by apply dec_String_nonempty.
  by destruct (dec_roundtrip d) as (d' & -> & Hd).
Qed.

Lemma money_empty : (money "" == 0)%Q.
Proof. unfold money, parseDec. simpl. apply dec_Zero_value. Qed.

Lemma dec_greater_strict_weak {A} (f : A → decimal) :
  strict_weak (λ x y, dec_GreaterThan (f x) (f y)).
Proof.
  split.
  - intros x. apply dec_GreaterThan_false. lra.
  - intros x y z. rewrite !dec_GreaterThan_spec. lra.
  - intros x y z. rewrite !dec_GreaterThan_spec. intros Hxz.
    destruct (Qlt_le_dec (dec_value (f y)) (dec_value (f x))); [by left|right; lra].
Qed.
End decimal.

(** ** A reference instance: whole numbers *)
Definition ref_NewFromString (s : string) : result Z :=
  match big_SetString s with
  | Some z => Ok z
  | None => Err (ErrNew "can't convert to decimal")
  end.

Lemma pretty_Z_nonempty (z : Z) : pretty z ≠ "".
Proof. intros Hz. pose proof (big_SetString_pretty z) as Hs. by rewrite Hz in Hs. Qed.

#[local] Obligation Tactic := idtac.

#[program] Definition ref_decimal : DecimalLib := {|
  decimal := Z;
  dec_value := inject_Z;
  dec_Zero := 0;
  dec_NewFromString := ref_NewFromString;
  dec_String := λ z : Z, pretty z;
  dec_Add := Z.add;
  dec_Sub := Z.sub;
  dec_Cmp := Z.compare;
  dec_IntPart := int64
|}.
Next Obligation. done. Qed.
Next Obligation. intros a b. simpl. by rewrite inject_Z_plus. Qed.
Next Obligation.
  intros a b. simpl. unfold Z.sub. by rewrite inject_Z_plus, inject_Z_opp.
Qed.
Next Obligation.
  intros a b. simpl. unfold inject_Z, Qcompare. simpl. by rewrite !Z.mul_1_r.
Qed.
Next Obligation.
  intros d. exists d. unfold ref_NewFromString. by rewrite big_SetString_pretty.
Qed.
Next Obligation. intros d. apply pretty_Z_nonempty. Qed.
Next Obligation.
  intros d z Hd Hz. simpl in *. rewrite (proj1 (inject_Z_injective _ _) Hd).
  by apply int64_id.
Qed.
