(* ===== verification/TxBuilder.v ===== *)
(** * TxBuilder: Bitcoin, Solana and the dispatch of
    [internal/withdrawal/txbuilder.go] *)
From stdpp Require Import base tactics list gmap strings numbers pretty.
From Stdlib Require Import ZArith QArith Lia Ascii.
From S2P Require Import Prelude.
From S2P Require Import GoLang.
From S2P Require Import GoText.
From S2P Require Import GoBytes.
From S2P Require Import Crypto.
From S2P Require Import Rlp.
From S2P Require Import Domain.
From S2P Require Import Evm.
From S2P Require Import World.
From S2P Require Import Reference.
From S2P Require Import Decimal.

#[local] Open Scope string_scope.
#[local] Open Scope list_scope.
#[local] Open Scope Z_scope.

(** [PubKeyHash] and [From] are arrays, all zero when unset;
    [CompressedPubKey] is empty when [nil]. *)
Record BTCKeys : Type := MkBTCKeys {
  bk_PubKeyHash : list byte;
  bk_CompressedPubKey : list byte
}.

Record SolanaKeys : Type := MkSolanaKeys { sk_From : list byte }.

Definition zero_BTCKeys : BTCKeys := MkBTCKeys (replicate 20 0) [].
Definition zero_SolanaKeys : SolanaKeys := MkSolanaKeys (replicate 32 0).

Record BuildOpts : Type := MkBuildOpts {
  bo_BTC : BTCKeys;
  bo_Solana : SolanaKeys;
  bo_SolanaBlockhash : option (Go (list byte))
}.

Section builder.
Context `{UUIDLib} `{DecimalLib} `{CryptoLib}.

(** ** Bitcoin *)
Definition parseOutpoint (s : string) : result OutPoint :=
  match strings_Cut ":" s with
  | None => Err (ErrNew "outpoint must be txid:vout")
  | Some (p0, p1) =>
      txid ← wrap_result "parse txid" (NewHashFromStr p0);
      vout ← wrap_result "parse vout" (strconv_ParseUint 32 p1);
      Ok (MkOutPoint txid vout)
  end.

Definition btcAddrScript (addr : string) : result (list byte) :=
  a ← DecodeAddress addr;
  PayToAddrScript a.

(** A panic ends the computation like an error. *)
Definition mustP2WPKHAddr (hash : list byte) : result BTCAddress :=
  match NewAddressWitnessPubKeyHash hash with
  | Err _ => Err (ErrNew "panic")
  | Ok a => Ok a
  end.

(** [for _, x := range l] collecting results, stopping at the first error. *)
Fixpoint map_result {A B} (f : A → result B) (l : list A) : result (list B) :=
  match l with
  | [] => Ok []
  | x :: l => y ← f x; ys ← map_result f l; Ok (y :: ys)
  end.

Definition btc_input (op : string) : result TxIn :=
  o ← wrap_result ("btc outpoint " +:+ quote op) (parseOutpoint op);
  Ok (MkTxIn o [] 0xfffffffd).

Definition SigHashAll : Z := 1.

(** The witness of input [i]: 64 bytes of the signature, the sighash type, and
    the public key. *)
Definition btc_witness (signature pub : list byte) (i : nat) (ti : TxIn) : TxIn :=
  MkTxIn (ti_PreviousOutPoint ti)
    [take 64 (drop (i * 64) signature) ++ [SigHashAll]; pub] (ti_Sequence ti).

Definition btc_assemble (tx : MsgTx) (pub signature : list byte) : result (list byte) :=
  let n := length (mt_TxIn tx) in
  if (Z.of_nat (length signature) <? 64 * Z.of_nat n) then
    Err (ErrNew ("btc: signature too short (" +:+ pretty (length signature) +:+
      " bytes for " +:+ pretty n +:+ " inputs)"))
  else
    wrap_result "btc serialize" (MsgTx_Serialize
      (MkMsgTx (mt_Version tx) (imap (btc_witness signature pub) (mt_TxIn tx))
        (mt_TxOut tx))).

Definition buildBTCUnsignedTx (w : Wallet) (wr : WithdrawalRequest)
    (outpoints : list string) (opts : BuildOpts) : result UnsignedTx :=
  if bool_decide (length outpoints = 0%nat) then
    Err (ErrNew "btc: no reserved outpoints")
  else
    amount ← wrap_result "btc amount parse" (dec_NewFromString (wr_Amount wr));
    let satoshis := dec_IntPart amount in
    toScript ← wrap_result "btc to_address" (btcAddrScript (wr_ToAddress wr));
    let pkHash := bk_PubKeyHash (bo_BTC opts) in
    let witnessPub :=
      if bool_decide (bk_CompressedPubKey (bo_BTC opts) = []) then replicate 33 0
      else bk_CompressedPubKey (bo_BTC opts) in
    let perInputAmount := Z.quot satoshis (Z.of_nat (length outpoints)) in
    a ← mustP2WPKHAddr pkHash;
    let pkScript := match PayToAddrScript a with Ok s => s | Err _ => [] end in
    txIn ← map_result btc_input outpoints;
    let tx := MkMsgTx 2 txIn [MkTxOut satoshis toScript] in
    hashes ← map_result (λ i,
      wrap_result ("sighash input " +:+ pretty i)
        (CalcWitnessSigHash pkScript tx i perInputAmount)) (seq 0 (length txIn));
    Ok (MkUnsignedTx ChainBitcoin (concat hashes) (btc_assemble tx witnessPub)).

(** ** Solana *)
Definition system_program_text : string := "11111111111111111111111111111111".

Definition decodeSolanaPubkey (s : string) : result (list byte) :=
  let dec := base58_Decode s in
  if bool_decide (length dec = 0%nat) && negb (s =s system_program_text) then
    Err (ErrNew ("base58 decode " +:+ quote s))
  else if negb (bool_decide (length dec = 32%nat)) then
    Err (ErrNew ("pubkey " +:+ quote s +:+ " must be 32 bytes, got " +:+
      pretty (length dec)))
  else Ok dec.

(** Decoded when the package is initialised; a failure there is a panic. *)
Definition solanaSystemProgram : list byte :=
  match decodeSolanaPubkey system_program_text with Ok b => b | Err _ => [] end.

Definition buildSolanaMessage (from to : list byte) (lamports : Z)
    (blockhash : list byte) : list byte :=
  let ixData := [2] ++ le_bytes 8 lamports in
  let header := [1; 0; 1] in
  let accounts := [from; to; solanaSystemProgram] in
  header ++ [Z.of_nat (length accounts) mod 256] ++ concat accounts ++ blockhash ++
  [1; 2; 2; 0; 1] ++ [Z.of_nat (length ixData) mod 256] ++ ixData.

Definition buildSolanaTransaction (message : list byte) (signatures : list (list byte)) :
    list byte :=
  [Z.of_nat (length signatures) mod 256] ++ concat signatures ++ message.

Definition placeholder_blockhash : list byte :=
  Sha256 (string_bytes "solana-recent-blockhash-placeholder").

Definition fetch_blockhash (opts : BuildOpts) : Go (list byte) :=
  match bo_SolanaBlockhash opts with
  | None => mret placeholder_blockhash
  | Some fetch =>
      r ← attempt fetch;
      match r with
      | Ok fetched => mret fetched
      | Err e =>
          if errors_Is e ErrNoSolanaRPC then mret placeholder_blockhash
          else throw (ErrWrap "solana: fetch recent blockhash" e)
      end
  end.

Definition buildSolanaUnsignedTx (w : Wallet) (wr : WithdrawalRequest)
    (opts : BuildOpts) : Go UnsignedTx :=
  let from :=
    if bool_decide (sk_From (bo_Solana opts) = replicate 32 0)
    then Sha256 (string_bytes (uuid_String (wr_WalletID wr)))
    else sk_From (bo_Solana opts) in
  to ← of_result (wrap_result "solana to_address" (decodeSolanaPubkey (wr_ToAddress wr)));
  lamports ← of_result (wrap_result "solana amount parse"
    (strconv_ParseUint 64 (wr_Amount wr)));
  blockhash ← fetch_blockhash opts;
  let msg := buildSolanaMessage from to lamports blockhash in
  mret (MkUnsignedTx ChainSolana msg (λ signature,
    if negb (bool_decide (length signature = 64%nat)) then
      Err (ErrNew ("solana: signature must be 64 bytes, got " +:+ pretty (length signature)))
    else Ok (buildSolanaTransaction msg [signature]))).

(** ** Dispatch *)
Definition BuildUnsignedTx (w : Wallet) (wr : WithdrawalRequest) (nonce : Z)
    (outpoints : list string) (opts : BuildOpts) : Go UnsignedTx :=
  if IsEVM (w_Chain w) then of_result (buildEVMUnsignedTx w wr nonce)
  else if w_Chain w =s ChainBitcoin then
    of_result (buildBTCUnsignedTx w wr outpoints opts)
  else if w_Chain w =s ChainSolana then buildSolanaUnsignedTx w wr opts
  else throw (ErrNew ("unsupported chain " +:+ quote (w_Chain w))).
End builder.

(** ** Theorems *)
Section theorems.
Context `{UUIDLib} `{DecimalLib} `{CryptoLib}.

Lemma map_result_Forall2 {A B} (f : A → result B) l ys :
  map_result f l = Ok ys ↔ Forall2 (λ x y, f x = Ok y) l ys.
Proof.
  revert ys. induction l as [|x l IH]; intros ys; simpl.
  - split; [by intros [= <-]|by inversion_clear 1].
  - unfold mbind, result_bind. split.
    + destruct (f x) as [y|] eqn:Hx; [|done]. destruct (map_result f l) eqn:Hl; [|done].
      intros [= <-]. constructor; [done|]. by apply IH.
    + inversion 1 as [|? y ? ys' Hx Hl]; subst. rewrite Hx.
      by apply IH in Hl as ->.
Qed.

Lemma btc_input_outpoint op ti :
  btc_input op = Ok ti → parseOutpoint op = Ok (ti_PreviousOutPoint ti).
Proof.
  unfold btc_input. destruct (parseOutpoint op) as [o|]; simpl; [|done].
  by intros [= <-].
Qed.

(** The inputs before signing. *)
Lemma unsigned_inputs ops ins :
  Forall2 (λ op ti, btc_input op = Ok ti) ops ins →
  Forall2 (λ op ti, ∃ o, parseOutpoint op = Ok o ∧ ti = MkTxIn o [] 0xfffffffd) ops ins.
Proof.
  intros HF. eapply Forall2_impl; [exact HF|]. intros op ti. unfold btc_input.
  destruct (parseOutpoint op) as [o|]; simpl; [|done]. intros [= <-]. by exists o.
Qed.

(** C24. A Bitcoin withdrawal spends exactly its reserved outpoints, in order, and pays
    the whole part of the amount to the recipient in a single output.  What is signed
    is, per input, the witness signature hash of that very transaction, for an output
    of the wallet's key hash (version 0 and the twenty bytes) and for an equal share of
    the amount, which is the value the source takes each input to have.  The assembled
    transaction is the one that was hashed, input by input with its outpoint and its
    sequence, with the input's own 64 bytes of the signature, the sighash type and the
    public key (33 zeros when none was resolved) as witness.  A signature too short for
    the inputs is refused. *)
Theorem buildBTCUnsignedTx_correct w wr ops opts u :
  length (bk_PubKeyHash (bo_BTC opts)) = 20%nat →
  buildBTCUnsignedTx w wr ops opts = Ok u →
  ∃ amount script ins hashes,
    let tx inputs := MkMsgTx 2 inputs [MkTxOut (dec_IntPart amount) script] in
    let pub := if bool_decide (bk_CompressedPubKey (bo_BTC opts) = []) then replicate 33 0
               else bk_CompressedPubKey (bo_BTC opts) in
    dec_NewFromString (wr_Amount wr) = Ok amount ∧
    btcAddrScript (wr_ToAddress wr) = Ok script ∧
    Forall2 (λ op ti, ∃ o, parseOutpoint op = Ok o ∧ ti = MkTxIn o [] 0xfffffffd) ops ins ∧
    ut_Payload u = concat hashes ∧
    Forall2 (λ i h, CalcWitnessSigHash (0 :: 20 :: bk_PubKeyHash (bo_BTC opts)) (tx ins) i
        (Z.quot (dec_IntPart amount) (Z.of_nat (length ops))) = Ok h)
      (seq 0 (length ops)) hashes ∧
    ∀ sig, if decide (length ops * 64 ≤ length sig)%nat
      then ut_Assemble u sig = wrap_result "btc serialize" (MsgTx_Serialize (tx
        (imap (λ i ti, MkTxIn (ti_PreviousOutPoint ti)
          [take 64 (drop (i * 64) sig) ++ [1]; pub] (ti_Sequence ti)) ins)))
      else ∃ e, ut_Assemble u sig = Err e.
Proof.
  intros Hpk. unfold buildBTCUnsignedTx. case_bool_decide; [done|].
  destruct (dec_NewFromString _) as [amount|] eqn:Ha; simpl; [|done].
  destruct (btcAddrScript _) as [script|] eqn:Hs; simpl; [|done].
  destruct (WitnessPubKeyHash_script _ Hpk) as (a & Hna & Hscript).
  unfold mustP2WPKHAddr. rewrite Hna. simpl. rewrite Hscript.
  destruct (map_result btc_input ops) as [ins|] eqn:Hi; simpl; [|done].
  destruct (map_result _ (seq _ _)) as [hs|] eqn:Hh; simpl; [|done]. intros [= <-].
  apply map_result_Forall2 in Hi, Hh. pose proof (Forall2_length _ _ _ Hi) as Hlen.
  exists amount, script, ins, hs. simpl. split_and!; [done|done|by apply unsigned_inputs|done|..].
  - rewrite <- Hlen in Hh. eapply Forall2_impl; [exact Hh|]. intros i h Hw.
    simpl in Hw. destruct (CalcWitnessSigHash _ _ _ _) eqn:Hc in Hw; [|done].
    injection Hw as <-. exact Hc.
  - intros sig. unfold btc_assemble. simpl. rewrite <- Hlen. case_decide.
    + by rewrite (proj2 (Z.ltb_ge _ _)) by lia.
    + rewrite (proj2 (Z.ltb_lt _ _)) by lia. by eexists.
Qed.

(** *** Solana *)

(** The wire format of a legacy message, read by an independent parser: three bytes of
    header, and lengths in the variable-length form of Solana (seven bits a byte, at
    most three bytes). *)
Record Instruction : Type := MkInstruction {
  ix_program : Z;
  ix_accounts : list byte;
  ix_data : list byte
}.

Record Message : Type := MkMessage {
  msg_header : list byte;
  msg_keys : list (list byte);
  msg_blockhash : list byte;
  msg_instructions : list Instruction
}.

Definition Parser (A : Type) : Type := list byte → option (A * list byte).

Definition p_take (n : nat) : Parser (list byte) := λ l,
  if bool_decide (n ≤ length l)%nat then Some (take n l, drop n l) else None.

Definition p_byte : Parser byte := λ l,
  match l with b :: l => Some (b, l) | [] => None end.

Definition p_length : Parser nat := λ l,
  '(b0, l) ← p_byte l;
  if b0 <? 128 then Some (Z.to_nat b0, l) else
  '(b1, l) ← p_byte l;
  if b1 <? 128 then Some (Z.to_nat (b0 - 128 + 128 * b1), l) else
  '(b2, l) ← p_byte l;
  Some (Z.to_nat (b0 - 128 + 128 * (b1 - 128) + 16384 * b2), l).

Fixpoint p_many {A} (p : Parser A) (n : nat) : Parser (list A) := λ l,
  match n with
  | O => Some ([], l)
  | S n => '(x, l) ← p l; '(xs, l) ← p_many p n l; Some (x :: xs, l)
  end.

Definition p_instruction : Parser Instruction := λ l,
  '(prog, l) ← p_byte l;
  '(n, l) ← p_length l; '(accounts, l) ← p_take n l;
  '(n, l) ← p_length l; '(data, l) ← p_take n l;
  Some (MkInstruction prog accounts data, l).

Definition parse_message (l : list byte) : option Message :=
  '(header, l) ← p_take 3 l;
  '(n, l) ← p_length l; '(keys, l) ← p_many (p_take 32) n l;
  '(blockhash, l) ← p_take 32 l;
  '(n, l) ← p_length l; '(ixs, l) ← p_many p_instruction n l;
  if bool_decide (l = []) then Some (MkMessage header keys blockhash ixs) else None.

(** A transfer as the System Program reads it, and as the comment of
    [buildSolanaMessage] has it: the index 2 as a u32 and the amount as a u64, both
    little-endian. *)
Definition read_transfer (data : list byte) : option Z :=
  if bool_decide (length data = 12%nat) && (le_value (take 4 data) =? 2)
  then Some (le_value (drop 4 data)) else None.

Lemma p_take_app n l k : length l = n → p_take n (l ++ k) = Some (l, k).
Proof.
  intros <-. unfold p_take. rewrite bool_decide_true by (rewrite length_app; lia).
  by rewrite take_app_length, drop_app_length.
Qed.

Lemma solanaSystemProgram_zero : solanaSystemProgram = replicate 32 0.
Proof.
  unfold solanaSystemProgram, decodeSolanaPubkey, system_program_text.
  rewrite base58_Decode_ones. done.
Qed.

Lemma parse_message_build from to lamports blockhash :
  length from = 32%nat → length to = 32%nat → length blockhash = 32%nat →
  parse_message (buildSolanaMessage from to lamports blockhash) =
    Some (MkMessage [1; 0; 1] [from; to; replicate 32 0] blockhash
      [MkInstruction 2 [0; 1] (2 :: le_bytes 8 lamports)]).
Proof.
  intros Hf Ht Hb. unfold buildSolanaMessage. rewrite solanaSystemProgram_zero.
  assert (Z.of_nat (length ([2] ++ le_bytes 8 lamports)) mod 256 = 9) as ->
    by (rewrite length_app, le_bytes_length; done).
  change (Z.of_nat (length [from; to; replicate 32 0]) mod 256) with 3.
  cbn [concat]. rewrite app_nil_r, <-!app_assoc. unfold parse_message.
  rewrite (p_take_app 3 [1; 0; 1]) by done. cbn [mbind option_bind].
  change (p_length ([3] ++ ?l)) with (Some (3%nat, l)). cbn [mbind option_bind p_many].
  rewrite !p_take_app by done. cbn [mbind option_bind].
  rewrite !p_take_app by done. cbn [mbind option_bind].
  rewrite !p_take_app by done. cbn [mbind option_bind].
  rewrite !p_take_app by done. cbn [mbind option_bind].
  change (p_length ([1; 2; 2; 0; 1] ++ ?l)) with (Some (1%nat, [2; 2; 0; 1] ++ l)).
  cbn [mbind option_bind p_many]. unfold p_instruction.
  change (p_byte ([2; 2; 0; 1] ++ ?l)) with (Some (2, 2 :: [0; 1] ++ l)).
  cbn [mbind option_bind]. change (p_length (2 :: ?l)) with (Some (2%nat, l)).
  cbn [mbind option_bind]. rewrite p_take_app by done. cbn [mbind option_bind].
  change (p_length ([9] ++ ?l)) with (Some (9%nat, l)). cbn [mbind option_bind].
  rewrite <-(app_nil_r ([2] ++ le_bytes 8 lamports)), p_take_app
    by (rewrite length_app, le_bytes_length; done).
  reflexivity.
Qed.

Lemma decodeSolanaPubkey_length s b : decodeSolanaPubkey s = Ok b → length b = 32%nat.
Proof.
  unfold decodeSolanaPubkey. destruct (_ && _); [done|].
  case_bool_decide; simpl; [|done]. by intros [= <-].
Qed.

(** C25. A Solana withdrawal signs what it will send.  With a valid recipient, a 64-bit
    amount and a blockhash, the message to sign is a well-formed legacy message, read by
    an independent parser of that format, with the wallet's key (the hash of its id when
    the key is all zeros) as the only signer, and one instruction to the System Program
    over the two accounts; its data are the byte 2 and the amount in eight bytes.  The
    assembled transaction is one 64-byte signature followed by that very message; any
    other signature length is refused.  The instruction is not a transfer in the format
    the source names: a transfer has its index in four bytes, so a reader of that format
    rejects these nine bytes, whatever the amount. *)
Theorem buildSolanaUnsignedTx_correct w wr opts world to lamports bh world' :
  decodeSolanaPubkey (wr_ToAddress wr) = Ok to →
  strconv_ParseUint 64 (wr_Amount wr) = Ok lamports →
  fetch_blockhash opts world = (Ok bh, world') → length bh = 32%nat →
  length (sk_From (bo_Solana opts)) = 32%nat →
  let from := if bool_decide (sk_From (bo_Solana opts) = replicate 32 0)
    then Sha256 (string_bytes (uuid_String (wr_WalletID wr)))
    else sk_From (bo_Solana opts) in
  let data := 2 :: le_bytes 8 lamports in
  ∃ u, buildSolanaUnsignedTx w wr opts world = (Ok u, world') ∧
    parse_message (ut_Payload u) = Some (MkMessage [1; 0; 1] [from; to; replicate 32 0] bh
      [MkInstruction 2 [0; 1] data]) ∧
    le_value (drop 1 data) = lamports ∧ read_transfer data = None ∧
    ∀ sig, if decide (length sig = 64%nat)
      then ut_Assemble u sig = Ok (1 :: sig ++ ut_Payload u)
      else ∃ e, ut_Assemble u sig = Err e.
Proof.
  intros Hto Hlam Hbh Hbl Hfl from data. unfold buildSolanaUnsignedTx.
  rewrite Hto, Hlam. cbn [wrap_result]. unfold mbind, GoM_bind, of_result. rewrite Hbh.
  eexists. split_and!; [done|..].
  - apply parse_message_build; [|by eapply decodeSolanaPubkey_length|done].
    unfold from. case_bool_decide; [apply Sha256_bytes|done].
  - apply strconv_ParseUint_range in Hlam. change (drop 1 data) with (le_bytes 8 lamports).
    rewrite le_value_bytes, Z.mod_small; [done|]. change (256 ^ Z.of_nat 8) with (2 ^ 64). done.
  - unfold read_transfer, data. cbn [length]. by rewrite le_bytes_length.
  - intros sig. simpl. case_decide as Hs.
    + rewrite bool_decide_true by done. unfold buildSolanaTransaction. simpl.
      by rewrite app_nil_r.
    + rewrite bool_decide_false by done. by eexists.
Qed.

(** The reader is the format's: it takes an index in four bytes. *)
Lemma read_transfer_u32 lamports :
  0 ≤ lamports < 2 ^ 64 → read_transfer ([2; 0; 0; 0] ++ le_bytes 8 lamports) = Some lamports.
Proof.
  intros Hl. unfold read_transfer. rewrite length_app, le_bytes_length. cbn [length].
  change (take 4 ([2; 0; 0; 0] ++ ?l)) with [2; 0; 0; 0].
  change (drop 4 ([2; 0; 0; 0] ++ ?l)) with l. rewrite bool_decide_true by done.
  change (le_value [2; 0; 0; 0] =? 2) with true. cbn [andb].
  rewrite le_value_bytes, Z.mod_small; [done|]. change (256 ^ Z.of_nat 8) with (2 ^ 64). done.
Qed.
End theorems.

(** ** Witnesses *)
Section witnesses.
#[local] Existing Instances ref_uuid ref_env ref_decimal ref_crypto.

Definition btc_wallet : Wallet := MkWallet (uuid_of_Z 1) ChainBitcoin WalletTypeHot "btc"
  WalletStateActive "k" "mpc" None None 1 1.
Definition sol_wallet : Wallet := MkWallet (uuid_of_Z 1) ChainSolana WalletTypeHot "sol"
  WalletStateActive "k" "mpc" None None 1 1.
Definition sol_to : list byte := replicate 32 7.
Definition request (to amount : string) : WithdrawalRequest :=
  MkWithdrawal (uuid_of_Z 2) (uuid_of_Z 1) to "X" amount
    WithdrawalStateWhitelisted "" "" "" None [] [] 1 1.
Definition no_opts : BuildOpts := MkBuildOpts zero_BTCKeys zero_SolanaKeys None.

Definition btc_built : UnsignedTx :=
  match buildBTCUnsignedTx btc_wallet (request "bc1q" "700") ["aa:0"; "bb:1"] no_opts with
  | Ok u => u
  | Err _ => MkUnsignedTx "" [] (λ _, Ok [])
  end.

Lemma buildBTCUnsignedTx_correct_witness :
  ∃ amount script ins hashes,
    let tx inputs := MkMsgTx 2 inputs [MkTxOut (dec_IntPart amount) script] in
    dec_NewFromString "700" = Ok amount ∧ btcAddrScript "bc1q" = Ok script ∧
    ut_Payload btc_built = concat hashes ∧ length ins = 2%nat ∧
    ut_Assemble btc_built (replicate 128 7) = wrap_result "btc serialize" (MsgTx_Serialize (tx
      (imap (λ i ti, MkTxIn (ti_PreviousOutPoint ti)
        [take 64 (drop (i * 64) (replicate 128 7)) ++ [1]; replicate 33 0]
        (ti_Sequence ti)) ins))).
Proof.
  destruct (buildBTCUnsignedTx_correct btc_wallet (request "bc1q" "700") ["aa:0"; "bb:1"]
    no_opts btc_built) as (amount & script & ins & hashes & Ha & Hs & Hi & Hp & _ & Hsig).
  - reflexivity.
  - reflexivity.
  - exists amount, script, ins, hashes. split_and!; [done|done|done| |].
    + apply Forall2_length in Hi. by rewrite <-Hi.
    + exact (Hsig (replicate 128 7)).
Defined.

Lemma buildSolanaUnsignedTx_correct_witness :
  ∃ u, buildSolanaUnsignedTx sol_wallet (request (base58_Encode sol_to) "5000") no_opts
      initial_world = (Ok u, initial_world) ∧
    parse_message (ut_Payload u) = Some (MkMessage [1; 0; 1]
      [Sha256 (string_bytes (uuid_String (uuid_of_Z 1))); sol_to; replicate 32 0]
      placeholder_blockhash [MkInstruction 2 [0; 1] (2 :: le_bytes 8 5000)]) ∧
    le_value (le_bytes 8 5000) = 5000 ∧ read_transfer (2 :: le_bytes 8 5000) = None ∧
    ∀ sig, if decide (length sig = 64%nat)
      then ut_Assemble u sig = Ok (1 :: sig ++ ut_Payload u)
      else ∃ e, ut_Assemble u sig = Err e.
Proof.
  apply (buildSolanaUnsignedTx_correct sol_wallet (request (base58_Encode sol_to) "5000")
    no_opts initial_world sol_to 5000 placeholder_blockhash initial_world).
  - vm_compute. reflexivity.
  - reflexivity.
  - reflexivity.
  - apply be_bytes_length.
  - reflexivity.
Defined.
End witnesses.
