(* ===== verification/MemStore.v ===== *)
(** * MemStore: the in-memory backend, [internal/storage/memstore/memstore.go]

    Every method of [memstore.Store] is a computation over [World].  The
    store keeps private copies of the rows it is given and hands copies out,
    so rows are values here; a method that mutates a row through the pointer
    held in a map becomes an update of that entry.  Each method holds the
    store mutex for its whole body, so methods are atomic steps; [StoreMutex] and
    [StoreHistories] prove this of the interleaved goroutines. *)
From stdpp Require Import base tactics list gmap strings pretty.
From Stdlib Require Import ZArith.
From S2P Require Import Prelude.
From S2P Require Import GoLang.
From S2P Require Import Domain.
From S2P Require Import World.

#[local] Open Scope string_scope.
#[local] Open Scope list_scope.
#[local] Open Scope Z_scope.

Section memstore.
Context `{GoRuntime} `{UUIDLib} `{Environment}.

(** ** Keys of the string-keyed maps *)
Definition balanceKey (wID : uuid) (asset : string) : string :=
  uuid_String wID +:+ "|" +:+ asset.

Definition nonceKey (wID : uuid) (chain : string) : string :=
  uuid_String wID +:+ "|" +:+ chain.

Definition withdrawalDedupKey (wID : uuid) (to amount asset : string) : string :=
  uuid_String wID +:+ "|" +:+ to +:+ "|" +:+ amount +:+ "|" +:+ asset.

Definition balanceEventKey (e : BalanceEvent) : string :=
  uuid_String (be_WalletID e) +:+ "|" +:+ be_Asset e +:+ "|" +:+
  pretty (be_BlockHeight e) +:+ "|" +:+ be_EventID e.

(** ** Transactions *)

(** [make(map[K]V, len(m)); for k, v := range m { out[k] = v }]: rows are values here, so
    copying a row is the row. *)
Definition copy_table {K A} `{Countable K} (m : gmap K A) : gmap K A :=
  list_to_map (map_to_list m).

(** The tables a snapshot has copies of. *)
Definition copy_store (s : Store) : Store :=
  MkStore
    (copy_table (wallets s))
    (copy_table (addresses s))
    (copy_table (balances s))
    (copy_table (balanceEvents s))
    (copy_table (utxos s))
    (copy_table (nonces s))
    (copy_table (withdrawals s))
    (copy_table (keyMappings s))
    (copy_table (fundingReq s))
    (app (auditOutbox s) [])
    (copy_table (auditSeqCounters s))
    (copy_table (inflightWithdrawals s)).

Definition snapshot : Go Store := s ← get_store; mret (copy_store s).
Definition restore (snap : Store) : Go unit := upd_store (λ _, snap).

Lemma copy_table_id {K A} `{Countable K} (m : gmap K A) : copy_table m = m.
Proof. apply list_to_map_to_list. Qed.

(** Nothing is left out. *)
Lemma snapshot_run w : snapshot w = (Ok (store w), w).
Proof.
  unfold snapshot, copy_store. go_run. rewrite !copy_table_id, app_nil_r.
  by destruct (store w).
Qed.

(** Nested calls (depth > 0) run in the outer transaction; the outermost one
    restores the snapshot when its body fails. *)
Definition InTx (fn : Go unit) : Go unit :=
  d ← gets depth;
  snap ← snapshot;
  modify (set_depth (S d));;
  r ← attempt fn;
  match r with
  | Ok _ => modify (set_depth d)
  | Err e =>
      when (bool_decide (d = 0%nat)) (restore snap);;
      modify (set_depth d);;
      throw e
  end.

(** ** Wallets *)
Definition CreateWallet (w : Wallet) : Go unit :=
  s ← get_store;
  match wallets s !! w_ID w with
  | Some _ => throw (ErrNew "wallet already exists")
  | None =>
      created ← (if time_IsZero (w_CreatedAt w) then time_Now
                 else mret (w_CreatedAt w));
      upd_store (λ s, set_wallets s (<[w_ID w :=
        MkWallet (w_ID w) (w_Chain w) (w_Type w) (w_Label w) (w_State w)
          (w_KeyID w) (w_CustodianRef w) (w_RotationDays w)
          (w_RotationAfterReceives w) created created]> (wallets s)))
  end.

Definition GetWallet (id : uuid) : Go Wallet :=
  s ← get_store;
  match wallets s !! id with
  | None => throw (ErrWrap "wallet not found" ErrNoRows)
  | Some w => mret w
  end.

Definition with_wallet_state (state : string) (now : time) (w : Wallet) : Wallet :=
  MkWallet (w_ID w) (w_Chain w) (w_Type w) (w_Label w) state (w_KeyID w)
    (w_CustodianRef w) (w_RotationDays w) (w_RotationAfterReceives w)
    (w_CreatedAt w) now.

Definition UpdateWalletState (id : uuid) (state : string) : Go unit :=
  s ← get_store;
  match wallets s !! id with
  | None => throw (ErrWrap "wallet not found" ErrNoRows)
  | Some w =>
      now ← time_Now;
      upd_store (λ s, set_wallets s
        (<[id := with_wallet_state state now w]> (wallets s)))
  end.

(** An empty filter string matches everything. *)
Definition matches (f v : string) : bool := (f =s "") || (v =s f).

Definition ListWallets (chainF typeF stateF : string) : Go (list Wallet) :=
  s ← get_store;
  let out := range_filter (λ w, matches chainF (w_Chain w) &&
    matches typeF (w_Type w) && matches stateF (w_State w)) (wallets s) in
  mret (sort_Slice (λ x y,
    string_lt (uuid_String (w_ID x)) (uuid_String (w_ID y))) out).

(** ** Addresses *)
Definition active_of (walletID : uuid) (a : Address) : bool :=
  bool_decide (a_WalletID a = walletID) && (a_State a =s AddressStateActive).

Definition InsertAddress (a : Address) : Go unit :=
  s ← get_store;
  match addresses s !! a_ID a with
  | Some _ => throw (ErrNew "address exists")
  | None =>
      if (a_State a =s AddressStateActive) &&
         range_any (active_of (a_WalletID a)) (addresses s)
      then throw (ErrNew "active address already exists for wallet")
      else
        created ← (if time_IsZero (a_CreatedAt a) then time_Now
                   else mret (a_CreatedAt a));
        upd_store (λ s, set_addresses s (<[a_ID a :=
          MkAddress (a_ID a) (a_WalletID a) (a_Chain a) (a_Address a)
            (a_DerivationPath a) (a_Index a) (a_Change a) (a_State a)
            (a_ReceiveCount a) created]> (addresses s)))
  end.

Definition GetActiveAddress (walletID : uuid) : Go Address :=
  s ← get_store;
  match range_find (active_of walletID) (addresses s) with
  | Some a => mret a
  | None => throw (ErrWrap "no active address" ErrNoRows)
  end.

Definition address_less (x y : Address) : bool :=
  if a_Change x =? a_Change y then a_Index x <? a_Index y
  else a_Change x <? a_Change y.

Definition ListAddresses (walletID : uuid) : Go (list Address) :=
  s ← get_store;
  mret (sort_Slice address_less
    (range_filter (λ a, bool_decide (a_WalletID a = walletID)) (addresses s))).

Definition with_address_state (state : string) (a : Address) : Address :=
  MkAddress (a_ID a) (a_WalletID a) (a_Chain a) (a_Address a)
    (a_DerivationPath a) (a_Index a) (a_Change a) state
    (a_ReceiveCount a) (a_CreatedAt a).

Definition DeprecateAddress (id : uuid) : Go unit :=
  s ← get_store;
  match addresses s !! id with
  | None => throw (ErrWrap "address not found" ErrNoRows)
  | Some a => upd_store (λ s, set_addresses s
      (<[id := with_address_state AddressStateDeprecated a]> (addresses s)))
  end.

Definition GetAddress (id : uuid) : Go Address :=
  s ← get_store;
  match addresses s !! id with
  | None => throw (ErrWrap "address not found" ErrNoRows)
  | Some a => mret a
  end.

(** The running maximum of the loop, from -1. *)
Definition max_index (chain : string) (change : Z) (m : gmap uuid Address) : Z :=
  foldl (λ acc kv,
    let a := kv.2 in
    if (a_Chain a =s chain) && (a_Change a =? change) && (acc <? a_Index a)
    then a_Index a else acc) (-1) (range_map m).

Definition NextAddressIndex (chain : string) (change : Z) : Go Z :=
  s ← get_store; mret (int64 (max_index chain change (addresses s) + 1)).

Definition bump_receive_count (a : Address) : Address :=
  MkAddress (a_ID a) (a_WalletID a) (a_Chain a) (a_Address a)
    (a_DerivationPath a) (a_Index a) (a_Change a) (a_State a)
    (int64 (a_ReceiveCount a + 1)) (a_CreatedAt a).

Definition IncrementReceiveCount (id : uuid) : Go unit :=
  s ← get_store;
  match addresses s !! id with
  | None => throw (ErrWrap "address not found" ErrNoRows)
  | Some a => upd_store (λ s, set_addresses s
      (<[id := bump_receive_count a]> (addresses s)))
  end.

(** ** Balances *)
Definition UpsertBalance (b : Balance) : Go unit :=
  now ← time_Now;
  upd_store (λ s, set_balances s (<[balanceKey (b_WalletID b) (b_Asset b) :=
    MkBalance (b_WalletID b) (b_Asset b) (b_Confirmed b) (b_Pending b)
      (b_Locked b) (b_LastBlockSeen b) now]> (balances s))).

Definition GetBalance (walletID : uuid) (asset : string) : Go Balance :=
  s ← get_store;
  match balances s !! balanceKey walletID asset with
  | None => throw (ErrWrap "balance not found" ErrNoRows)
  | Some b => mret b
  end.

Definition ListBalances (walletID : uuid) : Go (list Balance) :=
  s ← get_store;
  let prefix := uuid_String walletID +:+ "|" in
  let out := (List.filter (λ kb, strings_HasPrefix kb.1 prefix)
    (range_map (balances s))).*2 in
  mret (sort_Slice (λ x y, string_lt (b_Asset x) (b_Asset y)) out).

Definition RecordBalanceEvent (e : BalanceEvent) : Go unit :=
  s ← get_store;
  let key := balanceEventKey e in
  if default false (balanceEvents s !! key) then throw ErrDuplicateEvent
  else upd_store (λ s, set_balanceEvents s (<[key := true]> (balanceEvents s))).

(** ** UTXOs *)
Definition with_utxo (u : UTXO) (lock : string) (lockedAt spentAt : option time)
    (txHash : string) (now : time) : UTXO :=
  MkUTXO (u_Outpoint u) (u_WalletID u) (u_Value u) (u_ScriptType u)
    (u_Confirmations u) lock lockedAt spentAt txHash now.

Definition InsertUTXO (u : UTXO) : Go unit :=
  s ← get_store;
  match utxos s !! u_Outpoint u with
  | Some _ => throw (ErrNew "utxo exists")
  | None =>
      now ← time_Now;
      upd_store (λ s, set_utxos s (<[u_Outpoint u :=
        with_utxo u (u_LockState u) (u_LockedAt u) (u_SpentAt u) (u_TxHash u)
          now]> (utxos s)))
  end.

Definition free_of (walletID : uuid) (u : UTXO) : bool :=
  bool_decide (u_WalletID u = walletID) && (u_LockState u =s UTXOLockStateFree).

Definition ListFreeUTXOs (walletID : uuid) : Go (list UTXO) :=
  s ← get_store;
  mret (sort_Slice (λ x y, string_lt (u_Outpoint x) (u_Outpoint y))
    (range_filter (free_of walletID) (utxos s))).

(** First loop of [LockUTXOs]: every outpoint exists and is free. *)
Definition check_free (op : string) : Go unit :=
  s ← get_store;
  match utxos s !! op with
  | None => throw (ErrNew ("utxo not found: " +:+ op))
  | Some u =>
      if u_LockState u =s UTXOLockStateFree then mret tt
      else throw (ErrNew ("utxo not free: " +:+ op +:+ " state=" +:+ u_LockState u))
  end.

Definition lock_utxo (now : time) (u : UTXO) : UTXO :=
  with_utxo u UTXOLockStateLocked (Some now) (u_SpentAt u) (u_TxHash u) now.

Definition LockUTXOs (outpoints : list string) : Go unit :=
  for_each outpoints check_free;;
  now ← time_Now;
  for_each outpoints (λ op,
    upd_store (λ s, set_utxos s (alter (lock_utxo now) op (utxos s)))).

(** The loops of [MarkUTXOsSpent] and [RestoreUTXOs]: an unknown outpoint
    stops the loop, the updates before it stay. *)
Definition update_utxo (f : UTXO → UTXO) (op : string) : Go unit :=
  s ← get_store;
  match utxos s !! op with
  | None => throw (ErrNew ("utxo not found: " +:+ op))
  | Some u => upd_store (λ s, set_utxos s (<[op := f u]> (utxos s)))
  end.

Definition spend_utxo (now : time) (txHash : string) (u : UTXO) : UTXO :=
  with_utxo u UTXOLockStateSpent (u_LockedAt u) (Some now) txHash now.

Definition MarkUTXOsSpent (outpoints : list string) (txHash : string) : Go unit :=
  now ← time_Now;
  for_each outpoints (update_utxo (spend_utxo now txHash)).

Definition restore_utxo (now : time) (u : UTXO) : UTXO :=
  with_utxo u UTXOLockStateFree None None "" now.

Definition RestoreUTXOs (outpoints : list string) : Go unit :=
  now ← time_Now;
  for_each outpoints (update_utxo (restore_utxo now)).

Definition PruneUTXOs (outpoints : list string) : Go unit :=
  for_each outpoints (λ op,
    upd_store (λ s, set_utxos s (delete op (utxos s)))).

(** ** Nonces *)
Definition zero_nonce (walletID : uuid) (chain : string) : Nonce :=
  MkNonce walletID chain 0 0 0 0.

Definition nonce_row (s : Store) (walletID : uuid) (chain : string) : Nonce :=
  default (zero_nonce walletID chain) (nonces s !! nonceKey walletID chain).

Definition GetNonce (walletID : uuid) (chain : string) : Go Nonce :=
  s ← get_store; mret (nonce_row s walletID chain).

Definition UpsertNonce (n : Nonce) : Go unit :=
  now ← time_Now;
  upd_store (λ s, set_nonces s (<[nonceKey (n_WalletID n) (n_Chain n) :=
    MkNonce (n_WalletID n) (n_Chain n) (n_PendingNonce n) (n_BroadcastNonce n)
      (n_Version n) now]> (nonces s))).

Definition IncrementPendingNonce (walletID : uuid) (chain : string) : Go (Z * Z) :=
  s ← get_store;
  let n := nonce_row s walletID chain in
  let val := n_PendingNonce n in
  let ver := int64 (n_Version n + 1) in
  now ← time_Now;
  upd_store (λ s, set_nonces s (<[nonceKey walletID chain :=
    MkNonce (n_WalletID n) (n_Chain n) (int64 (val + 1)) (n_BroadcastNonce n)
      ver now]> (nonces s)));;
  mret (val, ver).

Definition AdvanceBroadcastNonce (walletID : uuid) (chain : string) (nonce : Z) : Go unit :=
  s ← get_store;
  let n := nonce_row s walletID chain in
  let nxt := int64 (nonce + 1) in
  let b := if n_BroadcastNonce n <? nxt then nxt else n_BroadcastNonce n in
  now ← time_Now;
  upd_store (λ s, set_nonces s (<[nonceKey walletID chain :=
    MkNonce (n_WalletID n) (n_Chain n) (n_PendingNonce n) b (n_Version n)
      now]> (nonces s))).

Definition RollbackPendingNonce (walletID : uuid) (chain : string) (to : Z) : Go Z :=
  s ← get_store;
  match nonces s !! nonceKey walletID chain with
  | None => mret 0
  | Some n =>
      if n_PendingNonce n =? int64 (to + 1) then
        now ← time_Now;
        upd_store (λ s, set_nonces s (<[nonceKey walletID chain :=
          MkNonce (n_WalletID n) (n_Chain n) to (n_BroadcastNonce n)
            (int64 (n_Version n + 1)) now]> (nonces s)));;
        mret 1
      else mret 0
  end.

(** ** Withdrawals *)
Definition CreateWithdrawal (w : WithdrawalRequest) : Go unit :=
  s ← get_store;
  match withdrawals s !! wr_ID w with
  | Some _ => throw (ErrNew "withdrawal exists")
  | None =>
      let key := withdrawalDedupKey (wr_WalletID w) (wr_ToAddress w)
        (wr_Amount w) (wr_Asset w) in
      if default false (inflightWithdrawals s !! key)
      then throw ErrDuplicateWithdrawal
      else
        upd_store (λ s, set_inflight s (<[key := true]> (inflightWithdrawals s)));;
        created ← (if time_IsZero (wr_CreatedAt w) then time_Now
                   else mret (wr_CreatedAt w));
        upd_store (λ s, set_withdrawals s (<[wr_ID w :=
          MkWithdrawal (wr_ID w) (wr_WalletID w) (wr_ToAddress w) (wr_Asset w)
            (wr_Amount w) (wr_State w) (wr_PolicyDecisionID w)
            (wr_FailureReason w) (wr_TxHash w) (wr_NonceValue w)
            (wr_ReservedOutpoints w) (wr_SignedTxBytes w) created
            created]> (withdrawals s)))
  end.

Definition GetWithdrawal (id : uuid) : Go WithdrawalRequest :=
  s ← get_store;
  match withdrawals s !! id with
  | None => throw (ErrWrap "withdrawal not found" ErrNoRows)
  | Some w => mret w
  end.

Definition ListWithdrawals (walletID : uuid) (stateF : string) :
    Go (list WithdrawalRequest) :=
  s ← get_store;
  mret (sort_Slice (λ x y, time_Before (wr_CreatedAt x) (wr_CreatedAt y))
    (range_filter (λ w,
      (bool_decide (walletID = uuid_Nil) || bool_decide (wr_WalletID w = walletID))
      && matches stateF (wr_State w)) (withdrawals s))).

(** An empty argument leaves the field as it was. *)
Definition or_keep (new old : string) : string := if new =s "" then old else new.

Definition terminal_state (state : string) : bool :=
  (state =s WithdrawalStateConfirmed) || (state =s WithdrawalStateFailed).

Definition with_withdrawal_state (state reason txHash decision : string)
    (now : time) (w : WithdrawalRequest) : WithdrawalRequest :=
  MkWithdrawal (wr_ID w) (wr_WalletID w) (wr_ToAddress w) (wr_Asset w)
    (wr_Amount w) state (or_keep decision (wr_PolicyDecisionID w))
    (or_keep reason (wr_FailureReason w)) (or_keep txHash (wr_TxHash w))
    (wr_NonceValue w) (wr_ReservedOutpoints w) (wr_SignedTxBytes w)
    (wr_CreatedAt w) now.

Definition UpdateWithdrawalState (id : uuid)
    (state reason txHash policyDecisionID : string) : Go unit :=
  s ← get_store;
  match withdrawals s !! id with
  | None => throw (ErrWrap "withdrawal not found" ErrNoRows)
  | Some w =>
      when (terminal_state state)
        (upd_store (λ s, set_inflight s (delete
          (withdrawalDedupKey (wr_WalletID w) (wr_ToAddress w) (wr_Amount w)
            (wr_Asset w)) (inflightWithdrawals s))));;
      now ← time_Now;
      upd_store (λ s, set_withdrawals s (<[id :=
        with_withdrawal_state state reason txHash policyDecisionID now w]>
        (withdrawals s)))
  end.

Definition with_withdrawal_tx (n : option Z) (ops : list string)
    (bytes : list byte) (now : time) (w : WithdrawalRequest) : WithdrawalRequest :=
  MkWithdrawal (wr_ID w) (wr_WalletID w) (wr_ToAddress w) (wr_Asset w)
    (wr_Amount w) (wr_State w) (wr_PolicyDecisionID w) (wr_FailureReason w)
    (wr_TxHash w) n ops bytes (wr_CreatedAt w) now.

(** The shape shared by the three [UpdateWithdrawal...] methods below. *)
Definition update_withdrawal_row
    (f : time → WithdrawalRequest → WithdrawalRequest) (id : uuid) : Go unit :=
  s ← get_store;
  match withdrawals s !! id with
  | None => throw (ErrWrap "withdrawal not found" ErrNoRows)
  | Some w =>
      now ← time_Now;
      upd_store (λ s, set_withdrawals s (<[id := f now w]> (withdrawals s)))
  end.

Definition UpdateWithdrawalNonce (id : uuid) (nonce : Z) : Go unit :=
  update_withdrawal_row (λ now w, with_withdrawal_tx (Some nonce)
    (wr_ReservedOutpoints w) (wr_SignedTxBytes w) now w) id.

Definition UpdateWithdrawalOutpoints (id : uuid) (outpoints : list string) : Go unit :=
  update_withdrawal_row (λ now w, with_withdrawal_tx (wr_NonceValue w)
    outpoints (wr_SignedTxBytes w) now w) id.

Definition UpdateWithdrawalSignedTx (id : uuid) (txBytes : list byte) : Go unit :=
  update_withdrawal_row (λ now w, with_withdrawal_tx (wr_NonceValue w)
    (wr_ReservedOutpoints w) txBytes now w) id.

(** ** Key mappings *)
Definition mappings_of (s : Store) (walletID : uuid) : list KeyMapping :=
  default [] (keyMappings s !! walletID).

Definition is_current (m : KeyMapping) : bool :=
  km_RotationState m =s RotationStateCurrent.

Definition is_cooling (m : KeyMapping) : bool :=
  km_RotationState m =s RotationStateCooling.

Definition or_now (t : time) : Go time :=
  if time_IsZero t then time_Now else mret t.

Definition BindKeyMapping (m : KeyMapping) : Go unit :=
  s ← get_store;
  if existsb (λ ex, is_current ex && is_current m) (mappings_of s (km_WalletID m))
  then throw (ErrNew "current key mapping already exists")
  else
    created ← or_now (km_CreatedAt m);
    from ← or_now (km_ActiveFrom m);
    upd_store (λ s, set_keyMappings s (<[km_WalletID m :=
      (mappings_of s (km_WalletID m) ++
        [MkKeyMapping (km_WalletID m) (km_KeyID m) from (km_ActiveTo m)
          (km_RotationState m) created])]> (keyMappings s))).

Definition ResolveActiveKey (walletID : uuid) : Go (list KeyMapping) :=
  s ← get_store;
  match List.filter (λ m, is_current m || is_cooling m) (mappings_of s walletID) with
  | [] => throw (ErrWrap "no active key mapping" ErrNoRows)
  | out => mret (sort_Slice
      (λ x y, time_Before (km_ActiveFrom x) (km_ActiveFrom y)) out)
  end.

Definition cool_mapping (activeTo : time) (m : KeyMapping) : KeyMapping :=
  if is_current m then
    MkKeyMapping (km_WalletID m) (km_KeyID m) (km_ActiveFrom m) (Some activeTo)
      RotationStateCooling (km_CreatedAt m)
  else m.

Definition revive_mapping (now : time) (m : KeyMapping) : KeyMapping :=
  MkKeyMapping (km_WalletID m) (km_KeyID m) now None RotationStateCurrent
    (km_CreatedAt m).

(** Second loop of [RotateKeyMapping]: the first mapping of the key, if any,
    becomes current again. *)
Fixpoint revive_first (now : time) (newKeyID : string) (l : list KeyMapping) :
    option (list KeyMapping) :=
  match l with
  | [] => None
  | m :: l =>
      if km_KeyID m =s newKeyID then Some (revive_mapping now m :: l)
      else cons m <$> revive_first now newKeyID l
  end.

Definition rotate_mappings (now : time) (cooling : duration) (walletID : uuid)
    (newKeyID : string) (l : list KeyMapping) : list KeyMapping :=
  let l := cool_mapping (time_Add now cooling) <$> l in
  match revive_first now newKeyID l with
  | Some l' => l'
  | None => l ++ [MkKeyMapping walletID newKeyID now None RotationStateCurrent now]
  end.

Definition RotateKeyMapping (walletID : uuid) (newKeyID : string)
    (cooling : duration) : Go unit :=
  now ← time_Now;
  upd_store (λ s, set_keyMappings s (<[walletID :=
    rotate_mappings now cooling walletID newKeyID (mappings_of s walletID)]>
    (keyMappings s))).

Definition expire_mapping (now : time) (m : KeyMapping) : KeyMapping :=
  match km_ActiveTo m with
  | Some t =>
      if is_cooling m && time_After now t then
        MkKeyMapping (km_WalletID m) (km_KeyID m) (km_ActiveFrom m)
          (km_ActiveTo m) RotationStateRetired (km_CreatedAt m)
      else m
  | None => m
  end.

Definition ExpireCooling : Go unit :=
  now ← time_Now;
  upd_store (λ s, set_keyMappings s
    (fmap (M := gmap uuid) (List.map (expire_mapping now)) (keyMappings s))).

(** ** Funding requests *)
Definition open_funding (walletID : uuid) (asset : string) (f : FundingRequest) : bool :=
  bool_decide (fr_WalletID f = walletID) && (fr_Asset f =s asset) &&
  (fr_State f =s FundingStateRequested).

Definition CreateFundingRequest (f : FundingRequest) : Go unit :=
  s ← get_store;
  if range_any (open_funding (fr_WalletID f) (fr_Asset f)) (fundingReq s)
  then throw ErrDuplicateFunding
  else
    created ← or_now (fr_CreatedAt f);
    upd_store (λ s, set_fundingReq s (<[fr_ID f :=
      MkFunding (fr_ID f) (fr_WalletID f) (fr_Asset f) (fr_Amount f) (fr_State f)
        (fr_TreasuryBatchID f) (fr_Reason f) created created]> (fundingReq s))).

Definition GetOpenFundingRequest (walletID : uuid) (asset : string) : Go FundingRequest :=
  s ← get_store;
  match range_find (open_funding walletID asset) (fundingReq s) with
  | Some f => mret f
  | None => throw (ErrWrap "no open funding request" ErrNoRows)
  end.

Definition ListFundingRequests (walletID : uuid) (stateF : string) :
    Go (list FundingRequest) :=
  s ← get_store;
  mret (sort_Slice (λ x y, time_Before (fr_CreatedAt x) (fr_CreatedAt y))
    (range_filter (λ f,
      (bool_decide (walletID = uuid_Nil) || bool_decide (fr_WalletID f = walletID))
      && matches stateF (fr_State f)) (fundingReq s))).

Definition UpdateFundingState (id : uuid) (state treasuryBatchID : string) : Go unit :=
  s ← get_store;
  match fundingReq s !! id with
  | None => throw (ErrWrap "funding request not found" ErrNoRows)
  | Some f =>
      now ← time_Now;
      upd_store (λ s, set_fundingReq s (<[id :=
        MkFunding (fr_ID f) (fr_WalletID f) (fr_Asset f) (fr_Amount f) state
          (or_keep treasuryBatchID (fr_TreasuryBatchID f)) (fr_Reason f)
          (fr_CreatedAt f) now]> (fundingReq s)))
  end.

(** ** Audit outbox *)
Definition AppendAuditEvent (e : AuditOutboxEvent) : Go unit :=
  s ← get_store;
  if existsb (λ ex, bool_decide (ae_EventID ex = ae_EventID e)) (auditOutbox s)
  then throw ErrDuplicateAudit
  else
    created ← or_now (ae_CreatedAt e);
    upd_store (λ s, set_auditOutbox s (auditOutbox s ++
      [MkAudit (ae_ID e) (ae_EventID e) (ae_WalletID e) (ae_EventType e)
        (ae_Payload e) (ae_Seq e) (ae_Delivered e) (ae_Attempts e) created
        (ae_DeliveredAt e)])).

Definition ListUndeliveredAuditEvents (limit : Z) : Go (list AuditOutboxEvent) :=
  s ← get_store;
  let out := sort_Slice (λ x y, ae_Seq x <? ae_Seq y)
    (List.filter (λ e, negb (ae_Delivered e)) (auditOutbox s)) in
  mret (if (0 <? limit) && (limit <? Z.of_nat (length out))
        then take (Z.to_nat limit) out else out).

Definition deliver_event (now : time) (e : AuditOutboxEvent) : AuditOutboxEvent :=
  MkAudit (ae_ID e) (ae_EventID e) (ae_WalletID e) (ae_EventType e)
    (ae_Payload e) (ae_Seq e) true (int64 (ae_Attempts e + 1)) (ae_CreatedAt e)
    (Some now).

(** The loop of [MarkAuditDelivered]: the first row with the id. *)
Fixpoint deliver_first (now : time) (id : uuid) (l : list AuditOutboxEvent) :
    option (list AuditOutboxEvent) :=
  match l with
  | [] => None
  | e :: l =>
      if bool_decide (ae_ID e = id) then Some (deliver_event now e :: l)
      else cons e <$> deliver_first now id l
  end.

Definition MarkAuditDelivered (id : uuid) : Go unit :=
  s ← get_store;
  if existsb (λ e, bool_decide (ae_ID e = id)) (auditOutbox s) then
    now ← time_Now;
    upd_store (λ s, set_auditOutbox s
      (default (auditOutbox s) (deliver_first now id (auditOutbox s))))
  else throw (ErrWrap "audit event not found" ErrNoRows).

Definition NextAuditSeq (walletID : uuid) : Go Z :=
  s ← get_store;
  let v := int64 (default 0 (auditSeqCounters s !! walletID) + 1) in
  upd_store (λ s, set_auditSeqCounters s (<[walletID := v]> (auditSeqCounters s)));;
  mret v.
End memstore.
