(* ===== verification/MemStoreFacts.v ===== *)
(** * MemStoreFacts: invariants and laws of the in-memory backend

    The table invariants ([store_ok]) with a preservation lemma per method, the
    laws of the string keys, and the transaction laws of [InTx]. *)
From stdpp Require Import base tactics list gmap strings pretty.
From Stdlib Require Import ZArith Lia.
From S2P Require Import Prelude.
From S2P Require Import GoLang.
From S2P Require Import Domain.
From S2P Require Import World.
From S2P Require Import MemStore.
From S2P Require Import Reference.

#[local] Open Scope string_scope.
#[local] Open Scope list_scope.
#[local] Open Scope Z_scope.

(** ** Keys *)
Section keys.
Context `{UUIDLib}.

Lemma balanceKey_inj i1 a1 i2 a2 :
  balanceKey i1 a1 = balanceKey i2 a2 → i1 = i2 ∧ a1 = a2.
Proof.
  unfold balanceKey. intros Heq.
  apply string_app_inj_length in Heq as [Hi Ha];
    [|by rewrite !uuid_String_length].
  split; [by apply (inj uuid_String)|]. by injection Ha.
Qed.

Lemma nonceKey_inj i1 c1 i2 c2 :
  nonceKey i1 c1 = nonceKey i2 c2 → i1 = i2 ∧ c1 = c2.
Proof. apply balanceKey_inj. Qed.

(** The prefix scan of [ListBalances] selects exactly the wallet's keys. *)
Lemma balanceKey_prefix i j a :
  strings_HasPrefix (balanceKey i a) (uuid_String j +:+ "|") = bool_decide (i = j).
Proof.
  unfold strings_HasPrefix, balanceKey. apply eq_bool_prop_intro.
  rewrite bool_decide_spec, Is_true_true, prefix_spec. split.
  - intros [t Ht]. rewrite string_app_assoc in Ht.
    apply string_app_inj_length in Ht as [Hi _];
      [|by rewrite !uuid_String_length]. by apply (inj uuid_String).
  - intros ->. exists a. by rewrite string_app_assoc.
Qed.
End keys.

(** ** Table invariants *)
Section tables.
Context `{UUIDLib}.

Definition wallets_ok (m : gmap uuid Wallet) : Prop :=
  map_Forall (λ k w, w_ID w = k) m.

(** Rows are filed under their id, and a wallet has at most one active
    address. *)
Definition addresses_ok (m : gmap uuid Address) : Prop :=
  map_Forall (λ k a, a_ID a = k) m ∧
  ∀ i j a b wid, m !! i = Some a → m !! j = Some b →
    active_of wid a = true → active_of wid b = true → i = j.

Definition balances_ok (m : gmap string Balance) : Prop :=
  map_Forall (λ k b, k = balanceKey (b_WalletID b) (b_Asset b)) m.

Definition utxos_ok (m : gmap string UTXO) : Prop :=
  map_Forall (λ k u, u_Outpoint u = k) m.

Definition nonces_ok (m : gmap string Nonce) : Prop :=
  map_Forall (λ k n, k = nonceKey (n_WalletID n) (n_Chain n)) m.

Definition withdrawals_ok (m : gmap uuid WithdrawalRequest) : Prop :=
  map_Forall (λ k w, wr_ID w = k) m.

(** At most one mapping of a wallet is current. *)
Definition one_current (l : list KeyMapping) : Prop :=
  (length (List.filter is_current l) ≤ 1)%nat.

Definition keyMappings_ok (m : gmap uuid (list KeyMapping)) : Prop :=
  map_Forall (λ k l, Forall (λ km, km_WalletID km = k) l ∧ one_current l) m.

(** Rows are filed under their id, and at most one request is open per wallet
    and asset. *)
Definition funding_ok (m : gmap uuid FundingRequest) : Prop :=
  map_Forall (λ k f, fr_ID f = k) m ∧
  ∀ i j f g wid asset, m !! i = Some f → m !! j = Some g →
    open_funding wid asset f = true → open_funding wid asset g = true → i = j.

Definition outbox_ok (l : list AuditOutboxEvent) : Prop :=
  NoDup (ae_EventID <$> l).

Record store_ok (s : Store) : Prop := {
  ok_wallets : wallets_ok (wallets s);
  ok_addresses : addresses_ok (addresses s);
  ok_balances : balances_ok (balances s);
  ok_utxos : utxos_ok (utxos s);
  ok_nonces : nonces_ok (nonces s);
  ok_withdrawals : withdrawals_ok (withdrawals s);
  ok_keyMappings : keyMappings_ok (keyMappings s);
  ok_funding : funding_ok (fundingReq s);
  ok_outbox : outbox_ok (auditOutbox s)
}.

Lemma New_ok : store_ok New.
Proof.
  split; simpl; try apply map_Forall_empty.
  - split; [apply map_Forall_empty|]. intros ???????. by rewrite lookup_empty in *.
  - split; [apply map_Forall_empty|]. intros ????????. by rewrite lookup_empty in *.
  - constructor.
Qed.
End tables.

(** ** Preservation, table by table *)
Section preservation.
Context `{GoRuntime} `{UUIDLib} `{Environment}.

(** The relation of the methods that keep the invariant. *)
Definition keeps_ok : relation World := inv_rel (λ w, store_ok (store w)).

#[export] Instance keeps_ok_store_rel : StoreRel keeps_ok.
Proof. unfold keeps_ok. apply (inv_rel_store_rel store_ok). Qed.

Lemma set_wallets_ok s m : store_ok s → wallets_ok m → store_ok (set_wallets s m).
Proof. by intros [] ?. Qed.
Lemma set_addresses_ok s m : store_ok s → addresses_ok m → store_ok (set_addresses s m).
Proof. by intros [] ?. Qed.
Lemma set_balances_ok s m : store_ok s → balances_ok m → store_ok (set_balances s m).
Proof. by intros [] ?. Qed.
Lemma set_utxos_ok s m : store_ok s → utxos_ok m → store_ok (set_utxos s m).
Proof. by intros [] ?. Qed.
Lemma set_nonces_ok s m : store_ok s → nonces_ok m → store_ok (set_nonces s m).
Proof. by intros [] ?. Qed.
Lemma set_withdrawals_ok s m :
  store_ok s → withdrawals_ok m → store_ok (set_withdrawals s m).
Proof. by intros [] ?. Qed.
Lemma set_keyMappings_ok s m :
  store_ok s → keyMappings_ok m → store_ok (set_keyMappings s m).
Proof. by intros [] ?. Qed.
Lemma set_fundingReq_ok s m : store_ok s → funding_ok m → store_ok (set_fundingReq s m).
Proof. by intros [] ?. Qed.
Lemma set_auditOutbox_ok s m : store_ok s → outbox_ok m → store_ok (set_auditOutbox s m).
Proof. by intros [] ?. Qed.
Lemma set_balanceEvents_ok s m : store_ok s → store_ok (set_balanceEvents s m).
Proof. by intros []. Qed.
Lemma set_inflight_ok s m : store_ok s → store_ok (set_inflight s m).
Proof. by intros []. Qed.
Lemma set_auditSeqCounters_ok s m : store_ok s → store_ok (set_auditSeqCounters s m).
Proof. by intros []. Qed.

(** An insert that keeps a row under its key keeps a keyed table. *)
Lemma active_of_spec wid a :
  active_of wid a = true ↔ a_WalletID a = wid ∧ a_State a = AddressStateActive.
Proof. unfold active_of. by rewrite andb_true_iff, !bool_decide_eq_true. Qed.

(** Inserting a row that is active only if no other of its wallet is. *)
Lemma addresses_ok_insert m a :
  addresses_ok m →
  (∀ wid, active_of wid a = true →
    ∀ k b, m !! k = Some b → k ≠ a_ID a → active_of wid b = false) →
  addresses_ok (<[a_ID a := a]> m).
Proof.
  intros [Hk Hu] Hfree. split; [by apply map_Forall_insert_2|].
  intros i j x y wid Hi Hj Hx Hy.
  destruct (decide (i = a_ID a)) as [->|Hni], (decide (j = a_ID a)) as [->|Hnj].
  - done.
  - rewrite lookup_insert_eq in Hi. rewrite lookup_insert_ne in Hj by done.
    simplify_eq. by rewrite (Hfree _ Hx _ _ Hj Hnj) in Hy.
  - rewrite lookup_insert_eq in Hj. rewrite lookup_insert_ne in Hi by done.
    simplify_eq. by rewrite (Hfree _ Hy _ _ Hi Hni) in Hx.
  - rewrite lookup_insert_ne in Hi, Hj by done. eauto.
Qed.

(** Replacing a row by one that is active only if it was. *)
Lemma addresses_ok_update m k a a' :
  addresses_ok m → m !! k = Some a → a_ID a' = a_ID a →
  (∀ wid, active_of wid a' = true → active_of wid a = true) →
  addresses_ok (<[k := a']> m).
Proof.
  intros Hok Hk Hid Hact. assert (a_ID a = k) as Ha by by apply Hok.
  rewrite <-Ha, <-Hid. apply addresses_ok_insert; [done|].
  intros wid Hw k' b Hb Hne. destruct (active_of wid b) eqn:Hb'; [|done].
  destruct Hne. rewrite Hid, Ha. destruct Hok as [_ Hu]. eauto.
Qed.

(** Reduce [store_ok] of an updated table to the table's invariant, and that
    of a row inserted under its key to the row. *)
Ltac table_ok H :=
  first [ apply set_wallets_ok | apply set_addresses_ok | apply set_balances_ok
        | apply set_utxos_ok | apply set_nonces_ok | apply set_withdrawals_ok
        | apply set_keyMappings_ok | apply set_fundingReq_ok
        | apply set_auditOutbox_ok ];
  [exact H | try (apply map_Forall_insert_2; [try done|by apply H])].

Lemma CreateWallet_ok x : within keeps_ok (CreateWallet x).
Proof.
  intros w Hok. unfold CreateWallet. go_run.
  destruct (wallets (store w) !! w_ID x) eqn:Hx; simpl; [done|].
  destruct (time_IsZero _); simpl; by table_ok Hok.
Qed.

Lemma UpdateWalletState_ok id st : within keeps_ok (UpdateWalletState id st).
Proof.
  intros w Hok. unfold UpdateWalletState. go_run.
  destruct (wallets (store w) !! id) eqn:Hx; simpl; [|done].
  table_ok Hok. exact (ok_wallets _ Hok _ _ Hx).
Qed.

Lemma InsertAddress_ok a : within keeps_ok (InsertAddress a).
Proof.
  intros w Hok. unfold InsertAddress. go_run.
  destruct (addresses (store w) !! a_ID a) eqn:Hx; simpl; [done|].
  destruct ((a_State a =s AddressStateActive) &&
    range_any (active_of (a_WalletID a)) (addresses (store w))) eqn:Hc; simpl; [done|].
  assert (∀ t, addresses_ok (<[a_ID a := MkAddress (a_ID a) (a_WalletID a)
    (a_Chain a) (a_Address a) (a_DerivationPath a) (a_Index a) (a_Change a)
    (a_State a) (a_ReceiveCount a) t]> (addresses (store w)))) as Hins.
  { intros t. apply (addresses_ok_insert _ (MkAddress _ _ _ _ _ _ _ _ _ _));
      [by apply Hok|]. simpl.
    intros wid [Hw Hs]%active_of_spec k b Hb _. simpl in *. subst wid.
    rewrite bool_decide_true in Hc by done. simpl in Hc.
    rewrite range_any_false in Hc. by eapply Hc. }
  destruct (time_IsZero _); simpl; by apply set_addresses_ok.
Qed.

Lemma DeprecateAddress_ok id : within keeps_ok (DeprecateAddress id).
Proof.
  intros w Hok. unfold DeprecateAddress. go_run.
  destruct (addresses (store w) !! id) as [a|] eqn:Hx; simpl; [|done].
  apply set_addresses_ok; [done|].
  eapply addresses_ok_update; [by apply Hok|done|done|].
  intros wid [_ Hs]%active_of_spec. done.
Qed.

Lemma IncrementReceiveCount_ok id : within keeps_ok (IncrementReceiveCount id).
Proof.
  intros w Hok. unfold IncrementReceiveCount. go_run.
  destruct (addresses (store w) !! id) as [a|] eqn:Hx; simpl; [|done].
  apply set_addresses_ok; [done|].
  by eapply addresses_ok_update; [apply Hok|..].
Qed.

Lemma UpsertBalance_ok b : within keeps_ok (UpsertBalance b).
Proof.
  intros w Hok. unfold UpsertBalance. go_run. simpl.
  by table_ok Hok.
Qed.

Lemma RecordBalanceEvent_ok e : within keeps_ok (RecordBalanceEvent e).
Proof.
  intros w Hok. unfold RecordBalanceEvent. go_run.
  destruct (default _ _); simpl; [done|by apply set_balanceEvents_ok].
Qed.

Lemma InsertUTXO_ok u : within keeps_ok (InsertUTXO u).
Proof.
  intros w Hok. unfold InsertUTXO. go_run.
  destruct (utxos (store w) !! u_Outpoint u) eqn:Hx; simpl; [done|].
  by table_ok Hok.
Qed.

Lemma check_free_ok op : within keeps_ok (check_free op).
Proof. unfold check_free. solve_within. Qed.

Lemma alter_utxo_ok f op :
  (∀ u, u_Outpoint (f u) = u_Outpoint u) →
  within keeps_ok (upd_store (λ s, set_utxos s (alter f op (utxos s)))).
Proof.
  intros Hf w Hok. go_run. apply set_utxos_ok; [done|].
  intros k u. rewrite lookup_alter. case_decide; [|by apply Hok].
  intros (u' & Hu & ->)%fmap_Some. rewrite Hf. subst op. by apply Hok.
Qed.

Lemma LockUTXOs_ok ops : within keeps_ok (LockUTXOs ops).
Proof.
  unfold LockUTXOs. apply within_bind; [apply _|..].
  - apply within_for_each, check_free_ok. apply _.
  - intros _. apply within_bind; [apply _|apply within_time_Now, _|].
    intros now. apply within_for_each; [apply _|].
    intros op. by apply alter_utxo_ok.
Qed.

Lemma update_utxo_ok f op :
  (∀ u, u_Outpoint (f u) = u_Outpoint u) → within keeps_ok (update_utxo f op).
Proof.
  intros Hf w Hok. unfold update_utxo. go_run.
  destruct (utxos (store w) !! op) as [u|] eqn:Hx; simpl; [|done].
  table_ok Hok. rewrite Hf. exact (ok_utxos _ Hok _ _ Hx).
Qed.

Lemma MarkUTXOsSpent_ok ops tx : within keeps_ok (MarkUTXOsSpent ops tx).
Proof.
  unfold MarkUTXOsSpent. apply within_bind; [apply _|apply within_time_Now, _|].
  intros now. apply within_for_each; [apply _|].
  intros op. by apply update_utxo_ok.
Qed.

Lemma RestoreUTXOs_ok ops : within keeps_ok (RestoreUTXOs ops).
Proof.
  unfold RestoreUTXOs. apply within_bind; [apply _|apply within_time_Now, _|].
  intros now. apply within_for_each; [apply _|].
  intros op. by apply update_utxo_ok.
Qed.

Lemma PruneUTXOs_ok ops : within keeps_ok (PruneUTXOs ops).
Proof.
  unfold PruneUTXOs. apply within_for_each; [apply _|].
  intros op w Hok. go_run. table_ok Hok. by apply map_Forall_delete, Hok.
Qed.

Lemma nonce_row_key s i c :
  nonces_ok (nonces s) →
  nonceKey i c = nonceKey (n_WalletID (nonce_row s i c)) (n_Chain (nonce_row s i c)).
Proof.
  intros Hok. unfold nonce_row.
  destruct (nonces s !! nonceKey i c) as [n|] eqn:Hn; simpl; [|done].
  exact (Hok _ _ Hn).
Qed.

Lemma UpsertNonce_ok n : within keeps_ok (UpsertNonce n).
Proof. intros w Hok. unfold UpsertNonce. go_run. by table_ok Hok. Qed.

Lemma IncrementPendingNonce_ok i c : within keeps_ok (IncrementPendingNonce i c).
Proof.
  intros w Hok. unfold IncrementPendingNonce. go_run.
  table_ok Hok. apply nonce_row_key, Hok.
Qed.

Lemma AdvanceBroadcastNonce_ok i c n : within keeps_ok (AdvanceBroadcastNonce i c n).
Proof.
  intros w Hok. unfold AdvanceBroadcastNonce. go_run.
  table_ok Hok. apply nonce_row_key, Hok.
Qed.

Lemma RollbackPendingNonce_ok i c n : within keeps_ok (RollbackPendingNonce i c n).
Proof.
  intros w Hok. unfold RollbackPendingNonce. go_run.
  destruct (nonces (store w) !! nonceKey i c) as [x|] eqn:Hx; simpl; [|done].
  destruct (_ =? _); simpl; [|done].
  table_ok Hok. exact (ok_nonces _ Hok _ _ Hx).
Qed.

Lemma CreateWithdrawal_ok x : within keeps_ok (CreateWithdrawal x).
Proof.
  intros w Hok. unfold CreateWithdrawal. go_run.
  destruct (withdrawals (store w) !! wr_ID x) eqn:Hx; simpl; [done|].
  destruct (default _ _); simpl; [done|].
  destruct (time_IsZero _); simpl; (apply set_withdrawals_ok;
    [by apply set_inflight_ok|apply map_Forall_insert_2; [done|apply Hok]]).
Qed.

Lemma UpdateWithdrawalState_ok id st r tx d :
  within keeps_ok (UpdateWithdrawalState id st r tx d).
Proof.
  intros w Hok. unfold UpdateWithdrawalState. go_run.
  destruct (withdrawals (store w) !! id) as [x|] eqn:Hx; simpl; [|done].
  destruct (terminal_state st); simpl; (apply set_withdrawals_ok;
    [auto using set_inflight_ok|apply map_Forall_insert_2;
      [exact (ok_withdrawals _ Hok _ _ Hx)|apply Hok]]).
Qed.

Lemma update_withdrawal_row_ok f id :
  (∀ now x, wr_ID (f now x) = wr_ID x) →
  within keeps_ok (update_withdrawal_row f id).
Proof.
  intros Hf w Hok. unfold update_withdrawal_row. go_run.
  destruct (withdrawals (store w) !! id) as [x|] eqn:Hx; simpl; [|done].
  table_ok Hok. rewrite Hf. exact (ok_withdrawals _ Hok _ _ Hx).
Qed.

(** *** Key mappings *)
Lemma is_current_cool t m : is_current (cool_mapping t m) = false.
Proof. unfold cool_mapping. by destruct (is_current m) eqn:Hm. Qed.

Lemma filter_current_cool t l :
  List.filter is_current (cool_mapping t <$> l) = [].
Proof. induction l; simpl; [done|]. by rewrite is_current_cool. Qed.

Lemma km_WalletID_cool t m : km_WalletID (cool_mapping t m) = km_WalletID m.
Proof. unfold cool_mapping. by destruct (is_current m). Qed.

Lemma revive_first_current now k l l' :
  List.filter is_current l = [] → revive_first now k l = Some l' →
  length (List.filter is_current l') = 1%nat.
Proof.
  revert l'. induction l as [|m l IH]; simpl; intros l' Hl; [done|].
  destruct (is_current m) eqn:Hm; [done|]. case_bool_decide.
  - intros [= <-]. simpl. by rewrite Hl.
  - intros (l'' & Hr & ->)%fmap_Some. simpl. rewrite Hm. by apply IH.
Qed.

Lemma revive_first_WalletID now k l l' :
  revive_first now k l = Some l' → km_WalletID <$> l' = km_WalletID <$> l.
Proof.
  revert l'. induction l as [|m l IH]; simpl; intros l'; [done|].
  case_bool_decide; [by intros [= <-]|].
  intros (l'' & Hr & ->)%fmap_Some. simpl. f_equal. by apply IH.
Qed.

(** A rotation leaves exactly one current mapping. *)
Lemma rotate_mappings_current now cooling wid k l :
  length (List.filter is_current (rotate_mappings now cooling wid k l)) = 1%nat.
Proof.
  unfold rotate_mappings.
  destruct (revive_first _ _ _) as [l'|] eqn:Hr.
  - eapply revive_first_current, Hr. apply filter_current_cool.
  - by rewrite List.filter_app, filter_current_cool.
Qed.

Lemma Forall_WalletID l wid :
  Forall (λ km, km_WalletID km = wid) l ↔ Forall (.= wid) (km_WalletID <$> l).
Proof. by rewrite Forall_fmap. Qed.

Lemma rotate_mappings_WalletID now cooling wid k l :
  Forall (λ km, km_WalletID km = wid) l →
  Forall (λ km, km_WalletID km = wid) (rotate_mappings now cooling wid k l).
Proof.
  intros Hl. assert (Forall (λ km, km_WalletID km = wid)
    (cool_mapping (time_Add now cooling) <$> l)) as Hc.
  { apply Forall_fmap. eapply Forall_impl; [exact Hl|]. intros m Hm. unfold compose.
    by rewrite km_WalletID_cool. }
  unfold rotate_mappings. destruct (revive_first _ _ _) as [l'|] eqn:Hr.
  - apply Forall_WalletID. rewrite (revive_first_WalletID _ _ _ _ Hr).
    by apply Forall_WalletID.
  - apply Forall_app. auto using Forall_nil, Forall_cons.
Qed.

Lemma is_current_expire now m : is_current (expire_mapping now m) = is_current m.
Proof.
  unfold expire_mapping. destruct (km_ActiveTo m); [|done].
  destruct (is_cooling m) eqn:Hc; [|done]. destruct (time_After _ _); [|done].
  apply bool_decide_eq_true in Hc. unfold is_current. by rewrite Hc.
Qed.

Lemma km_WalletID_expire now m : km_WalletID (expire_mapping now m) = km_WalletID m.
Proof.
  unfold expire_mapping. destruct (km_ActiveTo m); [|done]. by case_match.
Qed.

Lemma filter_current_expire now l :
  length (List.filter is_current (List.map (expire_mapping now) l)) =
  length (List.filter is_current l).
Proof.
  induction l as [|m l IH]; simpl; [done|]. rewrite is_current_expire.
  destruct (is_current m); simpl; auto.
Qed.

Lemma mappings_of_ok s wid :
  keyMappings_ok (keyMappings s) →
  Forall (λ km, km_WalletID km = wid) (mappings_of s wid) ∧
  one_current (mappings_of s wid).
Proof.
  intros Hok. unfold mappings_of.
  destruct (keyMappings s !! wid) as [l|] eqn:Hl; simpl.
  - exact (Hok _ _ Hl).
  - split; [constructor|]. unfold one_current. simpl. lia.
Qed.

Lemma one_current_snoc l m :
  one_current l →
  existsb (λ ex, is_current ex && is_current m) l = false →
  one_current (l ++ [m]).
Proof.
  unfold one_current. rewrite List.filter_app, length_app. simpl.
  destruct (is_current m) eqn:Hm; simpl; [|lia]. intros _ He.
  induction l as [|x l IH]; simpl in *; [lia|].
  destruct (is_current x); simpl in *; [done|auto].
Qed.

Lemma BindKeyMapping_ok m : within keeps_ok (BindKeyMapping m).
Proof.
  intros w Hok. unfold BindKeyMapping, or_now. go_run.
  destruct (existsb _ _) eqn:He; simpl; [done|].
  destruct (mappings_of_ok (store w) (km_WalletID m) (ok_keyMappings _ Hok)) as [Hw Hone].
  destruct (time_IsZero _), (time_IsZero _); simpl;
    (table_ok Hok; split;
      [apply Forall_app; auto using Forall_nil, Forall_cons
      |by apply one_current_snoc]).
Qed.

Lemma RotateKeyMapping_ok wid k c : within keeps_ok (RotateKeyMapping wid k c).
Proof.
  intros w Hok. unfold RotateKeyMapping. go_run.
  destruct (mappings_of_ok (store w) wid (ok_keyMappings _ Hok)) as [Hw Hone].
  table_ok Hok. split; [by apply rotate_mappings_WalletID|].
  unfold one_current. rewrite rotate_mappings_current. lia.
Qed.

Lemma ExpireCooling_ok : within keeps_ok ExpireCooling.
Proof.
  intros w Hok. unfold ExpireCooling. go_run. table_ok Hok.
  intros wid l. rewrite lookup_fmap. intros (l' & Hl & ->)%fmap_Some.
  destruct (ok_keyMappings _ Hok _ _ Hl) as [Hw Hone]. split.
  - apply Forall_fmap. eapply Forall_impl; [exact Hw|]. intros m Hm.
    unfold compose. by rewrite km_WalletID_expire.
  - unfold one_current. by rewrite filter_current_expire.
Qed.

(** *** Funding requests *)
Lemma open_funding_spec wid asset f :
  open_funding wid asset f = true ↔
  fr_WalletID f = wid ∧ fr_Asset f = asset ∧ fr_State f = FundingStateRequested.
Proof.
  unfold open_funding. rewrite !andb_true_iff, !bool_decide_eq_true. tauto.
Qed.

Lemma funding_ok_insert m f :
  funding_ok m →
  (∀ wid asset, open_funding wid asset f = true →
    ∀ k g, m !! k = Some g → k ≠ fr_ID f → open_funding wid asset g = false) →
  funding_ok (<[fr_ID f := f]> m).
Proof.
  intros [Hk Hu] Hfree. split; [by apply map_Forall_insert_2|].
  intros i j x y wid asset Hi Hj Hx Hy.
  destruct (decide (i = fr_ID f)) as [->|Hni], (decide (j = fr_ID f)) as [->|Hnj].
  - done.
  - rewrite lookup_insert_eq in Hi. rewrite lookup_insert_ne in Hj by done.
    simplify_eq. by rewrite (Hfree _ _ Hx _ _ Hj Hnj) in Hy.
  - rewrite lookup_insert_eq in Hj. rewrite lookup_insert_ne in Hi by done.
    simplify_eq. by rewrite (Hfree _ _ Hy _ _ Hi Hni) in Hx.
  - rewrite lookup_insert_ne in Hi, Hj by done. eauto.
Qed.

Lemma CreateFundingRequest_ok f : within keeps_ok (CreateFundingRequest f).
Proof.
  intros w Hok. unfold CreateFundingRequest, or_now. go_run.
  destruct (range_any _ _) eqn:Hc; simpl; [done|].
  rewrite range_any_false in Hc.
  assert (∀ t, funding_ok (<[fr_ID f := MkFunding (fr_ID f) (fr_WalletID f)
    (fr_Asset f) (fr_Amount f) (fr_State f) (fr_TreasuryBatchID f) (fr_Reason f)
    t t]> (fundingReq (store w)))) as Hins.
  { intros t. apply (funding_ok_insert _ (MkFunding _ _ _ _ _ _ _ _ _));
      [by apply Hok|]. simpl.
    intros wid asset (<- & <- & _)%open_funding_spec k g Hg _. by eapply Hc. }
  destruct (time_IsZero _); simpl; by apply set_fundingReq_ok.
Qed.

(** The funding service only moves a request out of the open state. *)
Lemma UpdateFundingState_ok id st b :
  st ≠ FundingStateRequested → within keeps_ok (UpdateFundingState id st b).
Proof.
  intros Hst w Hok. unfold UpdateFundingState. go_run.
  destruct (fundingReq (store w) !! id) as [f|] eqn:Hx; simpl; [|done].
  apply set_fundingReq_ok; [done|].
  assert (fr_ID f = id) as Hid by exact (proj1 (ok_funding _ Hok) _ _ Hx).
  rewrite <-Hid at 1.
  apply (funding_ok_insert _ (MkFunding _ _ _ _ _ _ _ _ _)); [by apply Hok|].
  intros wid asset (_ & _ & ?)%open_funding_spec. done.
Qed.

(** *** Audit outbox *)
Lemma AppendAuditEvent_ok e : within keeps_ok (AppendAuditEvent e).
Proof.
  intros w Hok. unfold AppendAuditEvent, or_now. go_run.
  destruct (existsb _ _) eqn:He; simpl; [done|].
  assert (ae_EventID e ∉ (ae_EventID <$> auditOutbox (store w))) as Hn.
  { intros (x & Hx & Hin)%list_elem_of_fmap. apply not_true_iff_false in He.
    destruct He. apply existsb_exists. exists x.
    rewrite <-list_elem_of_In, bool_decide_eq_true. done. }
  assert (∀ t, outbox_ok (auditOutbox (store w) ++ [MkAudit (ae_ID e)
    (ae_EventID e) (ae_WalletID e) (ae_EventType e) (ae_Payload e) (ae_Seq e)
    (ae_Delivered e) (ae_Attempts e) t (ae_DeliveredAt e)])) as Hins.
  { intros t. unfold outbox_ok. rewrite fmap_app. simpl.
    apply NoDup_app. split_and!; [by apply Hok| |apply NoDup_singleton].
    intros x Hx. rewrite list_elem_of_singleton. congruence. }
  destruct (time_IsZero _); simpl; by apply set_auditOutbox_ok.
Qed.

Lemma deliver_first_EventID now id l l' :
  deliver_first now id l = Some l' → ae_EventID <$> l' = ae_EventID <$> l.
Proof.
  revert l'. induction l as [|e l IH]; simpl; intros l'; [done|].
  case_bool_decide; [by intros [= <-]|].
  intros (l'' & Hr & ->)%fmap_Some. simpl. f_equal. by apply IH.
Qed.

Lemma MarkAuditDelivered_ok id : within keeps_ok (MarkAuditDelivered id).
Proof.
  intros w Hok. unfold MarkAuditDelivered. go_run.
  destruct (existsb _ _); simpl; [|done]. apply set_auditOutbox_ok; [done|].
  destruct (deliver_first _ _ _) as [l|] eqn:Hl; simpl; [|by apply Hok].
  unfold outbox_ok. rewrite (deliver_first_EventID _ _ _ _ Hl). apply Hok.
Qed.

Lemma NextAuditSeq_ok wid : within keeps_ok (NextAuditSeq wid).
Proof.
  intros w Hok. unfold NextAuditSeq. go_run. by apply set_auditSeqCounters_ok.
Qed.

(** *** Transactions *)

(** A transaction is within any relation on the store its body is within: on
    failure at the outermost level it leaves the store it found. *)
Lemma within_InTx (R : relation World) `{!StoreRel R} fn :
  within R fn → within R (InTx fn).
Proof.
  intros Hfn w. unfold InTx, restore. go_run. rewrite snapshot_run.
  specialize (Hfn (set_depth (S (depth w)) w)).
  assert (R w (set_depth (S (depth w)) w)) as Hd by by apply store_rel_same.
  destruct (fn _) as [[[]|e] w1]; simpl in *.
  - etrans; [exact Hd|]. etrans; [exact Hfn|]. by apply store_rel_same.
  - case_bool_decide; simpl; [by apply store_rel_same|].
    etrans; [exact Hd|]. etrans; [exact Hfn|]. by apply store_rel_same.
Qed.

Lemma InTx_ok fn : within keeps_ok fn → within keeps_ok (InTx fn).
Proof. apply within_InTx, _. Qed.

(** ** Histories of calls

    Every call that changes the store, alone or in a transaction; a failing
    call ends its transaction and the program goes on. *)
Inductive MemCall : Type :=
  | CCreateWallet (x : Wallet)
  | CUpdateWalletState (id : uuid) (state : string)
  | CInsertAddress (a : Address)
  | CDeprecateAddress (id : uuid)
  | CIncrementReceiveCount (id : uuid)
  | CUpsertBalance (b : Balance)
  | CRecordBalanceEvent (e : BalanceEvent)
  | CInsertUTXO (u : UTXO)
  | CLockUTXOs (ops : list string)
  | CMarkUTXOsSpent (ops : list string) (tx : string)
  | CRestoreUTXOs (ops : list string)
  | CPruneUTXOs (ops : list string)
  | CUpsertNonce (n : Nonce)
  | CIncrementPendingNonce (id : uuid) (chain : string)
  | CAdvanceBroadcastNonce (id : uuid) (chain : string) (n : Z)
  | CRollbackPendingNonce (id : uuid) (chain : string) (to : Z)
  | CCreateWithdrawal (x : WithdrawalRequest)
  | CUpdateWithdrawalState (id : uuid) (state reason tx decision : string)
  | CUpdateWithdrawalNonce (id : uuid) (n : Z)
  | CUpdateWithdrawalOutpoints (id : uuid) (ops : list string)
  | CUpdateWithdrawalSignedTx (id : uuid) (bytes : list byte)
  | CBindKeyMapping (m : KeyMapping)
  | CRotateKeyMapping (id : uuid) (key : string) (cooling : duration)
  | CExpireCooling
  | CCreateFundingRequest (f : FundingRequest)
  | CUpdateFundingState (id : uuid) (state batch : string)
  | CAppendAuditEvent (e : AuditOutboxEvent)
  | CMarkAuditDelivered (id : uuid)
  | CNextAuditSeq (id : uuid).

Definition run_call (c : MemCall) : Go unit :=
  match c with
  | CCreateWallet x => CreateWallet x
  | CUpdateWalletState id st => UpdateWalletState id st
  | CInsertAddress a => InsertAddress a
  | CDeprecateAddress id => DeprecateAddress id
  | CIncrementReceiveCount id => IncrementReceiveCount id
  | CUpsertBalance b => UpsertBalance b
  | CRecordBalanceEvent e => RecordBalanceEvent e
  | CInsertUTXO u => InsertUTXO u
  | CLockUTXOs ops => LockUTXOs ops
  | CMarkUTXOsSpent ops tx => MarkUTXOsSpent ops tx
  | CRestoreUTXOs ops => RestoreUTXOs ops
  | CPruneUTXOs ops => PruneUTXOs ops
  | CUpsertNonce n => UpsertNonce n
  | CIncrementPendingNonce id c => IncrementPendingNonce id c;; mret tt
  | CAdvanceBroadcastNonce id c n => AdvanceBroadcastNonce id c n
  | CRollbackPendingNonce id c n => RollbackPendingNonce id c n;; mret tt
  | CCreateWithdrawal x => CreateWithdrawal x
  | CUpdateWithdrawalState id st r tx d => UpdateWithdrawalState id st r tx d
  | CUpdateWithdrawalNonce id n => UpdateWithdrawalNonce id n
  | CUpdateWithdrawalOutpoints id ops => UpdateWithdrawalOutpoints id ops
  | CUpdateWithdrawalSignedTx id b => UpdateWithdrawalSignedTx id b
  | CBindKeyMapping m => BindKeyMapping m
  | CRotateKeyMapping id k c => RotateKeyMapping id k c
  | CExpireCooling => ExpireCooling
  | CCreateFundingRequest f => CreateFundingRequest f
  | CUpdateFundingState id st b => UpdateFundingState id st b
  | CAppendAuditEvent e => AppendAuditEvent e
  | CMarkAuditDelivered id => MarkAuditDelivered id
  | CNextAuditSeq id => NextAuditSeq id;; mret tt
  end.

Inductive Txn : Type :=
  | Plain (c : MemCall)
  | Transaction (cs : list MemCall).

Definition run_txn (t : Txn) : Go unit :=
  match t with
  | Plain c => run_call c
  | Transaction cs => InTx (for_each cs run_call)
  end.

Definition run_history (h : list Txn) (w : World) : World :=
  foldl (λ w t, (run_txn t w).2) w h.

(** No call puts a funding request back in the open state. *)
Definition call_valid (c : MemCall) : Prop :=
  match c with
  | CUpdateFundingState _ st _ => st ≠ FundingStateRequested
  | _ => True
  end.

Definition txn_valid (t : Txn) : Prop :=
  match t with
  | Plain c => call_valid c
  | Transaction cs => Forall call_valid cs
  end.

Lemma run_call_ok c : call_valid c → within keeps_ok (run_call c).
Proof.
  assert (∀ A (m : Go A), within keeps_ok m → within keeps_ok (m;; mret tt)) as Hd.
  { intros A m Hm. apply within_bind; [apply _|done|intros _; apply within_ret, _]. }
  destruct c; simpl; intros Hv;
    [ apply CreateWallet_ok | apply UpdateWalletState_ok | apply InsertAddress_ok
    | apply DeprecateAddress_ok | apply IncrementReceiveCount_ok
    | apply UpsertBalance_ok | apply RecordBalanceEvent_ok | apply InsertUTXO_ok
    | apply LockUTXOs_ok | apply MarkUTXOsSpent_ok | apply RestoreUTXOs_ok
    | apply PruneUTXOs_ok | apply UpsertNonce_ok
    | apply Hd, IncrementPendingNonce_ok | apply AdvanceBroadcastNonce_ok
    | apply Hd, RollbackPendingNonce_ok | apply CreateWithdrawal_ok
    | apply UpdateWithdrawalState_ok | by apply update_withdrawal_row_ok
    | by apply update_withdrawal_row_ok | by apply update_withdrawal_row_ok
    | apply BindKeyMapping_ok | apply RotateKeyMapping_ok | apply ExpireCooling_ok
    | apply CreateFundingRequest_ok | by apply UpdateFundingState_ok
    | apply AppendAuditEvent_ok | apply MarkAuditDelivered_ok
    | apply Hd, NextAuditSeq_ok ].
Qed.

Lemma run_calls_ok cs :
  Forall call_valid cs → within keeps_ok (for_each cs run_call).
Proof.
  induction 1 as [|c cs Hc Hcs IH]; simpl; [apply within_ret, _|].
  apply within_bind; [apply _|by apply run_call_ok|done].
Qed.

Lemma run_txn_ok t : txn_valid t → within keeps_ok (run_txn t).
Proof.
  destruct t; simpl; intros Hv; [by apply run_call_ok|].
  by apply InTx_ok, run_calls_ok.
Qed.
End preservation.

#[export] Hint Resolve InTx_ok : within.
