(* ===== verification/MemStoreFrames.v ===== *)
(** * MemStoreFrames: which table each method of the store can change

    Reading methods are within every relation on the store and the trace; a writing method
    is within every relation that ignores the table it writes. *)
From stdpp Require Import base tactics list gmap strings.
From S2P Require Import Prelude.
From S2P Require Import GoLang.
From S2P Require Import Domain.
From S2P Require Import World.
From S2P Require Import MemStore.

(** A row that exists is returned as it is. *)
Lemma GetWallet_run `{Environment} i w x :
  wallets (store w) !! i = Some x → GetWallet i w = (Ok x, w).
Proof. intros Hx. unfold GetWallet. go_run. by rewrite Hx. Qed.

Section frames.
Context `{GoRuntime} `{UUIDLib} `{Environment} (R : relation World) `{!FrameRel R}.

(** ** Readers *)
Lemma GetWallet_reads id : within R (GetWallet id).
Proof. unfold GetWallet. solve_within. Qed.
Lemma ListWallets_reads c t s : within R (ListWallets c t s).
Proof. unfold ListWallets. solve_within. Qed.
Lemma GetActiveAddress_reads id : within R (GetActiveAddress id).
Proof. unfold GetActiveAddress. solve_within. Qed.
Lemma ListAddresses_reads id : within R (ListAddresses id).
Proof. unfold ListAddresses. solve_within. Qed.
Lemma GetAddress_reads id : within R (GetAddress id).
Proof. unfold GetAddress. solve_within. Qed.
Lemma NextAddressIndex_reads c n : within R (NextAddressIndex c n).
Proof. unfold NextAddressIndex. solve_within. Qed.
Lemma GetBalance_reads id a : within R (GetBalance id a).
Proof. unfold GetBalance. solve_within. Qed.
Lemma ListBalances_reads id : within R (ListBalances id).
Proof. unfold ListBalances. solve_within. Qed.
Lemma ListFreeUTXOs_reads id : within R (ListFreeUTXOs id).
Proof. unfold ListFreeUTXOs. solve_within. Qed.
Lemma check_free_reads op : within R (check_free op).
Proof. unfold check_free. solve_within. Qed.
Lemma GetNonce_reads id c : within R (GetNonce id c).
Proof. unfold GetNonce. solve_within. Qed.
Lemma GetWithdrawal_reads id : within R (GetWithdrawal id).
Proof. unfold GetWithdrawal. solve_within. Qed.
Lemma ListWithdrawals_reads id s : within R (ListWithdrawals id s).
Proof. unfold ListWithdrawals. solve_within. Qed.
Lemma ResolveActiveKey_reads id : within R (ResolveActiveKey id).
Proof. unfold ResolveActiveKey. solve_within. Qed.
Lemma GetOpenFundingRequest_reads id a : within R (GetOpenFundingRequest id a).
Proof. unfold GetOpenFundingRequest. solve_within. Qed.
Lemma ListFundingRequests_reads id s : within R (ListFundingRequests id s).
Proof. unfold ListFundingRequests. solve_within. Qed.
Lemma ListUndeliveredAuditEvents_reads n : within R (ListUndeliveredAuditEvents n).
Proof. unfold ListUndeliveredAuditEvents. solve_within. Qed.
Lemma or_now_reads t : within R (or_now t).
Proof. unfold or_now. solve_within. Qed.

(** ** Writers *)
Lemma CreateWallet_frame x : ignores set_wallets R → within R (CreateWallet x).
Proof. unfold CreateWallet. solve_within. Qed.
Lemma UpdateWalletState_frame id s :
  ignores set_wallets R → within R (UpdateWalletState id s).
Proof. unfold UpdateWalletState. solve_within. Qed.
Lemma InsertAddress_frame a : ignores set_addresses R → within R (InsertAddress a).
Proof. unfold InsertAddress. solve_within. Qed.
Lemma DeprecateAddress_frame id : ignores set_addresses R → within R (DeprecateAddress id).
Proof. unfold DeprecateAddress. solve_within. Qed.
Lemma IncrementReceiveCount_frame id :
  ignores set_addresses R → within R (IncrementReceiveCount id).
Proof. unfold IncrementReceiveCount. solve_within. Qed.
Lemma UpsertBalance_frame b : ignores set_balances R → within R (UpsertBalance b).
Proof. unfold UpsertBalance. solve_within. Qed.
Lemma RecordBalanceEvent_frame e :
  ignores set_balanceEvents R → within R (RecordBalanceEvent e).
Proof. unfold RecordBalanceEvent. solve_within. Qed.
Lemma InsertUTXO_frame u : ignores set_utxos R → within R (InsertUTXO u).
Proof. unfold InsertUTXO. solve_within. Qed.
Lemma LockUTXOs_frame ops : ignores set_utxos R → within R (LockUTXOs ops).
Proof. unfold LockUTXOs, check_free. solve_within. Qed.
Lemma MarkUTXOsSpent_frame ops tx : ignores set_utxos R → within R (MarkUTXOsSpent ops tx).
Proof. unfold MarkUTXOsSpent, update_utxo. solve_within. Qed.
Lemma RestoreUTXOs_frame ops : ignores set_utxos R → within R (RestoreUTXOs ops).
Proof. unfold RestoreUTXOs, update_utxo. solve_within. Qed.
Lemma PruneUTXOs_frame ops : ignores set_utxos R → within R (PruneUTXOs ops).
Proof. unfold PruneUTXOs. solve_within. Qed.
Lemma UpsertNonce_frame n : ignores set_nonces R → within R (UpsertNonce n).
Proof. unfold UpsertNonce. solve_within. Qed.
Lemma IncrementPendingNonce_frame id c :
  ignores set_nonces R → within R (IncrementPendingNonce id c).
Proof. unfold IncrementPendingNonce. solve_within. Qed.
Lemma AdvanceBroadcastNonce_frame id c n :
  ignores set_nonces R → within R (AdvanceBroadcastNonce id c n).
Proof. unfold AdvanceBroadcastNonce. solve_within. Qed.
Lemma RollbackPendingNonce_frame id c n :
  ignores set_nonces R → within R (RollbackPendingNonce id c n).
Proof. unfold RollbackPendingNonce. solve_within. Qed.
Lemma CreateWithdrawal_frame x :
  ignores set_withdrawals R → ignores set_inflight R → within R (CreateWithdrawal x).
Proof. unfold CreateWithdrawal. solve_within. Qed.
Lemma UpdateWithdrawalState_frame id s r t d :
  ignores set_withdrawals R → ignores set_inflight R →
  within R (UpdateWithdrawalState id s r t d).
Proof. unfold UpdateWithdrawalState. solve_within. Qed.
Lemma update_withdrawal_row_frame f id :
  ignores set_withdrawals R → within R (update_withdrawal_row f id).
Proof. unfold update_withdrawal_row. solve_within. Qed.
Lemma UpdateWithdrawalNonce_frame id n :
  ignores set_withdrawals R → within R (UpdateWithdrawalNonce id n).
Proof. apply update_withdrawal_row_frame. Qed.
Lemma UpdateWithdrawalOutpoints_frame id n :
  ignores set_withdrawals R → within R (UpdateWithdrawalOutpoints id n).
Proof. apply update_withdrawal_row_frame. Qed.
Lemma UpdateWithdrawalSignedTx_frame id n :
  ignores set_withdrawals R → within R (UpdateWithdrawalSignedTx id n).
Proof. apply update_withdrawal_row_frame. Qed.
Lemma BindKeyMapping_frame m : ignores set_keyMappings R → within R (BindKeyMapping m).
Proof. unfold BindKeyMapping, or_now. solve_within. Qed.
Lemma RotateKeyMapping_frame id k c :
  ignores set_keyMappings R → within R (RotateKeyMapping id k c).
Proof. unfold RotateKeyMapping. solve_within. Qed.
Lemma ExpireCooling_frame : ignores set_keyMappings R → within R ExpireCooling.
Proof. unfold ExpireCooling. solve_within. Qed.
Lemma CreateFundingRequest_frame f :
  ignores set_fundingReq R → within R (CreateFundingRequest f).
Proof. unfold CreateFundingRequest, or_now. solve_within. Qed.
Lemma UpdateFundingState_frame id s b :
  ignores set_fundingReq R → within R (UpdateFundingState id s b).
Proof. unfold UpdateFundingState. solve_within. Qed.
Lemma AppendAuditEvent_frame e : ignores set_auditOutbox R → within R (AppendAuditEvent e).
Proof. unfold AppendAuditEvent, or_now. solve_within. Qed.
Lemma MarkAuditDelivered_frame id :
  ignores set_auditOutbox R → within R (MarkAuditDelivered id).
Proof. unfold MarkAuditDelivered. solve_within. Qed.
Lemma NextAuditSeq_frame id : ignores set_auditSeqCounters R → within R (NextAuditSeq id).
Proof. unfold NextAuditSeq. solve_within. Qed.
End frames.

#[export] Hint Resolve GetWallet_reads ListWallets_reads GetActiveAddress_reads
  ListAddresses_reads GetAddress_reads NextAddressIndex_reads GetBalance_reads
  ListBalances_reads ListFreeUTXOs_reads check_free_reads GetNonce_reads
  GetWithdrawal_reads ListWithdrawals_reads ResolveActiveKey_reads
  GetOpenFundingRequest_reads ListFundingRequests_reads
  ListUndeliveredAuditEvents_reads or_now_reads CreateWallet_frame
  UpdateWalletState_frame InsertAddress_frame DeprecateAddress_frame
  IncrementReceiveCount_frame
  UpsertBalance_frame RecordBalanceEvent_frame InsertUTXO_frame LockUTXOs_frame
  MarkUTXOsSpent_frame RestoreUTXOs_frame PruneUTXOs_frame UpsertNonce_frame
  IncrementPendingNonce_frame AdvanceBroadcastNonce_frame
  RollbackPendingNonce_frame CreateWithdrawal_frame UpdateWithdrawalState_frame
  UpdateWithdrawalNonce_frame UpdateWithdrawalOutpoints_frame
  UpdateWithdrawalSignedTx_frame BindKeyMapping_frame RotateKeyMapping_frame
  ExpireCooling_frame CreateFundingRequest_frame UpdateFundingState_frame
  AppendAuditEvent_frame MarkAuditDelivered_frame NextAuditSeq_frame : within.
