(* ===== verification/MemStoreProps.v ===== *)
(** * MemStoreProps: what the in-memory backend guarantees to its clients *)
From stdpp Require Import base tactics gmap strings pretty list sorting.
From Stdlib Require Import ZArith Lia Ascii.
From S2P Require Import Prelude.
From S2P Require Import GoLang.
From S2P Require Import GoText.
From S2P Require Import Domain.
From S2P Require Import World.
From S2P Require Import MemStore.
From S2P Require Import MemStoreFacts.
From S2P Require Import Reference.

#[local] Open Scope string_scope.
#[local] Open Scope list_scope.
#[local] Open Scope Z_scope.

Section guarantees.
Context `{GoRuntime} `{UUIDLib} `{Environment}.

Lemma run_history_ok h w :
  store_ok (store w) → Forall txn_valid h → store_ok (store (run_history h w)).
Proof.
  revert w. induction h as [|t h IH]; intros w Hw Hh; [done|].
  apply Forall_cons_1 in Hh as [Ht Hh]. apply IH; [|done]. by apply run_txn_ok.
Qed.

(** C7. The table invariants hold for good.  After any sequence of calls of the methods
    that change the store, each alone or inside transactions that may fail half way, in
    which no [UpdateFundingState] puts a request back into the state REQUESTED: every row
    is filed under its own key, a wallet has at most one ACTIVE address and at most one
    CURRENT key, a wallet and asset have at most one open funding request, and no audit
    event is recorded twice.  The funding service never makes the excluded call; the
    store does not refuse it, and it would open a second request
    ([reopened_funding_twice]). *)
Theorem memstore_history_ok h :
  Forall txn_valid h → store_ok (store (run_history h initial_world)).
Proof.
  intros Hh. apply run_history_ok; [apply New_ok|done].
Qed.

(** Transactions are all or nothing.  An outermost transaction whose body
    fails, whatever the body did before, also through transactions of its own
    that succeeded, returns the body's error and leaves exactly the store it
    found; one whose body returns keeps exactly the body's effects. *)
Theorem InTx_all_or_nothing fn w :
  depth w = 0%nat →
  let '(r, w1) := fn (set_depth 1 w) in
  ∃ w', InTx fn w = (r, w') ∧
    store w' = (if is_ok r then store w1 else store w) ∧ depth w' = 0%nat ∧
    trace w' = trace w1.
Proof.
  intros Hd. unfold InTx, restore. go_run. rewrite snapshot_run. rewrite Hd.
  destruct (fn _) as [[[]|e] w1]; by eexists.
Qed.

Lemma GetActiveAddress_active wid w i a :
  store_ok (store w) → addresses (store w) !! i = Some a → active_of wid a = true →
  GetActiveAddress wid w = (Ok a, w).
Proof.
  intros Hok Ha Hact. destruct (ok_addresses _ Hok) as [Hid Huniq].
  unfold GetActiveAddress. go_run.
  destruct (range_find (active_of wid) (addresses (store w))) as [b|] eqn:Hf.
  - apply range_find_Some in Hf as [Hb [k Hk]].
    pose proof (Huniq _ _ _ _ _ Hk Ha Hb Hact) as Heq. rewrite Heq in Hk. congruence.
  - rewrite range_find_None in Hf. by rewrite (Hf _ _ Ha) in Hact.
Qed.

(** The active address of a wallet does not depend on the order in which
    the map is visited: on a well-formed store [GetActiveAddress] returns an
    address if and only if it is the ACTIVE one of that wallet, and an error
    that is [ErrNoRows] if and only if there is none. *)
Theorem GetActiveAddress_exact wid w :
  store_ok (store w) →
  (∀ a, GetActiveAddress wid w = (Ok a, w) ↔
    addresses (store w) !! a_ID a = Some a ∧ active_of wid a = true) ∧
  ((∃ e, GetActiveAddress wid w = (Err e, w) ∧ errors_Is e ErrNoRows = true) ↔
    ∀ i a, addresses (store w) !! i = Some a → active_of wid a = false).
Proof.
  intros Hok. destruct (ok_addresses _ Hok) as [Hid Huniq].
  unfold GetActiveAddress. go_run.
  destruct (range_find (active_of wid) (addresses (store w))) as [b|] eqn:Hf.
  - apply range_find_Some in Hf as [Hb [k Hk]]. pose proof (Hid _ _ Hk) as <-. split.
    + intros a. split; [by intros [= <-]|]. intros [Ha Hact].
      pose proof (Huniq _ _ _ _ _ Hk Ha Hb Hact) as Heq. rewrite Heq in Hk. congruence.
    + split; [by intros (e & ? & _)|]. intros Hnone. by rewrite (Hnone _ _ Hk) in Hb.
  - rewrite range_find_None in Hf. split.
    + intros a. split; [done|]. intros [Ha Hact]. by rewrite (Hf _ _ Ha) in Hact.
    + split; [done|]. intros _. by eexists.
Qed.

(** One step of the loop of [max_index]. *)
Definition index_step (chain : string) (change : Z) (acc : Z) (kv : uuid * Address) : Z :=
  let a := kv.2 in
  if (a_Chain a =s chain) && (a_Change a =? change) && (acc <? a_Index a)
  then a_Index a else acc.

Lemma max_index_fold chain change l acc :
  acc ≤ foldl (index_step chain change) acc l ∧
  ∀ k a, (k, a) ∈ l → a_Chain a = chain → a_Change a = change →
    a_Index a ≤ foldl (index_step chain change) acc l.
Proof.
  revert acc. induction l as [|[k0 a0] l IH]; intros acc; simpl.
  - split; [lia|]. by intros ?? ?%elem_of_nil.
  - destruct (IH (index_step chain change acc (k0, a0))) as [Hle Hin].
    assert (acc ≤ index_step chain change acc (k0, a0)) as Hacc.
    { unfold index_step. simpl. destruct (_ && _) eqn:Hc; [|lia].
      apply andb_true_iff in Hc as [_ ?%Z.ltb_lt]. lia. }
    split; [by etrans|]. intros k a [[= -> ->]|Hk]%elem_of_cons Hch Hcg; [|by eapply Hin].
    etrans; [|exact Hle]. unfold index_step. simpl.
    rewrite Hch, Hcg, bool_decide_true, Z.eqb_refl by done.
    simpl. destruct (Z.ltb_spec acc (a_Index a0)); lia.
Qed.

Lemma next_index_above chain change w i a :
  (∀ i a, addresses (store w) !! i = Some a → a_Index a < 2 ^ 63 - 1) →
  addresses (store w) !! i = Some a → a_Chain a = chain → a_Change a = change →
  a_Index a < int64 (max_index chain change (addresses (store w)) + 1).
Proof.
  intros Hb Ha Hc Hg. change (max_index chain change (addresses (store w))) with
    (foldl (index_step chain change) (-1) (range_map (addresses (store w)))).
  set (l := range_map (addresses (store w))).
  destruct (max_index_fold chain change l (-1)) as [Hlo Hin].
  specialize (Hin i a (proj2 (elem_of_range_map _ _ _) Ha) Hc Hg).
  assert (foldl (index_step chain change) (-1) l < 2 ^ 63 - 1) as Hm.
  { assert (Forall (λ kv : uuid * Address, a_Index kv.2 < 2 ^ 63 - 1) l) as Hall.
    { apply Forall_forall. intros [k b] Hk%elem_of_range_map. by eapply Hb. }
    clearbody l. clear Hlo Hin. assert (-1 < 2 ^ 63 - 1) as Hacc by lia. revert Hacc.
    generalize (-1). induction Hall as [|kv l Hkv _ IH]; intros acc Hacc; [done|].
    apply IH. unfold index_step. by destruct (_ && _). }
  rewrite int64_id by (unfold in_int64; lia). lia.
Qed.

(** The next index is new: no address of the chain and branch has the
    index [NextAddressIndex] returns, or a larger one, so a derivation path
    is never given out again, also not after its address was deprecated. *)
Theorem NextAddressIndex_fresh chain change w n i a :
  (∀ i a, addresses (store w) !! i = Some a → a_Index a < 2 ^ 63 - 1) →
  NextAddressIndex chain change w = (Ok n, w) →
  addresses (store w) !! i = Some a → a_Chain a = chain → a_Change a = change →
  a_Index a < n.
Proof.
  intros Hb. unfold NextAddressIndex. go_run. intros [= <-] Ha Hc Hg.
  by eapply next_index_above.
Qed.

Lemma strict_weak_on {A B} (f : A → B) (lt : B → B → bool) :
  strict_weak lt → strict_weak (λ x y, lt (f x) (f y)).
Proof.
  intros [Hi Ht Hn]. split; intros *; [apply Hi|apply Ht|apply Hn].
Qed.

Lemma balance_rows_spec wid m k b :
  balances_ok m →
  (k, b) ∈ List.filter (λ kb, strings_HasPrefix kb.1 (uuid_String wid +:+ "|"))
    (range_map m) ↔
  m !! k = Some b ∧ b_WalletID b = wid ∧ k = balanceKey wid (b_Asset b).
Proof.
  intros Hok. rewrite list_elem_of_In, List.filter_In, <- list_elem_of_In.
  rewrite elem_of_range_map. simpl. split.
  - intros [Hk Hp]. pose proof (Hok _ _ Hk) as Hkey. simpl in Hkey.
    rewrite Hkey, balanceKey_prefix in Hp. apply bool_decide_eq_true in Hp.
    split_and!; [done|done|by rewrite Hkey, Hp].
  - intros (Hk & Hw & ->). split; [done|]. rewrite balanceKey_prefix.
    by apply bool_decide_eq_true.
Qed.

(** [ListBalances] is exact: on a well-formed store the scan for keys
    that start with the wallet id returns each balance row of that wallet
    once, and rows of no other wallet, ordered by asset. *)
Theorem ListBalances_exact wid w :
  store_ok (store w) →
  ∃ l, ListBalances wid w = (Ok l, w) ∧
    (∀ b, b ∈ l ↔ b_WalletID b = wid ∧
      balances (store w) !! balanceKey wid (b_Asset b) = Some b) ∧
    NoDup (b_Asset <$> l) ∧
    StronglySorted (λ x y, string_lt (b_Asset y) (b_Asset x) = false) l.
Proof.
  intros Hok. pose proof (ok_balances _ Hok) as Hb.
  unfold ListBalances. go_run. eexists. split; [done|].
  pose proof (λ k b, balance_rows_spec wid (balances (store w)) k b Hb) as Hin.
  set (rows := List.filter _ (range_map (balances (store w)))) in *. split_and!.
  - intros b. rewrite sort_Slice_perm, list_elem_of_fmap. split.
    + intros ([k b'] & -> & (Hk & Hw & ->)%Hin). done.
    + intros [Hw Hk]. exists (balanceKey wid (b_Asset b), b). split; [done|]. by apply Hin.
  - rewrite sort_Slice_perm, <- list_fmap_compose. apply NoDup_fmap_2_strong.
    + intros [k1 b1] [k2 b2] (H3 & _ & ->)%Hin (H4 & _ & ->)%Hin Heq.
      unfold compose in Heq. simpl in Heq. rewrite Heq in *. congruence.
    + apply NoDup_ListNoDup, List.NoDup_filter, NoDup_ListNoDup. eapply NoDup_fmap_1, range_map_NoDup.
  - apply (sort_Slice_sorted (λ x y, string_lt (b_Asset x) (b_Asset y))).
    apply strict_weak_on, string_lt_strict_weak.
Qed.

(** The duplicate check compares whole requests when it can: if neither
    recipient, amount nor asset contains a bar, two requests with the same
    key are the same request. *)
Theorem withdrawalDedupKey_injective i1 t1 a1 s1 i2 t2 a2 s2 :
  Forall (λ s, no_char "|"%char s = true) [t1; a1; s1; t2; a2; s2] →
  withdrawalDedupKey i1 t1 a1 s1 = withdrawalDedupKey i2 t2 a2 s2 →
  i1 = i2 ∧ t1 = t2 ∧ a1 = a2 ∧ s1 = s2.
Proof.
  intros Hbar Heq. unfold withdrawalDedupKey in Heq.
  apply string_app_inj_length in Heq as [Hi Heq]; [|by rewrite !uuid_String_length].
  apply (inj uuid_String) in Hi as ->. injection Heq as Heq.
  rewrite !Forall_cons in Hbar. destruct Hbar as (B1 & B2 & B3 & B4 & B5 & B6 & _).
  assert (∀ t a s, no_char "|"%char t = true → no_char "|"%char a = true →
    no_char "|"%char s = true →
    strings_Split "|"%char (t +:+ "|" +:+ a +:+ "|" +:+ s) = [t; a; s]) as Hsplit.
  { intros t a s Ht Ha Hs.
    change (strings_Split "|"%char (t +:+ String "|"%char (a +:+ String "|"%char s))
      = [t; a; s]).
    by rewrite !strings_Split_app, strings_Split_last. }
  apply (f_equal (strings_Split "|"%char)) in Heq.
  change ("" +:+ ?s) with s in Heq. rewrite !Hsplit in Heq by done.
  by injection Heq as -> -> ->.
Qed.

(** With a bar in a field it confuses requests: moving a bar from the
    recipient to the amount gives another request with the same key, so one
    of the two is refused as a duplicate while the other is in flight. *)
Theorem withdrawalDedupKey_collision i t a b s :
  withdrawalDedupKey i (t +:+ "|" +:+ a) b s = withdrawalDedupKey i t (a +:+ "|" +:+ b) s ∧
  (t +:+ "|" +:+ a, b) ≠ (t, a +:+ "|" +:+ b).
Proof.
  split.
  - unfold withdrawalDedupKey. by rewrite !string_app_assoc.
  - intros [= Ht _]. apply (f_equal String.length) in Ht.
    rewrite !string_app_length in Ht. simpl in Ht. lia.
Qed.
End guarantees.

(** ** Witnesses *)
Section witnesses.
#[local] Existing Instances ref_runtime ref_uuid ref_env.

Definition some_address : Address := MkAddress (uuid_of_Z 5) (uuid_of_Z 1) ChainBitcoin
  "bc1q" "m/84'/0'/0'/0/0" 0 0 AddressStateActive 0 1.
Definition some_balance : Balance := MkBalance (uuid_of_Z 1) "BTC" "5" "0" "0" 7 1.
Definition history : list Txn :=
  [Plain (CInsertAddress some_address);
   Transaction [CUpsertBalance some_balance; CDeprecateAddress (uuid_of_Z 9)];
   Transaction [CUpsertBalance some_balance; CRecordBalanceEvent
     (MkBalanceEvent (uuid_of_Z 6) (uuid_of_Z 1) "BTC" 7 "e")]].
Definition after : World := run_history history initial_world.

Lemma history_valid : Forall txn_valid history.
Proof. repeat constructor. Qed.

(** Open a request, close it, open another, and put the first one back. *)
Definition asked (n : Z) : FundingRequest := MkFunding (uuid_of_Z n) (uuid_of_Z 1) "BTC" "5"
  FundingStateRequested "" "low" 7 7.
Definition reopened : World := run_history
  [Plain (CCreateFundingRequest (asked 2));
   Plain (CUpdateFundingState (uuid_of_Z 2) FundingStateSettled "b");
   Plain (CCreateFundingRequest (asked 3));
   Plain (CUpdateFundingState (uuid_of_Z 2) FundingStateRequested "")] initial_world.

Lemma reopened_funding_twice :
  length (List.filter (open_funding (uuid_of_Z 1) "BTC")
    (snd <$> map_to_list (fundingReq (store reopened)))) = 2%nat.
Proof. vm_compute. reflexivity. Qed.

Lemma memstore_history_ok_witness : store_ok (store after).
Proof. exact (memstore_history_ok history history_valid). Defined.

Lemma after_ok : store_ok (store after).
Proof.
  apply run_history_ok; [apply New_ok|apply history_valid].
Qed.

(** The failing second transaction of [history] leaves no balance behind. *)
Lemma InTx_all_or_nothing_witness :
  let fn := for_each [CUpsertBalance some_balance; CDeprecateAddress (uuid_of_Z 9)]
    run_call in
  let '(r, w1) := fn (set_depth 1 initial_world) in
  ∃ w', InTx fn initial_world = (r, w') ∧
    store w' = (if is_ok r then store w1 else store initial_world) ∧ depth w' = 0%nat ∧
    trace w' = trace w1.
Proof. apply (InTx_all_or_nothing _ initial_world). reflexivity. Defined.

Lemma GetActiveAddress_exact_witness :
  (∀ a, GetActiveAddress (uuid_of_Z 1) after = (Ok a, after) ↔
    addresses (store after) !! a_ID a = Some a ∧ active_of (uuid_of_Z 1) a = true) ∧
  ((∃ e, GetActiveAddress (uuid_of_Z 1) after = (Err e, after) ∧
      errors_Is e ErrNoRows = true) ↔
    ∀ i a, addresses (store after) !! i = Some a → active_of (uuid_of_Z 1) a = false).
Proof. apply (GetActiveAddress_exact (uuid_of_Z 1) after), after_ok. Defined.

Definition with_address : World :=
  set_store (set_addresses New {[uuid_of_Z 5 := some_address]}) initial_world.

Lemma NextAddressIndex_fresh_witness : a_Index some_address < 1.
Proof.
  apply (NextAddressIndex_fresh ChainBitcoin 0 with_address 1 (uuid_of_Z 5) some_address).
  - intros i a Ha. change (addresses (store with_address)) with
      ({[uuid_of_Z 5 := some_address]} : gmap uuid Address) in Ha.
    apply lookup_singleton_Some in Ha as [_ <-]. vm_compute. reflexivity.
  - apply run_eq. vm_compute. reflexivity.
  - vm_compute. reflexivity.
  - reflexivity.
  - reflexivity.
Defined.

Lemma ListBalances_exact_witness :
  ∃ l, ListBalances (uuid_of_Z 1) after = (Ok l, after) ∧
    (∀ b, b ∈ l ↔ b_WalletID b = uuid_of_Z 1 ∧
      balances (store after) !! balanceKey (uuid_of_Z 1) (b_Asset b) = Some b) ∧
    NoDup (b_Asset <$> l) ∧
    StronglySorted (λ x y, string_lt (b_Asset y) (b_Asset x) = false) l.
Proof. apply (ListBalances_exact (uuid_of_Z 1) after), after_ok. Defined.

Lemma withdrawalDedupKey_injective_witness :
  uuid_of_Z 1 = uuid_of_Z 1 ∧ "bc1q" = "bc1q" ∧ "5" = "5" ∧ "BTC" = "BTC".
Proof.
  apply (withdrawalDedupKey_injective (uuid_of_Z 1) "bc1q" "5" "BTC" (uuid_of_Z 1) "bc1q"
    "5" "BTC"); [repeat constructor|reflexivity].
Defined.
End witnesses.
