(* ===== verification/StoreMutex.v ===== *)
(** * StoreMutex: the reentrant mutex of the in-memory store,
    [internal/storage/memstore/memstore.go]

    Goroutines run interleaved, one instruction at a time: a section of [depthMu], an
    operation on [mu], or one access to the tables.  [lock], the function it returns and
    [InTx] are programs of these instructions.  The theorems justify the rest of the
    development, where a method and an outermost transaction are one step: no two
    goroutines access the tables at once, a goroutine never waits for itself, and every
    interleaving gives what some order of the whole calls gives. *)
From stdpp Require Import base tactics numbers option gmap strings pretty list relations.
From Stdlib Require Import ZArith Lia Ascii.
From S2P Require Import Prelude.
From S2P Require Import GoLang.
From S2P Require Import GoText.

#[local] Open Scope string_scope.
#[local] Open Scope list_scope.
#[local] Open Scope Z_scope.

(** ** [goID] *)

(** The loop over the digits, on what is left of the buffer. *)
Fixpoint goID_digits (id : Z) (buf : string) : Z :=
  match buf with
  | String c buf =>
      if is_digit c then goID_digits (int64 (int64 (id * 10) + (byte_of c - 48))) buf else id
  | EmptyString => id
  end.

(** [stack] is the text of [runtime.Stack], which fills at most 64 bytes. *)
Definition goID (stack : string) : Z :=
  let buf := String.substring 0 64 stack in
  goID_digits 0 (String.substring 10 (String.length buf - 10) buf).

(** ** Programs of a goroutine *)
Section programs.
Context {D : Type}.

Inductive Prog (A : Type) : Type :=
  | Ret (a : A)
  | GoID (k : Z → Prog A)
  (** [depthMu.Lock()], a look at [depths[id]] that may change it, [depthMu.Unlock()];
      [None] is the absent entry *)
  | Depths {B : Type} (id : Z) (f : option Z → B * option Z) (k : B → Prog A)
  | MuLock (k : Prog A)
  | MuUnlock (k : Prog A)
  | Access {B : Type} (f : D → B * D) (k : B → Prog A).
#[local] Arguments Ret {A} a.
#[local] Arguments GoID {A} k.
#[local] Arguments Depths {A B} id f k.
#[local] Arguments MuLock {A} k.
#[local] Arguments MuUnlock {A} k.
#[local] Arguments Access {A B} f k.

#[export] Instance Prog_ret : MRet Prog := λ A a, Ret a.

Fixpoint prog_bind {A B} (f : A → Prog B) (p : Prog A) : Prog B :=
  match p with
  | Ret a => f a
  | GoID k => GoID (λ i, prog_bind f (k i))
  | Depths id g k => Depths id g (λ b, prog_bind f (k b))
  | MuLock k => MuLock (prog_bind f k)
  | MuUnlock k => MuUnlock (prog_bind f k)
  | Access g k => Access g (λ b, prog_bind f (k b))
  end.

#[export] Instance Prog_bind : MBind Prog := λ A B f p, prog_bind f p.

Definition goid : Prog Z := GoID (λ i, Ret i).
Definition depths_section {B} (id : Z) (f : option Z → B * option Z) : Prog B :=
  Depths id f (λ b, Ret b).
Definition mu_Lock : Prog unit := MuLock (Ret tt).
Definition mu_Unlock : Prog unit := MuUnlock (Ret tt).
Definition access {B} (f : D → B * D) : Prog B := Access f (λ b, Ret b).

(** [s.depths[id]]. *)
Definition depth_of (e : option Z) : Z := default 0 e.

(** [s.depths[id]--; if s.depths[id] == 0 { delete(s.depths, id) }]. *)
Definition leave (e : option Z) : unit * option Z :=
  let n := depth_of e - 1 in (tt, if n =? 0 then None else Some n).

(** Returns the function that releases. *)
Definition lock : Prog (Prog unit) :=
  id ← goid;
  nested ← depths_section id (λ e,
    if 0 <? depth_of e then (true, Some (depth_of e + 1)) else (false, e));
  if (nested : bool) then mret (depths_section id leave)
  else
    mu_Lock;;
    depths_section id (λ _, (tt, Some 1));;
    mret (depths_section id leave;; mu_Unlock).

Context {V Sn : Type} (snapshot : D → Sn) (restore : Sn → D → D).

(** [defer s.lock()()] before the body of a method. *)
Definition locked (body : Prog (result V)) : Prog (result V) :=
  unlock ← lock; r ← body; unlock;; mret r.

Definition mutex_InTx (fn : Prog (result V)) : Prog (result V) :=
  id ← goid;
  depth ← depths_section id (λ e, (depth_of e, e));
  unlock ← lock;
  if 0 <? depth then r ← fn; unlock;; mret r
  else
    snap ← access (λ d, (snapshot d, d));
    r ← fn;
    match r with
    | Err e => access (λ d, (tt, restore snap d));; unlock;; mret (Err e)
    | Ok v => unlock;; mret (Ok v)
    end.

(** ** The code of a client of the store

    Method calls, transactions and, inside a method, accesses to the tables. *)
Inductive Code : Type :=
  | Return (r : result V)
  | Table {B : Type} (f : D → B * D) (k : B → Code)
  | Method (body : Code) (k : result V → Code)
  | Tx (fn : Code) (k : result V → Code).

(** Accesses are made by methods only. *)
Fixpoint guarded (inside : bool) (c : Code) : Prop :=
  match c with
  | Return _ => True
  | Table f k => inside = true ∧ ∀ b, guarded inside (k b)
  | Method body k => guarded true body ∧ ∀ r, guarded inside (k r)
  | Tx fn k => guarded true fn ∧ ∀ r, guarded inside (k r)
  end.

Fixpoint compile (c : Code) : Prog (result V) :=
  match c with
  | Return r => mret r
  | Table f k => b ← access f; compile (k b)
  | Method body k => r ← locked (compile body); compile (k r)
  | Tx fn k => r ← mutex_InTx (compile fn); compile (k r)
  end.

(** *** Calls as single steps: what a caller that holds the mutex sees. *)
Fixpoint inside (c : Code) (d : D) : result V * D :=
  match c with
  | Return r => (r, d)
  | Table f k => let '(b, d') := f d in inside (k b) d'
  | Method body k => let '(r, d') := inside body d in inside (k r) d'
  | Tx fn k => let '(r, d') := inside fn d in inside (k r) d'
  end.

(** An outermost transaction. *)
Definition outermost (fn : Code) (d : D) : result V * D :=
  let '(r, d') := inside fn d in
  (r, match r with Err _ => restore (snapshot d) d' | Ok _ => d' end).

(** ** Goroutines *)
Record Config : Type := MkConfig {
  data : D;
  mu : bool;
  depths : gmap Z Z;
  threads : gmap Z (Prog (result V))
}.

(** What [runtime.Stack] prints in goroutine [i]. *)
Context (stack : Z → string).

Inductive step (s : Config) : Config → Prop :=
  | step_GoID i k : threads s !! i = Some (GoID k) →
      step s (MkConfig (data s) (mu s) (depths s) (<[i := k (goID (stack i))]> (threads s)))
  | step_Depths i B id (f : option Z → B * option Z) k b e :
      threads s !! i = Some (Depths id f k) → f (depths s !! id) = (b, e) →
      step s (MkConfig (data s) (mu s) (partial_alter (λ _, e) id (depths s))
        (<[i := k b]> (threads s)))
  | step_MuLock i k : threads s !! i = Some (MuLock k) → mu s = false →
      step s (MkConfig (data s) true (depths s) (<[i := k]> (threads s)))
  | step_MuUnlock i k : threads s !! i = Some (MuUnlock k) →
      step s (MkConfig (data s) false (depths s) (<[i := k]> (threads s)))
  | step_Access i B (f : D → B * D) k b d :
      threads s !! i = Some (Access f k) → f (data s) = (b, d) →
      step s (MkConfig d (mu s) (depths s) (<[i := k b]> (threads s))).

(** Every goroutine at the start of its code. *)
Definition started (d : D) (cs : gmap Z Code) : Config :=
  MkConfig d false ∅ (compile <$> cs).

Definition finished (s : Config) : Prop :=
  ∀ i p, threads s !! i = Some p → ∃ r, p = Ret r.

(** *** The same goroutines with whole calls as steps. *)
Inductive call_step : D * gmap Z Code → D * gmap Z Code → Prop :=
  | call_Method d cs i body k r d' :
      cs !! i = Some (Method body k) → inside body d = (r, d') →
      call_step (d, cs) (d', <[i := k r]> cs)
  | call_Tx d cs i fn k r d' :
      cs !! i = Some (Tx fn k) → outermost fn d = (r, d') →
      call_step (d, cs) (d', <[i := k r]> cs).
End programs.
Arguments Prog D A : clear implicits.
Arguments Config D V : clear implicits.
Arguments Code D V : clear implicits.
Arguments Ret {D A} a.
Arguments GoID {D A} k.
Arguments Depths {D A B} id f k.
Arguments MuLock {D A} k.
Arguments MuUnlock {D A} k.
Arguments Access {D A B} f k.

(** ** [goID] reads the number that identifies the goroutine *)
Lemma substring_app a b n :
  String.substring 0 (String.length a + n) (a +:+ b) = a +:+ String.substring 0 n b.
Proof. induction a as [|c a IH]; [done|]. simpl. by apply (f_equal (String c)). Qed.

Lemma substring_skip a b n m :
  n = String.length a → String.substring n m (a +:+ b) = String.substring 0 m b.
Proof. intros ->. by induction a. Qed.

Lemma substring_all s : String.substring 0 (String.length s) s = s.
Proof. induction s as [|c s IH]; [done|]. simpl. by rewrite IH. Qed.

Lemma parse_digits_ge acc s z : 0 ≤ acc → parse_digits acc s = Some z → acc ≤ z.
Proof.
  revert acc. induction s as [|c s IH]; simpl; intros acc Ha; [intros [= ->]; lia|].
  destruct (is_digit c) eqn:Hc; [|done]. unfold is_digit in Hc. intros Hp.
  apply IH in Hp; lia.
Qed.

Lemma goID_digits_parse acc d rest z :
  0 ≤ acc → parse_digits acc d = Some z → z < 2 ^ 63 →
  goID_digits acc (d +:+ String " " rest) = z.
Proof.
  revert acc. induction d as [|c d IH]; intros acc Ha Hp Hz.
  { simpl in *. congruence. }
  change (String c d +:+ String " " rest) with (String c (d +:+ String " " rest)).
  simpl in *. destruct (is_digit c) eqn:Hc; [|done].
  unfold is_digit in Hc. assert (0 ≤ 10 * acc + (byte_of c - 48)) as Hn by lia.
  pose proof (parse_digits_ge _ _ _ Hn Hp).
  rewrite (int64_id (acc * 10)), int64_id by (unfold in_int64; lia).
  replace (acc * 10 + (byte_of c - 48)) with (10 * acc + (byte_of c - 48)) by lia.
  apply IH; [lia|done..].
Qed.

Lemma pretty_N_go_length (k : nat) x s :
  (x < 10 ^ N.of_nat k)%N → (String.length (pretty_N_go x s) ≤ k + String.length s)%nat.
Proof.
  revert x s. induction k as [|k IH]; intros x s Hx.
  { assert (x = 0)%N as -> by (simpl in Hx; lia). rewrite pretty_N_go_0. lia. }
  assert (x = 0 ∨ 0 < x)%N as [->|Hp] by lia; [rewrite pretty_N_go_0; lia|].
  rewrite pretty_N_go_step by done. etrans; [apply IH|simpl; lia].
  apply N.Div0.div_lt_upper_bound. replace (N.of_nat (S k)) with (N.succ (N.of_nat k)) in Hx by lia.
  by rewrite N.pow_succ_r' in Hx.
Qed.

Lemma pretty_short (z : Z) : 0 ≤ z < 2 ^ 63 → (String.length (pretty z) ≤ 19)%nat.
Proof.
  intros Hz. replace (pretty z) with (pretty (Z.to_N z)) by (destruct z; done || lia).
  unfold pretty, pretty_N. case_decide; [simpl; lia|].
  etrans; [apply (pretty_N_go_length 19)|simpl; lia].
  change (10 ^ N.of_nat 19)%N with 10000000000000000000%N. lia.
Qed.

(** [runtime.Stack] starts with a line like [goroutine 17 [running]:]. *)
Definition stack_header (i : Z) (text : string) : Prop :=
  0 ≤ i < 2 ^ 63 ∧ ∃ rest, text = "goroutine " +:+ (pretty i +:+ (" [" +:+ rest)).

Lemma goID_correct i text : stack_header i text → goID text = i.
Proof.
  intros [Hi [rest ->]]. pose proof (pretty_short i Hi) as Hl. unfold goID.
  set (d := pretty i) in *.
  replace 64%nat with (String.length "goroutine " +
    (String.length d + S (53 - String.length d)))%nat by (simpl; lia).
  rewrite substring_app, substring_app, substring_skip by done.
  set (m := (53 - String.length d)%nat).
  change (String.substring 0 (S m) (" [" +:+ rest))
    with (String " " (String.substring 0 m (String "[" rest))).
  set (t := String.substring 0 m (String "[" rest)).
  rewrite string_app_length.
  replace (String.length "goroutine " + String.length (d +:+ String " " t) - 10)%nat
    with (String.length (d +:+ String " " t)) by (simpl; lia).
  rewrite substring_all. apply goID_digits_parse; [lia| |lia].
  unfold d. replace (pretty i) with (pretty (Z.to_N i)) by (destruct i; done || lia).
  pose proof (parse_pretty_N (Z.to_N i)) as Hp. rewrite Z2N.id in Hp by lia.
  unfold parse_nat in Hp. by destruct (pretty (Z.to_N i)).
Qed.

(** ** A goroutine by itself

    [inner]: a program that leaves [mu] alone, run to its end.  [finish]: the holder of
    [mu], run until it has released it; what is left of it and the tables then.
    [settle]: a goroutine outside, run until it asks for [mu] or ends.  [e] is the
    goroutine's entry in [depths]. *)
Section simulation.
Context {D V Sn : Type} (snapshot : D → Sn) (restore : Sn → D → D) (stack : Z → string).

Fixpoint inner {A} (i : Z) (p : Prog D A) (e : option Z) (d : D) :
    option (A * option Z * D) :=
  match p with
  | Ret a => Some (a, e, d)
  | GoID k => inner i (k (goID (stack i))) e d
  | Depths id f k =>
      if decide (id = i) then let '(b, e') := f e in inner i (k b) e' d else None
  | MuLock _ | MuUnlock _ => None
  | Access f k => let '(b, d') := f d in inner i (k b) e d'
  end.

Fixpoint finish {A} (i : Z) (p : Prog D A) (e : option Z) (d : D) :
    option (Prog D A * D) :=
  match p with
  | Ret _ | MuLock _ => None
  | GoID k => finish i (k (goID (stack i))) e d
  | Depths id f k =>
      if decide (id = i) then let '(b, e') := f e in finish i (k b) e' d else None
  | MuUnlock k => match e with None => Some (k, d) | Some _ => None end
  | Access f k => let '(b, d') := f d in finish i (k b) e d'
  end.

Fixpoint settle {A} (i : Z) (p : Prog D A) : option (Prog D A) :=
  match p with
  | Ret _ | MuLock _ => Some p
  | GoID k => settle i (k (goID (stack i)))
  | Depths id f k =>
      if decide (id = i) then
        match f None with (b, None) => settle i (k b) | _ => None end
      else None
  | MuUnlock _ | Access _ _ => None
  end.

Lemma inner_bind {A B} i (f : A → Prog D B) p e d a e' d' :
  inner i p e d = Some (a, e', d') → inner i (p ≫= f) e d = inner i (f a) e' d'.
Proof.
  unfold mbind, Prog_bind. revert e d. induction p; intros e d Hi; simpl in *; try done.
  - by injection Hi as -> -> ->.
  - by apply H.
  - case_decide; [|done]. destruct (f0 e). by apply H.
  - destruct (f0 d). by apply H.
Qed.

Lemma finish_bind2 {A B C} i (g : B → Prog D C) (f : A → Prog D B) p e d a e' d' :
  inner i p e d = Some (a, e', d') →
  finish i (prog_bind g (p ≫= f)) e d = finish i (prog_bind g (f a)) e' d'.
Proof.
  unfold mbind, Prog_bind. revert e d. induction p; intros e d Hi; simpl in *; try done.
  - by injection Hi as -> -> ->.
  - by apply H.
  - case_decide; [|done]. destruct (f0 e). by apply H.
  - destruct (f0 d). by apply H.
Qed.

Context (i : Z) (Hi : goID (stack i) = i).

Lemma enter_nested n :
  1 ≤ n → (if 0 <? depth_of (Some n) then (true, Some (depth_of (Some n) + 1))
           else (false, Some n)) = (true, Some (n + 1)).
Proof. intros Hn. simpl. by rewrite (proj2 (Z.ltb_lt 0 n)) by lia. Qed.

Lemma leave_nested n : 1 ≤ n → leave (Some (n + 1)) = (tt, Some n).
Proof.
  intros Hn. unfold leave. simpl. replace (n + 1 - 1) with n by lia.
  by rewrite (proj2 (Z.eqb_neq n 0)) by lia.
Qed.

(** A method called by the holder. *)
Lemma inner_locked n (body : Prog D (result V)) d r d' :
  1 ≤ n → inner i body (Some (n + 1)) d = Some (r, Some (n + 1), d') →
  inner i (locked body) (Some n) d = Some (r, Some n, d').
Proof.
  intros Hn Hb. unfold locked. cbn -[depth_of leave Z.ltb]. rewrite Hi, decide_True by done.
  rewrite enter_nested by done. cbn -[depth_of leave].
  erewrite (inner_bind i); [|exact Hb]. cbn -[leave].
  by rewrite decide_True, leave_nested by done.
Qed.

Lemma inner_InTx n (fn : Prog D (result V)) d r d' :
  1 ≤ n → inner i fn (Some (n + 1)) d = Some (r, Some (n + 1), d') →
  inner i (mutex_InTx snapshot restore fn) (Some n) d = Some (r, Some n, d').
Proof.
  intros Hn Hb. unfold mutex_InTx. cbn -[depth_of leave Z.ltb]. rewrite Hi, decide_True by done.
  rewrite decide_True, enter_nested by done. cbn -[leave Z.ltb].
  rewrite (proj2 (Z.ltb_lt 0 n)) by lia.
  erewrite (inner_bind i); [|exact Hb]. cbn -[leave].
  by rewrite decide_True, leave_nested by done.
Qed.

(** Whatever the holder calls is one uninterrupted computation. *)
Lemma inner_compile (c : Code D V) n d :
  1 ≤ n → inner i (compile snapshot restore c) (Some n) d =
    Some ((inside c d).1, Some n, (inside c d).2).
Proof.
  revert n d. induction c as [r|B f k IH|body IHb k IH|fn IHf k IH]; intros n d Hn;
    cbn [compile inside].
  - done.
  - simpl. destruct (f d) as [b d']. by apply IH.
  - specialize (IHb (n + 1) d ltac:(lia)). apply inner_locked in IHb; [|done].
    destruct (inside body d) as [r d']. erewrite (inner_bind i); [|exact IHb]. by apply IH.
  - specialize (IHf (n + 1) d ltac:(lia)). apply inner_InTx in IHf; [|done].
    destruct (inside fn d) as [r d']. erewrite (inner_bind i); [|exact IHf]. by apply IH.
Qed.

(** From acquiring the mutex to releasing it: a method called outside. *)
Lemma finish_method (body : Code D V) k q d :
  settle i (compile snapshot restore (Method body k)) = Some (MuLock q) →
  finish i q None d =
    Some (compile snapshot restore (k (inside body d).1), (inside body d).2).
Proof.
  cbn -[leave]. rewrite Hi, decide_True by done. cbn -[leave]. intros [= <-].
  cbn -[leave]. rewrite decide_True by done.
  erewrite finish_bind2; [|apply inner_compile; lia]. cbn -[leave].
  rewrite decide_True by done. by cbn.
Qed.

(** And an outermost transaction. *)
Lemma finish_tx (fn : Code D V) k q d :
  settle i (compile snapshot restore (Tx fn k)) = Some (MuLock q) →
  finish i q None d =
    Some (compile snapshot restore (k (outermost snapshot restore fn d).1),
      (outermost snapshot restore fn d).2).
Proof.
  cbn -[leave]. rewrite Hi, !decide_True by done. cbn -[leave]. intros [= <-].
  cbn -[leave]. rewrite decide_True by done.
  erewrite finish_bind2; [|apply inner_compile; lia]. unfold outermost.
  destruct (inside fn d) as [[v|e] d']; cbn -[leave]; rewrite decide_True by done; by cbn.
Qed.
End simulation.

(** ** All goroutines together *)
Section system.
Context {D V Sn : Type} (snapshot : D → Sn) (restore : Sn → D → D) (stack : Z → string).
#[local] Abbreviation compile := (compile snapshot restore).
#[local] Abbreviation step := (step (D := D) (V := V) stack).
#[local] Abbreviation call_step := (call_step snapshot restore).

(** A goroutine between two calls, or before it has got the mutex for one. *)
Definition idle (i : Z) (p : Prog D (result V)) (c : Code D V) : Prop :=
  goID (stack i) = i ∧ guarded false c ∧
  ∃ q, settle stack i p = Some q ∧ settle stack i (compile c) = Some q.

Lemma idle_compile i c : goID (stack i) = i → guarded false c → idle i (compile c) c.
Proof.
  intros Hi Hc. split; [done|]. split; [done|].
  destruct c as [r|B f k|body k|fn k]; simpl in *.
  - by eexists.
  - by destruct Hc.
  - rewrite Hi, decide_True by done. by eexists.
  - rewrite Hi, !decide_True by done. simpl. rewrite ?decide_True by done. by eexists.
Qed.

Lemma idle_GoID i k c : idle i (GoID k) c → idle i (k (goID (stack i))) c.
Proof. done. Qed.

Lemma idle_Depths_own i B id (f : option Z → B * option Z) k c :
  idle i (Depths id f k) c → id = i.
Proof. intros (_ & _ & q & Hq & _). simpl in Hq. by case_decide. Qed.

Lemma idle_Depths i B id (f : option Z → B * option Z) k c b e :
  idle i (Depths id f k) c → f None = (b, e) → id = i ∧ e = None ∧ idle i (k b) c.
Proof.
  intros (Hi & Hc & q & Hq & Hs) Hf. simpl in Hq. case_decide; [|done]. rewrite Hf in Hq.
  destruct e; [done|]. do 4 (split; [done|]). by exists q.
Qed.

(** An idle goroutine that gets the mutex has made a call. *)
Lemma idle_MuLock i q c d cs :
  idle i (MuLock q) c → cs !! i = Some c →
  ∃ c' d', call_step (d, cs) (d', <[i := c']> cs) ∧
    finish stack i q None d = Some (compile c', d') ∧ idle i (compile c') c'.
Proof.
  intros (Hi & Hc & q' & [= <-] & Hs) Hcs. destruct c as [r|B f k|body k|fn k].
  - done.
  - by destruct Hc.
  - destruct Hc as [_ Hc]. eexists _, _. split_and!.
    + eapply call_Method; [done|]. apply surjective_pairing.
    + by apply finish_method.
    + by apply idle_compile.
  - destruct Hc as [_ Hc]. eexists _, _. split_and!.
    + eapply call_Tx; [done|]. apply surjective_pairing.
    + by apply finish_tx.
    + by apply idle_compile.
Qed.

(** The goroutines the condition [P] speaks of are idle. *)
Definition all_idle (P : Z → Prop) (ts : gmap Z (Prog D (result V)))
    (cs : gmap Z (Code D V)) : Prop :=
  ∀ i, P i → option_Forall2 (idle i) (ts !! i) (cs !! i).

Lemma all_idle_get P ts cs i p :
  all_idle P ts cs → P i → ts !! i = Some p → ∃ c, cs !! i = Some c ∧ idle i p c.
Proof.
  intros Ha Hi Hp. specialize (Ha i Hi). rewrite Hp in Ha. inversion Ha; subst. eauto.
Qed.

Lemma all_idle_step P ts cs i p c :
  all_idle P ts cs → cs !! i = Some c → (P i → idle i p c) → all_idle P (<[i := p]> ts) cs.
Proof.
  intros Ha Hc Hp j Hj. destruct (decide (j = i)) as [->|Hne].
  - rewrite lookup_insert_eq, Hc. constructor. auto.
  - rewrite lookup_insert_ne by done. by apply Ha.
Qed.

Lemma all_idle_others P ts cs i p c :
  all_idle P ts cs → all_idle (λ j, P j ∧ j ≠ i) (<[i := p]> ts) (<[i := c]> cs).
Proof. intros Ha j [Hj Hne]. rewrite !lookup_insert_ne by done. by apply Ha. Qed.
(** The goroutines as whole calls see them: the call of the holder has happened. *)
Inductive related (s : Config D V) : D * gmap Z (Code D V) → Prop :=
  | related_free d cs :
      data s = d → mu s = false → depths s = ∅ → all_idle (λ _, True) (threads s) cs →
      related s (d, cs)
  | related_held h p q c d cs :
      mu s = true → (∀ i, i ≠ h → depths s !! i = None) →
      all_idle (λ i, i ≠ h) (threads s) cs →
      threads s !! h = Some p → cs !! h = Some c →
      finish stack h p (depths s !! h) (data s) = Some (q, d) → idle h q c →
      related s (d, cs).


Lemma partial_alter_None (m : gmap Z Z) i : m !! i = None → partial_alter (λ _, None) i m = m.
Proof.
  intros Hm. apply map_eq. intros j. destruct (decide (j = i)) as [->|Hne].
  - by rewrite lookup_partial_alter_eq.
  - by rewrite lookup_partial_alter_ne.
Qed.

(** A step of a goroutine that does not hold the mutex. *)
Lemma free_step s s' cs :
  mu s = false → depths s = ∅ → all_idle (λ _, True) (threads s) cs → step s s' →
  ∃ t, rtc call_step (data s, cs) t ∧ related s' t.
Proof.
  intros Hmu Hd Ha Hs. destruct Hs as [i k Hp|i B id f k b e Hp Hf|i k Hp _|i k Hp|i B f k b d Hp Hf];
    destruct (all_idle_get _ _ _ _ _ Ha I Hp) as (c & Hc & Hidle).
  - exists (data s, cs). split; [done|]. apply related_free; simpl; try done.
    by eapply all_idle_step.
  - rewrite Hd, lookup_empty in Hf. destruct (idle_Depths _ _ _ _ _ _ _ _ Hidle Hf) as (-> & -> & Hi).
    exists (data s, cs). split; [done|]. apply related_free; simpl; try done.
    + by rewrite Hd, partial_alter_None.
    + by eapply all_idle_step.
  - destruct (idle_MuLock i k c (data s) cs Hidle Hc) as (c' & d' & Hcall & Hfin & Hi').
    exists (d', <[i := c']> cs). split; [by apply rtc_once|].
    eapply (related_held _ i k (compile c') c'); simpl; try done.
    + by rewrite Hd.
    + intros j Hj. by eapply all_idle_others.
    + by rewrite lookup_insert_eq.
    + by rewrite lookup_insert_eq.
    + by rewrite Hd, lookup_empty.
  - by destruct Hidle as (_ & _ & q & ? & _).
  - by destruct Hidle as (_ & _ & q & ? & _).
Qed.

(** A step of the holder, and of a goroutine that waits while another one holds it. *)
Lemma held_step s s' h p q c d cs :
  mu s = true → (∀ j, j ≠ h → depths s !! j = None) → all_idle (λ j, j ≠ h) (threads s) cs →
  threads s !! h = Some p → cs !! h = Some c →
  finish stack h p (depths s !! h) (data s) = Some (q, d) → idle h q c →
  step s s' → related s' (d, cs).
Proof.
  intros Hmu Hd Ha Hp Hc Hfin Hidle Hs.
  assert (∀ p' e d', finish stack h p' e d' = Some (q, d) →
    related (MkConfig d' true (partial_alter (λ _, e) h (depths s)) (<[h := p']> (threads s)))
      (d, cs)) as Hown.
  { intros p' e d' Hf'. eapply (related_held _ h p' q c); simpl; try done.
    - intros j Hj. rewrite lookup_partial_alter_ne by done. by apply Hd.
    - eapply all_idle_step; [done..|]. done.
    - by rewrite lookup_insert_eq.
    - by rewrite lookup_partial_alter_eq. }
  assert (∀ i p' c', i ≠ h → cs !! i = Some c' → idle i p' c' →
    related (MkConfig (data s) true (depths s) (<[i := p']> (threads s))) (d, cs)) as Hother.
  { intros i p' c' Hne Hc' Hi'. eapply (related_held _ h p q c); simpl; try done.
    - by eapply all_idle_step.
    - by rewrite lookup_insert_ne. }
  destruct Hs as [i k Hp'|i B id f k b e Hp' Hf|i k Hp' ?|i k Hp'|i B f k b d' Hp' Hf];
    [| | congruence | |]; rewrite ?Hmu;
    (destruct (decide (i = h)) as [->|Hne];
     [rewrite Hp' in Hp; injection Hp as <-; simpl in Hfin
     |destruct (all_idle_get _ _ _ _ _ Ha Hne Hp') as (c' & Hc' & Hi')]).
  - rewrite <-(partial_alter_self (depths s) h). by apply Hown.
  - by eapply Hother.
  - case_decide; [subst|done]. rewrite Hf in Hfin. by apply Hown.
  - pose proof (idle_Depths_own _ _ _ _ _ _ Hi') as ->. rewrite (Hd i Hne) in Hf.
    destruct (idle_Depths _ _ _ _ _ _ _ _ Hi' Hf) as (_ & -> & Hi2).
    rewrite partial_alter_None by by apply Hd. by eapply Hother.
  - destruct (depths s !! h) eqn:Hh; [done|]. injection Hfin as -> <-.
    apply related_free; simpl; try done.
    + apply map_empty. intros j. destruct (decide (j = h)) as [->|Hne]; auto.
    + intros j _. destruct (decide (j = h)) as [->|Hne].
      * rewrite lookup_insert_eq, Hc. by constructor.
      * rewrite lookup_insert_ne by done. by apply Ha.
  - by destruct Hi' as (_ & _ & ? & ? & _).
  - rewrite Hf in Hfin. rewrite <-(partial_alter_self (depths s) h). by apply Hown.
  - by destruct Hi' as (_ & _ & ? & ? & _).
Qed.

Lemma related_step s s' t :
  related s t → step s s' → ∃ t', rtc call_step t t' ∧ related s' t'.
Proof.
  intros [d cs <- ? ? ?|h p q c d cs] Hs; [by eapply free_step|].
  exists (d, cs). split; [done|]. by eapply held_step.
Qed.

Lemma related_started d cs :
  (∀ i c, cs !! i = Some c → goID (stack i) = i ∧ guarded false c) →
  related (started snapshot restore d cs) (d, cs).
Proof.
  intros Hcs. apply related_free; try done. intros i _. simpl. rewrite lookup_fmap.
  destruct (cs !! i) as [c|] eqn:Hc; simpl; constructor.
  apply idle_compile; by eapply Hcs.
Qed.

Lemma related_reachable s s' t :
  rtc step s s' → related s t → ∃ t', rtc call_step t t' ∧ related s' t'.
Proof.
  intros Hs. revert t. induction Hs as [s|s s1 s' Hs _ IH]; intros t Ht; [by eexists|].
  destruct (related_step _ _ _ Ht Hs) as (t1 & Hc1 & Ht1).
  destruct (IH t1 Ht1) as (t' & Hc' & Ht'). exists t'. split; [by etrans|done].
Qed.

(** *** What the simulation shows *)

(** The goroutines of the process: numbered by the runtime, and clients of the store. *)
Definition store_clients (cs : gmap Z (Code D V)) : Prop :=
  ∀ i c, cs !! i = Some c → stack_header i (stack i) ∧ guarded false c.

Lemma reachable_related d cs s :
  store_clients cs → rtc step (started snapshot restore d cs) s →
  ∃ t, rtc call_step (d, cs) t ∧ related s t.
Proof.
  intros Hcs Hs. eapply related_reachable; [done|]. apply related_started.
  intros i c Hc. destruct (Hcs i c Hc). split; [by apply goID_correct|done].
Qed.

(** Between the calls: the goroutine has returned what the calls returned. *)
Lemma idle_Ret i r c : idle i (Ret r) c → c = Return r.
Proof.
  intros (Hi & Hc & q & [= <-] & Hs). destruct c as [r'|B f k|body k|fn k]; simpl in Hs.
  - by injection Hs as ->.
  - by destruct Hc.
  - rewrite Hi, decide_True in Hs by done. done.
  - rewrite Hi, !decide_True in Hs by done. simpl in Hs.
    by rewrite ?decide_True in Hs.
Qed.

Definition returned (p : Prog D (result V)) (c : Code D V) : Prop :=
  ∃ r, p = Ret r ∧ c = Return r.

Lemma related_finished s t :
  related s t → finished s → t.1 = data s ∧
  ∀ i, option_Forall2 returned (threads s !! i) (t.2 !! i).
Proof.
  intros [d cs <- ? ? Ha|h p q c d cs Hmu Hd Ha Hp Hc Hfin Hidle] Hdone.
  - split; [done|]. intros i. specialize (Ha i I). simpl.
    inversion Ha as [p c Hi Hp Hc|]; constructor. destruct (Hdone i p) as [r ->]; [done|].
    exists r. split; [done|]. by apply (idle_Ret i).
  - by destruct (Hdone h p Hp) as [r ->].
Qed.

(** The in-memory store is serialisable.  Goroutines that reach the tables
    through methods and transactions, each a sequence of accesses under the reentrant
    mutex, interleaved in any way: when all have returned, the tables and what every
    goroutine got are those of some order of the whole calls, in which a method is one
    step and a transaction is one step that restores the snapshot when it fails. *)
Lemma store_serialisable d cs s :
  store_clients cs → rtc step (started snapshot restore d cs) s → finished s →
  ∃ cs', rtc call_step (d, cs) (data s, cs') ∧
    ∀ i, option_Forall2 returned (threads s !! i) (cs' !! i).
Proof.
  intros Hcs Hs Hdone. destruct (reachable_related d cs s Hcs Hs) as ([d' cs'] & Hc & Hr).
  destruct (related_finished _ _ Hr Hdone) as [Hd Hres]. simpl in *. subst. by exists cs'.
Qed.

(** What the goroutine does next with the tables. *)
Definition at_access (p : Prog D (result V)) : Prop :=
  match p with Access _ _ => True | _ => False end.

(** No data race on the tables: at every reachable point at most one goroutine is
    about to access them, whatever calls it is inside. *)
Theorem store_race_free d cs s i j p q :
  store_clients cs → rtc step (started snapshot restore d cs) s →
  threads s !! i = Some p → at_access p → threads s !! j = Some q → at_access q → i = j.
Proof.
  intros Hcs Hs Hi Hp Hj Hq. destruct (reachable_related d cs s Hcs Hs) as (t & _ & Hr).
  assert (∀ P ts cs k p, all_idle P ts cs → P k → ts !! k = Some p → at_access p → False) as Hno.
  { intros P ts cs' k p' Ha HP Hk Hp'.
    destruct (all_idle_get _ _ _ _ _ Ha HP Hk) as (c & _ & _ & _ & ? & Hset & _).
    by destruct p'. }
  destruct Hr as [? cs' _ _ _ Ha|h p' q' c d' cs' _ _ Ha _ _ _ _].
  - by destruct (Hno _ _ _ _ _ Ha I Hi).
  - trans h; apply dec_stable; intros Hne.
    + by eapply (Hno _ _ _ i p Ha).
    + by eapply (Hno _ _ _ j q Ha).
Qed.

(** *** Every execution ends *)

(** What is left of a program after one of its instructions. *)
Definition next {A} (q p : Prog D A) : Prop :=
  match p with
  | Ret _ => False
  | GoID k => ∃ i, q = k i
  | Depths _ _ k => ∃ b, q = k b
  | MuLock k | MuUnlock k => q = k
  | Access _ k => ∃ b, q = k b
  end.

Lemma next_wf {A} (p : Prog D A) : Acc next p.
Proof.
  induction p as [a|k IH|B id f k IH|k IH|k IH|B f k IH]; constructor; intros q Hq;
    simpl in Hq; [done|..]; by (destruct Hq as [b ->] || subst q).
Qed.

Definition one_next (ts' ts : gmap Z (Prog D (result V))) : Prop :=
  ∃ i p p', ts !! i = Some p ∧ next p' p ∧ ts' = <[i := p']> ts.

Lemma one_next_insert i p ts :
  Acc next p → Acc one_next ts → ts !! i = None → Acc one_next (<[i := p]> ts).
Proof.
  intros Hp. revert ts. induction Hp as [p _ IHp]. intros ts Hts.
  induction Hts as [ts Hts IHts]. intros Hi. constructor.
  intros ts' (j & q & q' & Hj & Hq & ->). destruct (decide (j = i)) as [->|Hne].
  - rewrite lookup_insert_eq in Hj. injection Hj as ->. rewrite insert_insert_eq.
    apply IHp; [done| |done]. by constructor.
  - rewrite lookup_insert_ne in Hj by done. rewrite insert_insert_ne by done.
    apply IHts; [by exists j, q, q'|]. by rewrite lookup_insert_ne.
Qed.

Lemma one_next_wf ts : Acc one_next ts.
Proof.
  induction ts as [|i p ts Hi IH] using map_ind.
  - constructor. intros ts' (i & p & p' & Hi & _). by rewrite lookup_empty in Hi.
  - apply one_next_insert; [apply next_wf|done..].
Qed.

Lemma step_next s s' : step s s' → one_next (threads s') (threads s).
Proof. intros Hs. destruct Hs; eexists _, _, _; (split; [done|]); (split; [|done]); simpl; eauto. Qed.

Lemma step_sn s : sn step s.
Proof.
  remember (threads s) as ts eqn:Hts. revert s Hts.
  induction (one_next_wf ts) as [ts _ IH]. intros s ->. constructor.
  intros s' Hs. eapply IH; [by apply step_next|done].
Qed.

(** Only a goroutine that asks for the held mutex cannot go on. *)
Lemma can_step s i p :
  threads s !! i = Some p →
  (∃ r, p = Ret r) ∨ (∃ k, p = MuLock k ∧ mu s = true) ∨ ∃ s', step s s'.
Proof.
  intros Hp. destruct p as [r|k|B id f k|k|k|B f k].
  - left. by eexists.
  - do 2 right. eexists. by apply step_GoID.
  - do 2 right. destruct (f (depths s !! id)) eqn:Hf. eexists. by eapply step_Depths.
  - right. destruct (mu s) eqn:Hmu; [left; by eexists|]. right. eexists. by apply step_MuLock.
  - do 2 right. eexists. by apply step_MuUnlock.
  - do 2 right. destruct (f (data s)) eqn:Hf. eexists. by eapply step_Access.
Qed.

(** C18. The reentrant mutex cannot deadlock.  Every execution of goroutines that call
    methods and transactions, nested in any way, comes to an end, and where none can go
    on all of them have returned: a goroutine never waits for itself, and the one
    that holds the mutex is never the one that waits. *)
Theorem store_calls_return d cs :
  store_clients cs →
  sn step (started snapshot restore d cs) ∧
  ∀ s, rtc step (started snapshot restore d cs) s → nf step s → finished s.
Proof.
  intros Hcs. split; [apply step_sn|]. intros s Hs Hnf i p Hp.
  destruct (reachable_related d cs s Hcs Hs) as (t & _ & Hr).
  assert (¬ ∃ s', step s s') as Hstuck by (intros [s' Hs']; apply Hnf; by exists s').
  destruct (can_step s i p Hp) as [Hret|[(k & -> & Hmu)|?]]; [done| |done]. exfalso.
  destruct Hr as [? cs' _ ? _ _|h p' q c d' cs' _ _ _ Hp' _ Hfin _]; [congruence|].
  destruct (can_step s h p' Hp') as [[r ->]|[(k' & -> & _)|?]]; done.
Qed.
(** *** An executable scheduler *)

(** The next step of goroutine [i], if it can take one. *)
Definition step_of (i : Z) (s : Config D V) : option (Config D V) :=
  let to d m ds q := Some (MkConfig d m ds (<[i := q]> (threads s))) in
  match threads s !! i with
  | None | Some (Ret _) => None
  | Some (GoID k) => to (data s) (mu s) (depths s) (k (goID (stack i)))
  | Some (Depths id f k) =>
      let '(b, e) := f (depths s !! id) in
      to (data s) (mu s) (partial_alter (λ _, e) id (depths s)) (k b)
  | Some (MuLock k) => if mu s then None else to (data s) true (depths s) k
  | Some (MuUnlock k) => to (data s) false (depths s) k
  | Some (Access f k) => let '(b, d) := f (data s) in to d (mu s) (depths s) (k b)
  end.

(** Goroutines in the order given; one that cannot go on is passed over. *)
Definition run_schedule (l : list Z) (s : Config D V) : Config D V :=
  foldl (λ s i, default s (step_of i s)) s l.

Definition all_returned (s : Config D V) : bool :=
  forallb (λ ip, match ip.2 with Ret _ => true | _ => false end) (map_to_list (threads s)).

Lemma step_of_step i s s' : step_of i s = Some s' → step s s'.
Proof.
  unfold step_of. destruct (threads s !! i) as [p|] eqn:Hp; [|done]. simpl.
  destruct p as [r|k|B id f k|k|k|B f k]; [done|..].
  - intros [= <-]. by apply step_GoID.
  - destruct (f _) as [b e] eqn:Hf. intros [= <-]. by eapply step_Depths.
  - destruct (mu s) eqn:Hmu; [done|]. intros [= <-]. by apply step_MuLock.
  - intros [= <-]. by apply step_MuUnlock.
  - destruct (f _) as [b d] eqn:Hf. intros [= <-]. by eapply step_Access.
Qed.

Lemma run_schedule_steps l s : rtc step s (run_schedule l s).
Proof.
  revert s. induction l as [|i l IH]; intros s; [done|]. simpl.
  destruct (step_of i s) as [s'|] eqn:Hs; [|apply IH].
  eapply rtc_l; [by eapply step_of_step|apply IH].
Qed.

Lemma all_returned_finished s : all_returned s = true → finished s.
Proof.
  unfold all_returned. rewrite forallb_forall. intros Hall i p Hp.
  specialize (Hall (i, p)). rewrite <-list_elem_of_In, elem_of_map_to_list in Hall.
  specialize (Hall Hp). simpl in Hall. destruct p; try done. by eexists.
Qed.
End system.

(** ** Witnesses *)

(** The first line of [runtime.Stack] of a running goroutine. *)
Definition running_stack (i : Z) : string := "goroutine " +:+ pretty i +:+ " [running]:".

Lemma running_stack_header i : 0 ≤ i < 2 ^ 63 → stack_header i (running_stack i).
Proof. intros Hi. split; [done|]. by exists "running]:". Qed.

(** Two goroutines on a counter: a transaction with a nested call that fails, and a method
    of two accesses. *)
Definition two_clients : gmap Z (Code Z unit) :=
  {[1 := Tx (Method (Table (λ d, (d, d + 10)) (λ _, Return (Err ErrNoRows))) Return) Return;
    2 := Method (Table (λ d, (d, d)) (λ d0, Table (λ d, (tt, d0 + 1)) (λ _, Return (Ok tt))))
           Return]}.

Lemma two_clients_ok : store_clients running_stack two_clients.
Proof.
  intros i c. unfold two_clients. rewrite lookup_insert_Some, lookup_singleton_Some.
  intros [[<- <-]|[_ [<- <-]]]; (split; [by apply running_stack_header|]); by repeat split.
Qed.

Definition counter_start : Config Z unit := started (λ d, d) (λ sn _, sn) 0 two_clients.

Lemma store_calls_return_witness :
  sn (step running_stack) counter_start ∧
  ∀ s, rtc (step running_stack) counter_start s → nf (step running_stack) s → finished s.
Proof. apply (store_calls_return _ _ _ _ _ two_clients_ok). Defined.

(** Goroutine 2 has the mutex and goroutine 1 has asked for it. *)
Definition second_first : Config Z unit :=
  run_schedule running_stack [2; 1; 2; 1; 2; 1; 2; 1; 1; 1] counter_start.

Definition second_next : Prog Z (result unit) := default (Ret (Ok tt)) (threads second_first !! 2).

Lemma store_race_free_witness : at_access second_next ∧ 2 = 2.
Proof.
  assert (threads second_first !! 2 = Some second_next) as Hn by reflexivity.
  assert (at_access second_next) as Ha by (vm_compute; exact I). split; [exact Ha|].
  exact (store_race_free (λ d, d) (λ sn _, sn) running_stack 0 two_clients second_first 2 2 _ _
    two_clients_ok (run_schedule_steps running_stack _ _) Hn Ha Hn Ha).
Defined.
