(* ===== verification/StoreHistories.v ===== *)
(** * StoreHistories: concurrent clients of the in-memory store

    The bridge between the mutex ([StoreMutex]) and the methods as single steps
    ([MemStore]): goroutines that run calls and transactions concurrently leave the
    tables as some interleaving of whole calls does, so that every theorem on
    [run_history] holds of concurrent clients. *)
From stdpp Require Import base tactics numbers option gmap strings pretty list relations.
From Stdlib Require Import ZArith Lia.
From S2P Require Import Prelude.
From S2P Require Import GoLang.
From S2P Require Import Domain.
From S2P Require Import World.
From S2P Require Import Reference.
From S2P Require Import MemStore.
From S2P Require Import MemStoreFacts.
From S2P Require Import MemStoreProps.
From S2P Require Import StoreMutex.

#[local] Open Scope string_scope.
#[local] Open Scope list_scope.
#[local] Open Scope Z_scope.

(** ** Methods do not look at the depth *)
Section blind.
Context `{GoRuntime} `{UUIDLib} `{Environment}.

Definition depth_blind {A} (m : Go A) : Prop :=
  ∀ n w, m (set_depth n w) = ((m w).1, set_depth n (m w).2).

Lemma blind_ret {A} (a : A) : depth_blind (mret a).
Proof. done. Qed.
Lemma blind_throw {A} e : depth_blind (throw (A := A) e).
Proof. done. Qed.
Lemma blind_get_store : depth_blind get_store.
Proof. done. Qed.
Lemma blind_upd_store f : depth_blind (upd_store f).
Proof. done. Qed.
Lemma blind_time_Now : depth_blind time_Now.
Proof. done. Qed.
Lemma blind_uuid_New : depth_blind uuid_New.
Proof. done. Qed.

Lemma blind_bind {A B} (m : Go A) (f : A → Go B) :
  depth_blind m → (∀ a, depth_blind (f a)) → depth_blind (m ≫= f).
Proof.
  intros Hm Hf n w. unfold mbind, GoM_bind. rewrite Hm.
  destruct (m w) as [[a|e] w']; simpl; [apply Hf|done].
Qed.

Lemma blind_for_each {A} (l : list A) body :
  (∀ x, depth_blind (body x)) → depth_blind (for_each l body).
Proof. intros Hb. induction l; simpl; auto using blind_ret, blind_bind. Qed.

Lemma blind_if {A} (b : bool) (m k : Go A) :
  depth_blind m → depth_blind k → depth_blind (if b then m else k).
Proof. by destruct b. Qed.
End blind.

Create HintDb blind discriminated.
#[export] Hint Constants Opaque : blind.
#[export] Hint Resolve blind_ret blind_throw blind_get_store blind_upd_store blind_time_Now
  blind_uuid_New : blind.

Ltac solve_blind :=
  repeat first [ progress intros | solve [auto 2 with blind] | apply blind_bind
    | apply blind_if | apply blind_for_each | case_match ].

(** The method a computation calls. *)
Ltac unfold_method m :=
  lazymatch m with
  | ?f _ => unfold_method f
  | _ => unfold m
  end.

Section calls.
Context `{GoRuntime} `{UUIDLib} `{Environment}.

Lemma run_call_blind c : depth_blind (run_call c).
Proof.
  destruct c; simpl;
    lazymatch goal with
    | |- depth_blind (?m ≫= _) => unfold_method m
    | |- depth_blind ?m => unfold_method m
    end; solve_blind.
Qed.
End calls.

(** ** Goroutines that run calls and transactions *)
Section histories.
Context `{GoRuntime} `{UUIDLib} `{Environment}.

(** The body of a method: accesses to the tables, in as many steps as it takes, that
    together do what the method of [MemStore] does. *)
Context (bodies : MemCall → Code World unit).

Definition implements : Prop :=
  ∀ c, guarded true (bodies c) ∧ ∀ w, inside (bodies c) w = run_call c w.

(** The function given to [InTx]: calls in turn, up to the first that fails. *)
Fixpoint tx_code (cs : list MemCall) : Code World unit :=
  match cs with
  | [] => Return (Ok tt)
  | c :: cs =>
      Method (bodies c) (λ r, match r with Ok _ => tx_code cs | Err e => Return (Err e) end)
  end.

Fixpoint history_code (h : list Txn) : Code World unit :=
  match h with
  | [] => Return (Ok tt)
  | Plain c :: h => Method (bodies c) (λ _, history_code h)
  | Transaction cs :: h => Tx (tx_code cs) (λ _, history_code h)
  end.

(** The orders in which the calls of several goroutines can be run. *)
Inductive merged : gmap Z (list Txn) → list Txn → Prop :=
  | merged_done hs : (∀ i h, hs !! i = Some h → h = []) → merged hs []
  | merged_next hs i t h l :
      hs !! i = Some (t :: h) → merged (<[i := h]> hs) l → merged hs (t :: l).

Context (Hb : implements).

Lemma set_depth_id w : set_depth (depth w) w = w.
Proof. by destruct w. Qed.

Lemma run_call_depth c w : depth (run_call c w).2 = depth w.
Proof. rewrite <-(set_depth_id w) at 1. by rewrite run_call_blind. Qed.

Lemma tx_code_run cs n w :
  for_each cs run_call (set_depth n w) =
    ((inside (tx_code cs) w).1, set_depth n (inside (tx_code cs) w).2).
Proof.
  revert w. induction cs as [|c cs IH]; intros w; [done|]. simpl. rewrite (proj2 (Hb c)).
  unfold mbind, GoM_bind. rewrite run_call_blind. destruct (run_call c w) as [[[]|e] w']; simpl;
    [apply IH|done].
Qed.

Lemma tx_code_depth cs w : depth (inside (tx_code cs) w).2 = depth w.
Proof.
  revert w. induction cs as [|c cs IH]; intros w; [done|]. simpl. rewrite (proj2 (Hb c)).
  pose proof (run_call_depth c w) as Hd.
  destruct (run_call c w) as [[[]|e] w']; simpl in *; [by rewrite IH|done].
Qed.

(** A transaction as the mutex runs it is the transaction of [MemStore]. *)
Lemma outermost_InTx cs w :
  depth w = 0%nat → outermost store set_store (tx_code cs) w = InTx (for_each cs run_call) w.
Proof.
  intros Hd. unfold outermost, InTx, restore. go_run. rewrite snapshot_run, Hd, tx_code_run.
  pose proof (tx_code_depth cs w) as Hd'.
  destruct (inside (tx_code cs) w) as [[[]|e] [s' d' l' c' t' i' tr']]; simpl in *; subst;
    by rewrite Hd.
Qed.

Lemma run_txn_depth t w : depth w = 0%nat → depth (run_txn t w).2 = 0%nat.
Proof.
  intros Hd. destruct t as [c|cs]; simpl; [by rewrite run_call_depth|].
  rewrite <-outermost_InTx by done. unfold outermost. pose proof (tx_code_depth cs w).
  destruct (inside (tx_code cs) w) as [[]]; simpl in *; congruence.
Qed.

(** One call of one goroutine. *)
Lemma call_step_txn w hs w' cs' :
  depth w = 0%nat → call_step store set_store (w, history_code <$> hs) (w', cs') →
  ∃ i t h, hs !! i = Some (t :: h) ∧ w' = (run_txn t w).2 ∧
    cs' = history_code <$> <[i := h]> hs.
Proof.
  intros Hd Hs. inversion Hs as [? ? i body k r ? Hi Hr|? ? i fn k r ? Hi Hr]; subst;
    rewrite lookup_fmap in Hi; destruct (hs !! i) as [[|[c|cs] h]|] eqn:Hh; try done;
    injection Hi as <- <-; exists i; eexists _, h; rewrite fmap_insert; split_and!; try done.
  - simpl. by rewrite <-(proj2 (Hb c)), Hr.
  - simpl. by rewrite <-outermost_InTx, Hr by done.
Qed.

Lemma call_steps_merged t t' :
  rtc (call_step store set_store) t t' → ∀ w hs, t = (w, history_code <$> hs) →
  depth w = 0%nat → (∀ i c, t'.2 !! i = Some c → ∃ r, c = Return r) →
  ∃ l, merged hs l ∧ t'.1 = run_history l w.
Proof.
  induction 1 as [t|t t1 t' Hs _ IH]; intros w hs -> Hd Hdone; simpl in *.
  - exists []. split; [|done]. constructor. intros i h Hi.
    destruct (Hdone i (history_code h)) as [r Hr]; [by rewrite lookup_fmap, Hi|].
    by destruct h as [|[]].
  - destruct t1 as [w1 cs1].
    destruct (call_step_txn w hs w1 cs1 Hd Hs) as (i & x & h & Hi & -> & ->).
    destruct (IH _ _ eq_refl) as (l & Hl & Hw); [by apply run_txn_depth|done|].
    exists (x :: l). split; [by econstructor|done].
Qed.

Lemma tx_guarded cs : guarded true (tx_code cs).
Proof.
  induction cs as [|c cs IH]; [done|]. simpl. split; [apply Hb|]. by intros [].
Qed.

Lemma history_guarded h : guarded false (history_code h).
Proof.
  induction h as [|[c|cs] h IH]; [done|..]; simpl; (split; [|done]); [apply Hb|apply tx_guarded].
Qed.

Lemma merged_valid hs l :
  merged hs l → (∀ i h, hs !! i = Some h → Forall txn_valid h) → Forall txn_valid l.
Proof.
  induction 1 as [hs _|hs i t h l Hi _ IH]; intros Hv; [constructor|].
  pose proof (Hv i _ Hi) as Hth. apply Forall_cons in Hth as [Ht Hh].
  constructor; [done|]. apply IH. intros j h'. rewrite lookup_insert_Some.
  intros [[_ <-]|[_ Hj]]; [done|by eapply Hv].
Qed.

(** C8. Concurrent clients of the in-memory store see whole calls.  Goroutines, none of
    which puts a funding request back into the state REQUESTED, run calls and
    transactions of the store concurrently on a store that satisfies the table
    invariants, their method bodies interleaved access by access under the reentrant
    mutex: when all have returned, the tables are those of a history in which the calls
    and transactions happen one after another, each goroutine's in its own order, and the
    table invariants hold. *)
Theorem concurrent_histories (stack : Z → string) hs w s :
  depth w = 0%nat → store_ok (store w) →
  (∀ i h, hs !! i = Some h → stack_header i (stack i) ∧ Forall txn_valid h) →
  rtc (step stack) (started store set_store w (history_code <$> hs)) s → finished s →
  ∃ l, merged hs l ∧ data s = run_history l w ∧ store_ok (store (data s)).
Proof.
  intros Hd Hok Hhs Hs Hdone.
  destruct (store_serialisable store set_store stack w (history_code <$> hs) s)
    as (cs' & Hcalls & Hres); [|done..|].
  { intros i c Hc. rewrite lookup_fmap in Hc. destruct (hs !! i) as [h|] eqn:Hi; [|done].
    injection Hc as <-. split; [by eapply Hhs|apply history_guarded]. }
  destruct (call_steps_merged _ _ Hcalls w hs eq_refl Hd) as (l & Hl & Hw).
  { intros i c Hi. simpl in Hi. specialize (Hres i). rewrite Hi in Hres.
    inversion Hres as [p ? [r [_ ->]]|]; subst. by exists r. }
  exists l. simpl in Hw. rewrite Hw. split_and!; [done..|].
  apply run_history_ok; [done|]. eapply merged_valid; [done|]. intros i h Hi. by eapply Hhs.
Qed.
End histories.

(** ** Witness *)
Section witnesses.
#[local] Existing Instances ref_runtime ref_uuid ref_env.

(** Each method in one access. *)
Definition one_access (c : MemCall) : Code World unit := Table (run_call c) Return.

Lemma one_access_implements : implements one_access.
Proof. intros c. split; [by repeat split|]. intros w. simpl. by destruct (run_call c w). Qed.

(** Two goroutines: a transaction whose second call fails, and an insertion. *)
Definition two_histories : gmap Z (list Txn) :=
  {[17 := [Transaction [CNextAuditSeq (uuid_of_Z 1); CDeprecateAddress (uuid_of_Z 2)]];
    18 := [Plain (CNextAuditSeq (uuid_of_Z 1)); Plain CExpireCooling]]}.

Definition histories_start : Config World unit :=
  started store set_store initial_world (history_code one_access <$> two_histories).

Definition alternating : list Z := concat (replicate 40 [17; 18]).

Definition histories_end : Config World unit :=
  run_schedule running_stack alternating histories_start.

Lemma concurrent_histories_witness :
  ∃ l, merged two_histories l ∧ data histories_end = run_history l initial_world ∧
    store_ok (store (data histories_end)).
Proof.
  apply (concurrent_histories one_access one_access_implements running_stack two_histories
    initial_world histories_end).
  - reflexivity.
  - apply New_ok.
  - intros i h. unfold two_histories. rewrite lookup_insert_Some, lookup_singleton_Some.
    intros [[<- <-]|[_ [<- <-]]]; (split; [by apply running_stack_header|]);
      by repeat constructor.
  - apply run_schedule_steps.
  - apply all_returned_finished. vm_compute. reflexivity.
Defined.
End witnesses.
