(* ===== verification/Lock.v ===== *)
(** * Lock: [internal/lock/lock.go]

    The [Locker] interface as a record of operations, the laws its clients
    rely on ([LockerLaws]), and the process-local [MemLocker] that satisfies
    them. *)
From stdpp Require Import base tactics list gmap strings.
From Stdlib Require Import ZArith.
From S2P Require Import Prelude.
From S2P Require Import GoLang.
From S2P Require Import Domain.
From S2P Require Import World.
From S2P Require Import MemStoreFacts.

#[local] Open Scope string_scope.
#[local] Open Scope Z_scope.

(** [Acquire] returns the token and whether the lock was taken. *)
Record Locker : Type := MkLocker {
  Acquire : string → duration → Go (string * bool);
  Release : string → string → Go unit
}.

(** What a locker promises: [held n w] is the token the lock [n] is held with. *)
Class LockerLaws (L : Locker) : Type := {
  held : string → World → option string;
  acquire_free n d w : held n w = None →
    ∃ tok w', Acquire L n d w = (Ok (tok, true), w') ∧
      held n w' = Some tok ∧ store w' = store w ∧
      ∀ n', n' ≠ n → held n' w' = held n' w;
  acquire_held n d w : is_Some (held n w) →
    ∃ w', Acquire L n d w = (Ok ("", false), w') ∧ store w' = store w ∧
      ∀ n', held n' w' = held n' w;
  release_holder n tok w : held n w = Some tok →
    ∃ w', Release L n tok w = (Ok tt, w') ∧ held n w' = None ∧
      store w' = store w ∧ ∀ n', n' ≠ n → held n' w' = held n' w;
  held_store_op w s : ∀ n, held n (set_store s w) = held n w;
  held_tick `{Environment} w : ∀ n, held n (time_Now w).2 = held n w;
  acquire_store n d w : store (Acquire L n d w).2 = store w;
  release_store n tok w : store (Release L n tok w).2 = store w;
  acquire_trace n d w : trace (Acquire L n d w).2 = trace w;
  release_trace n tok w : trace (Release L n tok w).2 = trace w;
  acquire_cache n d w : cache (Acquire L n d w).2 = cache w
}.

Section locker_within.
Context (L : Locker) `{!LockerLaws L} (R : relation World) `{!FrameRel R}.

Lemma within_Acquire n d : within R (Acquire L n d).
Proof. intros w. apply frame_rel_same; [apply acquire_store|apply acquire_trace]. Qed.

Lemma within_Release n tok : within R (Release L n tok).
Proof. intros w. apply frame_rel_same; [apply release_store|apply release_trace]. Qed.
End locker_within.

#[export] Hint Resolve within_Acquire within_Release : within.

Section memlocker.
Context `{UUIDLib} `{Environment}.

Definition MemLocker_Acquire (name : string) (ttl : duration) : Go (string * bool) :=
  ls ← gets locks;
  match ls !! name with
  | Some _ => mret ("", false)
  | None =>
      u ← uuid_New;
      let token := uuid_String u in
      modify (λ w, set_locks (<[name := token]> (locks w)) w);;
      mret (token, true)
  end.

Definition MemLocker_Release (name token : string) : Go unit :=
  ls ← gets locks;
  match ls !! name with
  | Some cur =>
      when (cur =s token) (modify (λ w, set_locks (delete name (locks w)) w))
  | None => mret tt
  end.

Definition MemLocker : Locker := MkLocker MemLocker_Acquire MemLocker_Release.

#[export, program] Instance MemLocker_laws : LockerLaws MemLocker := {
  held n w := locks w !! n
}.
Next Obligation.
  intros n d w Hn. simpl in *. unfold MemLocker_Acquire. go_run. rewrite Hn.
  eexists _, _. split; [done|]. simpl. rewrite lookup_insert_eq.
  split_and!; [done|done|]. intros n' Hne. by rewrite lookup_insert_ne.
Qed.
Next Obligation.
  intros n d w [tok Hn]. simpl in *. unfold MemLocker_Acquire. go_run. rewrite Hn.
  eauto.
Qed.
Next Obligation.
  intros n tok w Hn. simpl in *. unfold MemLocker_Release. go_run. rewrite Hn.
  rewrite bool_decide_true by done. eexists. split; [done|]. simpl.
  rewrite lookup_delete_eq. split_and!; [done|done|].
  intros n' Hne. by rewrite lookup_delete_ne.
Qed.
Next Obligation. done. Qed.
Next Obligation. done. Qed.
Next Obligation.
  intros n d w. simpl. unfold MemLocker_Acquire. go_run.
  by destruct (locks w !! n).
Qed.
Next Obligation.
  intros n tok w. simpl. unfold MemLocker_Release. go_run.
  destruct (locks w !! n); [|done]. by case_bool_decide.
Qed.

Next Obligation.
  intros n d w. simpl. unfold MemLocker_Acquire. go_run.
  by destruct (locks w !! n).
Qed.
Next Obligation.
  intros n tok w. simpl. unfold MemLocker_Release. go_run.
  destruct (locks w !! n); [|done]. by case_bool_decide.
Qed.

Next Obligation.
  intros n d w. simpl. unfold MemLocker_Acquire. go_run.
  by destruct (locks w !! n).
Qed.

(** Mutual exclusion: while a lock is held, nobody else's [Acquire] succeeds
    and a [Release] with another token does not free it. *)
Lemma MemLocker_foreign_release n tok tok' w :
  held n w = Some tok → tok' ≠ tok → (Release MemLocker n tok' w).2 = w.
Proof.
  intros Hn Hne. simpl in *. unfold MemLocker_Release. go_run. rewrite Hn.
  by rewrite bool_decide_false by congruence.
Qed.
End memlocker.
