(* ===== verification/Nonce.v ===== *)
(** * Nonce: [internal/nonce/nonce.go]

    EVM nonce coordination over the store's counters and a [Locker]. *)
From stdpp Require Import base tactics list gmap strings.
From Stdlib Require Import ZArith Lia.
From S2P Require Import Prelude.
From S2P Require Import GoLang.
From S2P Require Import Domain.
From S2P Require Import World.
From S2P Require Import MemStore.
From S2P Require Import MemStoreFacts.
From S2P Require Import MemStoreFrames.
From S2P Require Import Lock.
From S2P Require Import Reference.

#[local] Open Scope string_scope.
#[local] Open Scope list_scope.
#[local] Open Scope Z_scope.

Section nonce.
Context `{GoRuntime} `{UUIDLib} `{Environment}.
(** The locker, and what the other goroutines do while this one sleeps. *)
Context (L : Locker) (sleep : Go unit).

Definition nonce_lock_name (walletID : uuid) (chain : string) : string :=
  "nonce:lock:" +:+ uuid_String walletID +:+ ":" +:+ chain.

(** [i] attempts are left. *)
Fixpoint reserve_loop (i : nat) (walletID : uuid) (chain : string) : Go Z :=
  match i with
  | O => throw (ErrNew ("nonce lock contention for " +:+ uuid_String walletID
                        +:+ "/" +:+ chain))
  | S i =>
      '(token, ok) ← wrap_err "acquire nonce lock"
        (Acquire L (nonce_lock_name walletID chain) 5000000000);
      if ok : bool then
        r ← attempt (IncrementPendingNonce walletID chain);
        ignore (Release L (nonce_lock_name walletID chain) token);;
        match r with
        | Err e => throw (ErrWrap "increment pending nonce" e)
        | Ok (val, _) => mret val
        end
      else sleep;; reserve_loop i walletID chain
  end.

Definition ReserveNonce (walletID : uuid) (chain : string) : Go Z :=
  reserve_loop 50 walletID chain.

Definition CommitNonce (walletID : uuid) (chain : string) (nonce : Z) : Go unit :=
  AdvanceBroadcastNonce walletID chain nonce.

Definition RollbackNonce (walletID : uuid) (chain : string) (nonce : Z) : Go unit :=
  RollbackPendingNonce walletID chain nonce;; mret tt.

Definition Get (walletID : uuid) (chain : string) : Go Nonce :=
  GetNonce walletID chain.

(** ** The counters as the clients see them *)
Definition pending (walletID : uuid) (chain : string) (w : World) : Z :=
  n_PendingNonce (nonce_row (store w) walletID chain).
Definition broadcast (walletID : uuid) (chain : string) (w : World) : Z :=
  n_BroadcastNonce (nonce_row (store w) walletID chain).

(** [other_rows wid c]: the counters of every other wallet and chain. *)
Definition other_rows (wid : uuid) (c : string) (w w' : World) : Prop :=
  ∀ k, k ≠ nonceKey wid c → nonces (store w') !! k = nonces (store w) !! k.

Lemma IncrementPendingNonce_spec wid c w :
  ∃ v w', IncrementPendingNonce wid c w = (Ok (pending wid c w, v), w') ∧
    pending wid c w' = int64 (pending wid c w + 1) ∧
    broadcast wid c w' = broadcast wid c w ∧ other_rows wid c w w' ∧
    ∃ s, w' = set_store s (time_Now w).2.
Proof.
  unfold IncrementPendingNonce, pending, broadcast, other_rows. go_run.
  eexists _, _. split; [done|]. unfold nonce_row. simpl.
  rewrite lookup_insert_eq. split_and!; [done|done| |by eexists].
  intros k Hk. by rewrite lookup_insert_ne.
Qed.

Lemma AdvanceBroadcastNonce_spec wid c n w :
  ∃ w', AdvanceBroadcastNonce wid c n w = (Ok tt, w') ∧
    pending wid c w' = pending wid c w ∧
    broadcast wid c w' = Z.max (broadcast wid c w) (int64 (n + 1)) ∧
    other_rows wid c w w'.
Proof.
  unfold AdvanceBroadcastNonce, pending, broadcast, other_rows. go_run.
  eexists. split; [done|]. unfold nonce_row. simpl. rewrite lookup_insert_eq.
  simpl. split_and!; [done| |].
  - destruct (Z.ltb_spec (n_BroadcastNonce
      (default (zero_nonce wid c) (nonces (store w) !! nonceKey wid c)))
      (int64 (n + 1))); lia.
  - intros k Hk. by rewrite lookup_insert_ne.
Qed.

(** The rolled-back counter; a nonce that was never reserved has no row. *)
Definition rolled_back (p n : Z) : Z := if p =? int64 (n + 1) then n else p.

Lemma RollbackPendingNonce_spec wid c n w :
  0 ≤ n < 2 ^ 63 - 1 →
  ∃ r w', RollbackPendingNonce wid c n w = (Ok r, w') ∧
    pending wid c w' = rolled_back (pending wid c w) n ∧
    broadcast wid c w' = broadcast wid c w ∧ other_rows wid c w w' ∧
    r = (if pending wid c w =? int64 (n + 1) then 1 else 0).
Proof.
  intros Hn. unfold RollbackPendingNonce, pending, broadcast, other_rows,
    rolled_back, nonce_row. go_run.
  assert ((0 =? int64 (n + 1)) = false) as Hz.
  { rewrite (int64_succ_lt n) by lia. apply Z.eqb_neq. lia. }
  destruct (nonces (store w) !! nonceKey wid c) as [x|] eqn:Hx;
    cbn [from_option].
  - simpl. destruct (n_PendingNonce x =? int64 (n + 1)) eqn:Hp; simpl;
      eexists _, _; (split; [done|]); simpl; rewrite ?lookup_insert_eq, ?Hx;
      split_and!; try done. intros k Hk. by rewrite lookup_insert_ne.
  - eexists _, _. split; [done|]. rewrite Hx. unfold zero_nonce.
    cbn [from_option n_PendingNonce n_BroadcastNonce]. by rewrite Hz.
Qed.

(** ** Reservation *)
Section reserve.
Context `{!LockerLaws L} (wid : uuid) (c : string).

Abbreviation name := (nonce_lock_name wid c).

(** With the lock free, one attempt reserves the pending nonce and leaves
    the lock free. *)
Lemma reserve_loop_free i w :
  held name w = None →
  ∃ w', reserve_loop (S i) wid c w = (Ok (pending wid c w), w') ∧
    pending wid c w' = int64 (pending wid c w + 1) ∧
    broadcast wid c w' = broadcast wid c w ∧ other_rows wid c w w' ∧
    held name w' = None.
Proof.
  intros Hfree.
  destruct (acquire_free name 5000000000 w Hfree) as (tok & w1 & Ha & Hh & Hs & _).
  destruct (IncrementPendingNonce_spec wid c w1) as
    (v & w2 & Hi & Hp & Hb & Ho & s & Hw2).
  assert (held name w2 = Some tok) as Hh2.
  { by rewrite Hw2, held_store_op, held_tick. }
  destruct (release_holder name tok w2 Hh2) as (w3 & Hr & Hh3 & Hs3 & _).
  assert (pending wid c w1 = pending wid c w) as Hpw by (unfold pending; by rewrite Hs).
  exists w3. simpl. go_run. rewrite Ha, Hi, Hr, Hpw. split; [done|].
  revert Hp Hb Ho. unfold pending, broadcast, other_rows. rewrite Hs3, Hs. auto.
Qed.

(** The lock becomes free within [i] attempts, given what the others do
    while this goroutine sleeps. *)
Inductive frees_within : nat → World → Prop :=
  | frees_now i w : held name w = None → frees_within (S i) w
  | frees_later i w w1 w2 :
      is_Some (held name w) →
      Acquire L name 5000000000 w = (Ok ("", false), w1) →
      sleep w1 = (Ok tt, w2) →
      frees_within i w2 → frees_within (S i) w.

Lemma reserve_loop_succeeds i w :
  frees_within i w →
  ∃ w0 w', reserve_loop i wid c w = (Ok (pending wid c w0), w') ∧
    pending wid c w' = int64 (pending wid c w0 + 1) ∧ held name w' = None.
Proof.
  induction 1 as [i w Hfree|i w w1 w2 Hh Ha Hs _ (w0 & w' & Hr & Hp & Hf)].
  - destruct (reserve_loop_free i w Hfree) as (w' & Hr & Hp & _ & _ & Hf). eauto.
  - exists w0, w'. simpl. go_run. by rewrite Ha, Hs.
Qed.

(** A lock held throughout ends in the contention error, and the store is
    only changed by what the others do during the sleeps. *)
Lemma reserve_loop_contended i w :
  (∀ w, is_Some (held name w) → (sleep w).1 = Ok tt ∧ is_Some (held name (sleep w).2)) →
  is_Some (held name w) →
  ∃ w', reserve_loop i wid c w = (Err (ErrNew ("nonce lock contention for " +:+
    uuid_String wid +:+ "/" +:+ c)), w') ∧
    ∀ R : relation World, StoreRel R → within R sleep → R w w'.
Proof.
  intros Hsleep. revert w. induction i as [|i IH]; intros w Hh; simpl.
  { eexists. split; [done|]. intros R HR _. reflexivity. }
  destruct (acquire_held name 5000000000 w Hh) as (w1 & Ha & Hs & Hh1).
  go_run. rewrite Ha. rewrite <-Hh1 in Hh. destruct (Hsleep w1 Hh) as [Hok Hh2].
  assert (∀ R : relation World, StoreRel R → within R sleep → R w (sleep w1).2) as HR.
  { intros R HR Hw. etrans; [by apply store_rel_same|apply Hw]. }
  destruct (sleep w1) as [r w2]. simpl in *. subst r.
  destruct (IH w2 Hh2) as (w' & Hr & Hw'). exists w'. split; [done|].
  intros R HR' Hw. etrans; [by apply HR|by apply Hw'].
Qed.
End reserve.

Lemma within_reserve_loop `{!LockerLaws L} (R : relation World) `{!FrameRel R} i wid c :
  ignores set_nonces R → within R sleep → within R (reserve_loop i wid c).
Proof. intros Hi Hs. induction i; simpl; solve_within. Qed.
End nonce.

(** ** Nonces are not handed out twice

    The protocol of the clients: reserve, then either roll back or commit each
    nonce they hold, once.  A state is the world, the nonces held and the
    nonces committed. *)
Section protocol.
Context `{GoRuntime} `{UUIDLib} `{Environment} (L : Locker) `{!LockerLaws L}.
Context (wid : uuid) (c : string).

Abbreviation Reserve := (ReserveNonce L (mret tt) wid c).

Lemma reserve_loop_Ok i w v w' :
  reserve_loop L (mret tt) i wid c w = (Ok v, w') →
  v = pending wid c w ∧ pending wid c w' = int64 (v + 1).
Proof.
  revert w. induction i as [|i IH]; intros w Hr; [done|].
  destruct (held (nonce_lock_name wid c) w) as [tok|] eqn:Hh.
  - destruct (acquire_held (nonce_lock_name wid c) 5000000000 w) as (w1 & Ha & Hs & _);
      [by rewrite Hh|].
    simpl in Hr. go_run. rewrite Ha in Hr. apply IH in Hr.
    revert Hr. unfold pending. by rewrite Hs.
  - destruct (reserve_loop_free L (mret tt) wid c i w Hh) as (w2 & Hr2 & Hp & _).
    rewrite Hr2 in Hr. by simplify_eq.
Qed.

Inductive nonce_step : World * gset Z * gset Z → World * gset Z * gset Z → Prop :=
  | step_reserve w w' o d v :
      pending wid c w < 2 ^ 63 - 1 →
      Reserve w = (Ok v, w') → nonce_step (w, o, d) (w', {[v]} ∪ o, d)
  | step_rollback w w' o d n :
      n ∈ o → RollbackNonce wid c n w = (Ok tt, w') →
      nonce_step (w, o, d) (w', o ∖ {[n]}, d)
  | step_commit w w' o d n :
      n ∈ o → CommitNonce wid c n w = (Ok tt, w') →
      nonce_step (w, o, d) (w', o ∖ {[n]}, {[n]} ∪ d)
  | step_elsewhere w w' o d :
      pending wid c w' = pending wid c w → nonce_step (w, o, d) (w', o, d).

(** Everything held or committed is below the pending counter, and nothing
    is both. *)
Definition nonce_inv (st : World * gset Z * gset Z) : Prop :=
  let '(w, o, d) := st in
  0 ≤ pending wid c w < 2 ^ 63 ∧
  (∀ n, n ∈ o → 0 ≤ n < pending wid c w ∧ n ∉ d) ∧
  (∀ n, n ∈ d → 0 ≤ n < pending wid c w).

Lemma nonce_step_inv st st' : nonce_step st st' → nonce_inv st → nonce_inv st'.
Proof.
  intros Hst. destruct Hst as
    [w w' o d v Hb Hr|w w' o d n Hn Hr|w w' o d n Hn Hr|w w' o d Hp];
    intros (Hp0 & Ho & Hd); unfold nonce_inv.
  - apply reserve_loop_Ok in Hr as [-> Hp]. rewrite int64_succ_lt in Hp by lia.
    rewrite Hp. split_and!; [lia|lia| |].
    + intros n [->%elem_of_singleton|Hn]%elem_of_union.
      * split; [lia|]. intros Hn%Hd. lia.
      * destruct (Ho n Hn). split; [lia|done].
    + intros n Hn%Hd. lia.
  - destruct (Ho n Hn) as [Hn0 Hnd].
    destruct (RollbackPendingNonce_spec wid c n w) as (r & w2 & Hr2 & Hp & _); [lia|].
    unfold RollbackNonce in Hr. go_run. rewrite Hr2 in Hr. simplify_eq.
    unfold rolled_back in Hp. rewrite int64_succ_lt in Hp by lia.
    destruct (Z.eqb_spec (pending wid c w) (n + 1)) as [He|He]; rewrite Hp.
    + split_and!; [lia|lia| |].
      * intros m [Hm Hmn%not_elem_of_singleton]%elem_of_difference.
        destruct (Ho m Hm). split; [lia|done].
      * intros m Hm. assert (m ≠ n) by congruence. apply Hd in Hm. lia.
    + split_and!; [lia|lia| |done].
      intros m [Hm _]%elem_of_difference. by apply Ho.
  - destruct (Ho n Hn) as [Hn0 Hnd].
    destruct (AdvanceBroadcastNonce_spec wid c n w) as (w2 & Hr2 & Hp & _).
    unfold CommitNonce in Hr. rewrite Hr2 in Hr. simplify_eq. rewrite Hp.
    split_and!; [lia|lia| |].
    + intros m [Hm Hmn]%elem_of_difference. destruct (Ho m Hm).
      split; [done|].
      rewrite elem_of_union. by intros [?|?].
    + intros m [->%elem_of_singleton|Hm]%elem_of_union; auto.
  - rewrite Hp. auto.
Qed.
End protocol.

(** ** Theorems *)
Section theorems.
Context `{GoRuntime} `{UUIDLib} `{Environment} (L : Locker) `{!LockerLaws L}.

(** C5. No nonce is handed out twice: however reservations, rollbacks and
    commits of the clients interleave, each client releasing what it holds
    once, a reservation never returns a nonce that somebody still holds or
    that was committed to a broadcast transaction. *)
Theorem nonce_never_reused wid c w0 w o d v w' :
  0 ≤ pending wid c w0 < 2 ^ 63 →
  rtc (nonce_step L wid c) (w0, ∅, ∅) (w, o, d) →
  ReserveNonce L (mret tt) wid c w = (Ok v, w') →
  (v ∉ o) ∧ (v ∉ d).
Proof.
  intros Hp Hst Hr. assert (nonce_inv wid c (w, o, d)) as (_ & Ho & Hd).
  { eapply (rtc_ind_l (λ st, nonce_inv wid c st → nonce_inv wid c (w, o, d))); [..|done|].
    - done.
    - eauto using nonce_step_inv.
    - split_and!; [lia|lia|set_solver|set_solver]. }
  unfold ReserveNonce in Hr. apply reserve_loop_Ok in Hr as [-> _]; [|done].
  split; [intros [??]%Ho; lia|intros ?%Hd; lia].
Qed.

(** A reservation succeeds whenever the lock becomes free within its 50
    attempts, whatever the other goroutines do while it sleeps: it returns
    the pending nonce of the world it then finds, advances the counter by
    one and leaves the lock free. *)
Theorem ReserveNonce_succeeds sleep wid c w :
  frees_within L sleep wid c 50 w →
  ∃ w0 w', ReserveNonce L sleep wid c w = (Ok (pending wid c w0), w') ∧
    pending wid c w' = int64 (pending wid c w0 + 1) ∧
    held (nonce_lock_name wid c) w' = None.
Proof. unfold ReserveNonce. apply reserve_loop_succeeds. Qed.

(** A lock that stays held makes the reservation give up with the
    contention error after its last attempt, and the reservation itself has
    then changed nothing in the store. *)
Theorem ReserveNonce_contended sleep wid c w :
  (∀ w, is_Some (held (nonce_lock_name wid c) w) →
    (sleep w).1 = Ok tt ∧ is_Some (held (nonce_lock_name wid c) (sleep w).2)) →
  is_Some (held (nonce_lock_name wid c) w) →
  ∃ w', ReserveNonce L sleep wid c w = (Err (ErrNew ("nonce lock contention for "
      +:+ uuid_String wid +:+ "/" +:+ c)), w') ∧
    ∀ R : relation World, StoreRel R → within R sleep → R w w'.
Proof. unfold ReserveNonce. apply reserve_loop_contended. Qed.

(** Rolling back is gap-safe: the pending counter goes back to the nonce
    exactly when it is the one reserved last, and otherwise nothing changes;
    the broadcast counter and the counters of all other wallets and chains
    are never touched. *)
Theorem RollbackNonce_gap_safe wid c n w :
  0 ≤ n < 2 ^ 63 - 1 →
  ∃ w', RollbackNonce wid c n w = (Ok tt, w') ∧
    pending wid c w' = (if pending wid c w =? n + 1 then n else pending wid c w) ∧
    broadcast wid c w' = broadcast wid c w ∧ other_rows wid c w w'.
Proof.
  intros Hn. destruct (RollbackPendingNonce_spec wid c n w Hn) as
    (r & w' & Hr & Hp & Hb & Ho & _).
  exists w'. unfold RollbackNonce. go_run. rewrite Hr.
  unfold rolled_back in Hp. by rewrite (int64_succ_lt n) in Hp by lia.
Qed.
End theorems.

(** ** Witnesses *)
Section witnesses.
#[local] Existing Instances ref_runtime ref_uuid ref_env.

Definition wid0 : uuid := uuid_of_Z 7.

Definition w1 : World := (ReserveNonce MemLocker (mret tt) wid0 ChainEthereum initial_world).2.
Definition w2 : World := (ReserveNonce MemLocker (mret tt) wid0 ChainEthereum w1).2.
Definition busy : World :=
  set_locks {[nonce_lock_name wid0 ChainEthereum := "somebody"]} initial_world.

(** While nonce 0 is held, the next reservation returns 1. *)
Lemma nonce_never_reused_witness :
  (1 ∉ ({[0]} ∪ ∅ : gset Z)) ∧ (1 ∉ (∅ : gset Z)).
Proof.
  apply (nonce_never_reused MemLocker wid0 ChainEthereum initial_world w1
    ({[0]} ∪ ∅) ∅ 1 w2).
  - vm_compute. by split.
  - apply rtc_once, step_reserve; vm_compute; reflexivity.
  - vm_compute. reflexivity.
Defined.

Lemma ReserveNonce_succeeds_witness :
  ∃ w0 w', ReserveNonce MemLocker (mret tt) wid0 ChainEthereum w1
      = (Ok (pending wid0 ChainEthereum w0), w') ∧
    pending wid0 ChainEthereum w' = int64 (pending wid0 ChainEthereum w0 + 1) ∧
    held (nonce_lock_name wid0 ChainEthereum) w' = None.
Proof.
  apply (ReserveNonce_succeeds MemLocker (mret tt) wid0 ChainEthereum w1).
  apply frees_now. vm_compute. reflexivity.
Defined.

Lemma ReserveNonce_contended_witness :
  ∃ w', ReserveNonce MemLocker (mret tt) wid0 ChainEthereum busy
      = (Err (ErrNew ("nonce lock contention for " +:+ uuid_String wid0 +:+ "/"
          +:+ ChainEthereum)), w') ∧
    ∀ R : relation World, StoreRel R → within R (mret tt) → R busy w'.
Proof.
  apply (ReserveNonce_contended MemLocker (mret tt) wid0 ChainEthereum busy).
  - intros w Hw. split; [reflexivity|exact Hw].
  - vm_compute. eexists. reflexivity.
Defined.

Lemma RollbackNonce_gap_safe_witness :
  ∃ w', RollbackNonce wid0 ChainEthereum 1 w2 = (Ok tt, w') ∧
    pending wid0 ChainEthereum w' =
      (if pending wid0 ChainEthereum w2 =? 1 + 1 then 1 else pending wid0 ChainEthereum w2) ∧
    broadcast wid0 ChainEthereum w' = broadcast wid0 ChainEthereum w2 ∧
    other_rows wid0 ChainEthereum w2 w'.
Proof. apply (RollbackNonce_gap_safe wid0 ChainEthereum 1 w2). lia. Defined.
End witnesses.
