(* ===== verification/Utxo.v ===== *)
(** * Utxo: [internal/utxo/utxo.go]

    Selection, locking, spending and restoring of BTC outputs over the
    store's UTXO table. *)
From stdpp Require Import base tactics list gmap strings sorting.
From Stdlib Require Import ZArith QArith Lqa Lia.
From S2P Require Import Prelude.
From S2P Require Import GoLang.
From S2P Require Import Domain.
From S2P Require Import World.
From S2P Require Import Decimal.
From S2P Require Import MemStore.
From S2P Require Import MemStoreFacts.
From S2P Require Import MemStoreFrames.
From S2P Require Import Reference.

#[local] Open Scope string_scope.
#[local] Open Scope list_scope.
#[local] Open Scope Z_scope.

Section utxo.
Context `{GoRuntime} `{UUIDLib} `{Environment} `{DecimalLib}.

Definition by_value (x y : UTXO) : bool :=
  dec_GreaterThan (parseDec (u_Value x)) (parseDec (u_Value y)).

(** The selection loop, with its [selected] and [total] variables. *)
Fixpoint select_loop (amount : decimal) (selected : list string)
    (total : decimal) (free : list UTXO) : list string * decimal :=
  match free with
  | [] => (selected, total)
  | u :: free =>
      if dec_GreaterThanOrEqual total amount then (selected, total)
      else select_loop amount (selected ++ [u_Outpoint u])
             (dec_Add total (parseDec (u_Value u))) free
  end.

Definition SelectForAmount (walletID : uuid) (amount : decimal) :
    Go (list string * decimal) :=
  free ← ListFreeUTXOs walletID;
  let free := sort_Slice by_value free in
  let '(selected, total) := select_loop amount [] dec_Zero free in
  if dec_LessThan total amount then
    throw (ErrNew ("insufficient funds: need " +:+ dec_String amount +:+
      " have " +:+ dec_String total))
  else
    wrap_err "lock utxos" (LockUTXOs selected);;
    mret (selected, total).

Definition Unlock (outpoints : list string) : Go unit := RestoreUTXOs outpoints.

Definition MarkSpent (outpoints : list string) (txHash : string) : Go unit :=
  MarkUTXOsSpent outpoints txHash.

Definition RestoreOnReorg (outpoints : list string) : Go unit :=
  RestoreUTXOs outpoints.

Definition PruneFinalized (outpoints : list string) : Go unit :=
  PruneUTXOs outpoints.

Definition TrackUTXO (u : UTXO) : Go unit := InsertUTXO u.

(** ** The loops of the store over outpoints *)
Definition utxo_at (op : string) (w : World) : option UTXO := utxos (store w) !! op.

Definition is_free (w : World) (op : string) : Prop :=
  ∃ u, utxo_at op w = Some u ∧ u_LockState u = UTXOLockStateFree.

Lemma check_free_spec op w :
  (is_free w op ∧ check_free op w = (Ok tt, w)) ∨
  (¬ is_free w op ∧ ∃ e, check_free op w = (Err e, w)).
Proof.
  unfold check_free, is_free, utxo_at. go_run.
  destruct (utxos (store w) !! op) as [u|]; [case_bool_decide as Hs|].
  - left. eauto.
  - right. split; [|eauto]. intros (? & [= <-] & ?). done.
  - right. split; [|eauto]. by intros (? & ? & ?).
Qed.

Lemma check_all_spec ops w :
  (Forall (is_free w) ops ∧ for_each ops check_free w = (Ok tt, w)) ∨
  (¬ Forall (is_free w) ops ∧ ∃ e, for_each ops check_free w = (Err e, w)).
Proof.
  induction ops as [|op ops IH]; simpl; [left; split; [constructor|done]|].
  destruct (check_free_spec op w) as [[Hf Hc]|[Hf [e Hc]]];
    unfold mbind, GoM_bind; rewrite Hc.
  - destruct IH as [[Hall ->]|[Hall [e ->]]]; [left; auto|right].
    split; [|eauto]. by intros [_ ?]%Forall_cons.
  - right. split; [|eauto]. by intros [? _]%Forall_cons.
Qed.

(** The table after the entries of [ops] went through [f]. *)
Definition alter_all (f : UTXO → UTXO) (ops : list string) (m : gmap string UTXO) :
    gmap string UTXO :=
  foldl (λ m op, alter f op m) m ops.

Lemma alter_all_lookup f ops m k :
  (∀ u, f (f u) = f u) →
  alter_all f ops m !! k = if decide (k ∈ ops) then f <$> m !! k else m !! k.
Proof.
  intros Hf. unfold alter_all. revert m. induction ops as [|op ops IH]; intros m.
  - by rewrite decide_False by apply not_elem_of_nil.
  - cbn [foldl]. rewrite IH, lookup_alter. destruct (decide (op = k)) as [->|Hne].
    + rewrite (decide_True (P := k ∈ k :: ops)) by apply list_elem_of_here.
      case_decide; [|done]. destruct (m !! k); simpl; [|done]. by rewrite Hf.
    + rewrite (decide_ext (k ∈ op :: ops) (k ∈ ops)); [done|].
      rewrite elem_of_cons. split; [by intros [<-|?]|by right].
Qed.

Lemma alter_loop_run f ops w :
  for_each ops (λ op, upd_store (λ s, set_utxos s (alter f op (utxos s)))) w =
  (Ok tt, set_store (set_utxos (store w) (alter_all f ops (utxos (store w)))) w).
Proof.
  revert w. induction ops as [|op ops IH]; intros w; simpl.
  - by destruct w as [[]].
  - go_run. by rewrite IH.
Qed.

Lemma update_loop_run f ops w :
  (∀ u, f (f u) = f u) →
  Forall (λ op, is_Some (utxo_at op w)) ops →
  for_each ops (update_utxo f) w =
  (Ok tt, set_store (set_utxos (store w) (alter_all f ops (utxos (store w)))) w).
Proof.
  intros Hf. revert w. induction ops as [|op ops IH]; intros w Hall; simpl.
  - by destruct w as [[]].
  - apply Forall_cons in Hall as [[u Hu] Hall]. unfold utxo_at in *.
    unfold mbind, GoM_bind, update_utxo at 1. go_run. rewrite Hu.
    assert (<[op:=f u]> (utxos (store w)) = alter f op (utxos (store w))) as Ha.
    { apply map_eq. intros k. rewrite lookup_alter, lookup_insert.
      case_decide; [subst; by rewrite Hu|done]. }
    rewrite IH; [simpl; by rewrite Ha|]. eapply Forall_impl; [exact Hall|].
    simpl. intros op' Hs. rewrite lookup_insert. case_decide; eauto.
Qed.

(** [LockUTXOs] is all-or-nothing. *)
Lemma LockUTXOs_spec ops w :
  (Forall (is_free w) ops ∧ LockUTXOs ops w = (Ok tt,
     set_store (set_utxos (store w) (alter_all (lock_utxo (clock (ticks w))) ops
       (utxos (store w)))) (time_Now w).2)) ∨
  (¬ Forall (is_free w) ops ∧ ∃ e, LockUTXOs ops w = (Err e, w)).
Proof.
  unfold LockUTXOs. destruct (check_all_spec ops w) as [[Hall Hc]|[Hall [e Hc]]].
  - left. split; [done|]. unfold mbind, GoM_bind. rewrite Hc.
    unfold time_Now. by rewrite alter_loop_run.
  - right. split; [done|]. exists e. unfold mbind, GoM_bind. by rewrite Hc.
Qed.

Definition is_locked (w : World) (op : string) : Prop :=
  ∃ u, utxo_at op w = Some u ∧ u_LockState u = UTXOLockStateLocked.

Lemma LockUTXOs_Ok ops w w' :
  LockUTXOs ops w = (Ok tt, w') →
  Forall (is_free w) ops ∧ Forall (is_locked w') ops ∧
  (∀ k, k ∉ ops → utxo_at k w' = utxo_at k w) ∧
  (∀ k, u_Value <$> utxo_at k w' = u_Value <$> utxo_at k w).
Proof.
  destruct (LockUTXOs_spec ops w) as [[Hall ->]|[_ [e ->]]]; [|done].
  intros [= <-]. unfold is_locked, utxo_at. simpl.
  split_and!; [done|apply Forall_forall|..]; intros k; [intros Hin|intros Hout|].
  - rewrite Forall_forall in Hall. destruct (Hall k Hin) as (u & Hu & _).
    rewrite alter_all_lookup, decide_True by done. unfold utxo_at in Hu.
    rewrite Hu. simpl. eauto.
  - by rewrite alter_all_lookup, decide_False.
  - rewrite alter_all_lookup by done. case_decide; [|done].
    by destruct (utxos (store w) !! k).
Qed.

(** ** The selection loop *)
Definition total_value (l : list UTXO) : Q :=
  foldr (λ u acc, money (u_Value u) + acc)%Q 0%Q l.

Lemma total_value_app l1 l2 :
  (total_value (l1 ++ l2) == total_value l1 + total_value l2)%Q.
Proof. induction l1 as [|u l IH]; simpl; [lra|]. rewrite IH. lra. Qed.

#[export] Instance total_value_proper : Proper ((≡ₚ) ==> Qeq) total_value.
Proof.
  induction 1 as [| u l l' _ IH | u u' l | l1 l2 l3 _ IH1 _ IH2]; simpl;
    [lra|rewrite IH; lra|lra|by rewrite IH1].
Qed.

(** The loop takes a prefix: long enough, or everything; and no shorter one
    would have been enough. *)
Lemma select_loop_spec amount sel tot free :
  ∃ k, (k ≤ length free)%nat ∧
    (select_loop amount sel tot free).1 = sel ++ (u_Outpoint <$> take k free) ∧
    (dec_value (select_loop amount sel tot free).2 ==
      dec_value tot + total_value (take k free))%Q ∧
    ((k < length free)%nat →
      dec_value amount <= dec_value tot + total_value (take k free))%Q ∧
    ∀ j, (j < k)%nat →
      (dec_value tot + total_value (take j free) < dec_value amount)%Q.
Proof.
  revert sel tot. induction free as [|u free IH]; intros sel tot; simpl.
  - exists 0%nat. simpl. rewrite app_nil_r. split_and!; [lia|done|lra|lia|lia].
  - destruct (dec_GreaterThanOrEqual tot amount) eqn:Hge.
    + apply dec_GreaterThanOrEqual_spec in Hge. exists 0%nat. simpl.
      rewrite app_nil_r. split_and!; [lia|done|lra|intros; lra|lia].
    + apply dec_GreaterThanOrEqual_false in Hge.
      destruct (IH (sel ++ [u_Outpoint u]) (dec_Add tot (parseDec (u_Value u)))) as
        (k & Hk & Hs & Ht & Hcov & Hmin). fold (money (u_Value u)) in *.
      pose proof (dec_Add_value tot (parseDec (u_Value u))) as Hadd.
      fold (money (u_Value u)) in Hadd.
      exists (S k). split_and!.
      * lia.
      * rewrite Hs, <-app_assoc. done.
      * rewrite Ht, Hadd. simpl. lra.
      * intros Hlt. specialize (Hcov ltac:(lia)). rewrite Hadd in Hcov.
        simpl. lra.
      * intros [|j] Hj; simpl; [lra|]. specialize (Hmin j ltac:(lia)).
        rewrite Hadd in Hmin. lra.
Qed.

(** *** Largest first is the fewest *)
Definition desc (x y : UTXO) : Prop := (money (u_Value y) <= money (u_Value x))%Q.

Lemma take_next_le x k l :
  Forall (desc x) l → (S k ≤ length l)%nat →
  (total_value (take (S k) l) <= money (u_Value x) + total_value (take k l))%Q.
Proof.
  intros Hall Hk. destruct (lookup_lt_is_Some_2 l k) as [y Hy]; [lia|].
  rewrite (take_S_r _ _ y Hy), total_value_app. simpl.
  assert (desc x y) as Hd by (eapply Forall_lookup_1; eauto).
  unfold desc in Hd. lra.
Qed.

(** The first [k] of a descending list outweigh any other [k] of its
    elements. *)
Lemma take_heaviest l l' :
  StronglySorted desc l → l' ⊆+ l →
  (total_value l' <= total_value (take (length l') l))%Q.
Proof.
  intros Hs. revert l'. induction Hs as [|x l Hs IH Hall]; intros l' Hsub.
  - apply submseteq_nil_r in Hsub as ->. simpl. lra.
  - apply submseteq_cons_r in Hsub as [Hsub|(k & Hp & Hsub)].
    + destruct l' as [|y l']; [simpl; lra|].
      apply (Qle_trans _ _ _ (IH _ Hsub)). simpl length.
      apply submseteq_length in Hsub. simpl in Hsub.
      apply (take_next_le _ _ _ Hall). lia.
    + rewrite (Permutation_length Hp). pose proof (total_value_proper _ _ Hp) as Ht.
      specialize (IH _ Hsub). simpl in *. lra.
Qed.

Lemma take_mono_length j k l :
  Forall (λ u, 0 <= money (u_Value u))%Q l → (j ≤ k)%nat →
  (total_value (take j l) <= total_value (take k l))%Q.
Proof.
  intros Hall. revert j k. induction Hall as [|u l Hu Hall IH]; intros [|j] [|k] Hjk;
    simpl; try lra; try lia.
  - specialize (IH 0%nat k ltac:(lia)). simpl in IH. lra.
  - specialize (IH j k ltac:(lia)). lra.
Qed.

(** ** What is offered to the selection *)
Definition free_sorted (walletID : uuid) (w : World) : list UTXO :=
  sort_Slice by_value (sort_Slice (λ x y, string_lt (u_Outpoint x) (u_Outpoint y))
    (range_filter (free_of walletID) (utxos (store w)))).

Lemma free_sorted_perm wid w :
  free_sorted wid w ≡ₚ range_filter (free_of wid) (utxos (store w)).
Proof. unfold free_sorted. by rewrite !sort_Slice_perm. Qed.

Lemma free_sorted_desc wid w : StronglySorted desc (free_sorted wid w).
Proof.
  pose proof (sort_Slice_sorted by_value
    (sort_Slice (λ x y, string_lt (u_Outpoint x) (u_Outpoint y))
      (range_filter (free_of wid) (utxos (store w)))) (dec_greater_strict_weak _)) as Hs.
  fold (free_sorted wid w) in Hs. induction Hs as [|x l Hs IH Hall]; constructor; [done|].
  eapply Forall_impl; [exact Hall|]. intros y. unfold by_value, desc.
  by rewrite dec_GreaterThan_false.
Qed.

Lemma free_of_spec wid u :
  free_of wid u = true ↔ u_WalletID u = wid ∧ u_LockState u = UTXOLockStateFree.
Proof. unfold free_of. by rewrite andb_true_iff, !bool_decide_eq_true. Qed.

Lemma elem_of_free_sorted wid w u :
  utxos_ok (utxos (store w)) →
  u ∈ free_sorted wid w ↔ utxo_at (u_Outpoint u) w = Some u ∧ free_of wid u = true.
Proof.
  intros Hok. rewrite free_sorted_perm, elem_of_range_filter. split.
  - intros [Hf [k Hk]]. by rewrite <-(Hok _ _ Hk) in Hk.
  - intros [Hu Hf]. split; [done|]. by eexists.
Qed.

Lemma free_sorted_NoDup wid w :
  utxos_ok (utxos (store w)) → NoDup (u_Outpoint <$> free_sorted wid w).
Proof.
  intros Hok. rewrite free_sorted_perm. unfold range_filter.
  assert (Forall (λ kv, u_Outpoint kv.2 = kv.1) (range_map (utxos (store w)))) as Hk.
  { apply Forall_forall. intros [k u] Hin%elem_of_range_map. exact (Hok _ _ Hin). }
  pose proof (range_map_NoDup (utxos (store w))) as Hnd.
  induction Hk as [|[k u] l Hku Hk IH]; simpl in *; [constructor|].
  apply NoDup_cons in Hnd as [Hn Hnd]. specialize (IH Hnd).
  destruct (free_of wid u); [|done]. simpl. apply NoDup_cons. split; [|done].
  rewrite Hku. intros (u' & Hu' & Hin)%list_elem_of_fmap. destruct Hn.
  apply list_elem_of_In, filter_In in Hin as [Hin _].
  apply list_elem_of_In, list_elem_of_fmap in Hin as ([k' u''] & -> & Hin).
  apply list_elem_of_fmap. exists (k', u''). split; [|done].
  rewrite Forall_forall in Hk. pose proof (Hk _ Hin). simpl in *. congruence.
Qed.

Lemma SelectForAmount_run wid amount w :
  SelectForAmount wid amount w =
  let '(sel, tot) := select_loop amount [] dec_Zero (free_sorted wid w) in
  if dec_LessThan tot amount then
    (Err (ErrNew ("insufficient funds: need " +:+ dec_String amount +:+
      " have " +:+ dec_String tot)), w)
  else (wrap_err "lock utxos" (LockUTXOs sel);; mret (sel, tot)) w.
Proof.
  unfold SelectForAmount, ListFreeUTXOs. go_run. fold (free_sorted wid w).
  destruct (select_loop _ _ _ _) as [sel tot]. by destruct (dec_LessThan _ _).
Qed.

Lemma free_prefix_free wid w k :
  utxos_ok (utxos (store w)) →
  Forall (is_free w) (u_Outpoint <$> take k (free_sorted wid w)).
Proof.
  intros Hok. apply Forall_fmap, Forall_take, Forall_forall. intros u Hu. unfold compose.
  apply elem_of_free_sorted in Hu as [Hu Hf]; [|done]. exists u.
  by apply free_of_spec in Hf as [_ ?].
Qed.

(** The outcome of a selection: a prefix of the offered outputs, locked. *)
Lemma SelectForAmount_spec wid amount w :
  utxos_ok (utxos (store w)) →
  ∃ k tot, (k ≤ length (free_sorted wid w))%nat ∧
    let sel := take k (free_sorted wid w) in
    (dec_value tot == total_value sel)%Q ∧
    (∀ j, (j < k)%nat →
      (total_value (take j (free_sorted wid w)) < dec_value amount)%Q) ∧
    (((dec_value amount <= total_value sel)%Q ∧
      ∃ w', SelectForAmount wid amount w = (Ok (u_Outpoint <$> sel, tot), w') ∧
        LockUTXOs (u_Outpoint <$> sel) w = (Ok tt, w')) ∨
     (sel = free_sorted wid w ∧ (total_value sel < dec_value amount)%Q ∧
      ∃ e, SelectForAmount wid amount w = (Err e, w))).
Proof.
  intros Hok. rewrite SelectForAmount_run.
  destruct (select_loop_spec amount [] dec_Zero (free_sorted wid w)) as
    (k & Hk & Hs & Ht & Hcov & Hmin).
  destruct (select_loop _ _ _ _) as [sel tot]. simpl in Hs, Ht. subst sel.
  pose proof dec_Zero_value as Hz. exists k, tot. split; [done|]. simpl.
  assert (dec_value tot == total_value (take k (free_sorted wid w)))%Q as Htot by lra.
  split_and!; [done|intros j Hj; specialize (Hmin j Hj); lra|].
  destruct (dec_LessThan tot amount) eqn:Hlt.
  - right. apply dec_LessThan_spec in Hlt. rewrite Htot in Hlt.
    split_and!; [|done|by eauto].
    destruct (decide (k < length (free_sorted wid w))%nat) as [Hlt'|Hge].
    + specialize (Hcov Hlt'). lra.
    + apply take_ge. lia.
  - left. apply dec_LessThan_false in Hlt. rewrite Htot in Hlt. split; [done|].
    destruct (LockUTXOs_spec (u_Outpoint <$> take k (free_sorted wid w)) w) as
      [[_ Hl]|[[] _]]; [|by apply free_prefix_free].
    eexists. rewrite Hl. split; [|done]. go_run. by rewrite Hl.
Qed.
End utxo.

(** ** Reservations by concurrent withdrawals

    The state is the world with the set of outpoints some withdrawal holds.
    Listing and locking are separate steps of [SelectForAmount], so a [Lock]
    step may use a list that is out of date. *)
Section protocol.
Context `{GoRuntime} `{UUIDLib} `{Environment} `{DecimalLib}.

Inductive utxo_step : World * gset string → World * gset string → Prop :=
  | step_lock w w' h ops :
      LockUTXOs ops w = (Ok tt, w') → utxo_step (w, h) (w', list_to_set ops ∪ h)
  | step_lock_fails w w' h ops e :
      LockUTXOs ops w = (Err e, w') → utxo_step (w, h) (w', h)
  | step_unlock w w' h ops :
      list_to_set ops ⊆ h → Unlock ops w = (Ok tt, w') →
      utxo_step (w, h) (w', h ∖ list_to_set ops)
  | step_spent w w' h ops tx :
      list_to_set ops ⊆ h → MarkSpent ops tx w = (Ok tt, w') →
      utxo_step (w, h) (w', h ∖ list_to_set ops)
  | step_track w w' h u r :
      TrackUTXO u w = (r, w') → utxo_step (w, h) (w', h)
  | step_reorg w w' h ops :
      list_to_set ops ## h → RestoreOnReorg ops w = (Ok tt, w') →
      utxo_step (w, h) (w', h)
  | step_prune w w' h ops :
      list_to_set ops ## h → PruneFinalized ops w = (Ok tt, w') →
      utxo_step (w, h) (w', h)
  | step_elsewhere w w' h :
      utxos (store w') = utxos (store w) → utxo_step (w, h) (w', h).

Definition held_locked (st : World * gset string) : Prop :=
  ∀ op, op ∈ st.2 → is_locked st.1 op.

(** [touches ops m]: the method leaves every row outside [ops] as it was. *)
Definition touches (ops : list string) : relation World := λ w w',
  ∀ op, op ∉ ops → utxo_at op w' = utxo_at op w.

#[export] Instance touches_store_rel ops : StoreRel (touches ops).
Proof.
  split; [split|]; unfold touches, utxo_at.
  - done.
  - intros x y z Hxy Hyz op Hop. by rewrite Hyz, Hxy.
  - by intros w w' ->.
Qed.

Lemma touches_loop ops (body : string → Go unit) :
  (∀ op, within (touches [op]) (body op)) → within (touches ops) (for_each ops body).
Proof.
  intros Hb. induction ops as [|op ops IH]; [apply within_ret, _|].
  intros w op' Hop'. apply not_elem_of_cons in Hop' as [Hne Hin].
  simpl. unfold mbind, GoM_bind. specialize (Hb op w op').
  rewrite not_elem_of_cons in Hb. destruct (body op w) as [[[]|e] w1]; simpl in *.
  - rewrite (IH w1 op' Hin). apply Hb. split; [done|apply not_elem_of_nil].
  - apply Hb. split; [done|apply not_elem_of_nil].
Qed.

Lemma update_utxo_touches f op : within (touches [op]) (update_utxo f op).
Proof.
  intros w op' Hop'. unfold update_utxo, utxo_at. go_run.
  rewrite list_elem_of_singleton in Hop'.
  destruct (utxos (store w) !! op); simpl; [|done]. by rewrite lookup_insert_ne.
Qed.

Lemma RestoreUTXOs_touches ops : within (touches ops) (RestoreUTXOs ops).
Proof.
  apply within_bind; [apply _|apply within_time_Now, _|]. intros now.
  apply touches_loop, update_utxo_touches.
Qed.

Lemma MarkUTXOsSpent_touches ops tx : within (touches ops) (MarkUTXOsSpent ops tx).
Proof.
  apply within_bind; [apply _|apply within_time_Now, _|]. intros now.
  apply touches_loop, update_utxo_touches.
Qed.

Lemma PruneUTXOs_touches ops : within (touches ops) (PruneUTXOs ops).
Proof.
  apply touches_loop. intros op w op' Hop'. unfold utxo_at. go_run.
  rewrite list_elem_of_singleton in Hop'. simpl. by rewrite lookup_delete_ne.
Qed.

(** A held outpoint outside the touched ones stays locked. *)
Lemma touches_locked ops w w' op :
  touches ops w w' → op ∉ ops → is_locked w op → is_locked w' op.
Proof. unfold is_locked. intros Ht Hop. by rewrite (Ht op Hop). Qed.

Lemma utxo_step_inv st st' : utxo_step st st' → held_locked st → held_locked st'.
Proof.
  unfold held_locked. intros Hst Hinv.
  destruct Hst as [w w' h ops Hl|w w' h ops e Hl|w w' h ops _ Hr|w w' h ops tx _ Hr
    |w w' h u r Hr|w w' h ops Hd Hr|w w' h ops Hd Hr|w w' h Hu]; simpl in *; intros op Hop.
  - apply LockUTXOs_Ok in Hl as (_ & Hlk & Ho & _). rewrite Forall_forall in Hlk.
    destruct (decide (op ∈ ops)); [auto|].
    unfold is_locked. rewrite (Ho op) by done. apply Hinv.
    apply elem_of_union in Hop as [?%elem_of_list_to_set|?]; done.
  - destruct (LockUTXOs_spec ops w) as [[_ Hx]|[_ [e' Hx]]]; rewrite Hx in Hl; [done|].
    injection Hl as _ <-. auto.
  - apply elem_of_difference in Hop as [Hop Hn]. rewrite elem_of_list_to_set in Hn.
    apply (touches_locked ops w); [|done|by apply Hinv].
    pose proof (RestoreUTXOs_touches ops w) as Ht. unfold Unlock in Hr. by rewrite Hr in Ht.
  - apply elem_of_difference in Hop as [Hop Hn]. rewrite elem_of_list_to_set in Hn.
    apply (touches_locked ops w); [|done|by apply Hinv].
    pose proof (MarkUTXOsSpent_touches ops tx w) as Ht. unfold MarkSpent in Hr.
    by rewrite Hr in Ht.
  - destruct (Hinv op Hop) as (x & Hx & Hs). exists x. split; [|done].
    unfold TrackUTXO, InsertUTXO, utxo_at in *. go_run.
    destruct (utxos (store w) !! u_Outpoint u) eqn:Hu; injection Hr as _ <-; [done|].
    simpl. rewrite lookup_insert_ne by congruence. done.
  - apply (touches_locked ops w); [|set_solver|by apply Hinv].
    pose proof (RestoreUTXOs_touches ops w) as Ht. unfold RestoreOnReorg in Hr.
    by rewrite Hr in Ht.
  - apply (touches_locked ops w); [|set_solver|by apply Hinv].
    pose proof (PruneUTXOs_touches ops w) as Ht. unfold PruneFinalized in Hr.
    by rewrite Hr in Ht.
  - destruct (Hinv op Hop) as (x & Hx & Hs). exists x. unfold utxo_at in *.
    by rewrite Hu.
Qed.
End protocol.

(** ** Theorems *)
Section theorems.
Context `{GoRuntime} `{UUIDLib} `{Environment} `{DecimalLib}.

(** The outputs of a wallet that are free. *)
Definition available (wid : uuid) (w : World) : list UTXO :=
  range_filter (free_of wid) (utxos (store w)).

(** C26. A successful selection returns distinct outputs of the wallet that
    were free and are now locked, no other output changes, the returned total
    is their exact value and covers the amount, and no set of free outputs of
    the wallet that covers the amount has fewer members. *)
Theorem SelectForAmount_correct wid amount w sel tot w' :
  utxos_ok (utxos (store w)) →
  SelectForAmount wid amount w = (Ok (sel, tot), w') →
  ∃ us, sel = u_Outpoint <$> us ∧ us ⊆+ available wid w ∧ NoDup sel ∧
    Forall (is_free w) sel ∧ Forall (is_locked w') sel ∧
    (∀ op, op ∉ sel → utxo_at op w' = utxo_at op w) ∧
    (dec_value tot == total_value us)%Q ∧ (dec_value amount <= dec_value tot)%Q ∧
    ∀ vs, vs ⊆+ available wid w → (dec_value amount <= total_value vs)%Q →
      (length us ≤ length vs)%nat.
Proof.
  intros Hok Hsel. destruct (SelectForAmount_spec wid amount w Hok) as
    (k & tot' & Hk & Ht & Hmin & [[Hcov (w2 & Hs & Hl)]|(_ & _ & e & Hs)]);
    rewrite Hs in Hsel; [|done]. simplify_eq.
  apply LockUTXOs_Ok in Hl as (Hf & Hlk & Ho & _).
  exists (take k (free_sorted wid w)). split_and!; try done.
  - unfold available. rewrite <-free_sorted_perm. apply submseteq_take.
  - rewrite fmap_take. eapply sublist_NoDup; [|apply sublist_take].
    by apply free_sorted_NoDup.
  - lra.
  - unfold available. setoid_rewrite <-free_sorted_perm. intros vs Hvs Hcv.
    rewrite length_take_le by done. apply Nat.le_ngt. intros Hlt.
    specialize (Hmin _ Hlt).
    pose proof (take_heaviest _ _ (free_sorted_desc wid w) Hvs). lra.
Qed.

(** C27. Selection is complete: when no free output of the wallet has a
    negative value, it succeeds exactly when the free outputs together cover
    the amount, and otherwise it fails without changing anything. *)
Theorem SelectForAmount_complete wid amount w :
  utxos_ok (utxos (store w)) →
  Forall (λ u, 0 <= money (u_Value u))%Q (available wid w) →
  if Qle_bool (dec_value amount) (total_value (available wid w))
  then ∃ sel tot w', SelectForAmount wid amount w = (Ok (sel, tot), w')
  else ∃ e, SelectForAmount wid amount w = (Err e, w).
Proof.
  intros Hok Hpos. unfold available in *. rewrite <-free_sorted_perm in Hpos.
  pose proof (total_value_proper _ _ (free_sorted_perm wid w)) as Htv.
  destruct (SelectForAmount_spec wid amount w Hok) as
    (k & tot & Hk & Ht & Hmin & [[Hcov (w2 & Hs & Hl)]|(Hall & Hlt & e & Hs)]);
    destruct (Qle_bool _ _) eqn:Hle.
  - eauto.
  - apply not_true_iff_false in Hle. destruct Hle. apply Qle_bool_iff.
    pose proof (take_mono_length k _ (free_sorted wid w) Hpos Hk) as Hm.
    rewrite (take_ge _ (length _)) in Hm by done. lra.
  - apply Qle_bool_iff in Hle. rewrite Hall in Hlt. lra.
  - eauto.
Qed.

(** C6. No output is reserved twice: however withdrawals interleave their
    listings, locks, unlocks and spends, a successful lock never covers an
    output another withdrawal holds, even when it was chosen from a list that
    is out of date. *)
Theorem utxo_never_double_locked w0 w h ops w' :
  rtc utxo_step (w0, ∅) (w, h) →
  LockUTXOs ops w = (Ok tt, w') → list_to_set ops ## h.
Proof.
  intros Hst Hl. assert (held_locked (w, h)) as Hinv.
  { eapply (rtc_ind_l (λ st, held_locked st → held_locked (w, h))); [..|exact Hst|].
    - done.
    - eauto using utxo_step_inv.
    - intros op. simpl. set_solver. }
  apply LockUTXOs_Ok in Hl as (Hf & _). rewrite Forall_forall in Hf.
  intros op Hops%elem_of_list_to_set Hh.
  destruct (Hf op Hops) as (u & Hu & Hs), (Hinv op Hh) as (u' & Hu' & Hs').
  simpl in Hu'. rewrite Hu in Hu'. simplify_eq. rewrite Hs in Hs'. done.
Qed.
End theorems.

(** ** Witnesses *)
Section witnesses.
#[local] Existing Instances ref_runtime ref_uuid ref_env ref_decimal.

Definition sats (z : Z) : decimal := z.

Definition coin (op value : string) : UTXO :=
  MkUTXO op (uuid_of_Z 7) value "p2wpkh" 6 UTXOLockStateFree None None "" 0.

Definition purse : World :=
  set_store (set_utxos New (list_to_map
    [("a:0", coin "a:0" "5"); ("b:0", coin "b:0" "30"); ("c:1", coin "c:1" "9")]))
    initial_world.

Lemma purse_ok : utxos_ok (utxos (store purse)).
Proof.
  unfold utxos_ok, purse. simpl.
  repeat (apply map_Forall_insert_2; [reflexivity|]). apply map_Forall_empty.
Qed.

Lemma SelectForAmount_correct_witness :
  ∃ us, ["b:0"; "c:1"] = u_Outpoint <$> us ∧ us ⊆+ available (uuid_of_Z 7) purse ∧
    NoDup ["b:0"; "c:1"] ∧ Forall (is_free purse) ["b:0"; "c:1"] ∧
    Forall (is_locked (SelectForAmount (uuid_of_Z 7) (sats 32) purse).2)
      ["b:0"; "c:1"] ∧
    (∀ op, op ∉ ["b:0"; "c:1"] →
      utxo_at op (SelectForAmount (uuid_of_Z 7) (sats 32) purse).2 = utxo_at op purse) ∧
    (dec_value (sats 39) == total_value us)%Q ∧
    (dec_value (sats 32) <= dec_value (sats 39))%Q ∧
    ∀ vs, vs ⊆+ available (uuid_of_Z 7) purse →
      (dec_value (sats 32) <= total_value vs)%Q → (length us ≤ length vs)%nat.
Proof.
  apply (SelectForAmount_correct (uuid_of_Z 7) (sats 32) purse
    ["b:0"; "c:1"] (sats 39)); [apply purse_ok|apply run_eq; vm_compute; reflexivity].
Defined.

Lemma SelectForAmount_complete_witness :
  if Qle_bool (dec_value (sats 50)) (total_value (available (uuid_of_Z 7) purse))
  then ∃ sel tot w', SelectForAmount (uuid_of_Z 7) (sats 50) purse = (Ok (sel, tot), w')
  else ∃ e, SelectForAmount (uuid_of_Z 7) (sats 50) purse = (Err e, purse).
Proof.
  apply (SelectForAmount_complete (uuid_of_Z 7) (sats 50) purse); [apply purse_ok|].
  vm_compute. repeat constructor; discriminate.
Defined.

Lemma utxo_never_double_locked_witness :
  list_to_set ["a:0"] ## (list_to_set ["b:0"; "c:1"] ∪ ∅ : gset string).
Proof.
  apply (utxo_never_double_locked purse (LockUTXOs ["b:0"; "c:1"] purse).2 _ ["a:0"]
    (LockUTXOs ["a:0"] (LockUTXOs ["b:0"; "c:1"] purse).2).2).
  - apply rtc_once, step_lock, run_eq. vm_compute. reflexivity.
  - apply run_eq. vm_compute. reflexivity.
Defined.
End witnesses.
