(* ===== verification/AuditOutbox.v ===== *)
(** * AuditOutbox: [internal/audit/audit.go]

    The outbox emitter, whose two store calls can interleave with those of other
    emits, and the drainer that hands outbox rows to the sink.
    The [Emitter] interface the other services hold is a function with the law
    [EmitterLaws]: emitting touches the audit tables and nothing else. *)
From stdpp Require Import base tactics list gmap strings sorting.
From Stdlib Require Import ZArith Lia.
From S2P Require Import Prelude.
From S2P Require Import GoLang.
From S2P Require Import Domain.
From S2P Require Import World.
From S2P Require Import MemStore.
From S2P Require Import MemStoreFacts.
From S2P Require Import MemStoreFrames.
From S2P Require Import Reference.

#[local] Open Scope string_scope.
#[local] Open Scope list_scope.
#[local] Open Scope Z_scope.

(** ** Events and emitters *)
Record Event : Type := MkEvent {
  ev_EventType : string;
  ev_WalletID : option uuid;
  ev_Payload : list (string * any)
}.

Definition Emitter : Type := Event → Go unit.

Definition NoopEmitter : Emitter := λ _, mret tt.

(** [if s.Audit != nil { _ = s.Audit.Emit(ctx, ev) }]. *)
Definition emit (em : option Emitter) (ev : Event) : Go unit :=
  match em with
  | None => mret tt
  | Some e => ignore (e ev)
  end.

(** The world differs in the audit tables, the clock and the ids only. *)
Definition audit_only (w w' : World) : Prop :=
  (∃ outbox seqs,
    store w' = set_auditOutbox (set_auditSeqCounters (store w) seqs) outbox) ∧
  depth w' = depth w ∧ locks w' = locks w ∧ cache w' = cache w ∧ trace w' = trace w.

#[export] Instance audit_only_preorder : PreOrder audit_only.
Proof.
  split.
  - intros w. split; [|done]. exists (auditOutbox (store w)), (auditSeqCounters (store w)).
    by destruct (store w).
  - intros x y z [(o & q & Hs) (?&?&?&?)] [(o' & q' & Hs') (?&?&?&?)].
    split; [|split_and!; congruence]. exists o', q'. rewrite Hs', Hs. done.
Qed.

Class EmitterLaws `{UUIDLib} (em : option Emitter) : Prop := {
  emit_audit_only ev : within audit_only (emit em ev);
  emit_keeps_ok ev : within keeps_ok (emit em ev)
}.

#[export] Instance no_emitter_laws `{UUIDLib} : EmitterLaws None.
Proof. split; intros ev; apply within_ret, _. Qed.

#[export] Instance noop_emitter_laws `{UUIDLib} : EmitterLaws (Some NoopEmitter).
Proof. split; intros ev; apply within_ignore, within_ret, _. Qed.

Section emit_frames.
Context `{UUIDLib} (em : option Emitter) `{!EmitterLaws em}.

Lemma within_emit (R : relation World) `{!FrameRel R} ev :
  ignores set_auditOutbox R → ignores set_auditSeqCounters R → within R (emit em ev).
Proof.
  intros Ho Hq w. destruct (emit_audit_only ev w) as [(o & q & Hs) (_ & _ & _ & Ht)].
  transitivity (set_store (set_auditSeqCounters (store w) q) w); [apply Hq|].
  etrans; [apply (Ho _ o)|]. by apply frame_rel_same.
Qed.

(** Emitting never fails: the error of [Emit] is dropped. *)
Lemma emit_run ev w : ∃ w', emit em ev w = (Ok tt, w') ∧ audit_only w w'.
Proof.
  pose proof (emit_audit_only ev w) as Ha. revert Ha. unfold emit.
  destruct em as [e|]; go_run; [|by eauto].
  destruct (e ev w) as [r w']. by eauto.
Qed.
End emit_frames.

#[export] Hint Resolve within_emit emit_keeps_ok : within.

(** ** The emitter service *)
Section emitter.
Context `{GoRuntime} `{UUIDLib} `{Environment}.
(** The sink, [None] when none is configured, answering from the exchanges
    so far. *)
Context (sink : option (list exchange → list AuditOutboxEvent → result unit)).

(** [Emit] makes two calls of the store, with no lock and no transaction around them:
    it draws a number and appends a row. *)
Definition Emit_number (ev : Event) : Go Z :=
  match ev_WalletID ev with
  | Some wID => wrap_err "next audit seq" (NextAuditSeq wID)
  | None => now ← time_Now; mret (time_UnixNano now)
  end.

Definition Emit_record (ev : Event) (seq : Z) : Go unit :=
  rowID ← uuid_New;
  eventID ← uuid_New;
  now ← time_Now;
  AppendAuditEvent (MkAudit rowID eventID (ev_WalletID ev) (ev_EventType ev)
    (ev_Payload ev) seq false 0 now None).

Definition EmitterService_Emit (ev : Event) : Go unit :=
  seq ← Emit_number ev;
  Emit_record ev seq.

Definition Deliver (events : list AuditOutboxEvent) : Go unit :=
  match sink with
  | None => mret tt
  | Some f => ask XDeliver f events
  end.

Definition Drain : Go unit :=
  events ← ListUndeliveredAuditEvents 100;
  if bool_decide (length events = 0%nat) then mret tt
  else
    Deliver events;;
    for_each events (λ ev, MarkAuditDelivered (ae_ID ev)).

(** ** [EmitterService] is an [Emitter] *)
Lemma NextAuditSeq_audit_only wid : within audit_only (NextAuditSeq wid).
Proof.
  intros w. unfold NextAuditSeq. go_run. split; [|done].
  eexists (auditOutbox (store w)), _. reflexivity.
Qed.

Lemma AppendAuditEvent_audit_only e : within audit_only (AppendAuditEvent e).
Proof.
  intros w. unfold AppendAuditEvent, or_now. go_run.
  destruct (existsb _ _); simpl; [reflexivity|].
  destruct (time_IsZero _); simpl; (split; [|done]);
    eexists _, (auditSeqCounters (store w)); reflexivity.
Qed.

Lemma time_Now_audit_only : within audit_only time_Now.
Proof.
  intros w. split; [|done]. exists (auditOutbox (store w)), (auditSeqCounters (store w)).
  simpl. by destruct (store w).
Qed.

Lemma uuid_New_audit_only : within audit_only uuid_New.
Proof.
  intros w. split; [|done]. exists (auditOutbox (store w)), (auditSeqCounters (store w)).
  simpl. by destruct (store w).
Qed.

Lemma Emit_audit_only ev : within audit_only (EmitterService_Emit ev).
Proof.
  unfold EmitterService_Emit, Emit_number, Emit_record.
  apply within_bind; [apply _|destruct (ev_WalletID ev)|intros seq].
  - apply within_wrap_err, NextAuditSeq_audit_only.
  - apply within_bind; [apply _|apply time_Now_audit_only|intros; apply within_ret, _].
  - apply within_bind; [apply _|apply uuid_New_audit_only|intros].
    apply within_bind; [apply _|apply uuid_New_audit_only|intros].
    apply within_bind; [apply _|apply time_Now_audit_only|intros].
    apply AppendAuditEvent_audit_only.
Qed.

#[export] Instance EmitterService_laws : EmitterLaws (Some EmitterService_Emit).
Proof.
  split; intros ev; apply within_ignore; [apply Emit_audit_only|].
  unfold EmitterService_Emit, Emit_number, Emit_record.
  apply within_bind; [apply _|destruct (ev_WalletID ev)|intros seq].
  - apply within_wrap_err, NextAuditSeq_ok.
  - apply within_bind; [apply _|apply within_time_Now, _|intros; apply within_ret, _].
  - repeat (apply within_bind;
      [apply _|first [apply within_uuid_New, _|apply within_time_Now, _]|intros]).
    apply AppendAuditEvent_ok.
Qed.
End emitter.

(** ** Sequence numbers and delivery *)
Section facts.
Context `{GoRuntime} `{UUIDLib} `{Environment}.
Context (f : list exchange → list AuditOutboxEvent → result unit).

Definition of_wallet (wid : uuid) (e : AuditOutboxEvent) : bool :=
  bool_decide (ae_WalletID e = Some wid).

(** The sequence numbers of a wallet's rows, in outbox order. *)
Definition seqs (wid : uuid) (l : list AuditOutboxEvent) : list Z :=
  ae_Seq <$> List.filter (of_wallet wid) l.

Definition seq_counter (wid : uuid) (w : World) : Z :=
  default 0 (auditSeqCounters (store w) !! wid).

Definition seq_inv (w : World) : Prop := ∀ wid,
  StronglySorted Z.lt (seqs wid (auditOutbox (store w))) ∧
  Forall (λ n, 0 < n ≤ seq_counter wid w) (seqs wid (auditOutbox (store w))) ∧
  0 ≤ seq_counter wid w < 2 ^ 63.

(** Every row marked delivered was in a batch the sink accepted. *)
Definition delivery_inv (w : World) : Prop := ∀ e,
  e ∈ auditOutbox (store w) → ae_Delivered e = true →
  ∃ evs e', XDeliver evs (Ok tt) ∈ trace w ∧ e' ∈ evs ∧ ae_ID e' = ae_ID e.

Lemma deliver_first_seqs now id l l' wid :
  deliver_first now id l = Some l' → seqs wid l' = seqs wid l.
Proof.
  revert l'. induction l as [|e l IH]; simpl; intros l'; [done|].
  case_bool_decide; [intros [= <-]|intros (l2 & Hr & ->)%fmap_Some].
  - unfold seqs. simpl. change (of_wallet wid (deliver_event now e)) with (of_wallet wid e).
    by destruct (of_wallet wid e).
  - apply IH in Hr. unfold seqs in *. simpl. destruct (of_wallet wid e); csimpl; congruence.
Qed.

Lemma StronglySorted_snoc (l : list Z) n :
  StronglySorted Z.lt l → Forall (λ m, m < n) l → StronglySorted Z.lt (l ++ [n]).
Proof.
  intros Hs Hb. induction Hs as [|x l Hs IH Hall]; simpl; [repeat constructor|].
  apply Forall_cons in Hb as [Hx Hb]. constructor; [auto|].
  apply Forall_app. auto.
Qed.

Lemma seqs_snoc wid l e :
  seqs wid (l ++ [e]) = seqs wid l ++ (if of_wallet wid e then [ae_Seq e] else []).
Proof.
  unfold seqs. rewrite List.filter_app, fmap_app. simpl. by destruct (of_wallet wid e).
Qed.

(** The row is appended, or the outbox is as it was. *)
Lemma AppendAuditEvent_outbox e w :
  auditSeqCounters (store (AppendAuditEvent e w).2) = auditSeqCounters (store w) ∧
  (auditOutbox (store (AppendAuditEvent e w).2) = auditOutbox (store w) ∨
   ∃ t, auditOutbox (store (AppendAuditEvent e w).2) = auditOutbox (store w) ++
     [MkAudit (ae_ID e) (ae_EventID e) (ae_WalletID e) (ae_EventType e)
       (ae_Payload e) (ae_Seq e) (ae_Delivered e) (ae_Attempts e) t (ae_DeliveredAt e)]).
Proof.
  unfold AppendAuditEvent, or_now. go_run. destruct (existsb _ _); simpl; [auto|].
  destruct (time_IsZero _); simpl; eauto.
Qed.

(** What [Emit] leaves in the audit tables. *)
Lemma Emit_outbox ev w :
  ∃ seq id eid t,
    match ev_WalletID ev with
    | Some wid => seq = int64 (seq_counter wid w + 1) ∧
        auditSeqCounters (store (EmitterService_Emit ev w).2) =
          <[wid := seq]> (auditSeqCounters (store w))
    | None => auditSeqCounters (store (EmitterService_Emit ev w).2) =
        auditSeqCounters (store w)
    end ∧
    (auditOutbox (store (EmitterService_Emit ev w).2) = auditOutbox (store w) ∨
     auditOutbox (store (EmitterService_Emit ev w).2) = auditOutbox (store w) ++
      [MkAudit id eid (ev_WalletID ev) (ev_EventType ev) (ev_Payload ev) seq false 0 t None]).
Proof.
  unfold EmitterService_Emit, Emit_number, Emit_record, NextAuditSeq. go_run.
  destruct (ev_WalletID ev) as [wid|]; go_run;
    match goal with |- context [AppendAuditEvent ?e ?w1] =>
      destruct (AppendAuditEvent_outbox e w1) as [Hq Ho];
      exists (ae_Seq e), (ae_ID e), (ae_EventID e) end;
    simpl in *; rewrite Hq; (destruct Ho as [->|[t ->]]; [exists 0|exists t]); auto.
Qed.

Lemma Emit_trace ev w : trace (EmitterService_Emit ev w).2 = trace w.
Proof. by destruct (Emit_audit_only ev w) as (_ & _ & _ & _ & ?). Qed.

Lemma Emit_seq_inv ev w :
  (∀ wid, ev_WalletID ev = Some wid → seq_counter wid w < 2 ^ 63 - 1) →
  seq_inv w → seq_inv (EmitterService_Emit ev w).2.
Proof.
  intros Hb Hinv wid'. destruct (Emit_outbox ev w) as (seq & id & eid & t & Hq & Ho).
  destruct (Hinv wid') as (Hs & Hall & Hc).
  unfold seq_counter in *. destruct (ev_WalletID ev) as [wid|] eqn:Hw.
  - destruct Hq as [Hseq Hq]. specialize (Hb _ eq_refl). rewrite Hq.
    destruct (decide (wid' = wid)) as [->|Hne].
    + rewrite lookup_insert_eq. simpl. rewrite int64_succ_lt in Hseq by lia.
      assert (Forall (λ n, 0 < n ≤ seq) (seqs wid (auditOutbox (store w)))) as Hall'.
      { eapply Forall_impl; [exact Hall|]. simpl. lia. }
      destruct Ho as [->| ->]; [split_and!; [done|done|lia|lia]|].
      rewrite seqs_snoc. unfold of_wallet. simpl. rewrite bool_decide_true by done.
      split_and!; [|apply Forall_app; split; [done|repeat constructor; lia]|lia|lia].
      apply StronglySorted_snoc; [done|]. eapply Forall_impl; [exact Hall|]. simpl. lia.
    + rewrite lookup_insert_ne by done.
      destruct Ho as [->| ->]; [done|]. rewrite seqs_snoc. unfold of_wallet. simpl.
      rewrite bool_decide_false by congruence. by rewrite app_nil_r.
  - rewrite Hq. destruct Ho as [->| ->]; [done|].
    rewrite seqs_snoc. unfold of_wallet. simpl. by rewrite app_nil_r.
Qed.

Lemma Emit_delivery_inv ev w : delivery_inv w → delivery_inv (EmitterService_Emit ev w).2.
Proof.
  intros Hinv e. rewrite Emit_trace.
  destruct (Emit_outbox ev w) as (seq & id & eid & t & _ & [->| ->]); [apply Hinv|].
  intros [He|He%list_elem_of_singleton]%elem_of_app; [by apply Hinv|]. by subst e.
Qed.

(** *** Marking *)
Lemma MarkAuditDelivered_seqs id w :
  auditSeqCounters (store (MarkAuditDelivered id w).2) = auditSeqCounters (store w) ∧
  trace (MarkAuditDelivered id w).2 = trace w ∧
  ∀ wid, seqs wid (auditOutbox (store (MarkAuditDelivered id w).2)) =
    seqs wid (auditOutbox (store w)).
Proof.
  unfold MarkAuditDelivered. go_run. destruct (existsb _ _); simpl; [|done].
  split_and!; [done|done|]. intros wid.
  destruct (deliver_first _ _ _) eqn:Hd; simpl; [|done].
  by eapply deliver_first_seqs.
Qed.

Lemma deliver_first_elem now id l l' e :
  deliver_first now id l = Some l' → e ∈ l' → ae_Delivered e = true →
  ae_ID e = id ∨ e ∈ l.
Proof.
  revert l'. induction l as [|x l IH]; simpl; intros l'; [done|].
  case_bool_decide as Hid; [intros [= <-]|intros (l2 & Hr & ->)%fmap_Some];
    rewrite !elem_of_cons; intros [->|He] Hd; auto.
  destruct (IH _ Hr He Hd); auto.
Qed.

Lemma MarkAuditDelivered_elem id w e :
  e ∈ auditOutbox (store (MarkAuditDelivered id w).2) → ae_Delivered e = true →
  ae_ID e = id ∨ e ∈ auditOutbox (store w).
Proof.
  unfold MarkAuditDelivered. go_run. destruct (existsb _ _); simpl; [|by right].
  destruct (deliver_first _ _ _) eqn:Hd; simpl; [|by right].
  by eapply deliver_first_elem.
Qed.

Definition mark_all (evs : list AuditOutboxEvent) : Go unit :=
  for_each evs (λ ev, MarkAuditDelivered (ae_ID ev)).

Lemma mark_all_seq_inv evs : within (inv_rel seq_inv) (mark_all evs).
Proof.
  apply within_for_each; [apply _|]. intros e w Hinv wid.
  destruct (MarkAuditDelivered_seqs (ae_ID e) w) as (Hq & _ & Hs).
  unfold seq_counter in *. rewrite Hs, Hq. apply Hinv.
Qed.

(** The batch being marked is one the sink has accepted. *)
Lemma mark_all_delivery_inv evs evs' w :
  evs' ⊆ evs → XDeliver evs (Ok tt) ∈ trace w → delivery_inv w →
  delivery_inv (mark_all evs' w).2.
Proof.
  revert w. induction evs' as [|e evs' IH]; intros w Hsub Htr Hinv; [done|].
  unfold mark_all in *. simpl. unfold mbind, GoM_bind.
  destruct (MarkAuditDelivered_seqs (ae_ID e) w) as (_ & Ht & _).
  assert (delivery_inv (MarkAuditDelivered (ae_ID e) w).2) as Hd.
  { intros x Hx Hxd. rewrite Ht.
    destruct (MarkAuditDelivered_elem _ _ _ Hx Hxd) as [Hid|Hin]; [|by apply Hinv].
    exists evs, e. split_and!; [done| |done]. apply Hsub, list_elem_of_here. }
  destruct (MarkAuditDelivered (ae_ID e) w) as [[[]|?] w1]; simpl in *; [|done].
  apply IH; [|by rewrite Ht|done]. intros x Hx. by apply Hsub, list_elem_of_further.
Qed.

(** *** Draining *)
Definition batch (w : World) : list AuditOutboxEvent :=
  let out := sort_Slice (λ x y, ae_Seq x <? ae_Seq y)
    (List.filter (λ e, negb (ae_Delivered e)) (auditOutbox (store w))) in
  if (0 <? 100) && (100 <? Z.of_nat (length out)) then take (Z.to_nat 100) out else out.

Lemma Drain_run w :
  Drain (Some f) w =
  if bool_decide (length (batch w) = 0%nat) then (Ok tt, w)
  else match f (trace w) (batch w) with
       | Ok _ => mark_all (batch w) (log_exchange (XDeliver (batch w) (Ok tt)) w)
       | Err e => (Err e, log_exchange (XDeliver (batch w) (Err e)) w)
       end.
Proof.
  unfold Drain, ListUndeliveredAuditEvents, Deliver. go_run. fold (batch w).
  destruct (bool_decide _); [done|]. by destruct (f (trace w) (batch w)) as [[]|].
Qed.

Lemma Drain_seq_inv w : seq_inv w → seq_inv (Drain (Some f) w).2.
Proof.
  intros Hinv. rewrite Drain_run. destruct (bool_decide _); [done|].
  destruct (f _ _) as [[]|e]; [|done]. by apply mark_all_seq_inv.
Qed.

Lemma Drain_delivery_inv w : delivery_inv w → delivery_inv (Drain (Some f) w).2.
Proof.
  intros Hinv. rewrite Drain_run. destruct (bool_decide _); [done|].
  assert (∀ x, delivery_inv (log_exchange x w)) as Hlog.
  { intros x e He Hd. destruct (Hinv e He Hd) as (evs & e' & Hin & ?).
    exists evs, e'. simpl. split; [|done]. by apply elem_of_app; left. }
  destruct (f _ _) as [[]|e]; simpl; [|apply Hlog].
  eapply mark_all_delivery_inv; [done| |apply Hlog].
  simpl. apply elem_of_app. right. apply list_elem_of_here.
Qed.

(** ** Runs of the emitter, with the rest of the service in between *)
Inductive audit_step : World → World → Prop :=
  | step_emit w ev :
      (∀ wid, ev_WalletID ev = Some wid → seq_counter wid w < 2 ^ 63 - 1) →
      audit_step w (EmitterService_Emit ev w).2
  | step_drain w : audit_step w (Drain (Some f) w).2
  | step_elsewhere w w' xs :
      auditOutbox (store w') = auditOutbox (store w) →
      auditSeqCounters (store w') = auditSeqCounters (store w) →
      trace w' = trace w ++ xs → audit_step w w'.

Lemma audit_step_inv w w' :
  audit_step w w' → seq_inv w ∧ delivery_inv w → seq_inv w' ∧ delivery_inv w'.
Proof.
  intros Hst [Hs Hd]. destruct Hst as [w ev Hb|w|w w' xs Ho Hq Ht].
  - split; [by apply Emit_seq_inv|by apply Emit_delivery_inv].
  - split; [by apply Drain_seq_inv|by apply Drain_delivery_inv].
  - unfold seq_inv, delivery_inv, seq_counter in *. rewrite Ho, Hq, Ht. split; [done|].
    intros e He Hdel. destruct (Hd e He Hdel) as (evs & e' & Hin & ?).
    exists evs, e'. split; [|done]. by apply elem_of_app; left.
Qed.

Lemma audit_reachable w :
  rtc audit_step initial_world w → seq_inv w ∧ delivery_inv w.
Proof.
  intros Hst. eapply (rtc_ind_l (λ x, seq_inv x ∧ delivery_inv x →
    seq_inv w ∧ delivery_inv w)); [..|exact Hst|].
  - done.
  - eauto using audit_step_inv.
  - split.
    + intros wid. unfold seq_counter. simpl. rewrite lookup_empty. simpl.
      split_and!; [constructor|constructor|lia|lia].
    + intros e He. by apply elem_of_nil in He.
Qed.
End facts.

(** ** Emits that overlap *)
Section overlapping.
Context `{GoRuntime} `{UUIDLib} `{Environment}.

(** The world, and the emits that have drawn their number and not yet appended their
    row. *)
Abbreviation Emits := (World * list (Event * Z))%type.

(** The calls of any number of emits, deliveries of any rows, other work, and emits that
    never finish, in any order. *)
Inductive emits_step : Emits → Emits → Prop :=
  | es_number w ev n w' pend :
      (∀ wid, ev_WalletID ev = Some wid → seq_counter wid w < 2 ^ 63 - 1) →
      Emit_number ev w = (Ok n, w') → emits_step (w, pend) (w', pend ++ [(ev, n)])
  | es_record w ev n p1 p2 :
      emits_step (w, p1 ++ (ev, n) :: p2) ((Emit_record ev n w).2, p1 ++ p2)
  | es_drop w e p1 p2 : emits_step (w, p1 ++ e :: p2) (w, p1 ++ p2)
  | es_deliver w id pend : emits_step (w, pend) ((MarkAuditDelivered id w).2, pend)
  | es_elsewhere w w' pend :
      auditOutbox (store w') = auditOutbox (store w) →
      auditSeqCounters (store w') = auditSeqCounters (store w) →
      emits_step (w, pend) (w', pend).

(** The numbers drawn for a wallet by unfinished emits. *)
Definition drawn (wid : uuid) (pend : list (Event * Z)) : list Z :=
  snd <$> List.filter (λ e, bool_decide (ev_WalletID e.1 = Some wid)) pend.

(** The numbers of a wallet: recorded and drawn. *)
Definition numbers (wid : uuid) (s : Emits) : list Z :=
  seqs wid (auditOutbox (store s.1)) ++ drawn wid s.2.

Definition numbers_inv (s : Emits) : Prop := ∀ wid,
  NoDup (numbers wid s) ∧ Forall (λ n, 0 < n ≤ seq_counter wid s.1) (numbers wid s) ∧
  0 ≤ seq_counter wid s.1 < 2 ^ 63.

Lemma drawn_app wid p1 p2 : drawn wid (p1 ++ p2) = drawn wid p1 ++ drawn wid p2.
Proof. unfold drawn. by rewrite List.filter_app, fmap_app. Qed.

Lemma drawn_cons wid e p :
  drawn wid (e :: p) =
  (if bool_decide (ev_WalletID e.1 = Some wid) then [e.2] else []) ++ drawn wid p.
Proof. unfold drawn. simpl. by case_bool_decide. Qed.

(** Numbers may be lost and reordered. *)
Lemma numbers_inv_sub s s' :
  (∀ wid, numbers wid s' ⊆+ numbers wid s) →
  auditSeqCounters (store s'.1) = auditSeqCounters (store s.1) →
  numbers_inv s → numbers_inv s'.
Proof.
  intros Hsub Hq Hinv wid. destruct (Hinv wid) as (Hnd & Hall & Hc).
  destruct (submseteq_Permutation _ _ (Hsub wid)) as [k Hk].
  rewrite Hk in Hnd, Hall. apply Forall_app in Hall as [Hall _]. apply NoDup_app in Hnd as [Hnd _].
  unfold seq_counter in *. by rewrite Hq.
Qed.

Lemma Emit_number_run ev w :
  (∀ wid, ev_WalletID ev = Some wid → seq_counter wid w < 2 ^ 63 - 1 ∧ 0 ≤ seq_counter wid w) →
  ∃ n w', Emit_number ev w = (Ok n, w') ∧ auditOutbox (store w') = auditOutbox (store w) ∧
    match ev_WalletID ev with
    | Some wid => n = seq_counter wid w + 1 ∧
        auditSeqCounters (store w') = <[wid := n]> (auditSeqCounters (store w))
    | None => auditSeqCounters (store w') = auditSeqCounters (store w)
    end.
Proof.
  intros Hb. unfold Emit_number, NextAuditSeq. destruct (ev_WalletID ev) as [wid|]; go_run.
  - destruct (Hb wid eq_refl). unfold seq_counter in *. rewrite int64_succ_lt by lia.
    eexists _, _. split_and!; done.
  - eexists _, _. by split_and!.
Qed.

Lemma numbers_inv_number w pend ev n w' :
  (∀ wid, ev_WalletID ev = Some wid → seq_counter wid w < 2 ^ 63 - 1) →
  Emit_number ev w = (Ok n, w') → numbers_inv (w, pend) → numbers_inv (w', pend ++ [(ev, n)]).
Proof.
  intros Hb Hr Hinv wid. destruct (Hinv wid) as (Hnd & Hall & Hc). simpl in *.
  destruct (Emit_number_run ev w) as (n' & w1 & Hr' & Ho & Hq).
  { intros wid' Hw. split; [by apply Hb|apply (Hinv wid')]. }
  rewrite Hr in Hr'. injection Hr' as <- <-.
  unfold numbers, seq_counter in *. simpl in *.
  rewrite Ho, drawn_app, drawn_cons, app_assoc. simpl. rewrite app_nil_r.
  case_bool_decide as Hw.
  - rewrite Hw in Hq. destruct Hq as [-> ->]. specialize (Hb _ Hw). rewrite lookup_insert_eq.
    simpl. split_and!; [|apply Forall_app; split|lia|lia].
    + apply NoDup_app. split_and!; [done| |apply NoDup_singleton].
      intros m Hm ->%list_elem_of_singleton. rewrite Forall_forall in Hall.
      specialize (Hall _ Hm). simpl in Hall. lia.
    + eapply Forall_impl; [exact Hall|]. simpl. lia.
    + repeat constructor; lia.
  - rewrite app_nil_r. destruct (ev_WalletID ev) as [wid'|]; [|by rewrite Hq].
    destruct Hq as [_ ->]. by rewrite lookup_insert_ne by congruence.
Qed.

Lemma numbers_record w ev n p1 p2 wid :
  numbers wid ((Emit_record ev n w).2, p1 ++ p2) ⊆+ numbers wid (w, p1 ++ (ev, n) :: p2) ∧
  auditSeqCounters (store (Emit_record ev n w).2) = auditSeqCounters (store w).
Proof.
  unfold Emit_record. go_run.
  match goal with |- context [AppendAuditEvent ?e ?w1] =>
    destruct (AppendAuditEvent_outbox e w1) as [Hq Ho] end.
  rewrite Hq. split; [|done]. unfold numbers. simpl. rewrite !drawn_app, drawn_cons. simpl.
  destruct Ho as [->|[t ->]]; simpl.
  - do 2 apply submseteq_skips_l. by apply submseteq_inserts_l.
  - rewrite seqs_snoc. unfold of_wallet. simpl. rewrite <-app_assoc.
    apply submseteq_skips_l. set (k := if bool_decide _ then _ else _).
    by rewrite !(app_assoc _ _ (drawn wid p2)), (Permutation_app_comm k).
Qed.

Lemma emits_step_inv s s' : emits_step s s' → numbers_inv s → numbers_inv s'.
Proof.
  intros Hst. destruct Hst as [w ev n w' pend Hb Hr|w ev n p1 p2|w e p1 p2|w id pend|w w' pend Ho Hq].
  - by apply numbers_inv_number.
  - apply numbers_inv_sub.
    + intros wid. apply numbers_record.
    + apply (numbers_record w ev n p1 p2 uuid_Nil).
  - apply numbers_inv_sub; [intros wid|done]. unfold numbers. simpl.
    rewrite !drawn_app, drawn_cons. do 2 apply submseteq_skips_l. by apply submseteq_inserts_l.
  - destruct (MarkAuditDelivered_seqs id w) as (Hq & _ & Hs).
    apply numbers_inv_sub; [intros wid|done]. unfold numbers. simpl. by rewrite Hs.
  - apply numbers_inv_sub; [intros wid|done]. unfold numbers. simpl. by rewrite Ho.
Qed.

Lemma emits_reachable s : rtc emits_step (initial_world, []) s → numbers_inv s.
Proof.
  intros Hst. assert (numbers_inv (initial_world, [])) as Hinit.
  { intros wid. unfold numbers, seq_counter. simpl. rewrite lookup_empty. simpl.
    split_and!; [constructor|constructor|lia|lia]. }
  revert Hinit. induction Hst; eauto using emits_step_inv.
Qed.
End overlapping.

(** ** Progress of the drainer *)
Section progress.
Context `{GoRuntime} `{UUIDLib} `{Environment}.

Definition undelivered (w : World) : list AuditOutboxEvent :=
  List.filter (λ e, negb (ae_Delivered e)) (auditOutbox (store w)).

Definition row_ids (w : World) : list uuid := ae_ID <$> auditOutbox (store w).

Definition not_id (id : uuid) (e : AuditOutboxEvent) : bool :=
  negb (bool_decide (ae_ID e = id)).

Lemma filter_not_id_absent id l :
  id ∉ ae_ID <$> l → List.filter (not_id id) l = l.
Proof.
  induction l as [|e l IH]; simpl; [done|]. intros [Hne Hin]%not_elem_of_cons.
  unfold not_id at 1. rewrite bool_decide_false by done. simpl. by rewrite IH.
Qed.

Lemma undelivered_ids_sub id l :
  id ∉ ae_ID <$> l → id ∉ ae_ID <$> List.filter (λ e, negb (ae_Delivered e)) l.
Proof.
  intros Hn (e & He & Hin)%list_elem_of_fmap. destruct Hn. apply list_elem_of_fmap.
  exists e. split; [done|]. apply list_elem_of_In in Hin.
  apply filter_In in Hin as [Hin _]. by apply list_elem_of_In.
Qed.

(** Marking a row takes exactly that row out of the undelivered ones. *)
Lemma deliver_first_undelivered now id l :
  NoDup (ae_ID <$> l) → id ∈ ae_ID <$> l →
  ∃ l', deliver_first now id l = Some l' ∧ ae_ID <$> l' = ae_ID <$> l ∧
    List.filter (λ e, negb (ae_Delivered e)) l' =
    List.filter (not_id id) (List.filter (λ e, negb (ae_Delivered e)) l).
Proof.
  induction l as [|e l IH]; csimpl; [by intros _ ?%elem_of_nil|].
  intros [Hn Hnd]%NoDup_cons Hin. case_bool_decide as Hid.
  - subst id. eexists. split_and!; [done|done|]. simpl.
    destruct (negb (ae_Delivered e)); simpl; [unfold not_id at 1|];
      rewrite ?bool_decide_true by done; simpl;
      by rewrite filter_not_id_absent by by apply undelivered_ids_sub.
  - apply elem_of_cons in Hin as [?|Hin]; [congruence|].
    destruct (IH Hnd Hin) as (l' & -> & Hids & Hf).
    exists (e :: l'). split_and!; [done|csimpl; congruence|]. simpl. rewrite Hf.
    destruct (negb (ae_Delivered e)); [|done]. simpl. unfold not_id at 2.
    by rewrite bool_decide_false by done.
Qed.

Lemma MarkAuditDelivered_run id w :
  NoDup (row_ids w) → id ∈ row_ids w →
  ∃ w', MarkAuditDelivered id w = (Ok tt, w') ∧ row_ids w' = row_ids w ∧
    undelivered w' = List.filter (not_id id) (undelivered w).
Proof.
  unfold row_ids. intros Hnd Hin. unfold MarkAuditDelivered. go_run.
  assert (existsb (λ e, bool_decide (ae_ID e = id)) (auditOutbox (store w)) = true) as ->.
  { apply list_elem_of_fmap in Hin as (e & -> & He). apply existsb_exists.
    exists e. rewrite <-list_elem_of_In, bool_decide_eq_true. done. }
  destruct (deliver_first_undelivered (clock (ticks w)) id _ Hnd Hin) as (l' & Hl & Hids & Hf).
  eexists. split; [done|]. unfold undelivered. simpl. rewrite Hl. simpl. done.
Qed.

Definition none_of (ids : list uuid) (e : AuditOutboxEvent) : bool :=
  negb (bool_decide (ae_ID e ∈ ids)).

Lemma filter_none_of_cons id ids l :
  List.filter (none_of ids) (List.filter (not_id id) l) =
  List.filter (none_of (id :: ids)) l.
Proof.
  induction l as [|e l IH]; simpl; [done|]. unfold not_id at 1, none_of at 2.
  destruct (decide (ae_ID e = id)) as [Hid|Hid].
  - rewrite !bool_decide_true; [apply IH| |done]. rewrite Hid. apply list_elem_of_here.
  - rewrite bool_decide_false by done. simpl. rewrite IH. unfold none_of at 1.
    rewrite (bool_decide_ext (ae_ID e ∈ id :: ids) (ae_ID e ∈ ids)); [done|].
    rewrite elem_of_cons. split; [by intros [?|?]|by right].
Qed.

Lemma mark_all_run evs w :
  NoDup (row_ids w) → (ae_ID <$> evs) ⊆ row_ids w →
  ∃ w', mark_all evs w = (Ok tt, w') ∧ row_ids w' = row_ids w ∧
    undelivered w' = List.filter (none_of (ae_ID <$> evs)) (undelivered w).
Proof.
  revert w. induction evs as [|e evs IH]; intros w Hnd Hsub.
  - exists w. split_and!; [done|done|]. symmetry. clear.
    induction (undelivered w) as [|x l IH]; [done|]. csimpl in *. by f_equal.
  - destruct (MarkAuditDelivered_run (ae_ID e) w Hnd) as (w1 & Hm & Hi & Hu).
    { apply Hsub. csimpl. apply list_elem_of_here. }
    destruct (IH w1) as (w2 & Hr & Hi2 & Hu2).
    { by rewrite Hi. }
    { rewrite Hi. intros x Hx. apply Hsub. csimpl. by apply list_elem_of_further. }
    exists w2. unfold mark_all in *. simpl. unfold mbind, GoM_bind. rewrite Hm.
    split_and!; [done|congruence|]. by rewrite Hu2, Hu, filter_none_of_cons.
Qed.

Lemma filter_none_of_length l l' :
  NoDup (ae_ID <$> l) → l' ⊆+ l →
  (length (List.filter (none_of (ae_ID <$> l')) l) = length l - length l')%nat.
Proof.
  intros Hnd Hsub. destruct (submseteq_Permutation _ _ Hsub) as [k Hp].
  assert (NoDup (ae_ID <$> (l' ++ k))) as Hnd' by by rewrite <-Hp.
  assert (∀ x y, x ≡ₚ y → length (List.filter (none_of (ae_ID <$> l')) x) =
    length (List.filter (none_of (ae_ID <$> l')) y)) as Hfp.
  { induction 1; simpl; repeat destruct (none_of _ _); simpl; congruence. }
  rewrite (Hfp _ _ Hp), (Permutation_length Hp), List.filter_app, !length_app.
  rewrite fmap_app in Hnd'. apply NoDup_app in Hnd' as (_ & Hdis & _).
  assert (List.filter (none_of (ae_ID <$> l')) l' = []) as ->.
  { assert (∀ x, x ⊆ l' → List.filter (none_of (ae_ID <$> l')) x = []) as Hx; [|by apply Hx].
    induction x as [|e x IH]; intros Hx; simpl; [done|]. unfold none_of at 1.
    rewrite bool_decide_true; [apply IH|apply list_elem_of_fmap_2, Hx]; set_solver. }
  assert (List.filter (none_of (ae_ID <$> l')) k = k) as ->.
  { assert (∀ x, x ⊆ k → List.filter (none_of (ae_ID <$> l')) x = x) as Hx; [|by apply Hx].
    induction x as [|e x IH]; intros Hx; simpl; [done|]. unfold none_of at 1.
    rewrite bool_decide_false; [simpl; f_equal; apply IH; set_solver|].
    intros Hin. apply (Hdis _ Hin), list_elem_of_fmap_2, Hx. set_solver. }
  simpl. lia.
Qed.

Lemma batch_sub w : batch w ⊆+ undelivered w.
Proof.
  unfold batch, undelivered.
  destruct (_ && _); [etrans; [apply submseteq_take|]|]; by rewrite sort_Slice_perm.
Qed.

Lemma batch_length w : length (batch w) = (length (undelivered w) `min` 100)%nat.
Proof.
  unfold batch, undelivered. simpl (0 <? 100).
  rewrite (Permutation_length (sort_Slice_perm _ _)).
  destruct (Z.ltb_spec 100 (Z.of_nat (length (List.filter (λ e, negb (ae_Delivered e))
    (auditOutbox (store w)))))); simpl.
  - rewrite length_take, (Permutation_length (sort_Slice_perm _ _)). lia.
  - rewrite (Permutation_length (sort_Slice_perm _ _)). lia.
Qed.

Lemma filter_ids_sub (p : AuditOutboxEvent → bool) l :
  sublist (ae_ID <$> List.filter p l) (ae_ID <$> l).
Proof.
  induction l as [|e l IH]; simpl; [done|].
  destruct (p e); csimpl; by constructor.
Qed.
End progress.

(** ** Theorems *)
Section theorems.
Context `{GoRuntime} `{UUIDLib} `{Environment}.
Context (f : list exchange → list AuditOutboxEvent → result unit).

(** C33. The audit events of a wallet have numbers of their own.  However the two calls of
    any number of emits interleave, with emits that stop between them, deliveries and
    other work: no two events of a wallet, recorded or still to be recorded, have the
    same number, the numbers are positive and at most the wallet's counter, and, as long
    as the 64-bit counter has room, an emit that draws its number now succeeds and gets
    one above all of them.  Two emits that overlap may record their rows in the other
    order ([emits_out_of_order]). *)
Theorem audit_numbers_unique s wid :
  rtc emits_step (initial_world, []) s →
  NoDup (numbers wid s) ∧ Forall (λ n, 0 < n ≤ seq_counter wid s.1) (numbers wid s) ∧
  (seq_counter wid s.1 < 2 ^ 63 - 1 → ∀ ev, ev_WalletID ev = Some wid →
    ∃ n w', Emit_number ev s.1 = (Ok n, w') ∧ Forall (λ m, m < n) (numbers wid s)).
Proof.
  intros Hst. pose proof (emits_reachable s Hst wid) as (Hnd & Hall & Hc).
  split_and!; [done|done|]. intros Hroom ev Hw.
  destruct (Emit_number_run ev s.1) as (n & w' & Hr & _ & Hn).
  { intros wid' Hw'. replace wid' with wid by congruence. lia. }
  rewrite Hw in Hn. destruct Hn as [-> _]. exists (seq_counter wid s.1 + 1), w'.
  split; [done|]. eapply Forall_impl; [exact Hall|]. simpl. lia.
Qed.

(** Emits that do not overlap record their numbers in increasing order. *)
Theorem audit_seq_increasing w wid :
  rtc (audit_step f) initial_world w →
  StronglySorted Z.lt (seqs wid (auditOutbox (store w))) ∧
  Forall (λ n, 0 < n ≤ seq_counter wid w) (seqs wid (auditOutbox (store w))).
Proof. intros Hst. destruct (audit_reachable f w Hst) as [Hs _]. by destruct (Hs wid) as (?&?&_). Qed.

(** C31. At-least-once delivery: a row is marked delivered only after the sink
    has accepted a batch that contains it. *)
Theorem audit_delivered_accepted w e :
  rtc (audit_step f) initial_world w →
  e ∈ auditOutbox (store w) → ae_Delivered e = true →
  ∃ evs e', XDeliver evs (Ok tt) ∈ trace w ∧ e' ∈ evs ∧ ae_ID e' = ae_ID e.
Proof. intros Hst. destruct (audit_reachable f w Hst) as [_ Hd]. apply Hd. Qed.

(** Draining makes progress: with distinct row ids, a drain whose batch
    the sink accepts succeeds and takes a hundred rows, or all there are, off
    the undelivered ones without losing any row; one the sink refuses reports
    the error and changes no row. *)
Theorem Drain_progress w :
  NoDup (row_ids w) →
  match f (trace w) (batch w) with
  | Ok _ => ∃ w', Drain (Some f) w = (Ok tt, w') ∧ row_ids w' = row_ids w ∧
      (length (undelivered w') = length (undelivered w) - 100)%nat
  | Err e => length (undelivered w) ≠ 0%nat →
      ∃ w', Drain (Some f) w = (Err e, w') ∧ store w' = store w
  end.
Proof.
  intros Hnd. rewrite Drain_run. pose proof (batch_length w) as Hlen.
  pose proof (batch_sub w) as Hsub.
  pose proof (filter_ids_sub (λ e, negb (ae_Delivered e)) (auditOutbox (store w))) as Hids.
  destruct (f (trace w) (batch w)) as [[]|e].
  - case_bool_decide as Hb; [exists w; split_and!; [done|done|lia]|].
    destruct (mark_all_run (batch w) (log_exchange (XDeliver (batch w) (Ok tt)) w)) as
      (w' & Hr & Hi & Hu); [done| |].
    { etrans; [|by apply sublist_subseteq, Hids]. intros x (y & -> & Hy)%list_elem_of_fmap.
      apply list_elem_of_fmap_2. by eapply elem_of_submseteq. }
    exists w'. split_and!; [done|done|]. rewrite Hu.
    rewrite filter_none_of_length; [|by eapply sublist_NoDup, Hids|done].
    change (undelivered (log_exchange _ w)) with (undelivered w). lia.
  - intros Hne. rewrite bool_decide_false by lia. by eexists.
Qed.
End theorems.

(** ** Witnesses *)
Section witnesses.
#[local] Existing Instances ref_runtime ref_uuid ref_env.

Definition wal : uuid := uuid_of_Z 3.
Definition accept : list exchange → list AuditOutboxEvent → result unit := λ _ _, Ok tt.
Definition ping : Event := MkEvent "wallet.created" (Some wal) [("chain", AString "bitcoin")].
Definition one_row : World := (EmitterService_Emit ping initial_world).2.
Definition two_rows : World := (EmitterService_Emit ping one_row).2.
Definition drained : World := (Drain (Some accept) two_rows).2.

Lemma two_rows_reachable : rtc (audit_step accept) initial_world two_rows.
Proof.
  eapply rtc_l; [|eapply rtc_once]; apply step_emit; intros wid [= <-];
    vm_compute; reflexivity.
Qed.

Lemma audit_seq_increasing_witness :
  StronglySorted Z.lt (seqs wal (auditOutbox (store two_rows))) ∧
  Forall (λ n, 0 < n ≤ seq_counter wal two_rows) (seqs wal (auditOutbox (store two_rows))).
Proof. apply (audit_seq_increasing accept), two_rows_reachable. Defined.

(** Two emits draw 1 and 2, and record 2 before 1. *)
Definition numbered_twice : World :=
  (Emit_number ping (Emit_number ping initial_world).2).2.
Definition out_of_order : World :=
  (Emit_record ping 1 (Emit_record ping 2 numbered_twice).2).2.

Definition overlapped : World * list (Event * Z) := (out_of_order, []).

Lemma out_of_order_reachable : rtc emits_step (initial_world, []) overlapped.
Proof.
  assert (∀ w, seq_counter wal w < 2 ^ 63 - 1 → ∀ wid, ev_WalletID ping = Some wid →
    seq_counter wid w < 2 ^ 63 - 1) as Hb by (by intros w Hw wid [= <-]).
  eapply rtc_l; [apply (es_number initial_world ping 1); [by apply Hb|reflexivity]|].
  eapply rtc_l; [apply (es_number _ ping 2); [by apply Hb|reflexivity]|].
  eapply rtc_l; [apply (es_record _ ping 2 [(ping, 1)] [])|].
  apply rtc_once, (es_record _ ping 1 [] []).
Qed.

Lemma emits_out_of_order :
  rtc emits_step (initial_world, []) overlapped ∧
  seqs wal (auditOutbox (store overlapped.1)) = [2; 1].
Proof. split; [apply out_of_order_reachable|]. vm_compute. reflexivity. Qed.

Lemma out_of_order_room : seq_counter wal overlapped.1 < 2 ^ 63 - 1.
Proof. vm_compute. reflexivity. Qed.

Lemma audit_numbers_unique_witness :
  NoDup (numbers wal overlapped) ∧
  Forall (λ n, 0 < n ≤ seq_counter wal overlapped.1) (numbers wal overlapped) ∧
  ∃ n w', Emit_number ping overlapped.1 = (Ok n, w') ∧
    Forall (λ m, m < n) (numbers wal overlapped).
Proof.
  destruct (audit_numbers_unique overlapped wal out_of_order_reachable)
    as (Hnd & Hall & Hn).
  exact (conj Hnd (conj Hall (Hn out_of_order_room ping eq_refl))).
Defined.

Definition first_row : AuditOutboxEvent :=
  default (MkAudit uuid_Nil uuid_Nil None "" [] 0 false 0 0 None)
    (auditOutbox (store drained) !! 0%nat).

Lemma audit_delivered_accepted_witness :
  ∃ evs e', XDeliver evs (Ok tt) ∈ trace drained ∧ e' ∈ evs ∧ ae_ID e' = ae_ID first_row.
Proof.
  apply (audit_delivered_accepted accept).
  - eapply rtc_r; [apply two_rows_reachable|apply step_drain].
  - apply (list_elem_of_lookup_2 _ 0%nat). vm_compute. reflexivity.
  - vm_compute. reflexivity.
Defined.

Lemma Drain_progress_witness :
  match accept (trace two_rows) (batch two_rows) with
  | Ok _ => ∃ w', Drain (Some accept) two_rows = (Ok tt, w') ∧
      row_ids w' = row_ids two_rows ∧
      (length (undelivered w') = length (undelivered two_rows) - 100)%nat
  | Err e => length (undelivered two_rows) ≠ 0%nat →
      ∃ w', Drain (Some accept) two_rows = (Err e, w') ∧ store w' = store two_rows
  end.
Proof.
  apply (Drain_progress accept two_rows). apply (bool_decide_eq_true_1 _).
  vm_compute. reflexivity.
Defined.
End witnesses.
