(* ===== verification/KeyMapping.v ===== *)
(** * KeyMapping: [internal/keymapping/keymapping.go]

    Binding a wallet to an MPC key, rotating it with a cooling-off period, and
    resolving the key to sign with. *)
From stdpp Require Import base tactics list gmap strings sorting.
From Stdlib Require Import ZArith Lia.
From S2P Require Import Prelude.
From S2P Require Import GoLang.
From S2P Require Import Domain.
From S2P Require Import Config.
From S2P Require Import World.
From S2P Require Import MemStore.
From S2P Require Import MemStoreFacts.
From S2P Require Import MemStoreFrames.
From S2P Require Import AuditOutbox.
From S2P Require Import Reference.

#[local] Open Scope string_scope.
#[local] Open Scope list_scope.
#[local] Open Scope Z_scope.

Section keymapping.
Context `{GoRuntime} `{UUIDLib} `{Environment}.
Context (em : option Emitter) (cfg : Config).

Definition Bind (walletID : uuid) (keyID : string) : Go unit :=
  now ← time_Now;
  BindKeyMapping (MkKeyMapping walletID keyID now None RotationStateCurrent now).

Definition Rotate (walletID : uuid) (newKeyID : string) : Go unit :=
  RotateKeyMapping walletID newKeyID (cf_KeyCoolingPeriod cfg);;
  emit em (MkEvent "key.rotated" (Some walletID)
    [("new_key_id", AString newKeyID);
     ("cooling_period", ADuration (cf_KeyCoolingPeriod cfg))]).

Definition ResolveActive (walletID : uuid) : Go (list KeyMapping) :=
  r ← attempt (ResolveActiveKey walletID);
  match r with
  | Ok mappings => mret mappings
  | Err e =>
      if errors_Is e ErrNoRows
      then throw (ErrWrap ("no active key for wallet " +:+ uuid_String walletID) e)
      else throw e
  end.

Definition ResolveActiveKeyID (walletID : uuid) : Go string :=
  ms ← ResolveActive walletID;
  match ms with
  | [] => throw (ErrNew ("no active key for wallet " +:+ uuid_String walletID))
  | m :: _ => mret (km_KeyID m)
  end.

Definition KeyMapping_ExpireCooling : Go unit := ExpireCooling.

(** ** Resolution *)
Definition key_active (m : KeyMapping) : bool := is_current m || is_cooling m.

Definition active_keys (wid : uuid) (w : World) : list KeyMapping :=
  List.filter key_active (mappings_of (store w) wid).

Definition older (x y : KeyMapping) : bool :=
  time_Before (km_ActiveFrom x) (km_ActiveFrom y).

Lemma older_strict_weak : strict_weak older.
Proof. unfold older, time_Before. split; intros *; lia. Qed.

Lemma ResolveActiveKeyID_run wid w :
  ResolveActiveKeyID wid w =
  match sort_Slice older (active_keys wid w) with
  | [] => (Err (ErrWrap ("no active key for wallet " +:+ uuid_String wid)
            (ErrWrap "no active key mapping" ErrNoRows)), w)
  | m :: _ => (Ok (km_KeyID m), w)
  end.
Proof.
  unfold ResolveActiveKeyID, ResolveActive, ResolveActiveKey. go_run.
  change (List.filter (λ m, is_current m || is_cooling m) (mappings_of (store w) wid))
    with (active_keys wid w).
  destruct (active_keys wid w) as [|m l] eqn:Hl.
  - pose proof (Permutation_length (sort_Slice_perm older [])) as Hn.
    by destruct (sort_Slice older []).
  - pose proof (Permutation_length (sort_Slice_perm older (m :: l))) as Hn.
    destruct (sort_Slice older (m :: l)) eqn:Hs; [done|].
    change (λ x y : KeyMapping, time_Before (km_ActiveFrom x) (km_ActiveFrom y))
      with older. by rewrite Hs.
Qed.

(** The key resolved is that of an oldest active mapping. *)
Lemma ResolveActiveKeyID_oldest wid w m :
  m ∈ active_keys wid w →
  ∃ m', ResolveActiveKeyID wid w = (Ok (km_KeyID m'), w) ∧ m' ∈ active_keys wid w ∧
    Forall (λ x, km_ActiveFrom m' ≤ km_ActiveFrom x) (active_keys wid w).
Proof.
  intros Hm. rewrite ResolveActiveKeyID_run.
  pose proof (sort_Slice_perm older (active_keys wid w)) as Hp.
  pose proof (sort_Slice_sorted older (active_keys wid w) older_strict_weak) as Hs.
  destruct (sort_Slice older (active_keys wid w)) as [|m' l].
  - rewrite <-Hp in Hm. by apply elem_of_nil in Hm.
  - exists m'. split_and!; [done|rewrite <-Hp; apply list_elem_of_here|].
    rewrite <-Hp. inversion_clear Hs as [|?? _ Hall]. constructor; [done|].
    eapply Forall_impl; [exact Hall|]. unfold older, time_Before. simpl. intros x. lia.
Qed.

Lemma elem_of_active_keys wid w m :
  m ∈ active_keys wid w ↔ m ∈ mappings_of (store w) wid ∧ key_active m = true.
Proof.
  unfold active_keys. rewrite !list_elem_of_In, filter_In. done.
Qed.

(** ** A wallet with a current key *)
Definition has_current (wid : uuid) (w : World) : Prop :=
  ∃ m, m ∈ mappings_of (store w) wid ∧ is_current m = true.

Lemma has_current_resolves wid w :
  has_current wid w → ∃ k, ResolveActiveKeyID wid w = (Ok k, w).
Proof.
  intros (m & Hm & Hc). destruct (ResolveActiveKeyID_oldest wid w m) as (m' & Hr & _).
  - apply elem_of_active_keys. unfold key_active. by rewrite Hc.
  - eauto.
Qed.

Lemma filter_length_elem {A} (p : A → bool) l :
  length (List.filter p l) = 1%nat → ∃ x, x ∈ l ∧ p x = true.
Proof.
  destruct (List.filter p l) as [|x l'] eqn:Hf; [done|]. intros _. exists x.
  assert (In x (List.filter p l)) as Hin by (rewrite Hf; by left).
  apply filter_In in Hin as [Hin Hp]. by rewrite list_elem_of_In.
Qed.

Lemma Rotate_mappings wid wid' k w :
  EmitterLaws em →
  mappings_of (store (Rotate wid k w).2) wid' =
  if decide (wid' = wid)
  then rotate_mappings (clock (ticks w)) (cf_KeyCoolingPeriod cfg) wid k
    (mappings_of (store w) wid)
  else mappings_of (store w) wid'.
Proof.
  intros He. unfold Rotate, RotateKeyMapping. go_run.
  match goal with |- context [emit em ?ev ?w1] =>
    destruct (emit_run em ev w1) as (w2 & -> & (o & q & Hs) & _) end.
  simpl. rewrite Hs. unfold mappings_of. simpl. rewrite lookup_insert.
  destruct (decide (wid = wid')) as [->|Hne];
    [by rewrite decide_True|by rewrite decide_False].
Qed.

Lemma Rotate_Ok wid k w : EmitterLaws em → (Rotate wid k w).1 = Ok tt.
Proof.
  intros He. unfold Rotate, RotateKeyMapping. go_run.
  match goal with |- context [emit em ?ev ?w1] =>
    destruct (emit_run em ev w1) as (w2 & -> & _) end. done.
Qed.

Lemma BindKeyMapping_has_current wid m w :
  has_current wid w → has_current wid (BindKeyMapping m w).2.
Proof.
  intros (x & Hx & Hc). unfold BindKeyMapping, or_now. go_run.
  destruct (existsb _ _); simpl; [by exists x|]. exists x. split; [|done].
  destruct (time_IsZero _), (time_IsZero _); simpl; unfold mappings_of in *; simpl;
    (rewrite lookup_insert; case_decide as Hk; [subst|done]; simpl;
     apply elem_of_app; by left).
Qed.

Lemma ExpireCooling_mappings wid w :
  mappings_of (store (ExpireCooling w).2) wid =
  expire_mapping (clock (ticks w)) <$> mappings_of (store w) wid.
Proof.
  unfold ExpireCooling, mappings_of. go_run. simpl. rewrite lookup_fmap.
  by destruct (keyMappings (store w) !! wid).
Qed.

Lemma Bind_ok wid k : within keeps_ok (Bind wid k).
Proof.
  apply within_bind; [apply _|apply within_time_Now, _|]. intros now.
  apply BindKeyMapping_ok.
Qed.

Lemma Rotate_ok wid k : EmitterLaws em → within keeps_ok (Rotate wid k).
Proof.
  intros He. apply within_bind; [apply _|apply RotateKeyMapping_ok|].
  intros _. by apply emit_keeps_ok.
Qed.

(** Steps of the service on any wallet, and everything else. *)
Inductive key_step : World → World → Prop :=
  | step_bind w wid k : key_step w (Bind wid k w).2
  | step_rotate w wid k : key_step w (Rotate wid k w).2
  | step_expire w : key_step w (KeyMapping_ExpireCooling w).2
  | step_elsewhere w w' : keyMappings (store w') = keyMappings (store w) → key_step w w'.

Lemma key_step_has_current wid w w' :
  EmitterLaws em → key_step w w' → has_current wid w → has_current wid w'.
Proof.
  intros He Hst Hc. destruct Hst as [w wid' k|w wid' k|w|w w' Hk].
  - unfold Bind. go_run. apply BindKeyMapping_has_current. exact Hc.
  - unfold has_current. rewrite Rotate_mappings by done. case_decide; [subst|done].
    apply filter_length_elem, rotate_mappings_current.
  - destruct Hc as (m & Hm & Hc). unfold KeyMapping_ExpireCooling, has_current.
    rewrite ExpireCooling_mappings. exists (expire_mapping (clock (ticks w)) m).
    split; [by apply list_elem_of_fmap_2|by rewrite is_current_expire].
  - unfold has_current, mappings_of in *. by rewrite Hk.
Qed.
End keymapping.

(** ** Rotation *)
Section rotation.
Context `{GoRuntime} `{UUIDLib} `{Environment}.

Lemma revive_first_key now k l l' :
  revive_first now k l = Some l' →
  List.filter is_current l = [] →
  ∃ m, List.filter is_current l' = [m] ∧ km_KeyID m = k.
Proof.
  revert l'. induction l as [|x l IH]; simpl; intros l'; [done|].
  destruct (is_current x) eqn:Hx; [done|].
  case_bool_decide as Hk; [intros [= <-] Hl|intros (l2 & Hr & ->)%fmap_Some Hl].
  - eexists. simpl. by rewrite Hl.
  - simpl. rewrite Hx. by apply IH.
Qed.

Lemma revive_first_keeps now k l l' m :
  revive_first now k l = Some l' → m ∈ l → km_KeyID m ≠ k → m ∈ l'.
Proof.
  revert l'. induction l as [|x l IH]; simpl; intros l'; [done|].
  case_bool_decide as Hk; [intros [= <-]|intros (l2 & Hr & ->)%fmap_Some];
    rewrite !elem_of_cons; intros [->|Hm] Hne; eauto; done.
Qed.

Lemma revive_first_None now k l m :
  revive_first now k l = None → m ∈ l → km_KeyID m ≠ k.
Proof.
  induction l as [|x l IH]; simpl; [by intros _ ?%elem_of_nil|].
  case_bool_decide as Hk; [done|]. intros Hr%fmap_None.
  rewrite elem_of_cons. intros [->|Hm]; auto.
Qed.

Lemma rotate_mappings_key now cooling wid k l :
  ∃ m, List.filter is_current (rotate_mappings now cooling wid k l) = [m] ∧
    km_KeyID m = k.
Proof.
  assert (List.filter is_current (cool_mapping (time_Add now cooling) <$> l) = []) as Hc.
  { induction l as [|m l IH]; csimpl; [done|]. by rewrite is_current_cool. }
  unfold rotate_mappings. destruct (revive_first _ _ _) eqn:Hr.
  - by eapply revive_first_key.
  - rewrite List.filter_app, Hc. by eexists.
Qed.

Lemma km_KeyID_cool t m : km_KeyID (cool_mapping t m) = km_KeyID m.
Proof. unfold cool_mapping. by destruct (is_current m). Qed.

Lemma rotate_mappings_keeps now cooling wid k l m :
  m ∈ l → km_KeyID m ≠ k →
  cool_mapping (time_Add now cooling) m ∈ rotate_mappings now cooling wid k l.
Proof.
  intros Hm Hne. assert (cool_mapping (time_Add now cooling) m ∈
    (cool_mapping (time_Add now cooling) <$> l)) as Hc by by apply list_elem_of_fmap_2.
  unfold rotate_mappings. destruct (revive_first _ _ _) eqn:Hr.
  - eapply revive_first_keeps; [done|done|]. by rewrite km_KeyID_cool.
  - apply elem_of_app. by left.
Qed.

Lemma one_current_unique l x y :
  one_current l → x ∈ l → y ∈ l → is_current x = true → is_current y = true → x = y.
Proof.
  unfold one_current. intros Hl Hx Hy Hcx Hcy.
  assert (x ∈ List.filter is_current l ∧ y ∈ List.filter is_current l) as [Hfx Hfy]
    by (rewrite !list_elem_of_In, !filter_In, <-!list_elem_of_In; auto).
  destruct (List.filter is_current l) as [|a [|b l']]; simpl in Hl; [|..|lia].
  - by apply elem_of_nil in Hfx.
  - apply list_elem_of_singleton in Hfx, Hfy. congruence.
Qed.

Lemma expire_mapping_key now m : km_KeyID (expire_mapping now m) = km_KeyID m.
Proof. unfold expire_mapping. destruct (km_ActiveTo m); [|done]. by case_match. Qed.

(** A cooling mapping past its deadline is no longer active. *)
Lemma expire_mapping_elapsed now m t :
  is_cooling m = true → km_ActiveTo m = Some t → t < now →
  key_active (expire_mapping now m) = false.
Proof.
  intros Hc Ht Hlt. unfold expire_mapping, time_After. rewrite Ht, Hc.
  by rewrite (proj2 (Z.ltb_lt _ _)) by done.
Qed.
End rotation.

(** ** Theorems *)
Section theorems.
Context `{GoRuntime} `{UUIDLib} `{Environment}.
Context (em : option Emitter) `{!EmitterLaws em} (cfg : Config).

(** C30. Once a wallet is bound to a key, a signing key can be resolved for it
    ever after, through any sequence of bindings, rotations and expiries of
    any wallets and whatever else the service does to other tables. *)
Theorem key_always_resolvable wid k w w1 w2 :
  Bind wid k w = (Ok tt, w1) → rtc (key_step em cfg) w1 w2 →
  ∃ k', ResolveActiveKeyID wid w2 = (Ok k', w2).
Proof.
  intros Hb Hst. apply has_current_resolves.
  eapply (rtc_ind_l (λ x, has_current wid x → has_current wid w2)); [..|exact Hst|].
  - done.
  - eauto using key_step_has_current.
  - revert Hb. unfold Bind, BindKeyMapping, or_now. go_run.
    destruct (existsb _ _); [done|]. unfold has_current, mappings_of.
    destruct (time_IsZero _); simpl; intros [= <-]; simpl; rewrite lookup_insert_eq; simpl;
      (eexists; split; [apply elem_of_app; right; apply list_elem_of_here|done]).
Qed.

(** A rotation leaves the wallet with exactly one current mapping, of the
    new key; every mapping of another key is kept, the one that was current
    cooling until the configured period has elapsed; other wallets are not
    affected. *)
Theorem Rotate_correct wid k w :
  ∃ w', Rotate em cfg wid k w = (Ok tt, w') ∧
    (∃ m, List.filter is_current (mappings_of (store w') wid) = [m] ∧ km_KeyID m = k) ∧
    (∀ m, m ∈ mappings_of (store w) wid → km_KeyID m ≠ k →
      cool_mapping (clock (ticks w) + cf_KeyCoolingPeriod cfg) m
        ∈ mappings_of (store w') wid) ∧
    ∀ wid', wid' ≠ wid → mappings_of (store w') wid' = mappings_of (store w) wid'.
Proof.
  pose proof (λ wid', Rotate_mappings em cfg wid wid' k w _) as Hm.
  pose proof (Rotate_Ok em cfg wid k w _) as Hr.
  destruct (Rotate em cfg wid k w) as [r w']. simpl in *. subst r. exists w'.
  split_and!; [done|..].
  - rewrite Hm, decide_True by done. apply rotate_mappings_key.
  - intros m Hin Hne. rewrite Hm, decide_True by done.
    by apply rotate_mappings_keeps.
  - intros wid' Hne. by rewrite Hm, decide_False.
Qed.

(** During the cooling-off period the wallet goes on signing with the old
    key: right after a rotation of a wallet with one, older, current mapping
    the key resolved is still the old one. *)
Theorem Rotate_keeps_old_key wid k w m :
  mappings_of (store w) wid = [m] → is_current m = true → km_KeyID m ≠ k →
  km_ActiveFrom m < clock (ticks w) →
  (ResolveActiveKeyID wid (Rotate em cfg wid k w).2).1 = Ok (km_KeyID m).
Proof.
  intros Hl Hc Hne Hlt. set (w' := (Rotate em cfg wid k w).2).
  assert (active_keys wid w' =
    [cool_mapping (clock (ticks w) + cf_KeyCoolingPeriod cfg) m;
     MkKeyMapping wid k (clock (ticks w)) None RotationStateCurrent (clock (ticks w))]) as Ha.
  { unfold active_keys, w'. rewrite Rotate_mappings, decide_True, Hl by done.
    unfold rotate_mappings, cool_mapping. simpl. rewrite Hc. simpl.
    by rewrite bool_decide_false. }
  destruct (ResolveActiveKeyID_oldest wid w'
    (cool_mapping (clock (ticks w) + cf_KeyCoolingPeriod cfg) m)) as (m' & -> & Hm' & Hold);
    [rewrite Ha; apply list_elem_of_here|].
  rewrite Ha in Hm', Hold. simpl.
  apply elem_of_cons in Hm' as [->|Hm'%list_elem_of_singleton]; [by rewrite km_KeyID_cool|].
  subst m'. apply Forall_cons in Hold as [Hold _]. unfold cool_mapping in Hold.
  rewrite Hc in Hold. simpl in Hold. lia.
Qed.

(** A rotation completes: once the clock has passed the deadline of every
    cooling mapping of a wallet, expiring them makes the current key the one
    that is resolved. *)
Theorem ExpireCooling_switches_key wid w m :
  keyMappings_ok (keyMappings (store w)) →
  m ∈ mappings_of (store w) wid → is_current m = true →
  Forall (λ x, is_cooling x = true → ∃ t, km_ActiveTo x = Some t ∧ t < clock (ticks w))
    (mappings_of (store w) wid) →
  (ResolveActiveKeyID wid (KeyMapping_ExpireCooling w).2).1 = Ok (km_KeyID m).
Proof.
  intros Hok Hm Hc Hdead. set (w' := (KeyMapping_ExpireCooling w).2).
  assert (mappings_of (store w') wid =
    expire_mapping (clock (ticks w)) <$> mappings_of (store w) wid) as Hl
    by apply ExpireCooling_mappings.
  destruct (ResolveActiveKeyID_oldest wid w' (expire_mapping (clock (ticks w)) m)) as
    (m' & -> & Hm' & _).
  { apply elem_of_active_keys. rewrite Hl. split; [by apply list_elem_of_fmap_2|].
    unfold key_active. by rewrite is_current_expire, Hc. }
  apply elem_of_active_keys in Hm' as [Hin Hact]. rewrite Hl in Hin.
  apply list_elem_of_fmap in Hin as (x & -> & Hx). simpl.
  rewrite expire_mapping_key. do 2 f_equal.
  rewrite Forall_forall in Hdead. specialize (Hdead x Hx).
  destruct (mappings_of_ok (store w) wid Hok) as [_ Hone].
  destruct (is_current x) eqn:Hcx; [by eapply one_current_unique|].
  destruct (is_cooling x) eqn:Hco.
  - destruct (Hdead eq_refl) as (t & Ht & Hlt).
    by rewrite (expire_mapping_elapsed _ _ t) in Hact.
  - revert Hact. unfold key_active. rewrite is_current_expire, Hcx. simpl.
    unfold expire_mapping. rewrite Hco. simpl. destruct (km_ActiveTo x); by rewrite Hco.
Qed.
End theorems.

(** ** Witnesses *)
Section witnesses.
#[local] Existing Instances ref_runtime ref_uuid ref_env.

Definition vault : uuid := uuid_of_Z 5.
Definition bound : World := (Bind vault "k1" initial_world).2.
Definition one_second : Config :=
  MkConfig "" "" "" "" 7 12 6 "finalized" "" "" "" "" SpecFloat.S754_nan 0 "" 0.
Definition rotated : World := (Rotate None one_second vault "k2" bound).2.
Definition k1_mapping : KeyMapping :=
  MkKeyMapping vault "k1" 1000000000 None RotationStateCurrent 1000000000.
Definition k2_mapping : KeyMapping :=
  MkKeyMapping vault "k2" 2000000000 None RotationStateCurrent 2000000000.

Lemma key_always_resolvable_witness :
  ∃ k', ResolveActiveKeyID vault rotated = (Ok k', rotated).
Proof.
  apply (key_always_resolvable None one_second vault "k1" initial_world bound rotated).
  - apply run_eq. vm_compute. reflexivity.
  - apply rtc_once, step_rotate.
Defined.

Lemma Rotate_correct_witness :
  ∃ w', Rotate (Some NoopEmitter) one_second vault "k2" bound = (Ok tt, w') ∧
    (∃ m, List.filter is_current (mappings_of (store w') vault) = [m] ∧ km_KeyID m = "k2") ∧
    (∀ m, m ∈ mappings_of (store bound) vault → km_KeyID m ≠ "k2" →
      cool_mapping (clock (ticks bound) + cf_KeyCoolingPeriod one_second) m
        ∈ mappings_of (store w') vault) ∧
    ∀ wid', wid' ≠ vault → mappings_of (store w') wid' = mappings_of (store bound) wid'.
Proof. apply (Rotate_correct (Some NoopEmitter) one_second vault "k2" bound). Defined.

Lemma Rotate_keeps_old_key_witness :
  (ResolveActiveKeyID vault (Rotate None one_second vault "k2" bound).2).1
    = Ok (km_KeyID k1_mapping).
Proof.
  apply (Rotate_keeps_old_key None one_second vault "k2" bound k1_mapping).
  - vm_compute. reflexivity.
  - vm_compute. reflexivity.
  - discriminate.
  - vm_compute. reflexivity.
Defined.

Lemma ExpireCooling_switches_key_witness :
  (ResolveActiveKeyID vault (KeyMapping_ExpireCooling rotated).2).1
    = Ok (km_KeyID k2_mapping).
Proof.
  apply (ExpireCooling_switches_key vault rotated k2_mapping).
  - apply ok_keyMappings, (Rotate_ok None one_second vault "k2" _ bound),
      (Bind_ok vault "k1" initial_world), New_ok.
  - apply (list_elem_of_lookup_2 _ 1%nat). vm_compute. reflexivity.
  - vm_compute. reflexivity.
  - assert (mappings_of (store rotated) vault =
      [MkKeyMapping vault "k1" 1000000000 (Some 2000000000) RotationStateCooling 1000000000;
       k2_mapping]) as -> by (vm_compute; reflexivity).
    repeat constructor; intros Hx; [|discriminate Hx].
    eexists. split; [reflexivity|vm_compute; reflexivity].
Defined.
End witnesses.
