(* ===== verification/Balance.v ===== *)
(** * Balance: [internal/balance/balance.go]

    Confirmed, pending and locked balances per wallet and asset, fed by
    confirmation and reorg events of the Blockchain Gateway. *)
From stdpp Require Import base tactics list gmap strings.
From Stdlib Require Import ZArith QArith Qminmax Lqa Lia.
From S2P Require Import Prelude.
From S2P Require Import GoLang.
From S2P Require Import Domain.
From S2P Require Import Config.
From S2P Require Import World.
From S2P Require Import Decimal.
From S2P Require Import MemStore.
From S2P Require Import MemStoreFacts.
From S2P Require Import MemStoreFrames.
From S2P Require Import AuditOutbox.
From S2P Require Import Reference.

#[local] Open Scope string_scope.
#[local] Open Scope list_scope.
#[local] Open Scope Z_scope.

Record ConfirmationEvent : Type := MkConfirmation {
  ce_WalletID : uuid;
  ce_Asset : string;
  ce_Amount : string;
  ce_Confirmations : Z;
  ce_BlockHeight : Z;
  ce_EventID : string;
  ce_IsFinalized : bool;
  ce_Chain : string
}.

Record ReorgEvent : Type := MkReorg {
  re_WalletID : uuid;
  re_Asset : string;
  re_BlockHeight : Z;
  re_EventID : string;
  re_Outpoints : list string
}.

Section balance.
Context `{GoRuntime} `{UUIDLib} `{Environment} `{DecimalLib}.
(** The fields of the service. *)
Context (em : option Emitter) (cfg : Config).
Context (UTXORestore : option (list string → Go unit)).
Context (OnConfirmedDecrease : option (uuid → string → Go unit)).

Definition threshold (chain : string) : Z :=
  if chain =s ChainBitcoin then cf_ConfirmationsBTC cfg
  else if chain =s ChainSolana then 1
  else if IsEVM chain then cf_ConfirmationsEVM cfg
  else cf_ConfirmationsEVM cfg.

Definition isConfirmed (ev : ConfirmationEvent) : bool :=
  if ce_Chain ev =s ChainSolana then ce_IsFinalized ev
  else threshold (ce_Chain ev) <=? ce_Confirmations ev.

Definition max64 (a b : Z) : Z := if b <? a then a else b.

(** [&storage.Balance{WalletID: ..., Asset: ...}]. *)
Definition zero_balance (wid : uuid) (asset : string) : Balance :=
  MkBalance wid asset "" "" "" 0 0.

(** The read of [ApplyConfirmationEvent]: a missing row is an empty one. *)
Definition get_or_zero (wid : uuid) (asset : string) : Go Balance :=
  r ← attempt (GetBalance wid asset);
  match r with
  | Ok b => mret b
  | Err e => if errors_Is e ErrNoRows then mret (zero_balance wid asset) else throw e
  end.

Definition confirmation_tx (ev : ConfirmationEvent) : Go unit :=
  cur ← get_or_zero (ce_WalletID ev) (ce_Asset ev);
  let confirmed := parseDec (b_Confirmed cur) in
  let pending := parseDec (b_Pending cur) in
  let amount := parseDec (ce_Amount ev) in
  let confirmed := if isConfirmed ev then dec_Add confirmed amount else confirmed in
  let pending := if isConfirmed ev then pending else dec_Add pending amount in
  now ← time_Now;
  UpsertBalance (MkBalance (ce_WalletID ev) (ce_Asset ev) (formatDec confirmed)
    (formatDec pending) (b_Locked cur)
    (max64 (b_LastBlockSeen cur) (ce_BlockHeight ev)) now);;
  emit em (MkEvent "wallet.balance.updated" (Some (ce_WalletID ev))
    [("asset", AString (ce_Asset ev)); ("confirmed", AString (formatDec confirmed));
     ("pending", AString (formatDec pending));
     ("block_height", AInt (ce_BlockHeight ev));
     ("confirmations", AInt (ce_Confirmations ev))]).

(** [if s.OnConfirmedDecrease != nil && ... { s.OnConfirmedDecrease(...) }]. *)
Definition notify_decrease (ev : ConfirmationEvent) : Go unit :=
  match OnConfirmedDecrease with
  | None => mret tt
  | Some f =>
      when (isConfirmed ev && dec_IsNegative (parseDec (ce_Amount ev)))
        (ignore (f (ce_WalletID ev) (ce_Asset ev)))
  end.

Definition ApplyConfirmationEvent (ev : ConfirmationEvent) : Go unit :=
  beID ← uuid_New;
  r ← attempt (RecordBalanceEvent (MkBalanceEvent beID (ce_WalletID ev) (ce_Asset ev)
    (ce_BlockHeight ev) (ce_EventID ev)));
  match r with
  | Err e => if errors_Is e ErrDuplicateEvent then mret tt else throw e
  | Ok _ =>
      InTx (confirmation_tx ev);;
      notify_decrease ev
  end.

Definition reorg_tx (ev : ReorgEvent) : Go unit :=
  r ← attempt (GetBalance (re_WalletID ev) (re_Asset ev));
  match r with
  | Err e => if errors_Is e ErrNoRows then mret tt else throw e
  | Ok cur =>
      let pending := dec_Add (parseDec (b_Pending cur)) (parseDec (b_Confirmed cur)) in
      let confirmed := dec_Zero in
      now ← time_Now;
      UpsertBalance (MkBalance (re_WalletID ev) (re_Asset ev) (formatDec confirmed)
        (formatDec pending) (b_Locked cur) (b_LastBlockSeen cur) now)
  end.

Definition ApplyReorgEvent (ev : ReorgEvent) : Go unit :=
  InTx (reorg_tx ev);;
  match UTXORestore with
  | Some f =>
      when (negb (bool_decide (re_Outpoints ev = [])))
        (wrap_err "restore utxos" (f (re_Outpoints ev)))
  | None => mret tt
  end;;
  emit em (MkEvent "wallet.balance.updated" (Some (re_WalletID ev))
    [("asset", AString (re_Asset ev)); ("reorg", ABool true);
     ("block_height", AInt (re_BlockHeight ev))]).

Definition GetBalances (walletID : uuid) : Go (list Balance) := ListBalances walletID.

(** The body shared by [AddLocked] and [ReleaseLocked]. *)
Definition update_locked (f : decimal → decimal) (walletID : uuid) (asset : string) :
    Go unit :=
  cur ← GetBalance walletID asset;
  let locked := f (parseDec (b_Locked cur)) in
  now ← time_Now;
  UpsertBalance (MkBalance walletID asset (b_Confirmed cur) (b_Pending cur)
    (formatDec locked) (b_LastBlockSeen cur) now).

Definition AddLocked (walletID : uuid) (asset amount : string) : Go unit :=
  InTx (update_locked (λ locked, dec_Add locked (parseDec amount)) walletID asset).

Definition ReleaseLocked (walletID : uuid) (asset amount : string) : Go unit :=
  InTx (update_locked (λ locked,
    let locked := dec_Sub locked (parseDec amount) in
    if dec_IsNegative locked then dec_Zero else locked) walletID asset).

(** ** The balance of a wallet in an asset, as exact amounts *)
Definition row (wid : uuid) (asset : string) (w : World) : Balance :=
  default (zero_balance wid asset) (balances (store w) !! balanceKey wid asset).
Definition confirmed_of wid asset w : Q := money (b_Confirmed (row wid asset w)).
Definition pending_of wid asset w : Q := money (b_Pending (row wid asset w)).
Definition locked_of wid asset w : Q := money (b_Locked (row wid asset w)).

Definition event_key (ev : ConfirmationEvent) : string :=
  balanceEventKey (MkBalanceEvent uuid_Nil (ce_WalletID ev) (ce_Asset ev)
    (ce_BlockHeight ev) (ce_EventID ev)).

Definition seen (ev : ConfirmationEvent) (w : World) : bool :=
  default false (balanceEvents (store w) !! event_key ev).

(** The two tables of this component. *)
Definition same_balances (w w' : World) : Prop :=
  balances (store w') = balances (store w) ∧
  balanceEvents (store w') = balanceEvents (store w).

#[export] Instance same_balances_store_rel : StoreRel same_balances.
Proof.
  split; [split|]; unfold same_balances.
  - done.
  - intros ??? [] []. split; congruence.
  - by intros ?? ->.
Qed.

(** A transaction whose body succeeds is its body. *)
Lemma InTx_Ok (fn : Go unit) w w' :
  fn (set_depth (S (depth w)) w) = (Ok tt, w') →
  InTx fn w = (Ok tt, set_depth (depth w) w').
Proof. intros Hf. unfold InTx. go_run. by rewrite snapshot_run, Hf. Qed.

Lemma same_balances_row wid asset w w' :
  same_balances w w' → row wid asset w' = row wid asset w.
Proof. unfold row. by intros [-> _]. Qed.

Lemma GetBalance_run wid asset w :
  GetBalance wid asset w =
  (match balances (store w) !! balanceKey wid asset with
   | Some b => Ok b
   | None => Err (ErrWrap "balance not found" ErrNoRows)
   end, w).
Proof. unfold GetBalance. go_run. by destruct (balances (store w) !! _). Qed.

Lemma get_or_zero_run wid asset w :
  get_or_zero wid asset w = (Ok (row wid asset w), w).
Proof.
  unfold get_or_zero, row. go_run. rewrite GetBalance_run.
  by destruct (balances (store w) !! _).
Qed.

(** [UpsertBalance] writes one row. *)
Lemma UpsertBalance_row b w :
  ∃ t w', UpsertBalance b w = (Ok tt, w') ∧
    balances (store w') = <[balanceKey (b_WalletID b) (b_Asset b) :=
      MkBalance (b_WalletID b) (b_Asset b) (b_Confirmed b) (b_Pending b) (b_Locked b)
        (b_LastBlockSeen b) t]> (balances (store w)) ∧
    balanceEvents (store w') = balanceEvents (store w).
Proof. unfold UpsertBalance. go_run. by eexists _, _. Qed.

(** The rows of other wallets and assets. *)
Definition other_balances (wid : uuid) (asset : string) (w w' : World) : Prop :=
  ∀ wid' asset', (wid', asset') ≠ (wid, asset) → row wid' asset' w' = row wid' asset' w.

Lemma row_insert wid asset b w w' :
  balances (store w') = <[balanceKey wid asset := b]> (balances (store w)) →
  row wid asset w' = b ∧ other_balances wid asset w w'.
Proof.
  unfold other_balances, row. intros Hb. rewrite Hb, lookup_insert_eq. split; [done|].
  intros wid' asset' Hne. rewrite lookup_insert_ne; [done|].
  intros [-> ->]%balanceKey_inj. done.
Qed.
End balance.

(** ** What each operation does to the amounts *)
Section effects.
Context `{GoRuntime} `{UUIDLib} `{Environment} `{DecimalLib}.
Context (em : option Emitter) `{!EmitterLaws em} (cfg : Config).

Definition credit (ev : ConfirmationEvent) : Q := money (ce_Amount ev).

Lemma emit_same_balances ev : within same_balances (emit em ev).
Proof. apply within_emit; [apply _..|done|done]. Qed.

Lemma confirmation_tx_effect ev w :
  let wid := ce_WalletID ev in
  let asset := ce_Asset ev in
  ∃ w', confirmation_tx em cfg ev w = (Ok tt, w') ∧
    (confirmed_of wid asset w' == confirmed_of wid asset w +
      (if isConfirmed cfg ev then credit ev else 0))%Q ∧
    (pending_of wid asset w' == pending_of wid asset w +
      (if isConfirmed cfg ev then 0 else credit ev))%Q ∧
    b_Locked (row wid asset w') = b_Locked (row wid asset w) ∧
    b_LastBlockSeen (row wid asset w') =
      Z.max (b_LastBlockSeen (row wid asset w)) (ce_BlockHeight ev) ∧
    other_balances wid asset w w' ∧
    balanceEvents (store w') = balanceEvents (store w).
Proof.
  cbv zeta. unfold confirmation_tx. go_run. rewrite get_or_zero_run.
  match goal with |- context [UpsertBalance ?b ?w1] =>
    destruct (UpsertBalance_row b w1) as (t & w2 & -> & Hb & He) end.
  match goal with |- context [emit em ?e ?w1] =>
    destruct (emit_run em e w1) as (w3 & Hem & _);
    pose proof (emit_same_balances e w1) as Hs end.
  rewrite Hem in *. simpl in *. exists w3. split; [done|].
  apply row_insert in Hb as [Hrow Hother]. destruct Hs as [Hs1 Hs2].
  assert (same_balances w2 w3) as Hs by done.
  unfold confirmed_of, pending_of. rewrite (same_balances_row _ _ _ _ Hs), Hrow.
  simpl. rewrite !money_format. unfold credit, money. split_and!.
  - destruct (isConfirmed cfg ev); [apply dec_Add_value|lra].
  - destruct (isConfirmed cfg ev); [lra|apply dec_Add_value].
  - done.
  - unfold max64. destruct (Z.ltb_spec (ce_BlockHeight ev)
      (b_LastBlockSeen (row (ce_WalletID ev) (ce_Asset ev) w))); lia.
  - intros wid' asset' Hne. rewrite (same_balances_row wid' asset' _ _ Hs).
    by rewrite Hother.
  - congruence.
Qed.

Context (decrease : option (uuid → string → Go unit)).
Hypothesis decrease_frame : ∀ f wid asset,
  decrease = Some f → within same_balances (f wid asset).

Lemma notify_decrease_frame ev w :
  ∃ w', notify_decrease cfg decrease ev w = (Ok tt, w') ∧ same_balances w w'.
Proof.
  unfold notify_decrease. destruct decrease as [f|] eqn:Hd; [|by exists w].
  destruct (_ && _); simpl; [|by exists w].
  pose proof (decrease_frame f (ce_WalletID ev) (ce_Asset ev) eq_refl w) as Hf.
  unfold ignore. destruct (f _ _ w) as [r w']. by exists w'.
Qed.

Lemma RecordBalanceEvent_run ev id w :
  RecordBalanceEvent (MkBalanceEvent id (ce_WalletID ev) (ce_Asset ev)
    (ce_BlockHeight ev) (ce_EventID ev)) w =
  if seen ev w then (Err ErrDuplicateEvent, w)
  else (Ok tt, set_store (set_balanceEvents (store w)
    (<[event_key ev := true]> (balanceEvents (store w)))) w).
Proof.
  unfold RecordBalanceEvent, seen. go_run.
  change (balanceEventKey (MkBalanceEvent id (ce_WalletID ev) (ce_Asset ev)
    (ce_BlockHeight ev) (ce_EventID ev))) with (event_key ev).
  by destruct (default false _).
Qed.

(** An event seen before changes neither table. *)
Lemma ApplyConfirmationEvent_seen ev w :
  seen ev w = true →
  ∃ w', ApplyConfirmationEvent em cfg decrease ev w = (Ok tt, w') ∧ store w' = store w.
Proof.
  intros Hs. unfold ApplyConfirmationEvent. go_run. rewrite RecordBalanceEvent_run.
  unfold seen in *. simpl. rewrite Hs. simpl. by eexists.
Qed.

Lemma ApplyConfirmationEvent_fresh ev w :
  let wid := ce_WalletID ev in
  let asset := ce_Asset ev in
  seen ev w = false →
  ∃ w', ApplyConfirmationEvent em cfg decrease ev w = (Ok tt, w') ∧
    (confirmed_of wid asset w' == confirmed_of wid asset w +
      (if isConfirmed cfg ev then credit ev else 0))%Q ∧
    (pending_of wid asset w' == pending_of wid asset w +
      (if isConfirmed cfg ev then 0 else credit ev))%Q ∧
    b_Locked (row wid asset w') = b_Locked (row wid asset w) ∧
    b_LastBlockSeen (row wid asset w') =
      Z.max (b_LastBlockSeen (row wid asset w)) (ce_BlockHeight ev) ∧
    other_balances wid asset w w' ∧
    balanceEvents (store w') = <[event_key ev := true]> (balanceEvents (store w)).
Proof.
  cbv zeta. intros Hs. unfold ApplyConfirmationEvent. go_run.
  rewrite RecordBalanceEvent_run. unfold seen in *. simpl. rewrite Hs.
  match goal with |- context [InTx _ ?w1] => set (w1' := w1) end.
  destruct (confirmation_tx_effect ev (set_depth (S (depth w1')) w1')) as
    (w2 & Hr & Hc & Hp & Hl & Hb & Ho & He).
  rewrite (InTx_Ok _ _ _ Hr).
  destruct (notify_decrease_frame ev (set_depth (depth w1') w2)) as (w3 & -> & Hs3).
  exists w3. split; [done|]. unfold confirmed_of, pending_of in *.
  rewrite !(same_balances_row _ _ _ _ Hs3). split_and!; try done.
  - intros wid' asset' Hne. rewrite (same_balances_row _ _ _ _ Hs3). by apply (Ho wid' asset').
  - destruct Hs3 as [_ ->]. exact He.
Qed.
End effects.

(** ** Reorgs and locked amounts *)
Section demote.
Context `{GoRuntime} `{UUIDLib} `{Environment} `{DecimalLib}.
Context (em : option Emitter) `{!EmitterLaws em}.

Definition has_row (wid : uuid) (asset : string) (w : World) : Prop :=
  is_Some (balances (store w) !! balanceKey wid asset).

Lemma row_lookup wid asset w b :
  balances (store w) !! balanceKey wid asset = Some b → row wid asset w = b.
Proof. unfold row. by intros ->. Qed.

Lemma reorg_tx_effect ev w :
  let wid := re_WalletID ev in
  let asset := re_Asset ev in
  has_row wid asset w →
  ∃ w', reorg_tx ev w = (Ok tt, w') ∧
    (confirmed_of wid asset w' == 0)%Q ∧
    (pending_of wid asset w' == pending_of wid asset w + confirmed_of wid asset w)%Q ∧
    b_Locked (row wid asset w') = b_Locked (row wid asset w) ∧
    other_balances wid asset w w'.
Proof.
  cbv zeta. intros [b Hb]. unfold reorg_tx. go_run. rewrite GetBalance_run, Hb.
  match goal with |- context [UpsertBalance ?b ?w1] =>
    destruct (UpsertBalance_row b w1) as (t & w2 & -> & Hins & _) end.
  exists w2. split; [done|]. apply row_insert in Hins as [Hrow Hother].
  unfold confirmed_of, pending_of in *. simpl in Hrow. rewrite Hrow, (row_lookup _ _ _ _ Hb).
  simpl. rewrite !money_format. split_and!.
  - apply dec_Zero_value.
  - apply dec_Add_value.
  - done.
  - exact Hother.
Qed.

Lemma update_locked_effect f wid asset w :
  has_row wid asset w →
  ∃ w', InTx (update_locked f wid asset) w = (Ok tt, w') ∧
    (locked_of wid asset w' == dec_value (f (parseDec (b_Locked (row wid asset w)))))%Q ∧
    b_Confirmed (row wid asset w') = b_Confirmed (row wid asset w) ∧
    b_Pending (row wid asset w') = b_Pending (row wid asset w) ∧
    has_row wid asset w' ∧ other_balances wid asset w w'.
Proof.
  intros [b Hb].
  assert (∃ t w1, update_locked f wid asset (set_depth (S (depth w)) w) = (Ok tt, w1) ∧
    balances (store w1) = <[balanceKey wid asset := MkBalance wid asset (b_Confirmed b)
      (b_Pending b) (formatDec (f (parseDec (b_Locked b)))) (b_LastBlockSeen b) t]>
      (balances (store w))) as (t & w1 & Hr & Hins).
  { unfold update_locked. go_run. rewrite GetBalance_run. simpl. rewrite Hb.
    match goal with |- context [UpsertBalance ?b ?w1] =>
      destruct (UpsertBalance_row b w1) as (t & w2 & -> & Hins & _) end.
    by exists t, w2. }
  rewrite (InTx_Ok _ _ _ Hr). eexists. split; [done|].
  assert (has_row wid asset (set_depth (depth w) w1)) as Hrow.
  { unfold has_row. simpl. rewrite Hins, lookup_insert_eq. by eexists. }
  apply (row_insert wid asset _ w (set_depth (depth w) w1)) in Hins as [Hr' Hother].
  unfold locked_of. rewrite Hr', (row_lookup _ _ _ _ Hb). simpl.
  by rewrite money_format.
Qed.
End demote.

(** ** Theorems *)
Section theorems.
Context `{GoRuntime} `{UUIDLib} `{Environment} `{DecimalLib}.
Context (em : option Emitter) `{!EmitterLaws em} (cfg : Config).
Context (decrease : option (uuid → string → Go unit)).

Definition process (evs : list ConfirmationEvent) (w : World) : World :=
  foldl (λ w ev, (ApplyConfirmationEvent em cfg decrease ev w).2) w evs.

(** The amounts of the events that [p] selects, each key counted once, the
    keys in [keys] not at all. *)
Fixpoint sum_new (p : ConfirmationEvent → bool) (keys : gset string)
    (evs : list ConfirmationEvent) : Q :=
  match evs with
  | [] => 0
  | ev :: evs =>
      (if bool_decide (event_key ev ∉ keys) && p ev then credit ev else 0) +
      sum_new p ({[event_key ev]} ∪ keys) evs
  end%Q.

Definition for_row (wid : uuid) (asset : string) (ev : ConfirmationEvent) : bool :=
  bool_decide (ce_WalletID ev = wid) && (ce_Asset ev =s asset).
Definition confirms wid asset ev : bool := for_row wid asset ev && isConfirmed cfg ev.
Definition awaits wid asset ev : bool := for_row wid asset ev && negb (isConfirmed cfg ev).

Definition keys_seen (keys : gset string) (w : World) : Prop :=
  ∀ k, default false (balanceEvents (store w) !! k) = bool_decide (k ∈ keys).

Definition decrease_ok : Prop := ∀ f wid asset,
  decrease = Some f → within same_balances (f wid asset).

(** One event, seen from any row. *)
Lemma ApplyConfirmationEvent_row wid asset ev keys w :
  decrease_ok → keys_seen keys w →
  let w' := (ApplyConfirmationEvent em cfg decrease ev w).2 in
  let new := bool_decide (event_key ev ∉ keys) in
  keys_seen ({[event_key ev]} ∪ keys) w' ∧
  (confirmed_of wid asset w' == confirmed_of wid asset w +
    (if new && confirms wid asset ev then credit ev else 0))%Q ∧
  (pending_of wid asset w' == pending_of wid asset w +
    (if new && awaits wid asset ev then credit ev else 0))%Q.
Proof.
  intros Hdec Hk. cbv zeta. pose proof (Hk (event_key ev)) as Hev.
  fold (seen ev w) in Hev. case_bool_decide as Hin; rewrite ?bool_decide_false,
    ?bool_decide_true by (done || by intros []).
  - destruct (ApplyConfirmationEvent_seen em cfg decrease ev w Hev) as (w' & -> & Hs).
    unfold confirmed_of, pending_of, row, keys_seen in *. simpl. rewrite Hs.
    split_and!; [|lra|lra]. intros k. rewrite Hk. apply bool_decide_ext.
    rewrite elem_of_union, elem_of_singleton. naive_solver.
  - destruct (ApplyConfirmationEvent_fresh em cfg decrease Hdec ev w Hev) as
      (w' & -> & Hc & Hp & _ & _ & Ho & He). simpl. split.
    { intros k. rewrite He. destruct (decide (k = event_key ev)) as [->|Hne].
      - rewrite lookup_insert_eq, bool_decide_true by set_solver. done.
      - rewrite lookup_insert_ne, Hk by done. apply bool_decide_ext.
    rewrite elem_of_union, elem_of_singleton. naive_solver. }
    unfold confirms, awaits, for_row.
    destruct (decide ((wid, asset) = (ce_WalletID ev, ce_Asset ev))) as [Heq|Hne].
    + injection Heq as -> ->. rewrite !bool_decide_true by done. simpl.
      destruct (isConfirmed cfg ev); simpl; split; lra.
    + assert (bool_decide (ce_WalletID ev = wid) && bool_decide (ce_Asset ev = asset)
        = false) as ->.
      { apply not_true_iff_false. rewrite andb_true_iff, !bool_decide_eq_true. naive_solver. }
      unfold confirmed_of, pending_of. rewrite (Ho _ _ Hne). simpl. split; lra.
Qed.

Lemma process_row wid asset evs keys w :
  decrease_ok → keys_seen keys w →
  (confirmed_of wid asset (process evs w) ==
    confirmed_of wid asset w + sum_new (confirms wid asset) keys evs)%Q ∧
  (pending_of wid asset (process evs w) ==
    pending_of wid asset w + sum_new (awaits wid asset) keys evs)%Q.
Proof.
  intros Hdec. revert keys w. induction evs as [|ev evs IH]; intros keys w Hk; simpl.
  - split; lra.
  - destruct (ApplyConfirmationEvent_row wid asset ev keys w Hdec Hk) as (Hk' & Hc & Hp).
    destruct (IH _ _ Hk') as [Hc' Hp']. split.
    + rewrite Hc', Hc. lra.
    + rewrite Hp', Hp. lra.
Qed.

(** A report of a deposit: the same key, row and amount, on the same side of the
    confirmation threshold. *)
Definition reports (d ev : ConfirmationEvent) : Prop :=
  event_key ev = event_key d ∧ ce_WalletID ev = ce_WalletID d ∧ ce_Asset ev = ce_Asset d ∧
  ce_Amount ev = ce_Amount d ∧ isConfirmed cfg ev = isConfirmed cfg d.

(** The amounts of the deposits that [p] selects. *)
Definition total (p : ConfirmationEvent → bool) (ds : list ConfirmationEvent) : Q :=
  foldr (λ d acc, (if p d then credit d else 0) + acc)%Q 0%Q ds.

Lemma total_ext p q ds : (∀ d, d ∈ ds → p d = q d) → total p ds = total q ds.
Proof.
  induction ds as [|d ds IH]; intros Hpq; [done|]. simpl. f_equal.
  - by rewrite Hpq by apply list_elem_of_here.
  - apply IH. intros d' Hd. apply Hpq. by apply list_elem_of_further.
Qed.

(** One deposit and the others. *)
Lemma total_split p ds d :
  NoDup (event_key <$> ds) → d ∈ ds →
  (total p ds == (if p d then credit d else 0) +
    total (λ x, bool_decide (event_key x ≠ event_key d) && p x) ds)%Q.
Proof.
  induction ds as [|x ds IH]; intros Hnd Hd; [by apply elem_of_nil in Hd|].
  apply NoDup_cons in Hnd as [Hx Hnd]. simpl. apply elem_of_cons in Hd as [->|Hd].
  - rewrite bool_decide_false by (by intros []). simpl.
    rewrite (total_ext (λ y, bool_decide (event_key y ≠ event_key x) && p y) p).
    { lra. }
    intros y Hy. rewrite bool_decide_true; [done|]. intros He. apply Hx. rewrite <-He.
    by apply list_elem_of_fmap_2.
  - rewrite (IH Hnd Hd), bool_decide_true; [simpl; lra|].
    intros He. apply Hx. rewrite He. by apply list_elem_of_fmap_2.
Qed.

(** Repetitions and order do not matter. *)
Lemma sum_new_total p ds keys evs :
  NoDup (event_key <$> ds) → (∀ d ev, reports d ev → p ev = p d) →
  (∀ ev, ev ∈ evs → ∃ d, d ∈ ds ∧ reports d ev) →
  (sum_new p keys evs == total (λ d, bool_decide (event_key d ∈ event_key <$> evs) &&
    (bool_decide (event_key d ∉ keys) && p d)) ds)%Q.
Proof.
  intros Hnd Hp. revert keys. induction evs as [|ev evs IH]; intros keys Hr.
  - rewrite (total_ext _ (λ _, false)).
    { clear. induction ds as [|d ds IH]; simpl in *; [done|]. rewrite <-IH. lra. }
    intros d _. by rewrite bool_decide_false by apply not_elem_of_nil.
  - destruct (Hr ev (list_elem_of_here _ _)) as (d & Hd & Hrep). simpl.
    rewrite IH by (intros; by apply Hr, list_elem_of_further).
    pose proof Hrep as (Hk & _ & _ & Ha & _). rewrite (Hp _ _ Hrep), Hk.
    unfold credit at 1. rewrite Ha. fold (credit d).
    set (q := λ x, bool_decide (event_key x ∈ event_key d :: (event_key <$> evs)) &&
      (bool_decide (event_key x ∉ keys) && p x)).
    transitivity (total q ds); [|done].
    rewrite (total_split q ds d Hnd Hd). unfold q at 1.
    rewrite (bool_decide_true (event_key d ∈ _)) by apply list_elem_of_here. simpl.
    rewrite (total_ext _ (λ x, bool_decide (event_key x ≠ event_key d) && q x)); [done|].
    intros x _. unfold q.
    destruct (decide (event_key x = event_key d)) as [He|He].
    + rewrite He, (bool_decide_false (_ ∉ {[_]} ∪ _)) by set_solver.
      rewrite (bool_decide_false (_ ≠ _)) by (by intros []). by rewrite andb_false_r.
    + rewrite (bool_decide_true (_ ≠ _)) by done. simpl. f_equal; [|f_equal];
        apply bool_decide_ext; set_solver.
Qed.

(** C28. Balances are the exact sums of the deposits.  On the in-memory store, take any
    deposits, with keys of their own, and any sequence of reports of them, in any order
    and with any repetitions, in which every report of a deposit is on the same side of
    the confirmation threshold.  Then the confirmed balance of a wallet in an asset is
    the sum of the amounts of its deposits that reached the threshold, and the pending
    balance that of the others.  A deposit reported on both sides is outside this
    statement: the source means its value to move to the confirmed balance, but drops
    the second report ([ApplyConfirmationEvent_idempotent]). *)
Theorem balances_sum_deposits wid asset ds evs :
  decrease_ok → NoDup (event_key <$> ds) →
  (∀ ev, ev ∈ evs → ∃ d, d ∈ ds ∧ reports d ev) →
  (∀ d, d ∈ ds → ∃ ev, ev ∈ evs ∧ reports d ev) →
  (confirmed_of wid asset (process evs initial_world) ==
    total (confirms wid asset) ds)%Q ∧
  (pending_of wid asset (process evs initial_world) ==
    total (awaits wid asset) ds)%Q.
Proof.
  intros Hdec Hnd Hr Hall.
  destruct (process_row wid asset evs ∅ initial_world Hdec) as [Hc Hp].
  { intros k. by rewrite bool_decide_false by set_solver. }
  assert (∀ p, (∀ d ev, reports d ev → p ev = p d) → (sum_new p ∅ evs == total p ds)%Q) as Hs.
  { intros p Hpe. rewrite (sum_new_total p ds ∅ evs Hnd Hpe Hr).
    rewrite (total_ext _ p); [done|]. intros d Hd. destruct (Hall d Hd) as (ev & Hev & Hk & _).
    rewrite !bool_decide_true; [done|set_solver|]. rewrite <-Hk. by apply list_elem_of_fmap_2. }
  rewrite Hc, Hp, !Hs; unfold confirms, awaits, for_row.
  - unfold confirmed_of, pending_of, row. simpl. rewrite lookup_empty. simpl.
    rewrite !money_empty. split; lra.
  - by intros d ev (_ & -> & -> & _ & ->).
  - by intros d ev (_ & -> & -> & _ & ->).
Qed.

(** A repeated event is accepted and ignored: applying an event whose key
    is recorded returns success and leaves the store exactly as it was; an
    event that is not recorded is credited to its row alone, keeping the
    locked amount and raising the last block seen. *)
Theorem ApplyConfirmationEvent_idempotent ev w :
  decrease_ok →
  ∃ w', ApplyConfirmationEvent em cfg decrease ev w = (Ok tt, w') ∧
    if seen ev w then store w' = store w
    else seen ev w' = true ∧ other_balances (ce_WalletID ev) (ce_Asset ev) w w' ∧
      b_Locked (row (ce_WalletID ev) (ce_Asset ev) w') =
        b_Locked (row (ce_WalletID ev) (ce_Asset ev) w) ∧
      b_LastBlockSeen (row (ce_WalletID ev) (ce_Asset ev) w') =
        Z.max (b_LastBlockSeen (row (ce_WalletID ev) (ce_Asset ev) w)) (ce_BlockHeight ev).
Proof.
  intros Hdec. destruct (seen ev w) eqn:Hs; [by apply ApplyConfirmationEvent_seen|].
  destruct (ApplyConfirmationEvent_fresh em cfg decrease Hdec ev w Hs) as
    (w' & -> & _ & _ & Hl & Hb & Ho & He).
  exists w'. split_and!; try done. unfold seen. by rewrite He, lookup_insert_eq.
Qed.

(** A reorg demotes the whole confirmed balance of the row: afterwards
    nothing is confirmed, the pending balance has grown by what was, the
    total is conserved and the locked amount and all other rows are kept,
    whether or not restoring the outputs then succeeds. *)
Theorem ApplyReorgEvent_demotes restore ev w :
  let wid := re_WalletID ev in
  let asset := re_Asset ev in
  (∀ f ops, restore = Some f → within same_balances (f ops)) →
  has_row wid asset w →
  let w' := (ApplyReorgEvent em restore ev w).2 in
  (confirmed_of wid asset w' == 0)%Q ∧
  (pending_of wid asset w' == pending_of wid asset w + confirmed_of wid asset w)%Q ∧
  b_Locked (row wid asset w') = b_Locked (row wid asset w) ∧
  other_balances wid asset w w'.
Proof.
  cbv zeta. intros Hf Hrow. set (w' := (ApplyReorgEvent em restore ev w).2).
  destruct (reorg_tx_effect ev (set_depth (S (depth w)) w) Hrow) as
    (w1 & Hr & Hc & Hp & Hl & Ho).
  assert (same_balances (set_depth (depth w) w1) w') as Hm.
  { unfold w', ApplyReorgEvent. eapply within_after; [by apply InTx_Ok|].
    apply within_bind; [apply _| |intros _; by apply emit_same_balances].
    destruct restore as [f|]; [|apply within_ret, _].
    apply within_when; [apply _|]. apply within_wrap_err. by apply Hf. }
  unfold confirmed_of, pending_of in *. rewrite !(same_balances_row _ _ _ _ Hm).
  split_and!; [exact Hc|exact Hp|exact Hl|]. intros wid' asset' Hne.
  rewrite (same_balances_row _ _ _ _ Hm). exact (Ho _ _ Hne).
Qed.

(** Locking an amount adds exactly it to the locked balance, and releasing
    subtracts it but never goes below zero; confirmed and pending balances
    and all other rows are kept, so releasing what was locked restores the
    locked balance. *)
Theorem locked_amounts wid asset amount w :
  has_row wid asset w →
  (∃ w', AddLocked wid asset amount w = (Ok tt, w') ∧ has_row wid asset w' ∧
    (locked_of wid asset w' == locked_of wid asset w + money amount)%Q ∧
    b_Confirmed (row wid asset w') = b_Confirmed (row wid asset w) ∧
    b_Pending (row wid asset w') = b_Pending (row wid asset w) ∧
    other_balances wid asset w w') ∧
  (∃ w', ReleaseLocked wid asset amount w = (Ok tt, w') ∧ has_row wid asset w' ∧
    (locked_of wid asset w' ==
      Qmax 0 (locked_of wid asset w - money amount))%Q ∧
    b_Confirmed (row wid asset w') = b_Confirmed (row wid asset w) ∧
    b_Pending (row wid asset w') = b_Pending (row wid asset w) ∧
    other_balances wid asset w w').
Proof.
  intros Hrow. split.
  - destruct (update_locked_effect (λ l, dec_Add l (parseDec amount)) wid asset w Hrow) as
      (w' & Hr & Hl & Hc & Hp & Hr' & Ho).
    exists w'. split_and!; try done. rewrite Hl. apply dec_Add_value.
  - destruct (update_locked_effect (λ l, if dec_IsNegative (dec_Sub l (parseDec amount))
      then dec_Zero else dec_Sub l (parseDec amount)) wid asset w Hrow) as
      (w' & Hr & Hl & Hc & Hp & Hr' & Ho).
    exists w'. split_and!; try done. rewrite Hl.
    set (l := parseDec (b_Locked (row wid asset w))).
    pose proof (dec_Sub_value l (parseDec amount)) as Hs.
    change (locked_of wid asset w) with (dec_value l).
    change (money amount) with (dec_value (parseDec amount)).
    destruct (dec_IsNegative (dec_Sub l (parseDec amount))) eqn:Hn.
    + apply dec_IsNegative_spec in Hn. rewrite dec_Zero_value, Q.max_l; lra.
    + apply dec_IsNegative_false in Hn. rewrite Q.max_r; lra.
Qed.
End theorems.

(** ** Witnesses *)
Section witnesses.
#[local] Existing Instances ref_runtime ref_uuid ref_env ref_decimal.

Definition acct : uuid := uuid_of_Z 9.
Definition deposit (id amount : string) (conf : Z) : ConfirmationEvent :=
  MkConfirmation acct "BTC" amount conf 100 id false ChainBitcoin.
(** Two deposits, one of them reported twice with more confirmations. *)
Definition two_deposits : list ConfirmationEvent := [deposit "e1" "5" 6; deposit "e2" "7" 1].
Definition deposits : list ConfirmationEvent :=
  [deposit "e2" "7" 1; deposit "e1" "5" 6; deposit "e1" "5" 9].
Definition credited : World := process None default_config None deposits initial_world.

Lemma no_decrease_ok : decrease_ok None.
Proof. intros f wid asset Hf. discriminate Hf. Qed.

Lemma balances_sum_deposits_witness :
  (confirmed_of acct "BTC" (process None default_config None deposits initial_world) ==
    total (confirms default_config acct "BTC") two_deposits)%Q ∧
  (pending_of acct "BTC" (process None default_config None deposits initial_world) ==
    total (awaits default_config acct "BTC") two_deposits)%Q.
Proof.
  apply (balances_sum_deposits None default_config None acct "BTC" two_deposits deposits).
  - apply no_decrease_ok.
  - apply (bool_decide_unpack _). vm_compute. exact I.
  - intros ev Hev. repeat apply elem_of_cons in Hev as [->|Hev];
      [exists (deposit "e2" "7" 1)|exists (deposit "e1" "5" 6)..|by apply elem_of_nil in Hev];
      (split; [unfold two_deposits; set_solver|vm_compute; tauto]).
  - intros d Hd. exists d. unfold deposits, two_deposits in *.
    split; [set_solver|]. by split_and!.
Defined.

Lemma ApplyConfirmationEvent_idempotent_witness :
  ∃ w', ApplyConfirmationEvent None default_config None (deposit "e1" "5" 6) credited
      = (Ok tt, w') ∧
    if seen (deposit "e1" "5" 6) credited then store w' = store credited
    else seen (deposit "e1" "5" 6) w' = true ∧ other_balances acct "BTC" credited w' ∧
      b_Locked (row acct "BTC" w') = b_Locked (row acct "BTC" credited) ∧
      b_LastBlockSeen (row acct "BTC" w') =
        Z.max (b_LastBlockSeen (row acct "BTC" credited)) 100.
Proof.
  apply (ApplyConfirmationEvent_idempotent None default_config None
    (deposit "e1" "5" 6) credited), no_decrease_ok.
Defined.

Definition orphan : ReorgEvent := MkReorg acct "BTC" 100 "r1" [].

Lemma ApplyReorgEvent_demotes_witness :
  let w' := (ApplyReorgEvent None None orphan credited).2 in
  (confirmed_of acct "BTC" w' == 0)%Q ∧
  (pending_of acct "BTC" w' ==
    pending_of acct "BTC" credited + confirmed_of acct "BTC" credited)%Q ∧
  b_Locked (row acct "BTC" w') = b_Locked (row acct "BTC" credited) ∧
  other_balances acct "BTC" credited w'.
Proof.
  apply (ApplyReorgEvent_demotes None None orphan credited).
  - intros f ops Hf. discriminate Hf.
  - vm_compute. eexists. reflexivity.
Defined.

Lemma locked_amounts_witness :
  (∃ w', AddLocked acct "BTC" "3" credited = (Ok tt, w') ∧ has_row acct "BTC" w' ∧
    (locked_of acct "BTC" w' == locked_of acct "BTC" credited + money "3")%Q ∧
    b_Confirmed (row acct "BTC" w') = b_Confirmed (row acct "BTC" credited) ∧
    b_Pending (row acct "BTC" w') = b_Pending (row acct "BTC" credited) ∧
    other_balances acct "BTC" credited w') ∧
  (∃ w', ReleaseLocked acct "BTC" "3" credited = (Ok tt, w') ∧ has_row acct "BTC" w' ∧
    (locked_of acct "BTC" w' ==
      Qmax 0 (locked_of acct "BTC" credited - money "3"))%Q ∧
    b_Confirmed (row acct "BTC" w') = b_Confirmed (row acct "BTC" credited) ∧
    b_Pending (row acct "BTC" w') = b_Pending (row acct "BTC" credited) ∧
    other_balances acct "BTC" credited w').
Proof.
  apply (locked_amounts acct "BTC" "3" credited). vm_compute. eexists. reflexivity.
Defined.
End witnesses.
