(* ===== verification/Cache.v ===== *)
(** * Cache: [internal/cache/cache.go]

    The [Cache] interface as a record of operations, what its clients rely on
    ([CacheLaws]: a hit is something that was set under that key), and the
    in-memory [MemCache], whose entries expire. *)
From stdpp Require Import base tactics gmap strings list.
From Stdlib Require Import ZArith Lia.
From S2P Require Import Prelude.
From S2P Require Import GoLang.
From S2P Require Import Domain.
From S2P Require Import World.

#[local] Open Scope string_scope.
#[local] Open Scope Z_scope.

(** [Get] returns the value and whether it was found. *)
Record Cache : Type := MkCache {
  cache_Get : string → Go (string * bool);
  cache_Set : string → string → duration → Go unit;
  cache_Del : list string → Go unit
}.

(** [cached k v w]: a [Get] of [k] may return [v]. *)
Class CacheLaws (c : Cache) : Type := {
  cached : string → string → World → Prop;
  get_hit k w v w' : cache_Get c k w = (Ok (v, true), w') → cached k v w;
  get_only k k' v w : cached k' v (cache_Get c k w).2 → cached k' v w;
  set_only k v ttl k' v' w : cached k' v' (cache_Set c k v ttl w).2 →
    cached k' v' w ∨ k' = k ∧ v' = v;
  del_only ks k v w : cached k v (cache_Del c ks w).2 → cached k v w;
  cached_same k v w w' : cache w' = cache w → cached k v w' → cached k v w;
  get_quiet k w : store (cache_Get c k w).2 = store w ∧ trace (cache_Get c k w).2 = trace w;
  set_quiet k v ttl w : store (cache_Set c k v ttl w).2 = store w ∧
    trace (cache_Set c k v ttl w).2 = trace w
}.

Section within_cache.
Context (c : Cache) `{!CacheLaws c} (R : relation World) `{!FrameRel R}.

Lemma within_cache_Get k : within R (cache_Get c k).
Proof. intros w. destruct (get_quiet k w). by apply frame_rel_same. Qed.

Lemma within_cache_Set k v ttl : within R (cache_Set c k v ttl).
Proof. intros w. destruct (set_quiet k v ttl w). by apply frame_rel_same. Qed.
End within_cache.

#[export] Hint Resolve within_cache_Get within_cache_Set : within.

Section memcache.
Context `{Environment}.

Definition MemCache_Get (key : string) : Go (string * bool) :=
  data ← gets cache;
  match data !! key with
  | None =>
      modify (λ w, set_cache (delete key (cache w)) w);; mret ("", false)
  | Some (value, exp) =>
      now ← time_Now;
      if time_After now exp then
        modify (λ w, set_cache (delete key (cache w)) w);; mret ("", false)
      else mret (value, true)
  end.

Definition MemCache_Set (key value : string) (ttl : duration) : Go unit :=
  now ← time_Now;
  modify (λ w, set_cache (<[key := (value, time_Add now ttl)]> (cache w)) w).

Definition MemCache_Del (keys : list string) : Go unit :=
  for_each keys (λ k, modify (λ w, set_cache (delete k (cache w)) w)).

Definition MemCache : Cache := MkCache MemCache_Get MemCache_Set MemCache_Del.

Definition mem_cached (k v : string) (w : World) : Prop :=
  ∃ exp, cache w !! k = Some (v, exp).

Lemma mem_cached_delete k k' v w :
  mem_cached k' v (set_cache (delete k (cache w)) w) → mem_cached k' v w.
Proof.
  intros [exp Hl]. exists exp. simpl in Hl. by apply lookup_delete_Some in Hl as [_ ?].
Qed.

Lemma MemCache_Del_only ks k v w :
  mem_cached k v (MemCache_Del ks w).2 → mem_cached k v w.
Proof.
  unfold MemCache_Del. revert w. induction ks as [|k' ks IH]; intros w; [done|].
  simpl. go_run. intros Hc%IH. by apply mem_cached_delete in Hc.
Qed.

(** An entry answers until its time to live has passed. *)
Lemma MemCache_Get_Set k v ttl w w1 w2 :
  MemCache_Set k v ttl w = (Ok tt, w1) → cache w2 = cache w1 →
  clock (ticks w2) ≤ clock (ticks w) + ttl →
  (MemCache_Get k w2).1 = Ok (v, true).
Proof.
  unfold MemCache_Set, MemCache_Get. go_run. intros [= <-] Hc Hle. simpl in Hc.
  rewrite Hc, lookup_insert_eq. go_run. unfold time_After, time_Add.
  by rewrite (proj2 (Z.ltb_ge _ _)) by lia.
Qed.

#[export, program] Instance MemCache_laws : CacheLaws MemCache := {
  cached := mem_cached
}.
Next Obligation.
  intros k w v w'. simpl. unfold MemCache_Get. go_run.
  destruct (cache w !! k) as [[v' exp]|] eqn:Hk; [|done]. go_run.
  destruct (time_After _ _); [done|]. intros [= -> _]. by exists exp.
Qed.
Next Obligation.
  intros k k' v w. simpl. unfold MemCache_Get. go_run.
  destruct (cache w !! k) as [[v' exp]|]; [|by apply mem_cached_delete]. go_run.
  destruct (time_After _ _); [|done]. apply (mem_cached_delete k k' v w).
Qed.
Next Obligation.
  intros k v ttl k' v' w [exp Hl]. simpl in Hl. unfold mem_cached.
  apply lookup_insert_Some in Hl as [[-> [= <- _]]|[_ Hl]]; [by right|left; by exists exp].
Qed.
Next Obligation. intros ks k v w. apply MemCache_Del_only. Qed.
Next Obligation. unfold mem_cached. by intros k v w w' ->. Qed.
Next Obligation.
  intros k w. simpl. unfold MemCache_Get. go_run.
  destruct (cache w !! k) as [[v' exp]|]; [|done]. go_run. by destruct (time_After _ _).
Qed.
Next Obligation. done. Qed.
End memcache.
