(* ===== verification/Deriver.v ===== *)
(** * Deriver: [internal/deriver]

    Public-only address derivation for EVM chains, Bitcoin and Solana, and the
    registry that routes a chain to its deriver.  The extended keys, hashes and
    encodings are those of [CryptoLib]; a Go panic is an error value here, and
    is shown not to happen. *)
From stdpp Require Import base tactics numbers gmap strings pretty list.
From Stdlib Require Import ZArith Lia Ascii.
From S2P Require Import Prelude.
From S2P Require Import GoLang.
From S2P Require Import GoText.
From S2P Require Import GoBytes.
From S2P Require Import Crypto.
From S2P Require Import Domain.
From S2P Require Import Evm.
From S2P Require Import Config.
From S2P Require Import World.
From S2P Require Import Reference.
From S2P Require Import Cache.

#[local] Open Scope string_scope.
#[local] Open Scope list_scope.
#[local] Open Scope Z_scope.

(** [deriver.Result]. *)
Record DeriveResult : Type := MkDeriveResult {
  dr_Address : string;
  dr_DerivationPath : string;
  dr_Index : Z;
  dr_Change : Z
}.

(** The [Deriver] interface. *)
Record Deriver : Type := MkDeriver {
  DeriveNext : uuid → string → Z → Go DeriveResult;
  DeriveAt : uuid → string → Z → Z → Go DeriveResult
}.

Definition panic {A} (msg : string) : result A := Err (ErrNew ("panic: " +:+ msg)).

(** ** Paths *)
Definition nonHardened (n : Z) : result Z :=
  if (n <? 0) || (0x80000000 <=? n) then
    Err (ErrNew ("derivation index " +:+ pretty n +:+ " out of non-hardened range"))
  else Ok n.

Definition ParseXpub (s : string) : result string :=
  let s := strings_TrimSpace s in
  if s =s "" then Err (ErrNew "empty xpub") else Ok s.

Definition parseBTCPath (path : string) : result (Z * Z) :=
  match strings_Split "/" (strings_TrimSpace path) with
  | ["m"; _; _; _; c; i] =>
      change ← wrap_result "parse change" (strconv_Atoi c);
      index ← wrap_result "parse index" (strconv_Atoi i);
      Ok (change, index)
  | _ => Err (ErrNew ("expected m/84'/0'/0'/<change>/<index>, got " +:+ quote path))
  end.

Definition btc_path (change index : Z) : string :=
  "m/84'/0'/0'/" +:+ pretty change +:+ "/" +:+ pretty index.

Definition evm_path (index : Z) : string := "m/44'/60'/0'/0/" +:+ pretty index.

(** ** Hexadecimal public keys *)
Definition is_hex_char (c : ascii) : bool :=
  let b := byte_of c in
  ((48 <=? b) && (b <=? 57)) || ((97 <=? b) && (b <=? 102)) || ((65 <=? b) && (b <=? 70)).

(** A string with a character outside ASCII has a byte that is no digit. *)
Definition isHex32 (s : string) : bool :=
  bool_decide (String.length s = 64%nat) && forallb is_hex_char (String.list_ascii_of_string s).

Definition fromHexChar (c : ascii) : Z :=
  let b := byte_of c in
  if (48 <=? b) && (b <=? 57) then b - 48
  else if (97 <=? b) && (b <=? 102) then b - 97 + 10
  else if (65 <=? b) && (b <=? 70) then b - 65 + 10
  else 0.

Fixpoint hex_decode (l : list ascii) : list byte :=
  match l with
  | hi :: lo :: l => join_nibbles (fromHexChar hi) (fromHexChar lo) :: hex_decode l
  | _ => []
  end.

Definition hexDecode32 (s : string) : list byte := hex_decode (String.list_ascii_of_string s).

Section derivation.
Context `{CryptoLib}.

Definition decompressSecp256k1 (compressed : list byte) : result (list byte) :=
  if negb (bool_decide (length compressed = 33%nat)) then
    Err (ErrNew ("invalid compressed pubkey length " +:+ pretty (length compressed)))
  else
    pk ← wrap_result "parse pubkey" (ParsePubKey compressed);
    Ok (4 :: copy_into 32 (big_Bytes (PublicKey_X pk)) ++
             copy_into 32 (big_Bytes (PublicKey_Y pk))).

(** The loop of [eip55Checksum]; [hh] runs out when [hh[i]] would panic. *)
Fixpoint eip55_loop (addr hh : list ascii) : option (list ascii) :=
  match addr with
  | [] => Some []
  | c :: addr =>
      if (48 <=? byte_of c) && (byte_of c <=? 57) then cons c <$> eip55_loop addr (tail hh)
      else match hh with
           | [] => None
           | h :: hh =>
               cons (if 56 <=? byte_of h then of_byte ((byte_of c - 32) mod 256) else c)
                 <$> eip55_loop addr hh
           end
  end.

Definition eip55Checksum (addrLower : string) : result string :=
  let addrLower := string_lower (strings_TrimPrefix addrLower "0x") in
  let hh := hex_EncodeToString (Keccak256 (string_bytes addrLower)) in
  match eip55_loop (String.list_ascii_of_string addrLower)
          (String.list_ascii_of_string hh) with
  | Some out => Ok ("0x" +:+ String.string_of_list_ascii out)
  | None => panic "index out of range"
  end.

Definition evmAddressFromCompressedPubkey (compressed : list byte) : result string :=
  if negb (bool_decide (length compressed = 33%nat)) then
    panic "expected 33-byte compressed pubkey"
  else match decompressSecp256k1 compressed with
       | Err _ => panic "decompress"
       | Ok pub =>
           let digest := Keccak256 (drop 1 pub) in
           eip55Checksum (hex_EncodeToString (drop 12 digest))
       end.

Definition EVM_deriveUncached (xpub : string) (index : Z) : result string :=
  acc ← wrap_result "parse xpub" (NewKeyFromString xpub);
  external ← wrap_result "derive external chain" (Derive acc 0);
  childIdx ← nonHardened index;
  child ← wrap_result ("derive index " +:+ pretty index) (Derive external childIdx);
  pub ← wrap_result "ec pubkey" (ECPubKey child);
  evmAddressFromCompressedPubkey (SerializeCompressed pub).

(** [bech32Address]: [witness] is the version byte and the program. *)
Definition bech32Address (hrp : string) (witness : list byte) : result string :=
  conv ← ConvertBits (drop 1 witness) 8 5 true;
  bech32_Encode hrp (hd 0 witness :: conv).

Definition deriveChildPubKey (xpub : string) (index change : Z) : result PublicKey :=
  acc ← wrap_result "parse xpub" (NewKeyFromString xpub);
  changeIdx ← nonHardened change;
  changeBranch ← wrap_result ("derive change chain " +:+ pretty change) (Derive acc changeIdx);
  childIdx ← nonHardened index;
  child ← wrap_result ("derive index " +:+ pretty index) (Derive changeBranch childIdx);
  wrap_result "ec pubkey" (ECPubKey child).

Definition BTC_deriveUncached (xpub : string) (index change : Z) : result string :=
  pub ← deriveChildPubKey xpub index change;
  bech32Address "bc" (0 :: Hash160 (SerializeCompressed pub)).

Definition PubKeyHashFor (xpub : string) (change index : Z) :
    result (list byte * list byte) :=
  pub ← deriveChildPubKey xpub index change;
  let compressed := SerializeCompressed pub in
  Ok (copy_into 20 (Hash160 compressed), compressed).

(** [NewSolana]: the base58 form of the public key. *)
Definition NewSolana (pubkey : string) : result string :=
  pubkey ← ParseXpub pubkey;
  Ok (if isHex32 pubkey then base58_Encode (hexDecode32 pubkey) else pubkey).

(** [NewEVM] and [NewBTC] keep the validated key. *)
Definition NewEVM (xpub : string) : result string := ParseXpub xpub.
Definition NewBTC (xpub : string) : result string := ParseXpub xpub.
End derivation.

(** ** The derivers *)
Section derivers.
Context `{CryptoLib} (c : Cache) (ttl : duration).

(** Look in the cache; on a miss, or when the cache fails, compute and store. *)
Definition through_cache (key : string) (compute : result string) : Go string :=
  r ← attempt (cache_Get c key);
  match r with
  | Ok (v, true) => mret v
  | _ =>
      addr ← of_result compute;
      ignore (cache_Set c key addr ttl);;
      mret addr
  end.

Definition evm_key (xpub : string) (index : Z) : string :=
  "deriv:evm:" +:+ xpub +:+ ":" +:+ pretty index.

Definition EVM_DeriveAt (xpub : string) (walletID : uuid) (chain : string)
    (index change : Z) : Go DeriveResult :=
  if negb (IsEVM chain) then
    throw (ErrNew ("non-EVM chain " +:+ quote chain +:+ " passed to EVMDeriver"))
  else if negb (change =? 0) then throw (ErrNew "EVM change chain must be 0")
  else if index <? 0 then throw (ErrNew "EVM index must be >= 0")
  else
    addr ← through_cache (evm_key xpub index) (EVM_deriveUncached xpub index);
    mret (MkDeriveResult addr (evm_path index) index change).

Definition EVM_DeriveNext (xpub : string) (walletID : uuid) (chain : string) (change : Z) :
    Go DeriveResult :=
  if negb (change =? 0) then throw (ErrNew "EVM deriver does not support change chain")
  else EVM_DeriveAt xpub walletID chain (-1) change.

Definition btc_key (xpub : string) (change index : Z) : string :=
  "deriv:btc:" +:+ xpub +:+ ":" +:+ pretty change +:+ ":" +:+ pretty index.

Definition btc_guard (chain : string) (change : Z) : option error :=
  if negb (chain =s ChainBitcoin) then
    Some (ErrNew ("non-BTC chain " +:+ quote chain +:+ " passed to BTCDeriver"))
  else if negb (change =? 0) && negb (change =? 1) then
    Some (ErrNew "BTC change chain must be 0 or 1")
  else None.

Definition BTC_DeriveNext (walletID : uuid) (chain : string) (change : Z) :
    Go DeriveResult :=
  match btc_guard chain change with
  | Some e => throw e
  | None => throw (ErrNew "DeriveNext requires an index for BTC; use DeriveAt")
  end.

Definition BTC_DeriveAt (xpub : string) (walletID : uuid) (chain : string)
    (index change : Z) : Go DeriveResult :=
  match btc_guard chain change with
  | Some e => throw e
  | None =>
      if index <? 0 then throw (ErrNew "BTC index must be >= 0")
      else
        addr ← through_cache (btc_key xpub change index)
          (BTC_deriveUncached xpub index change);
        mret (MkDeriveResult addr (btc_path change index) index change)
  end.

Definition sol_path : string := "m/44'/501'/0'/0'".

Definition Sol_DeriveAt (pubkeyBase58 : string) (walletID : uuid) (chain : string)
    (index change : Z) : Go DeriveResult :=
  if negb (chain =s ChainSolana) then
    throw (ErrNew ("non-Solana chain " +:+ quote chain +:+ " passed to SolanaDeriver"))
  else
    addr ← through_cache ("deriv:sol:" +:+ pubkeyBase58) (Ok pubkeyBase58);
    mret (MkDeriveResult addr sol_path 0 0).

Definition Sol_DeriveNext (pubkeyBase58 : string) (walletID : uuid) (chain : string)
    (change : Z) : Go DeriveResult :=
  Sol_DeriveAt pubkeyBase58 uuid_Nil chain 0 change.
End derivers.

(** [Registry]: the keys of the three derivers, which share a cache. *)
Record Registry : Type := MkRegistry {
  r_evm : string;
  r_solana : string;
  r_btc : string
}.

Section registry.
Context `{CryptoLib} (c : Cache) (ttl : duration) (reg : Registry).

Definition For (chain : string) : result Deriver :=
  if IsEVM chain then
    Ok (MkDeriver (EVM_DeriveNext c ttl (r_evm reg)) (EVM_DeriveAt c ttl (r_evm reg)))
  else if chain =s ChainSolana then
    Ok (MkDeriver (Sol_DeriveNext c ttl (r_solana reg)) (Sol_DeriveAt c ttl (r_solana reg)))
  else if chain =s ChainBitcoin then
    Ok (MkDeriver BTC_DeriveNext (BTC_DeriveAt c ttl (r_btc reg)))
  else Err (ErrNew ("no deriver for chain " +:+ quote chain)).

Definition BTCPubKeyHashFor (path : string) : result (list byte * list byte) :=
  '(change, index) ← wrap_result ("parse btc derivation path " +:+ quote path)
    (parseBTCPath path);
  PubKeyHashFor (r_btc reg) change index.
End registry.

(** ** Lemmas *)
Section keys.
Lemma evm_key_inj x i j : evm_key x i = evm_key x j → i = j.
Proof.
  unfold evm_key. intros Heq. do 3 apply (inj (String.append _)) in Heq.
  by apply (inj pretty) in Heq.
Qed.

Lemma btc_key_inj x c i c' i' : btc_key x c i = btc_key x c' i' → c = c' ∧ i = i'.
Proof.
  unfold btc_key. intros Heq. do 3 apply (inj (String.append _)) in Heq.
  apply (f_equal (strings_Split ":"%char)) in Heq.
  change (strings_Split ":"%char (pretty c +:+ String ":"%char (pretty i)) =
    strings_Split ":"%char (pretty c' +:+ String ":"%char (pretty i'))) in Heq.
  rewrite !strings_Split_app, !strings_Split_last in Heq by by apply pretty_no_char.
  injection Heq as Hc Hi. by split; apply (inj pretty).
Qed.

Lemma evm_btc_key x x' i c j : evm_key x i ≠ btc_key x' c j.
Proof. done. Qed.
Lemma evm_sol_key x i s : evm_key x i ≠ "deriv:sol:" +:+ s.
Proof. done. Qed.
Lemma btc_sol_key x c i s : btc_key x c i ≠ "deriv:sol:" +:+ s.
Proof. done. Qed.
End keys.

Section transparency.
Context `{CryptoLib} (c : Cache) `{!CacheLaws c} (ttl : duration) (reg : Registry).

(** What a chain derives, without a cache. *)
Definition derive_spec (chain : string) (index change : Z) : result DeriveResult :=
  if IsEVM chain then
    if negb (change =? 0) then Err (ErrNew "EVM change chain must be 0")
    else if index <? 0 then Err (ErrNew "EVM index must be >= 0")
    else addr ← EVM_deriveUncached (r_evm reg) index;
         Ok (MkDeriveResult addr (evm_path index) index change)
  else if chain =s ChainSolana then Ok (MkDeriveResult (r_solana reg) sol_path 0 0)
  else match btc_guard chain change with
       | Some e => Err e
       | None =>
           if index <? 0 then Err (ErrNew "BTC index must be >= 0")
           else addr ← BTC_deriveUncached (r_btc reg) index change;
                Ok (MkDeriveResult addr (btc_path change index) index change)
       end.

(** Every entry under a key of the registry is what that key derives. *)
Definition cache_sound (w : World) : Prop :=
  (∀ i a, cached (evm_key (r_evm reg) i) a w → EVM_deriveUncached (r_evm reg) i = Ok a) ∧
  (∀ ch i a, cached (btc_key (r_btc reg) ch i) a w →
    BTC_deriveUncached (r_btc reg) i ch = Ok a) ∧
  (∀ a, cached ("deriv:sol:" +:+ r_solana reg) a w → a = r_solana reg).

Lemma cache_sound_mono w w' :
  (∀ k v, cached k v w' → cached k v w) → cache_sound w → cache_sound w'.
Proof. intros Hm (He & Hb & Hs). split_and!; eauto. Qed.

Lemma cache_sound_set w k v life :
  (∀ i, k = evm_key (r_evm reg) i → EVM_deriveUncached (r_evm reg) i = Ok v) →
  (∀ ch i, k = btc_key (r_btc reg) ch i → BTC_deriveUncached (r_btc reg) i ch = Ok v) →
  (k = "deriv:sol:" +:+ r_solana reg → v = r_solana reg) →
  cache_sound w → cache_sound (cache_Set c k v life w).2.
Proof.
  intros H1 H2 H3 (He & Hb & Hs).
  split_and!; intros *; intros [?|[<- ->]]%set_only; eauto.
Qed.

(** A lookup is transparent when the entries under its key are right. *)
Lemma through_cache_sound k compute w :
  (∀ a, cached k a w → compute = Ok a) → cache_sound w →
  (∀ v, compute = Ok v → ∀ w, cache_sound w → cache_sound (cache_Set c k v ttl w).2) →
  (through_cache c ttl k compute w).1 = compute ∧
  cache_sound (through_cache c ttl k compute w).2.
Proof.
  intros Hk Hw Hset. unfold through_cache. go_run.
  assert (cache_sound (cache_Get c k w).2) as Hg
    by (eapply cache_sound_mono; [|exact Hw]; intros ??; apply get_only).
  destruct (cache_Get c k w) as [[[v [|]]|e] w1] eqn:Hget; simpl in *.
  - apply get_hit in Hget. by rewrite (Hk v Hget).
  - destruct compute as [v'|e]; [|done].
    pose proof (Hset v' eq_refl w1 Hg). by destruct (cache_Set c k v' ttl w1).
  - destruct compute as [v'|e']; [|done].
    pose proof (Hset v' eq_refl w1 Hg). by destruct (cache_Set c k v' ttl w1).
Qed.

Lemma cache_set_evm i v w :
  EVM_deriveUncached (r_evm reg) i = Ok v → cache_sound w →
  cache_sound (cache_Set c (evm_key (r_evm reg) i) v ttl w).2.
Proof.
  intros Hv. apply cache_sound_set; [|done..]. by intros j ->%evm_key_inj.
Qed.

Lemma cache_set_btc ch i v w :
  BTC_deriveUncached (r_btc reg) i ch = Ok v → cache_sound w →
  cache_sound (cache_Set c (btc_key (r_btc reg) ch i) v ttl w).2.
Proof.
  intros Hv. apply cache_sound_set; [done| |done]. by intros ? ? [-> ->]%btc_key_inj.
Qed.

Lemma cache_set_sol v w :
  Ok (r_solana reg) = Ok v → cache_sound w →
  cache_sound (cache_Set c ("deriv:sol:" +:+ r_solana reg) v ttl w).2.
Proof. intros [= <-]. by apply cache_sound_set. Qed.

Lemma DeriveAt_sound d wid chain index change w :
  For c ttl reg chain = Ok d → cache_sound w →
  (DeriveAt d wid chain index change w).1 = derive_spec chain index change ∧
  cache_sound (DeriveAt d wid chain index change w).2.
Proof.
  intros Hd Hw. pose proof Hw as (He & Hb & Hs). unfold For in Hd. unfold derive_spec.
  destruct (IsEVM chain) eqn:Hevm.
  - injection Hd as <-. simpl. unfold EVM_DeriveAt. rewrite Hevm. cbn [negb].
    destruct (negb (change =? 0)); [done|]. destruct (index <? 0); [done|].
    destruct (through_cache_sound (evm_key (r_evm reg) index)
      (EVM_deriveUncached (r_evm reg) index) w) as [Hr Hs'];
      [intros; by apply He|done|intros; by apply cache_set_evm|].
    unfold mbind, GoM_bind. destruct (through_cache _ _ _ _ w) as [r w']. simpl in *.
    subst r. by destruct (EVM_deriveUncached (r_evm reg) index).
  - destruct (chain =s ChainSolana) eqn:Hsol.
    + injection Hd as <-. simpl. unfold Sol_DeriveAt. rewrite Hsol. cbn [negb].
      destruct (through_cache_sound ("deriv:sol:" +:+ r_solana reg) (Ok (r_solana reg)) w)
        as [Hr Hs']; [by intros a ->%Hs|done|intros; by apply cache_set_sol|].
      unfold mbind, GoM_bind. destruct (through_cache _ _ _ _ w) as [r w']. simpl in *.
      by subst r.
    + destruct (chain =s ChainBitcoin); [|done]. injection Hd as <-. simpl.
      unfold BTC_DeriveAt. destruct (btc_guard chain change); [done|].
      destruct (index <? 0); [done|].
      destruct (through_cache_sound (btc_key (r_btc reg) change index)
        (BTC_deriveUncached (r_btc reg) index change) w) as [Hr Hs'];
        [intros; by apply Hb|done|intros; by apply cache_set_btc|].
      unfold mbind, GoM_bind. destruct (through_cache _ _ _ _ w) as [r w']. simpl in *.
      subst r. by destruct (BTC_deriveUncached (r_btc reg) index change).
Qed.

Lemma DeriveAt_frame (R : relation World) `{!FrameRel R} d wid chain index change :
  For c ttl reg chain = Ok d → within R (DeriveAt d wid chain index change).
Proof.
  assert (∀ k m, within R (through_cache c ttl k m)) as Ht.
  { intros k m. unfold through_cache. solve_within. }
  unfold For. destruct (IsEVM chain); [|destruct (chain =s ChainSolana);
    [|destruct (chain =s ChainBitcoin); [|done]]]; intros [= <-]; simpl;
    unfold EVM_DeriveAt, Sol_DeriveAt, BTC_DeriveAt; solve_within.
Qed.

(** The keys the derivers of the registry use. *)
Definition registry_key (k : string) : Prop :=
  (∃ i, k = evm_key (r_evm reg) i) ∨ (∃ ch i, k = btc_key (r_btc reg) ch i) ∨
  k = "deriv:sol:" +:+ r_solana reg.

(** Derivations, cache evictions, entries of others under keys of their own, and other
    work, in any order. *)
Inductive derive_step (w : World) : World → Prop :=
  | d_derive d wid chain index change :
      For c ttl reg chain = Ok d →
      derive_step w (DeriveAt d wid chain index change w).2
  | d_evict keys : derive_step w (cache_Del c keys w).2
  | d_set k v life : ¬ registry_key k → derive_step w (cache_Set c k v life w).2
  | d_other w' : cache w' = cache w → derive_step w w'.

Lemma derive_step_sound w w' : derive_step w w' → cache_sound w → cache_sound w'.
Proof.
  intros Hst Hw. destruct Hst as [d wid chain index change Hd|keys|k v life Hk|w' Hc].
  - by apply DeriveAt_sound.
  - eapply cache_sound_mono; [|exact Hw]. intros k v. apply del_only.
  - unfold registry_key in Hk. apply cache_sound_set; [..|exact Hw]; intros; naive_solver.
  - eapply cache_sound_mono; [|exact Hw]. intros k v. by apply cached_same.
Qed.
End transparency.

(** ** EIP-55 text *)
Section checksum.
Context `{CryptoLib}.

(** The character stands for the digit, in either case. *)
Definition shows (d : Z) (c : ascii) : bool :=
  match hexNibble c with Ok n => n =? d | Err _ => false end &&
  not_space_edge (reverse <$> space_runes) (byte_of c).

Definition digit_ok (d : Z) : bool :=
  let c := hex_digit d in
  shows d c && negb (bool_decide (c = "x"%char)) && bool_decide (ascii_lower c = c) &&
  (((48 <=? byte_of c) && (byte_of c <=? 57)) ||
   shows d (of_byte ((byte_of c - 32) mod 256))).

Lemma digits_ok d : 0 ≤ d < 16 → digit_ok d = true.
Proof. revert d. apply all_digits. vm_compute. reflexivity. Qed.

(** The digits of a byte string, most significant first. *)
Fixpoint nibbles_of (l : list byte) : list Z :=
  match l with [] => [] | b :: l => b / 16 :: b mod 16 :: nibbles_of l end.

Lemma nibbles_of_range l : Forall is_byte l → Forall (λ d, 0 ≤ d < 16) (nibbles_of l).
Proof.
  induction 1 as [|b l Hb Hl IH]; [constructor|]. unfold is_byte in Hb.
  simpl. repeat constructor; [apply Z.div_pos; lia|apply Z.div_lt_upper_bound; lia|..|done];
    apply Z.mod_pos_bound; lia.
Qed.

Lemma nibbles_of_length l : length (nibbles_of l) = (2 * length l)%nat.
Proof. induction l; simpl; lia. Qed.

Lemma hex_chars l :
  String.list_ascii_of_string (hex_EncodeToString l) = hex_digit <$> nibbles_of l.
Proof. induction l as [|b l IH]; csimpl; [done|]. by rewrite IH. Qed.

(** The text EIP-55 prescribes: a letter is raised when the digit of the hash of the
    lower-case text at its place is at least 8. *)
Definition upper_digit (d : Z) : ascii :=
  nth (Z.to_nat d) (String.list_ascii_of_string "0123456789ABCDEF") "0"%char.

Definition eip55_char (d h : Z) : ascii :=
  if (10 <=? d) && (8 <=? h) then upper_digit d else hex_digit d.

Definition eip55_text (addr : list byte) : string :=
  let hash := Keccak256 (string_bytes (hex_EncodeToString addr)) in
  "0x" +:+ String.string_of_list_ascii
    (zip_with eip55_char (nibbles_of addr) (nibbles_of hash)).

(** One turn of the loop writes the prescribed character. *)
Definition turn_ok (d h : Z) : bool :=
  let c := hex_digit d in
  bool_decide (eip55_char d h =
    if (48 <=? byte_of c) && (byte_of c <=? 57) then c
    else if 56 <=? byte_of (hex_digit h) then of_byte ((byte_of c - 32) mod 256) else c) &&
  shows d (eip55_char d h).

Lemma turns_ok d h : 0 ≤ d < 16 → 0 ≤ h < 16 → turn_ok d h = true.
Proof.
  intros Hd Hh. assert (forallb (turn_ok d) (seqZ 0 16) = true) as Hall.
  { revert d Hd. apply (all_digits (λ d, forallb (turn_ok d) (seqZ 0 16))).
    vm_compute. reflexivity. }
  rewrite forallb_forall in Hall. apply Hall, list_elem_of_In, elem_of_seqZ. lia.
Qed.

Lemma eip55_loop_text ds hs :
  Forall (λ d, 0 ≤ d < 16) ds → Forall (λ h, 0 ≤ h < 16) hs → (length ds ≤ length hs)%nat →
  eip55_loop (hex_digit <$> ds) (hex_digit <$> hs) = Some (zip_with eip55_char ds hs) ∧
  Forall2 (λ d c, shows d c = true) ds (zip_with eip55_char ds hs).
Proof.
  intros Hds. revert hs. induction Hds as [|d ds Hd Hds IH]; intros hs Hhs Hl; csimpl.
  { by split. }
  destruct Hhs as [|h hs Hh Hhs]; simpl in Hl; [lia|].
  destruct (IH hs Hhs ltac:(lia)) as [Hr Hf]. csimpl.
  pose proof (turns_ok d h Hd Hh) as Hok. unfold turn_ok in Hok.
  apply andb_true_iff in Hok as [Hc%bool_decide_eq_true Hs]. split; [|by constructor].
  rewrite Hr. rewrite Hc. by destruct (_ && _).
Qed.

Lemma hex_pairs_shows l out :
  Forall is_byte l → Forall2 (λ d c, shows d c = true) (nibbles_of l) out →
  hex_pairs out = Some l.
Proof.
  intros Hl. revert out. induction Hl as [|b l Hb Hl IH]; intros out Hf; simpl in Hf.
  { by inversion Hf. }
  inversion Hf as [|? c1 ? o1 H1 Hf1]; subst. inversion Hf1 as [|? c2 ? o2 H2 Hf2]; subst.
  unfold shows in H1, H2. apply andb_true_iff in H1 as [H1 _], H2 as [H2 _].
  simpl. destruct (hexNibble c1) as [n1|]; [|done]. destruct (hexNibble c2) as [n2|]; [|done].
  apply Z.eqb_eq in H1 as ->, H2 as ->. rewrite (IH _ Hf2). simpl. do 2 f_equal.
  unfold is_byte in Hb. rewrite join_nibbles_spec, <- Z.div_mod by
    (try apply Z.mod_pos_bound; try split; try apply Z.div_pos;
     try apply Z.div_lt_upper_bound; lia). done.
Qed.

Lemma string_of_chars l :
  String.list_ascii_of_string (String.string_of_list_ascii l) = l.
Proof. apply String.list_ascii_of_string_of_list_ascii. Qed.

(** Text of digits is parsed as an address whatever their case. *)
Lemma parse_shown addr out :
  length addr = 20%nat → Forall is_byte addr →
  Forall2 (λ d c, shows d c = true) (nibbles_of addr) out →
  parseEVMAddress ("0x" +:+ String.string_of_list_ascii out) = Ok addr.
Proof.
  intros Hlen Hb Hf. assert (length out = 40%nat) as Hout
    by (rewrite <- (Forall2_length _ _ _ Hf), nibbles_of_length; lia).
  set (s := "0x" +:+ String.string_of_list_ascii out).
  assert (strings_TrimSpace s = s) as Htrim.
  { apply strings_TrimSpace_stable. unfold trim_stable, s. rewrite string_bytes_app.
    change (string_bytes "0x") with [48; 120]. cbn [app].
    rewrite strip_one_edge by done. unfold string_bytes. rewrite string_of_chars.
    destruct out as [|z out _] using rev_ind; [done|].
    apply Forall2_app_inv_r in Hf as (d1 & d2 & _ & Hz & _).
    inversion Hz as [|d ? ? ? Hshow _]; subst. unfold shows in Hshow.
    apply andb_true_iff in Hshow as [_ Hedge]. rewrite fmap_app. cbn [fmap list_fmap].
    change (48 :: 120 :: (byte_of <$> out) ++ ?x) with ((48 :: 120 :: (byte_of <$> out)) ++ x).
    rewrite reverse_snoc. by rewrite strip_one_edge. }
  unfold parseEVMAddress. rewrite Htrim.
  assert (strings_HasPrefix s "0x" = true) as ->.
  { unfold strings_HasPrefix. apply prefix_spec. by eexists. }
  rewrite bool_decide_true.
  2:{ unfold s. rewrite string_app_length, string_of_list_length, Hout. done. }
  cbn [negb orb]. change (drop 2 (String.list_ascii_of_string s)) with
    (String.list_ascii_of_string (String.string_of_list_ascii out)).
  by rewrite string_of_chars, (hex_pairs_shows addr out).
Qed.

Lemma hex_lower l : Forall is_byte l → string_lower (hex_EncodeToString l) = hex_EncodeToString l.
Proof.
  induction 1 as [|b l Hb Hl IH]; [done|]. unfold is_byte in Hb. simpl.
  assert (∀ d, 0 ≤ d < 16 → ascii_lower (hex_digit d) = hex_digit d) as Hlow.
  { intros d Hd. pose proof (digits_ok d Hd) as Hok. unfold digit_ok in Hok.
    rewrite !andb_true_iff, bool_decide_eq_true in Hok. tauto. }
  rewrite IH, !Hlow; [done|apply Z.mod_pos_bound; lia|].
  split; [apply Z.div_pos; lia|apply Z.div_lt_upper_bound; lia].
Qed.

Lemma hex_no_prefix l :
  Forall is_byte l → strings_TrimPrefix (hex_EncodeToString l) "0x" = hex_EncodeToString l.
Proof.
  intros Hl. unfold strings_TrimPrefix.
  assert (strings_HasPrefix (hex_EncodeToString l) "0x" = false) as ->; [|done].
  apply not_true_iff_false. intros Hp. unfold strings_HasPrefix in Hp.
  apply prefix_spec in Hp as [t Ht]. destruct Hl as [|b l Hb Hl]; [done|].
  change ("0x" +:+ t) with (String "0" (String "x" t)) in Ht. injection Ht as _ Hx _.
  pose proof (digits_ok (b mod 16) (Z.mod_pos_bound b 16 ltac:(lia))) as Hok.
  unfold digit_ok in Hok. rewrite !andb_true_iff in Hok. destruct Hok as [[[_ Hne] _] _].
  by rewrite bool_decide_true in Hne by done.
Qed.

Lemma eip55_digits addr :
  length addr = 20%nat → Forall is_byte addr →
  let hash := Keccak256 (string_bytes (hex_EncodeToString addr)) in
  Forall (λ d, 0 ≤ d < 16) (nibbles_of addr) ∧ Forall (λ h, 0 ≤ h < 16) (nibbles_of hash) ∧
  (length (nibbles_of addr) ≤ length (nibbles_of hash))%nat.
Proof.
  intros Hlen Hb hash. destruct (Keccak256_bytes (string_bytes (hex_EncodeToString addr))).
  split_and!; [by apply nibbles_of_range..|]. unfold hash. rewrite !nibbles_of_length. lia.
Qed.

Lemma eip55Checksum_text addr :
  length addr = 20%nat → Forall is_byte addr →
  eip55Checksum (hex_EncodeToString addr) = Ok (eip55_text addr).
Proof.
  intros Hlen Hb. destruct (eip55_digits addr Hlen Hb) as (Hd & Hh & Hl).
  unfold eip55Checksum. rewrite hex_no_prefix, hex_lower, !hex_chars by done.
  by rewrite (proj1 (eip55_loop_text _ _ Hd Hh Hl)).
Qed.

Lemma eip55_text_parses addr :
  length addr = 20%nat → Forall is_byte addr → parseEVMAddress (eip55_text addr) = Ok addr.
Proof.
  intros Hlen Hb. destruct (eip55_digits addr Hlen Hb) as (Hd & Hh & Hl).
  apply parse_shown; [done|done|]. by apply eip55_loop_text.
Qed.
End checksum.

(** ** Bitcoin paths *)
Section paths.
Context `{CryptoLib}.

Lemma digit_edge c :
  is_digit c = true → not_space_edge (reverse <$> space_runes) (byte_of c) = true.
Proof.
  unfold is_digit. intros [Hlo%Z.leb_le Hhi%Z.leb_le]%andb_true_iff.
  assert (∀ b, 48 ≤ b ≤ 57 → not_space_edge (reverse <$> space_runes) b = true) as Hall.
  { intros b Hb. assert (b ∈ seqZ 48 10) as Hin by (apply elem_of_seqZ; lia).
    clear Hb. revert b Hin. apply Forall_forall, (bool_decide_unpack _). by vm_compute. }
  apply Hall. lia.
Qed.

Lemma btc_path_trimmed change index :
  0 ≤ index → strings_TrimSpace (btc_path change index) = btc_path change index.
Proof.
  intros Hi. apply strings_TrimSpace_stable. unfold trim_stable, btc_path.
  rewrite !string_bytes_app. change (string_bytes "m/84'/0'/0'/") with
    (109 :: string_bytes "/84'/0'/0'/"). cbn [app]. rewrite strip_one_edge by done.
  assert (∃ l c, string_bytes (pretty index) = l ++ [byte_of c] ∧ is_digit c = true)
    as (l & c & -> & Hc).
  { destruct index as [|p|p]; [by exists [], "0"%char| |lia].
    destruct (pretty_N_digits (N.pos p)) as [Hd Hne].
    change (pretty (Z.pos p)) with (pretty (N.pos p)). unfold string_bytes.
    remember (String.list_ascii_of_string (pretty (N.pos p))) as cs eqn:Hcs.
    destruct cs as [|c l _] using rev_ind.
    - by destruct (pretty (N.pos p)).
    - exists (byte_of <$> l), c. apply Forall_app in Hd as [_ Hd].
      split; [by rewrite fmap_app|by inversion Hd]. }
  rewrite !app_comm_cons, !app_assoc, reverse_snoc. rewrite strip_one_edge; [done|].
  by apply digit_edge.
Qed.

Lemma btc_path_split change index :
  strings_Split "/" (btc_path change index) =
    ["m"; "84'"; "0'"; "0'"; pretty change; pretty index].
Proof.
  unfold btc_path.
  change (strings_Split "/" ("m" +:+ String "/" ("84'" +:+ String "/" ("0'" +:+
    String "/" ("0'" +:+ String "/" (pretty change +:+ String "/" (pretty index)))))) =
    ["m"; "84'"; "0'"; "0'"; pretty change; pretty index]).
  rewrite !strings_Split_app, strings_Split_last by (done || by apply pretty_no_char). done.
Qed.

Lemma deriveChildPubKey_range xpub index change pub :
  deriveChildPubKey xpub index change = Ok pub → 0 ≤ index < 0x80000000.
Proof.
  unfold deriveChildPubKey. destruct (wrap_result _ _) as [acc|]; [|done]. simpl.
  destruct (nonHardened change) as [ci|]; [|done]. simpl.
  destruct (wrap_result _ (Derive acc ci)) as [br|]; [|done]. simpl.
  unfold nonHardened. destruct (_ || _) eqn:Hr; [done|]. intros _.
  apply orb_false_iff in Hr as [?%Z.ltb_ge ?%Z.leb_gt]. lia.
Qed.
End paths.

(** ** Theorems *)
Section theorems.
Context `{CryptoLib}.


Lemma copy_into_exact n l : length l = n → copy_into n l = l.
Proof. intros <-. unfold copy_into. apply take_app_length. Qed.

Lemma copy_into_short n l : (length l ≤ n)%nat →
  copy_into n l = l ++ replicate (n - length l) 0.
Proof.
  intros Hl. unfold copy_into. rewrite take_app_ge by done.
  by rewrite take_replicate, Nat.min_l by lia.
Qed.

(** The value of a coordinate's field: shifted by the missing bytes. *)
Lemma coordinate_field z :
  0 < z < 2 ^ 256 →
  be_value (copy_into 32 (big_Bytes z)) = z * 256 ^ Z.of_nat (32 - length (big_Bytes z)).
Proof.
  intros Hz. assert (length (big_Bytes z) ≤ 32)%nat as Hl.
  { apply big_Bytes_length. change (256 ^ Z.of_nat 32) with (2 ^ 256). lia. }
  rewrite copy_into_short, be_value_app, big_Bytes_value by done.
  rewrite be_value_zeros, length_replicate. lia.
Qed.

(** A coordinate of 32 bytes fills its field. *)
Lemma wide_field z :
  2 ^ 248 ≤ z < 2 ^ 256 → copy_into 32 (big_Bytes z) = be_bytes 32 z.
Proof.
  intros Hz. assert (byte_width z = 32%nat) as Hw.
  { unfold byte_width. rewrite (proj2 (Z.eqb_neq z 0)), Z.abs_eq by lia.
    assert (Z.log2 z / 8 = 31) as ->; [|done].
    pose proof (Z.log2_le_pow2 z 248 ltac:(lia)). pose proof (Z.log2_lt_pow2 z 256 ltac:(lia)).
    symmetry. apply Z.div_unique with (Z.log2 z - 248); lia. }
  rewrite copy_into_exact; unfold big_Bytes; rewrite Hw, ?Z.abs_eq by lia;
    [done|apply be_bytes_length].
Qed.

(** The account of a public key: the last twenty bytes of the Keccak hash of X and Y in
    32 bytes each. *)
Definition evm_account (p : PublicKey) : list byte :=
  drop 12 (Keccak256 (be_bytes 32 (PublicKey_X p) ++ be_bytes 32 (PublicKey_Y p))).

(** C36. A key with full-width coordinates gets its own address, and it can be paid.  For
    every public key the deriver gives an address, without a panic.  If both coordinates
    have 32 significant bytes, the text is the EIP-55 form of the account of the key
    (the last 20 bytes of the Keccak hash of X and Y, lower-case digits, the letters
    raised where the digit of the hash of the lower-case text is at least 8), and the
    parser of the withdrawal builder reads it back as that account.  For a shorter X the
    bytes hashed are not X and Y ([decompress_exact_iff_wide]), and nothing is claimed. *)
Theorem evm_address_correct p :
  ∃ s, evmAddressFromCompressedPubkey (SerializeCompressed p) = Ok s ∧
    (2 ^ 248 ≤ PublicKey_X p → 2 ^ 248 ≤ PublicKey_Y p →
      s = eip55_text (evm_account p) ∧ parseEVMAddress s = Ok (evm_account p)).
Proof.
  destruct (SerializeCompressed_bytes p) as [Hlen _].
  unfold evmAddressFromCompressedPubkey, decompressSecp256k1.
  rewrite Hlen, bool_decide_true, ParsePubKey_Serialize by done. simpl.
  set (pub := copy_into 32 _ ++ copy_into 32 _).
  destruct (Keccak256_bytes pub) as [Hk Hb].
  assert (length (drop 12 (Keccak256 pub)) = 20%nat) as Hl by (rewrite length_drop, Hk; done).
  assert (Forall is_byte (drop 12 (Keccak256 pub))) as Hd by by apply Forall_drop.
  exists (eip55_text (drop 12 (Keccak256 pub))). split; [by apply eip55Checksum_text|].
  intros Hx Hy. destruct (PublicKey_coords p) as [[_ ?] [_ ?]].
  assert (drop 12 (Keccak256 pub) = evm_account p) as Heq.
  { unfold evm_account, pub. by rewrite !wide_field by lia. }
  rewrite Heq in *. split; [done|]. by apply eip55_text_parses.
Qed.

(** Short coordinates are misplaced: the field for X in the decompressed
    key holds X exactly when X has all 32 bytes.  A smaller X is copied to the
    front of the field, so the field holds another number, and what the address is the
    hash of are not the coordinates of the key. *)
Theorem decompress_exact_iff_wide p :
  0 < PublicKey_X p →
  ∃ pub, decompressSecp256k1 (SerializeCompressed p) = Ok pub ∧
    (be_value (take 32 (drop 1 pub)) = PublicKey_X p ↔ 2 ^ 248 ≤ PublicKey_X p).
Proof.
  intros Hx. destruct (SerializeCompressed_bytes p) as [Hlen _].
  destruct (PublicKey_coords p) as [Hxb _].
  unfold decompressSecp256k1. rewrite Hlen, bool_decide_true, ParsePubKey_Serialize by done.
  cbn [negb wrap_result]. eexists. split; [done|].
  change (drop 1 (4 :: ?l)) with l.
  set (X := PublicKey_X p) in *. rewrite take_app_le
    by (unfold copy_into; rewrite length_take, length_app, length_replicate; lia).
  rewrite take_ge by (unfold copy_into; rewrite length_take; lia).
  rewrite coordinate_field by lia.
  assert (2 ^ 248 ≤ X → length (big_Bytes X) = 32%nat) as Hwide.
  { intros Hw. assert (length (big_Bytes X) ≤ 32)%nat.
    { apply big_Bytes_length. change (256 ^ Z.of_nat 32) with (2 ^ 256). lia. }
    destruct (decide (length (big_Bytes X) = 32%nat)) as [|Hne]; [done|].
    pose proof (be_value_bound (big_Bytes X) (be_bytes_range _ _)) as Hb.
    rewrite big_Bytes_value in Hb.
    assert (256 ^ Z.of_nat (length (big_Bytes X)) ≤ 256 ^ 31) by (apply Z.pow_le_mono_r; lia).
    change (256 ^ 31) with (2 ^ 248) in *. lia. }
  split.
  - intros Heq. destruct (Z.le_gt_cases (2 ^ 248) X) as [|Hs]; [done|].
    assert (length (big_Bytes X) ≤ 31)%nat.
    { apply big_Bytes_length. change (256 ^ Z.of_nat 31) with (2 ^ 248). lia. }
    assert (256 ^ 1 ≤ 256 ^ Z.of_nat (32 - length (big_Bytes X)))
      by (apply Z.pow_le_mono_r; lia). nia.
  - intros Hw. rewrite (Hwide Hw). simpl. lia.
Qed.

(** For a derived Bitcoin address, the stored path parses back to its branch
    and index, and the key hash at that path is the witness program of the
    address. *)
Lemma btc_derivation_keys reg index change r :
  derive_spec reg ChainBitcoin index change = Ok r → in_int64 index →
  ∃ hash pub, parseBTCPath (dr_DerivationPath r) = Ok (change, index) ∧
    BTCPubKeyHashFor reg (dr_DerivationPath r) = Ok (hash, pub) ∧
    hash = Hash160 pub ∧ bech32Address "bc" (0 :: hash) = Ok (dr_Address r) ∧
    change ∈ [0; 1] ∧ 0 ≤ index < 0x80000000.
Proof.
  unfold derive_spec. simpl. unfold btc_guard. simpl.
  destruct (negb (change =? 0) && negb (change =? 1)) eqn:Hch; [done|].
  destruct (Z.ltb_spec index 0) as [|Hi]; [done|].
  unfold BTC_deriveUncached. destruct (deriveChildPubKey _ _ _) as [pub|] eqn:Hpub; [|done].
  simpl. destruct (bech32Address _ _) as [addr|] eqn:Ha; [|done]. intros [= <-] Hidx. simpl.
  assert (change = 0 ∨ change = 1) as Hc.
  { destruct (Z.eqb_spec change 0); [by left|].
    destruct (Z.eqb_spec change 1); [by right|done]. }
  assert (parseBTCPath (btc_path change index) = Ok (change, index)) as Hparse.
  { unfold parseBTCPath. rewrite btc_path_trimmed, btc_path_split by done. simpl.
    assert (in_int64 change) by (unfold in_int64; lia).
    rewrite (strconv_Atoi_pretty change) by done. simpl.
    by rewrite (strconv_Atoi_pretty index). }
  exists (Hash160 (SerializeCompressed pub)), (SerializeCompressed pub).
  unfold BTCPubKeyHashFor. rewrite Hparse. simpl. unfold PubKeyHashFor. rewrite Hpub. simpl.
  rewrite copy_into_exact by apply Hash160_bytes. split_and!; [done..| | |];
    try (by apply (deriveChildPubKey_range _ _ _ _ Hpub)).
  - destruct Hc as [->| ->]; set_solver.
Qed.
End theorems.

(** ** Witnesses *)
Section witnesses.
#[local] Existing Instances ref_env ref_crypto.

Definition some_registry : Registry := MkRegistry "xpubE" "solKey" "xpubB".
Definition eth_deriver : Deriver :=
  MkDeriver (EVM_DeriveNext MemCache Hour "xpubE") (EVM_DeriveAt MemCache Hour "xpubE").
(** A cache with an entry of another program. *)
Definition shared_cache : World := set_cache {["other" := ("x", 0)]} initial_world.
Definition derived_once : World :=
  (DeriveAt eth_deriver uuid_Nil ChainEthereum 3 0 shared_cache).2.


Definition some_key : @PublicKey ref_crypto := true.

Lemma decompress_exact_iff_wide_witness :
  ∃ pub, decompressSecp256k1 (SerializeCompressed some_key) = Ok pub ∧
    (be_value (take 32 (drop 1 pub)) = PublicKey_X some_key ↔ 2 ^ 248 ≤ PublicKey_X some_key).
Proof. apply (decompress_exact_iff_wide some_key). reflexivity. Defined.

Lemma evm_address_correct_witness :
  ∃ s, evmAddressFromCompressedPubkey (SerializeCompressed some_key) = Ok s ∧
    s = eip55_text (evm_account some_key) ∧ parseEVMAddress s = Ok (evm_account some_key).
Proof.
  destruct (evm_address_correct some_key) as (s & Hs & Hw). exists s. split; [done|].
  apply Hw; vm_compute; discriminate.
Defined.

End witnesses.
