(* ===== verification/Wallet.v ===== *)
(** * Wallet: [internal/wallet/service.go] and [internal/wallet/rotation.go]

    The wallet life cycle and the rotation of receive addresses. *)
From stdpp Require Import base tactics numbers gmap strings pretty list.
From Stdlib Require Import ZArith Lia.
From S2P Require Import Prelude.
From S2P Require Import GoLang.
From S2P Require Import GoText.
From S2P Require Import Crypto.
From S2P Require Import Domain.
From S2P Require Import Evm.
From S2P Require Import Config.
From S2P Require Import World.
From S2P Require Import Reference.
From S2P Require Import MemStore.
From S2P Require Import MemStoreFacts.
From S2P Require Import MemStoreFrames.
From S2P Require Import MemStoreProps.
From S2P Require Import Lock.
From S2P Require Import AuditOutbox.
From S2P Require Import Cache.
From S2P Require Import Deriver.

#[local] Open Scope string_scope.
#[local] Open Scope list_scope.
#[local] Open Scope Z_scope.

(** [time.Since]: a difference of times saturates at the range of a duration. *)
Definition time_Sub (t u : time) : duration := Z.max (- 2 ^ 63) (Z.min (2 ^ 63 - 1) (t - u)).

Section wallet.
Context `{GoRuntime} `{UUIDLib} `{Environment} `{CryptoLib}.
(** The fields of the service; [sleep] is what the others do meanwhile. *)
Context (c : Cache) (reg : Registry) (L : Locker) (sleep : Go unit).
Context (em : option Emitter) (cfg : Config).

Definition ttl : duration := cf_DerivationCacheTTL cfg.

(** ** The service *)
Definition Wallet_Create (req : CreateRequest) : Go Wallet :=
  if negb (ValidChain (cr_Chain req)) then
    throw (ErrNew ("unsupported chain " +:+ quote (cr_Chain req)))
  else if negb (ValidWalletType (cr_Type req)) then
    throw (ErrNew ("unsupported wallet type " +:+ quote (cr_Type req)))
  else if cr_Label req =s "" then throw (ErrNew "label is required")
  else
    keyID ← (if cr_KeyID req =s "" then
               u ← uuid_New; mret ("pending:" +:+ uuid_String u)
             else mret (cr_KeyID req));
    now ← time_Now;
    walletID ← uuid_New;
    let w := MkWallet walletID (cr_Chain req) (cr_Type req) (cr_Label req)
      WalletStateActive keyID "mpc" None None now now in
    wrap_err "create wallet" (CreateWallet w);;
    emit em (MkEvent "wallet.created" (Some walletID)
      [("chain", AString (w_Chain w)); ("type", AString (w_Type w));
       ("label", AString (w_Label w)); ("key_id", AString (w_KeyID w))]);;
    mret w.

Definition Wallet_Get (id : uuid) : Go Wallet := GetWallet id.

Definition SetState (id : uuid) (state : string) : Go unit :=
  if negb (ValidWalletState state) then throw (ErrNew ("invalid state " +:+ quote state))
  else
    w ← GetWallet id;
    if (w_State w =s WalletStateRetired) && negb (state =s WalletStateRetired) then
      throw (ErrNew "cannot un-retire a wallet")
    else
      UpdateWalletState id state;;
      emit em (MkEvent "wallet.state_changed" (Some id)
        [("from", AString (w_State w)); ("to", AString state)]).

Definition Wallet_List (chain wtype state : string) : Go (list Wallet) :=
  ListWallets chain wtype state.

Definition Wallet_ListAddresses (walletID : uuid) : Go (list Address) :=
  ListAddresses walletID.

(** ** Rotation *)
Definition addr_lock (w : Wallet) : string := "addr:" +:+ uuid_String (w_ID w).

(** [defer func() { _ = p.Locker.Release(ctx, lockName, token) }()]. *)
Definition releasing {A} (name token : string) (m : Go A) : Go A :=
  r ← attempt m;
  ignore (Release L name token);;
  of_result r.

Definition shouldRotate (w : Wallet) (a : Address) : Go bool :=
  let days := match w_RotationDays w with
              | Some d => d
              | None => cf_DefaultRotationDays cfg
              end in
  old ← (if 0 <? days then
           now ← time_Now;
           mret (int64 (days * 24 * Hour) <? time_Sub now (a_CreatedAt a))
         else mret false);
  mret (old || match w_RotationAfterReceives w with
               | Some n => n <=? a_ReceiveCount a
               | None => false
               end).

Definition deriveNew (w : Wallet) : Go Address :=
  d ← of_result (For c ttl reg (w_Chain w));
  let change := 0 in
  idx ← wrap_err "next index" (NextAddressIndex (w_Chain w) change);
  when (w_Chain w =s ChainSolana)
    (addrs ← attempt (ListAddresses (w_ID w));
     match addrs with
     | Ok (a :: _) => DeprecateAddress (a_ID a)
     | _ => mret tt
     end);;
  res ← wrap_err "derive" (DeriveAt d (w_ID w) (w_Chain w) idx change);
  addrID ← uuid_New;
  now ← time_Now;
  let addr := MkAddress addrID (w_ID w) (w_Chain w) (dr_Address res)
    (dr_DerivationPath res) (dr_Index res) (dr_Change res) AddressStateActive 0 now in
  wrap_err "insert address" (InsertAddress addr);;
  emit em (MkEvent "wallet.address.derived" (Some (w_ID w))
    [("address", AString (a_Address addr)); ("index", AInt (a_Index addr));
     ("path", AString (a_DerivationPath addr))]);;
  mret addr.

Definition rotate (w : Wallet) (old : Address) : Go Address :=
  '(token, ok) ← wrap_err "acquire rotation lock" (Acquire L (addr_lock w) 10000000000);
  if negb ok then throw (ErrNew "rotation already in progress")
  else releasing (addr_lock w) token (
    wrap_err "deprecate old address" (DeprecateAddress (a_ID old));;
    addr ← deriveNew w;
    emit em (MkEvent "wallet.address.rotated" (Some (w_ID w))
      [("old_address", AString (a_Address old)); ("new_address", AString (a_Address addr));
       ("index", AInt (a_Index addr))]);;
    mret addr).

(** [i] attempts are left. *)
Fixpoint deriveNewLocked_loop (i : nat) (w : Wallet) : Go Address :=
  match i with
  | O => throw (ErrNew "rotation already in progress")
  | S i =>
      '(token, ok) ← wrap_err "acquire rotation lock"
        (Acquire L (addr_lock w) 10000000000);
      r ← attempt (GetActiveAddress (w_ID w));
      if ok : bool then
        match r with
        | Ok active => ignore (Release L (addr_lock w) token);; mret active
        | Err e =>
            if errors_Is e ErrNoRows then releasing (addr_lock w) token (deriveNew w)
            else ignore (Release L (addr_lock w) token);; throw e
        end
      else
        match r with
        | Ok active => mret active
        | Err e =>
            if errors_Is e ErrNoRows then sleep;; deriveNewLocked_loop i w else throw e
        end
  end.

Definition deriveNewLocked (w : Wallet) : Go Address := deriveNewLocked_loop 20 w.

Definition CurrentOrRotate (walletID : uuid) : Go Address :=
  w ← GetWallet walletID;
  if w_State w =s WalletStateRetired then throw ErrWalletRetired
  else
    r ← attempt (GetActiveAddress walletID);
    match r with
    | Err e => if errors_Is e ErrNoRows then deriveNewLocked w else throw e
    | Ok active =>
        b ← shouldRotate w active;
        if b : bool then rotate w active else mret active
    end.

Definition ForceRotate (walletID : uuid) : Go Address :=
  w ← GetWallet walletID;
  if w_State w =s WalletStateRetired then throw ErrWalletRetired
  else
    r ← attempt (GetActiveAddress walletID);
    match r with
    | Ok active => rotate w active
    | Err e =>
        if errors_Is e ErrNoRows then
          '(token, ok) ← wrap_err "acquire rotation lock"
            (Acquire L (addr_lock w) 10000000000);
          if negb ok then throw (ErrNew "rotation already in progress")
          else releasing (addr_lock w) token (deriveNew w)
        else throw e
    end.

Definition DeriveAddress (walletID : uuid) (force : bool) : Go Address :=
  if force then ForceRotate walletID else CurrentOrRotate walletID.
End wallet.

(** ** Lemmas *)
Section facts.
Context `{GoRuntime} `{UUIDLib} `{Environment} `{CryptoLib}.
Context (c : Cache) `{!CacheLaws c} (reg : Registry) (L : Locker) `{!LockerLaws L}.
Context (sleep : Go unit) (em : option Emitter) `{!EmitterLaws em} (cfg : Config).

Lemma within_releasing (R : relation World) `{!FrameRel R} {A} name tok (m : Go A) :
  within R m → within R (releasing L name tok m).
Proof. intros Hm. unfold releasing. solve_within. Qed.

Lemma shouldRotate_reads (R : relation World) `{!FrameRel R} w a :
  within R (shouldRotate cfg w a).
Proof. unfold shouldRotate. solve_within. Qed.

(** Solana: the first address is deprecated before a new one is stored. *)
Definition solana_step (w : Wallet) : Go unit :=
  when (w_Chain w =s ChainSolana)
    (addrs ← attempt (ListAddresses (w_ID w));
     match addrs with
     | Ok (a :: _) => DeprecateAddress (a_ID a)
     | _ => mret tt
     end).

Lemma solana_step_ok w : within keeps_ok (solana_step w).
Proof. pose proof DeprecateAddress_ok. unfold solana_step. solve_within. Qed.

Lemma deriveNew_keeps w : within keeps_ok (deriveNew c reg em cfg w).
Proof.
  unfold deriveNew. pose proof InsertAddress_ok as Hi. pose proof (solana_step_ok w) as Hs.
  fold (solana_step w). intros w0. unfold mbind at 1, GoM_bind at 1, of_result.
  destruct (For c (ttl cfg) reg (w_Chain w)) as [d|e] eqn:Hd; [|by intros ?].
  assert (∀ idx, within keeps_ok (DeriveAt d (w_ID w) (w_Chain w) idx 0)) as Hat.
  { intros idx. eapply DeriveAt_frame; [apply _|apply _|exact Hd]. }
  revert w0. cbv beta iota zeta. solve_within.
Qed.

Lemma rotate_keeps w old : within keeps_ok (rotate c reg L em cfg w old).
Proof.
  pose proof DeprecateAddress_ok. pose proof deriveNew_keeps. unfold rotate, releasing.
  solve_within.
Qed.

Lemma deriveNewLocked_keeps i w :
  within keeps_ok sleep → within keeps_ok (deriveNewLocked_loop c reg L sleep em cfg i w).
Proof.
  intros Hs. pose proof deriveNew_keeps. induction i; simpl; unfold releasing; solve_within.
Qed.

Lemma DeriveAddress_keeps id force :
  within keeps_ok sleep → within keeps_ok (DeriveAddress c reg L sleep em cfg id force).
Proof.
  intros Hs. pose proof deriveNew_keeps. pose proof rotate_keeps.
  pose proof (λ i w, deriveNewLocked_keeps i w Hs). pose proof @shouldRotate_reads.
  unfold DeriveAddress, ForceRotate, CurrentOrRotate, deriveNewLocked, releasing.
  destruct force; solve_within.
Qed.

(** ** What a derivation stores *)

(** The same addresses, up to their state. *)
Definition same_but_state (w w' : World) : Prop :=
  ∀ k, option_Forall2 (λ a b, with_address_state "" b = with_address_state "" a)
    (addresses (store w) !! k) (addresses (store w') !! k).

Lemma option_Forall2_refl {A} (P : A → A → Prop) o :
  (∀ a, P a a) → option_Forall2 P o o.
Proof. intros Hp. destruct o; by constructor. Qed.

#[export] Instance same_but_state_rel : StoreRel same_but_state.
Proof.
  split; [split|]; unfold same_but_state.
  - intros w k. by apply option_Forall2_refl.
  - intros x y z Hxy Hyz k. specialize (Hxy k). specialize (Hyz k).
    destruct Hxy; inversion Hyz; subst; constructor. congruence.
  - intros w w' -> k. by apply option_Forall2_refl.
Qed.

Lemma DeprecateAddress_same i : within same_but_state (DeprecateAddress i).
Proof.
  intros w k. unfold DeprecateAddress. go_run.
  destruct (addresses (store w) !! i) as [a|] eqn:Ha; simpl;
    [|by apply option_Forall2_refl].
  rewrite lookup_insert. case_decide; [subst; rewrite Ha; by constructor|].
  by apply option_Forall2_refl.
Qed.

Lemma same_but_state_index w w' k b :
  same_but_state w w' → addresses (store w) !! k = Some b →
  ∃ b', addresses (store w') !! k = Some b' ∧ a_Chain b' = a_Chain b ∧
    a_Change b' = a_Change b ∧ a_Index b' = a_Index b.
Proof.
  intros Hs Hb. specialize (Hs k). rewrite Hb in Hs.
  inversion Hs as [? b' Heq Hx Hy|]; subst. exists b'. split; [done|].
  by injection Heq as.
Qed.

Lemma InsertAddress_inv a w w' :
  InsertAddress a w = (Ok tt, w') → time_IsZero (a_CreatedAt a) = false →
  addresses (store w) !! a_ID a = None ∧
  addresses (store w') = <[a_ID a := a]> (addresses (store w)).
Proof.
  unfold InsertAddress. go_run. intros Hr Hz. rewrite Hz in Hr.
  destruct (addresses (store w) !! a_ID a) eqn:Ha; [done|].
  destruct (_ && _); [done|]. injection Hr as <-. simpl. by destruct a.
Qed.

Lemma emit_addresses ev w w' : emit em ev w = (Ok tt, w') →
  addresses (store w') = addresses (store w).
Proof.
  intros He. destruct (emit_run em ev w) as (w1 & He1 & [(o & q & Hs) _]).
  rewrite He in He1. injection He1 as <-. by rewrite Hs.
Qed.

Lemma DeriveAt_index d wid chain idx ch w r w' :
  For c (ttl cfg) reg chain = Ok d → chain ≠ ChainSolana →
  DeriveAt d wid chain idx ch w = (Ok r, w') → dr_Index r = idx ∧ dr_Change r = ch.
Proof.
  intros Hd Hns. unfold For in Hd. destruct (IsEVM chain) eqn:He.
  - injection Hd as <-. simpl. unfold EVM_DeriveAt. rewrite He. cbn [negb].
    destruct (negb _); [done|]. destruct (_ <? _); [done|].
    intros (addr & w1 & _ & Hr)%bind_inv. by injection Hr as <- _.
  - rewrite bool_decide_false in Hd by done.
    destruct (chain =s ChainBitcoin); [|done]. injection Hd as <-. simpl.
    unfold BTC_DeriveAt. destruct (btc_guard chain ch); [done|].
    destruct (_ <? _); [done|]. intros (addr & w1 & _ & Hr)%bind_inv.
    by injection Hr as <- _.
Qed.

Lemma deriveNew_stores W w a w' :
  (∀ n, time_IsZero (clock n) = false) → deriveNew c reg em cfg W w = (Ok a, w') →
  addresses (store w') !! a_ID a = Some a ∧ active_of (w_ID W) a = true ∧
  addresses (store w) !! a_ID a = None ∧
  (w_Chain W ≠ ChainSolana → a_Chain a = w_Chain W ∧ a_Change a = 0 ∧
    a_Index a = int64 (max_index (w_Chain W) 0 (addresses (store w)) + 1)).
Proof.
  intros Hclock. unfold deriveNew. fold (solana_step W).
  intros (d & w1 & Hd & Hr)%bind_inv. injection Hd as Hd <-.
  apply bind_inv in Hr as (idx & w2 & Hi & Hr). apply wrap_err_inv in Hi.
  assert (NextAddressIndex (w_Chain W) 0 w =
    (Ok (int64 (max_index (w_Chain W) 0 (addresses (store w)) + 1)), w)) as Hnext by done.
  rewrite Hnext in Hi. injection Hi as <- <-.
  apply (bind_inv (solana_step W)) in Hr as ([] & w3 & Hs & Hr).
  apply bind_inv in Hr as (res & w4 & Hat & Hr). apply wrap_err_inv in Hat.
  apply bind_inv in Hr as (aid & w5 & Hu & Hr). injection Hu as <- <-.
  apply bind_inv in Hr as (now & w6 & Hn & Hr). injection Hn as <- <-.
  apply bind_inv in Hr as ([] & w7 & Hins & Hr). apply wrap_err_inv in Hins.
  apply bind_inv in Hr as ([] & w8 & He & Hr). injection Hr as <- <-.
  apply InsertAddress_inv in Hins as [Hnone Hadd]; [|apply Hclock].
  apply emit_addresses in He. rewrite He, Hadd, lookup_insert_eq. simpl in *.
  assert (same_but_state w w3) as Hsame.
  { assert (within same_but_state (solana_step W)) as Hw.
    { pose proof DeprecateAddress_same. unfold solana_step. solve_within. }
    specialize (Hw w). by rewrite Hs in Hw. }
  assert (store w4 = store w3) as Hst.
  { pose proof (DeriveAt_frame c (ttl cfg) reg (unchanged (λ s, s)) d (w_ID W) (w_Chain W)
      (int64 (max_index (w_Chain W) 0 (addresses (store w)) + 1)) 0 Hd w3) as Hf.
    by rewrite Hat in Hf. }
  split_and!; [done|..].
  - unfold active_of. simpl. by rewrite !bool_decide_true.
  - rewrite Hst in Hnone. specialize (Hsame (new_uuid (ids w4))).
    rewrite Hnone in Hsame. by inversion Hsame.
  - intros Hns. destruct (DeriveAt_index _ _ _ _ _ _ _ _ Hd Hns Hat) as [-> ->]. done.
Qed.

Lemma releasing_inv {A} name tok (m : Go A) w a w' :
  releasing L name tok m w = (Ok a, w') →
  ∃ w1, m w = (Ok a, w1) ∧ store w' = store w1.
Proof.
  unfold releasing. go_run. destruct (m w) as [r w1]. simpl.
  pose proof (release_store (LockerLaws := _) name tok w1) as Hs.
  destruct (Release L name tok w1) as [r' w2]. simpl in *. intros [= -> <-]. eauto.
Qed.

(** The address is stored and active for the wallet. *)
Definition stored (wid : uuid) (a : Address) (w : World) : Prop :=
  addresses (store w) !! a_ID a = Some a ∧ active_of wid a = true.

(** The address is new, and past every index used on its chain. *)
Definition fresh (W : Wallet) (a : Address) (w : World) : Prop :=
  addresses (store w) !! a_ID a = None ∧
  (w_Chain W ≠ ChainSolana → ∀ i b, addresses (store w) !! i = Some b →
    a_Chain b = w_Chain W → a_Change b = 0 → a_Index b < a_Index a).

(** No index is about to overflow. *)
Definition indices_bounded (w : World) : Prop :=
  ∀ i b, addresses (store w) !! i = Some b → a_Index b < 2 ^ 63 - 1.

Lemma same_but_state_bounded w w' :
  same_but_state w w' → indices_bounded w → indices_bounded w'.
Proof.
  intros Hs Hb i b Hi. specialize (Hs i). rewrite Hi in Hs.
  inversion Hs as [a ? Heq Ha|]; subst. injection Heq as _ _ _ _ _ -> _ _ _.
  by apply (Hb i).
Qed.

Lemma same_but_state_fresh W a w w' :
  same_but_state w w' → fresh W a w' → fresh W a w.
Proof.
  intros Hs [Hn Hi]. split.
  - specialize (Hs (a_ID a)). rewrite Hn in Hs. by inversion Hs.
  - intros Hns i b Hb Hc Hg.
    destruct (same_but_state_index w w' i b Hs Hb) as (b' & Hb' & Ec & Eg & Ei).
    rewrite <- Ei. apply (Hi Hns i b' Hb'); congruence.
Qed.

Lemma deriveNew_fresh W w a w' :
  (∀ n, time_IsZero (clock n) = false) → indices_bounded w →
  deriveNew c reg em cfg W w = (Ok a, w') → stored (w_ID W) a w' ∧ fresh W a w.
Proof.
  intros Hclock Hb Hr. destruct (deriveNew_stores W w a w' Hclock Hr)
    as (Hs & Hact & Hnone & Hidx). split; [done|]. split; [done|].
  intros Hns i b Hi Hc Hg. destruct (Hidx Hns) as (_ & _ & ->).
  by eapply next_index_above.
Qed.

Lemma rotate_fresh W old w a w' :
  (∀ n, time_IsZero (clock n) = false) → indices_bounded w →
  rotate c reg L em cfg W old w = (Ok a, w') → stored (w_ID W) a w' ∧ fresh W a w.
Proof.
  intros Hclock Hb. unfold rotate.
  intros ([tok ok] & w1 & Ha & Hr)%bind_inv. apply wrap_err_inv in Ha.
  pose proof (acquire_store (LockerLaws := _) (addr_lock W) 10000000000 w) as Hs1.
  rewrite Ha in Hs1. simpl in Hs1. destruct ok; [|done]. cbn [negb] in Hr.
  apply releasing_inv in Hr as (w2 & Hr & Hs2).
  apply bind_inv in Hr as ([] & w3 & Hd & Hr). apply wrap_err_inv in Hd.
  apply bind_inv in Hr as (a' & w4 & Hn & Hr).
  apply bind_inv in Hr as ([] & w5 & He & Hr). injection Hr as -> <-.
  assert (same_but_state w w3) as Hsame.
  { etrans; [apply store_rel_same, Hs1|].
    pose proof (DeprecateAddress_same (a_ID old) w1) as Hx. by rewrite Hd in Hx. }
  destruct (deriveNew_fresh W w3 a w4 Hclock) as [[Hst Hact] Hf];
    [by eapply same_but_state_bounded|done|].
  split; [|by eapply same_but_state_fresh]. split; [|done].
  by rewrite Hs2, (emit_addresses _ _ _ He).
Qed.

Lemma GetActiveAddress_same wid w : (GetActiveAddress wid w).2 = w.
Proof. unfold GetActiveAddress. go_run. by destruct (range_find _ _). Qed.

Lemma GetActiveAddress_stored wid w a w' :
  store_ok (store w) → GetActiveAddress wid w = (Ok a, w') → w' = w ∧ stored wid a w.
Proof.
  intros Hok. unfold GetActiveAddress. go_run.
  destruct (range_find _ _) as [b|] eqn:Hf; [|done]. intros [= <- <-].
  apply range_find_Some in Hf as [Hp [k Hk]]. split; [done|]. split; [|done].
  by rewrite (proj1 (ok_addresses _ Hok) _ _ Hk).
Qed.

Lemma stored_store wid a w w' : store w' = store w → stored wid a w → stored wid a w'.
Proof. unfold stored. by intros ->. Qed.

Lemma deriveNewLocked_stored i W w a w' :
  (∀ n, time_IsZero (clock n) = false) → within keeps_ok sleep → store_ok (store w) →
  deriveNewLocked_loop c reg L sleep em cfg i W w = (Ok a, w') → stored (w_ID W) a w'.
Proof.
  intros Hclock Hsleep. revert w. induction i as [|i IH]; intros w Hok; [done|]. simpl.
  intros ([tok ok] & w1 & Ha & Hr)%bind_inv. apply wrap_err_inv in Ha.
  pose proof (acquire_store (LockerLaws := _) (addr_lock W) 10000000000 w) as Hs1.
  rewrite Ha in Hs1. simpl in Hs1.
  assert (store_ok (store w1)) as Hok1 by by rewrite Hs1.
  apply bind_inv in Hr as (r & w2 & Hg & Hr). unfold attempt in Hg.
  destruct (GetActiveAddress (w_ID W) w1) as [r' w2'] eqn:Hga. injection Hg as -> ->.
  assert (w2 = w1) as -> by (pose proof (GetActiveAddress_same (w_ID W) w1) as Hx;
    by rewrite Hga in Hx).
  destruct r as [b|e].
  - destruct (GetActiveAddress_stored _ _ _ _ Hok1 Hga) as [_ Hst].
    destruct ok.
    + apply bind_inv in Hr as ([] & w3 & Hrel & Hr). injection Hr as <- <-.
      apply (stored_store _ _ w1); [|done]. unfold ignore in Hrel.
      pose proof (release_store (LockerLaws := _) (addr_lock W) tok w1) as Hx.
      destruct (Release L (addr_lock W) tok w1). by injection Hrel as <-.
    + injection Hr as <- <-. done.
  - destruct ok, (errors_Is e ErrNoRows); try done.
    + apply releasing_inv in Hr as (w3 & Hr & Hs3).
      apply deriveNew_stores in Hr as (Hst & Hact & _); [|done].
      by apply (stored_store _ _ w3).
    + apply bind_inv in Hr as ([] & w3 & Hrel & Hr). done.
    + apply bind_inv in Hr as ([] & w3 & Hsl & Hr). apply (IH w3); [|done].
      pose proof (Hsleep w1 Hok1) as Hx. by rewrite Hsl in Hx.
Qed.
End facts.

(** ** Retirement *)
Section retirement.
Context `{GoRuntime} `{UUIDLib} `{Environment} `{CryptoLib}.
Context (c : Cache) `{!CacheLaws c} (reg : Registry) (L : Locker) `{!LockerLaws L}.
Context (sleep : Go unit) (em : option Emitter) `{!EmitterLaws em} (cfg : Config).
Context (Hsleep : within (unchanged wallets) sleep).

Definition retired (id : uuid) (s : Store) : Prop :=
  ∃ W, wallets s !! id = Some W ∧ w_State W = WalletStateRetired.

Definition keeps_retired (id : uuid) : relation World :=
  inv_rel (λ w, retired id (store w)).

#[export] Instance keeps_retired_rel id : StoreRel (keeps_retired id).
Proof. apply inv_rel_store_rel. Qed.

Lemma unchanged_retired id {A} (m : Go A) :
  within (unchanged wallets) m → within (keeps_retired id) m.
Proof. intros Hm w (W & HW & Hs). exists W. by rewrite (Hm w). Qed.

Lemma DeriveAddress_wallets wid force :
  within (unchanged wallets) (DeriveAddress c reg L sleep em cfg wid force).
Proof.
  assert (∀ W, within (unchanged wallets) (deriveNew c reg em cfg W)) as Hn.
  { intros W w0. unfold deriveNew. unfold mbind at 1, GoM_bind at 1, of_result.
    destruct (For c (ttl cfg) reg (w_Chain W)) as [d|e] eqn:Hd; [|done].
    assert (∀ idx, within (unchanged wallets) (DeriveAt d (w_ID W) (w_Chain W) idx 0)) as Hat.
    { intros idx. eapply DeriveAt_frame; [apply _|apply _|exact Hd]. }
    revert w0. cbv beta iota zeta. solve_within. }
  assert (∀ i W, within (unchanged wallets)
    (deriveNewLocked_loop c reg L sleep em cfg i W)) as Hl.
  { intros i W. induction i; simpl; unfold releasing; solve_within. }
  pose proof @shouldRotate_reads as Hsr.
  unfold DeriveAddress, ForceRotate, CurrentOrRotate, deriveNewLocked, rotate, releasing.
  destruct force; solve_within.
Qed.

Lemma emit_wallets ev : within (unchanged wallets) (emit em ev).
Proof. apply within_emit; [apply _|apply _|by intros ??..]. Qed.

Lemma CreateWallet_retired id x : within (keeps_retired id) (CreateWallet x).
Proof.
  intros w (W & HW & Hs). unfold CreateWallet. go_run.
  destruct (wallets (store w) !! w_ID x) eqn:Hx; [by exists W|].
  destruct (time_IsZero _); simpl; exists W; simpl;
    (rewrite lookup_insert_ne by congruence); done.
Qed.

Lemma Wallet_Create_retired id req : within (keeps_retired id) (Wallet_Create em req).
Proof.
  pose proof (CreateWallet_retired id). pose proof (λ ev, unchanged_retired id _ (emit_wallets ev)).
  unfold Wallet_Create. solve_within.
Qed.

Lemma SetState_retired id id' st : within (keeps_retired id) (SetState em id' st).
Proof.
  intros w (W & HW & Hs). unfold SetState.
  destruct (negb (ValidWalletState st)); [by exists W|].
  unfold mbind at 1, GoM_bind at 1, GetWallet. go_run.
  destruct (wallets (store w) !! id') as [W'|] eqn:HW'; [|by exists W].
  destruct ((w_State W' =s WalletStateRetired) && negb (st =s WalletStateRetired)) eqn:Hg;
    [by exists W|].
  unfold UpdateWalletState. go_run. rewrite HW'. simpl.
  match goal with |- context [emit em ?ev ?w0] =>
    pose proof (emit_wallets ev w0) as He; destruct (emit em ev w0) as [r w1] end.
  unfold unchanged in He. simpl in *. unfold retired. rewrite He.
  destruct (decide (id' = id)) as [->|Hne].
  - rewrite lookup_insert_eq. eexists. split; [done|]. simpl.
    assert (W' = W) as -> by congruence. rewrite Hs in Hg. simpl in Hg.
    apply negb_false_iff, bool_decide_eq_true in Hg. done.
  - rewrite lookup_insert_ne by done. by exists W.
Qed.

(** The wallet service at work among others that leave the wallets alone. *)
Inductive wallet_step (w : World) : World → Prop :=
  | wl_create req : wallet_step w (Wallet_Create em req w).2
  | wl_state id st : wallet_step w (SetState em id st w).2
  | wl_derive id force : wallet_step w (DeriveAddress c reg L sleep em cfg id force w).2
  | wl_other w' : wallets (store w') = wallets (store w) → wallet_step w w'.

Lemma wallet_step_retired id w w' :
  wallet_step w w' → retired id (store w) → retired id (store w').
Proof.
  intros Hst Hr. destruct Hst as [req|id' st|id' force|w' Hw].
  - by apply Wallet_Create_retired.
  - by apply SetState_retired.
  - by apply (unchanged_retired id _ (DeriveAddress_wallets id' force)).
  - destruct Hr as (W & HW & Hs). exists W. by rewrite Hw.
Qed.

(** Retirement is final.  Once a wallet is RETIRED, whatever the wallet
    service is asked to do, its row stays RETIRED, no state change brings it
    back, and deriving or rotating an address for it fails with
    [ErrWalletRetired] and changes nothing. *)
Theorem retirement_final id w w' :
  retired id (store w) → rtc wallet_step w w' →
  retired id (store w') ∧
  (∀ force, DeriveAddress c reg L sleep em cfg id force w' = (Err ErrWalletRetired, w')) ∧
  ∀ st, st ≠ WalletStateRetired → ∃ e, SetState em id st w' = (Err e, w').
Proof.
  intros Hr Hst. assert (retired id (store w')) as Hr'
    by (induction Hst; eauto using wallet_step_retired).
  split; [done|]. destruct Hr' as (W & HW & Hs). split.
  - intros []; simpl; unfold ForceRotate, CurrentOrRotate;
      rewrite (bind_Ok _ _ _ _ _ (GetWallet_run _ _ _ HW)), bool_decide_true; done.
  - intros st Hne. unfold SetState. destruct (negb (ValidWalletState st)); [by eexists|].
    rewrite (bind_Ok _ _ _ _ _ (GetWallet_run _ _ _ HW)).
    rewrite bool_decide_true, bool_decide_false by done. by eexists.
Qed.
End retirement.

(** ** Theorems *)
Section theorems.
Context `{GoRuntime} `{UUIDLib} `{Environment} `{CryptoLib}.
Context (c : Cache) `{!CacheLaws c} (reg : Registry) (L : Locker) `{!LockerLaws L}.
Context (sleep : Go unit) (em : option Emitter) `{!EmitterLaws em} (cfg : Config).

Lemma ForceRotate_fresh wid w a w' W :
  (∀ n, time_IsZero (clock n) = false) → indices_bounded w →
  wallets (store w) !! wid = Some W → w_ID W = wid →
  ForceRotate c reg L em cfg wid w = (Ok a, w') → stored wid a w' ∧ fresh W a w.
Proof.
  intros Hclock Hb HW Hid. unfold ForceRotate.
  rewrite (bind_Ok _ _ _ _ _ (GetWallet_run _ _ _ HW)).
  destruct (w_State W =s WalletStateRetired); [done|].
  intros (r & w1 & Hg & Hr)%bind_inv. unfold attempt in Hg.
  pose proof (GetActiveAddress_same wid w) as Hsame.
  destruct (GetActiveAddress wid w) as [r' w1']. simpl in Hsame. injection Hg as -> ->.
  subst w1. rewrite <- Hid. destruct r as [old|e]; [by eapply rotate_fresh|].
  destruct (errors_Is e ErrNoRows); [|done].
  apply bind_inv in Hr as ([tok ok] & w2 & Ha & Hr). apply wrap_err_inv in Ha.
  pose proof (acquire_store (LockerLaws := _) (addr_lock W) 10000000000 w) as Hs1.
  rewrite Ha in Hs1. simpl in Hs1. destruct ok; [|done]. cbn [negb] in Hr.
  apply releasing_inv in Hr as (w3 & Hr & Hs3); [|done].
  destruct (deriveNew_fresh c reg em cfg W w2 a w3 Hclock) as [Hst Hf]; [|done|].
  - unfold indices_bounded. by rewrite Hs1.
  - split; [by apply (stored_store _ _ w3)|]. eapply same_but_state_fresh; [|exact Hf].
    by apply store_rel_same.
Qed.

Lemma CurrentOrRotate_stored wid w a w' W :
  (∀ n, time_IsZero (clock n) = false) → within keeps_ok sleep → store_ok (store w) →
  indices_bounded w → wallets (store w) !! wid = Some W → w_ID W = wid →
  CurrentOrRotate c reg L sleep em cfg wid w = (Ok a, w') → stored wid a w'.
Proof.
  intros Hclock Hs Hok Hb HW Hid. unfold CurrentOrRotate.
  rewrite (bind_Ok _ _ _ _ _ (GetWallet_run _ _ _ HW)).
  destruct (w_State W =s WalletStateRetired); [done|].
  intros (r & w1 & Hg & Hr)%bind_inv. unfold attempt in Hg.
  pose proof (GetActiveAddress_same wid w) as Hsame.
  destruct (GetActiveAddress wid w) as [r' w1'] eqn:Hga. simpl in Hsame.
  injection Hg as -> ->. subst w1. destruct r as [old|e].
  - apply bind_inv in Hr as (b & w2 & Hsh & Hr).
    pose proof (shouldRotate_reads cfg (unchanged (λ s, s)) W old w) as Hu.
    unfold unchanged in Hu. rewrite Hsh in Hu. simpl in Hu. destruct b.
    + rewrite <- Hid.
      assert (indices_bounded w2) as Hb2 by (unfold indices_bounded; by rewrite Hu).
      by destruct (rotate_fresh c reg L em cfg W old w2 a w' Hclock Hb2 Hr).
    + injection Hr as <- <-. apply (stored_store _ _ w); [done|].
      by eapply GetActiveAddress_stored.
  - destruct (errors_Is e ErrNoRows); [|done]. rewrite <- Hid.
    by eapply deriveNewLocked_stored.
Qed.

(** C29. A derived address is the wallet's one active address.  On a
    well-formed store, when [DeriveAddress] returns an address, the store is
    still well-formed, that address is stored and ACTIVE for the wallet and
    no other address of the wallet is; with [force] it is a new address whose
    index is above every index used on the chain's receive branch (Solana has
    only one). *)
Theorem DeriveAddress_correct wid force w a w' W :
  (∀ n, time_IsZero (clock n) = false) → within keeps_ok sleep →
  store_ok (store w) → indices_bounded w → wallets (store w) !! wid = Some W →
  DeriveAddress c reg L sleep em cfg wid force w = (Ok a, w') →
  store_ok (store w') ∧ stored wid a w' ∧
  (∀ i b, addresses (store w') !! i = Some b → active_of wid b = true → b = a) ∧
  (force = true → fresh W a w).
Proof.
  intros Hclock Hs Hok Hb HW Hr.
  assert (w_ID W = wid) as Hid by exact (ok_wallets _ Hok _ _ HW).
  assert (store_ok (store w')) as Hok'.
  { pose proof (DeriveAddress_keeps c reg L sleep em cfg wid force Hs w Hok) as Hk.
    by rewrite Hr in Hk. }
  assert (stored wid a w' ∧ (force = true → fresh W a w)) as [[Hst Hact] Hf].
  { destruct force; simpl in Hr.
    - destruct (ForceRotate_fresh wid w a w' W Hclock Hb HW Hid Hr). by split.
    - split; [|done]. exact (CurrentOrRotate_stored wid w a w' W Hclock Hs Hok Hb HW Hid Hr). }
  split_and!; [done|done| |done].
  intros i b Hi Hbact. destruct (ok_addresses _ Hok') as [_ Huniq].
  assert (i = a_ID a) as -> by exact (Huniq _ _ _ _ _ Hi Hst Hbact Hact). congruence.
Qed.

Lemma max_index_le chain change (m : gmap uuid Address) z :
  max_index chain change m ≤ z ↔ -1 ≤ z ∧ ∀ k a, m !! k = Some a →
    a_Chain a = chain → a_Change a = change → a_Index a ≤ z.
Proof.
  change (max_index chain change m) with
    (foldl (index_step chain change) (-1) (range_map m)).
  assert (∀ l acc, foldl (index_step chain change) acc l ≤ z ↔ acc ≤ z ∧
    ∀ k a, (k, a) ∈ l → a_Chain a = chain → a_Change a = change → a_Index a ≤ z) as Hl.
  { induction l as [|[k0 a0] l IH]; intros acc; simpl.
    - split; [|tauto]. intros Hz. split; [done|]. by intros ?? ?%elem_of_nil.
    - rewrite IH. unfold index_step. simpl. split.
      + intros [Hacc Hin]. destruct (_ && _ && _) eqn:Hc.
        * apply andb_true_iff in Hc as [_ Hlt%Z.ltb_lt]. split; [lia|].
          intros k a [[= -> ->]|Hk]%elem_of_cons; [done|by eapply Hin].
        * split; [done|]. intros k a [[= -> ->]|Hk]%elem_of_cons Hch Hcg;
            [|by eapply Hin].
          rewrite Hch, Hcg, bool_decide_true, Z.eqb_refl in Hc by done. simpl in Hc.
          apply Z.ltb_ge in Hc. lia.
      + intros [Hacc Hin]. split.
        * destruct (_ && _ && _) eqn:Hc; [|done].
          apply andb_true_iff in Hc as [[Hch%bool_decide_eq_true Hcg%Z.eqb_eq]%andb_true_iff _].
          by apply (Hin k0 a0); [apply list_elem_of_here|..].
        * intros k a Hk. apply (Hin k a), elem_of_cons. by right. }
  rewrite Hl. split; intros [Hz Hin]; (split; [done|]); intros k a Hk;
    apply (Hin k a); by apply elem_of_range_map.
Qed.

(** The largest index does not depend on states or on the order of the map. *)
Lemma max_index_state chain change (m m' : gmap uuid Address) :
  (∀ k, option_Forall2 (λ a b, with_address_state "" b = with_address_state "" a)
    (m !! k) (m' !! k)) →
  max_index chain change m' = max_index chain change m.
Proof.
  intros Hs. apply Z.le_antisymm; apply max_index_le.
  - destruct (proj1 (max_index_le chain change m (max_index chain change m)) (Z.le_refl _))
      as [Hz Hin]. split; [done|]. intros k b Hb. specialize (Hs k). rewrite Hb in Hs.
    inversion Hs as [a ? Heq Ha|]; subst. injection Heq as _ _ -> _ _ -> -> _ _.
    by apply (Hin k).
  - destruct (proj1 (max_index_le chain change m' (max_index chain change m')) (Z.le_refl _))
      as [Hz Hin]. split; [done|]. intros k b Hb. specialize (Hs k). rewrite Hb in Hs.
    inversion Hs as [? a Heq Hx Ha|]; subst. injection Heq as _ _ <- _ _ <- <- _ _.
    by apply (Hin k).
Qed.

(** A derivation that fails is reported, and writes nothing. *)
Lemma deriveNew_fails W w d idx e :
  w_Chain W ≠ ChainSolana → For c (ttl cfg) reg (w_Chain W) = Ok d →
  int64 (max_index (w_Chain W) 0 (addresses (store w)) + 1) = idx →
  cache_sound c reg w → derive_spec reg (w_Chain W) idx 0 = Err e →
  ∃ w', deriveNew c reg em cfg W w = (Err (ErrWrap "derive" e), w') ∧ store w' = store w.
Proof.
  intros Hsol Hd Hidx Hcs Hfail. unfold deriveNew. rewrite Hd. unfold of_result.
  rewrite (bind_Ok _ _ w d w) by done.
  rewrite (bind_Ok _ _ w (int64 (max_index (w_Chain W) 0 (addresses (store w)) + 1)) w)
    by done.
  rewrite (bool_decide_false (w_Chain W = ChainSolana)) by done.
  rewrite (bind_Ok _ _ w tt w) by done. rewrite Hidx.
  unfold mbind at 1, GoM_bind at 1, wrap_err at 1.
  destruct (DeriveAt_sound c (ttl cfg) reg d (w_ID W) (w_Chain W) idx 0 w Hd Hcs)
    as [Hf _]. rewrite Hfail in Hf.
  pose proof (DeriveAt_frame c (ttl cfg) reg (unchanged (λ s, s)) d (w_ID W) (w_Chain W)
    idx 0 Hd w) as Hu. unfold unchanged in Hu.
  destruct (DeriveAt d (w_ID W) (w_Chain W) idx 0 w) as [r w']. simpl in *. subst r.
  by exists w'.
Qed.

(** A rotation that fails half way loses the active address: the old
    address is deprecated before the new one is derived and nothing puts it
    back, so when the derivation fails the error is returned and the wallet
    is left with no ACTIVE address. *)
Theorem rotation_failure_loses_address wid w W old d idx e :
  store_ok (store w) → wallets (store w) !! wid = Some W →
  w_State W ≠ WalletStateRetired → w_Chain W ≠ ChainSolana →
  stored wid old w → held (L := L) (addr_lock W) w = None →
  For c (ttl cfg) reg (w_Chain W) = Ok d →
  int64 (max_index (w_Chain W) 0 (addresses (store w)) + 1) = idx →
  cache_sound c reg w → derive_spec reg (w_Chain W) idx 0 = Err e →
  ∃ w', ForceRotate c reg L em cfg wid w = (Err (ErrWrap "derive" e), w') ∧
    ∀ i b, addresses (store w') !! i = Some b → active_of wid b = false.
Proof.
  intros Hok HW Hret Hsol [Hst Hact] Hfree Hd Hidx Hcache Hfail.
  assert (w_ID W = wid) as Hid by exact (ok_wallets _ Hok _ _ HW).
  destruct (ok_addresses _ Hok) as [Hkey Huniq]. unfold ForceRotate.
  rewrite (bind_Ok _ _ _ _ _ (GetWallet_run _ _ _ HW)), bool_decide_false by done.
  assert (GetActiveAddress wid w = (Ok old, w)) as Hget.
  { unfold GetActiveAddress. go_run. destruct (range_find _ _) as [b|] eqn:Hf.
    - apply range_find_Some in Hf as [Hb [k Hk]].
      assert (k = a_ID old) as -> by exact (Huniq _ _ _ _ _ Hk Hst Hb Hact). congruence.
    - rewrite range_find_None in Hf. by rewrite (Hf _ _ Hst) in Hact. }
  rewrite (bind_Ok _ _ w (Ok old) w) by (unfold attempt; by rewrite Hget).
  unfold rotate. destruct (acquire_free (addr_lock W) 10000000000 w Hfree)
    as (tok & w1 & Ha & Hh & Hs1 & _).
  rewrite (bind_Ok _ _ w (tok, true) w1) by (unfold wrap_err; by rewrite Ha).
  cbn [negb]. unfold releasing, attempt.
  set (w2 := set_store (set_addresses (store w1) (<[a_ID old :=
    with_address_state AddressStateDeprecated old]> (addresses (store w1)))) w1).
  assert (DeprecateAddress (a_ID old) w1 = (Ok tt, w2)) as Hdep
    by (unfold DeprecateAddress; go_run; by rewrite Hs1, Hst).
  assert (max_index (w_Chain W) 0 (addresses (store w2)) =
    max_index (w_Chain W) 0 (addresses (store w))) as Hmax.
  { apply max_index_state. simpl. rewrite Hs1. intros k.
    rewrite lookup_insert. case_decide as Hk; [subst; rewrite Hst; by constructor|].
    by apply option_Forall2_refl. }
  assert (cache_sound c reg w2) as Hcs.
  { eapply cache_sound_mono; [|exact Hcache]. intros k v. apply cached_same. simpl.
    pose proof (acquire_cache (LockerLaws := _) (addr_lock W) 10000000000 w) as Hac.
    by rewrite Ha in Hac. }
  destruct (deriveNew_fails W w2 d idx e) as (w3 & Hnew & Hs3);
    [done|done|by rewrite Hmax|done|done|].
  unfold mbind, GoM_bind, wrap_err, ignore. rewrite Hdep, Hnew.
  pose proof (release_store (LockerLaws := _) (addr_lock W) tok w3) as Hrel.
  destruct (Release L (addr_lock W) tok w3) as [r w4]. simpl in Hrel.
  exists w4. split; [done|]. rewrite Hrel, Hs3. simpl. rewrite Hs1. intros i b Hi.
  apply lookup_insert_Some in Hi as [[_ <-]|[Hne Hi]].
  - unfold active_of. simpl. by rewrite andb_false_r.
  - apply not_true_iff_false. intros Hb. by apply Hne, (Huniq _ _ _ _ _ Hst Hi Hact Hb).
Qed.
End theorems.

(** ** Witnesses *)
Section witnesses.
#[local] Existing Instances ref_runtime ref_uuid ref_env ref_crypto.

Definition some_wallet (state : string) : Wallet :=
  MkWallet (uuid_of_Z 1) ChainEthereum WalletTypeHot "eth" state "k" "mpc" None None 1 1.
Definition last_address : Address := MkAddress (uuid_of_Z 5) (uuid_of_Z 1) ChainEthereum
  "0x00" "m/44'/60'/0'/0/2147483647" 2147483647 0 AddressStateActive 0 1.

Definition wallet_world : World := (CreateWallet (some_wallet WalletStateActive) initial_world).2.
Definition retired_world : World :=
  (CreateWallet (some_wallet WalletStateRetired) initial_world).2.
Definition full_world : World := (InsertAddress last_address wallet_world).2.

Abbreviation Derive_demo :=
  (DeriveAddress MemCache some_registry MemLocker (mret tt) None default_config).

Definition derived_address : Address :=
  match (Derive_demo (uuid_of_Z 1) true wallet_world).1 with
  | Ok a => a
  | Err _ => last_address
  end.

Lemma DeriveAddress_correct_witness :
  store_ok (store (Derive_demo (uuid_of_Z 1) true wallet_world).2) ∧
  stored (uuid_of_Z 1) derived_address (Derive_demo (uuid_of_Z 1) true wallet_world).2 ∧
  (∀ i b, addresses (store (Derive_demo (uuid_of_Z 1) true wallet_world).2) !! i = Some b →
    active_of (uuid_of_Z 1) b = true → b = derived_address) ∧
  (true = true → fresh (some_wallet WalletStateActive) derived_address wallet_world).
Proof.
  apply (DeriveAddress_correct MemCache some_registry MemLocker (mret tt) None
    default_config (uuid_of_Z 1) true wallet_world derived_address).
  - intros n. apply Z.eqb_neq. unfold clock, ref_env. lia.
  - apply within_ret, _.
  - apply CreateWallet_ok, New_ok.
  - intros i b Hb. change (addresses (store wallet_world)) with (∅ : gmap uuid Address) in Hb.
    by rewrite lookup_empty in Hb.
  - vm_compute. reflexivity.
  - apply run_eq. vm_compute. reflexivity.
Defined.

Lemma retirement_final_witness :
  retired (uuid_of_Z 1) (store (SetState None (uuid_of_Z 1) WalletStateActive retired_world).2) ∧
  (∀ force, Derive_demo (uuid_of_Z 1) force
      (SetState None (uuid_of_Z 1) WalletStateActive retired_world).2 =
    (Err ErrWalletRetired, (SetState None (uuid_of_Z 1) WalletStateActive retired_world).2)) ∧
  ∀ st, st ≠ WalletStateRetired → ∃ e, SetState None (uuid_of_Z 1) st
      (SetState None (uuid_of_Z 1) WalletStateActive retired_world).2 =
    (Err e, (SetState None (uuid_of_Z 1) WalletStateActive retired_world).2).
Proof.
  apply (retirement_final MemCache some_registry MemLocker (mret tt) None default_config
    (within_ret _ _) (uuid_of_Z 1) retired_world).
  - eexists. split; vm_compute; reflexivity.
  - apply rtc_once, wl_state.
Defined.

Definition eth_deriver_demo : Deriver :=
  MkDeriver (EVM_DeriveNext MemCache (ttl default_config) (r_evm some_registry))
    (EVM_DeriveAt MemCache (ttl default_config) (r_evm some_registry)).

Lemma rotation_failure_loses_address_witness :
  ∃ w', ForceRotate MemCache some_registry MemLocker None default_config (uuid_of_Z 1)
      full_world = (Err (ErrWrap "derive" (ErrNew
        "derivation index 2147483648 out of non-hardened range")), w') ∧
    ∀ i b, addresses (store w') !! i = Some b → active_of (uuid_of_Z 1) b = false.
Proof.
  apply (rotation_failure_loses_address MemCache some_registry MemLocker None
    default_config (uuid_of_Z 1) full_world (some_wallet WalletStateActive) last_address
    eth_deriver_demo 2147483648).
  - apply InsertAddress_ok, CreateWallet_ok, New_ok.
  - vm_compute. reflexivity.
  - discriminate.
  - discriminate.
  - split; vm_compute; reflexivity.
  - vm_compute. reflexivity.
  - reflexivity.
  - vm_compute. reflexivity.
  - split_and!; intros *; intros [exp Hl];
      change (cache full_world) with (∅ : gmap string (string * time)) in Hl;
      by rewrite lookup_empty in Hl.
  - vm_compute. reflexivity.
Defined.
End witnesses.
