(* ===== verification/Funding.v ===== *)
(** * Funding: [internal/funding/funding.go]

    Requests for treasury funding of hot wallets.  The threshold is a
    [float64] ([SpecFloat]); how [decimal] converts to one, and what Go's
    conversion to [int64] yields out of range, are parameters ([FloatLib]). *)
From stdpp Require Import base tactics numbers gmap strings pretty list.
From Stdlib Require Import ZArith Lia SpecFloat.
From S2P Require Import Prelude.
From S2P Require Import GoLang.
From S2P Require Import GoText.
From S2P Require Import Domain.
From S2P Require Import Config.
From S2P Require Import World.
From S2P Require Import Reference.
From S2P Require Import Decimal.
From S2P Require Import MemStore.
From S2P Require Import MemStoreFacts.
From S2P Require Import MemStoreFrames.
From S2P Require Import AuditOutbox.

#[local] Open Scope string_scope.
#[local] Open Scope list_scope.
#[local] Open Scope Z_scope.

Class FloatLib `{DecimalLib} : Type := {
  dec_InexactFloat64 : decimal → spec_float;
  int64_out_of_range : spec_float → Z
}.

(** The integer part, towards zero. *)
Definition float_trunc (f : spec_float) : option Z :=
  match f with
  | S754_zero _ => Some 0
  | S754_finite s m e =>
      let v := if 0 <=? e then Z.pos m * 2 ^ e else Z.pos m / 2 ^ (- e) in
      Some (if s then - v else v)
  | _ => None
  end.

Section funding.
Context `{GoRuntime} `{UUIDLib} `{Environment} `{FloatLib}.
(** The service: treasury client, emitter and configuration; [None] is [nil]. *)
Context (treasury : option (list exchange → TreasuryRequest → result unit)).
Context (em : option Emitter) (cfg : Config).

(** [int64(f)]. *)
Definition float_int64 (f : spec_float) : Z :=
  match float_trunc f with
  | Some z => if bool_decide (in_int64 z) then z else int64_out_of_range f
  | None => int64_out_of_range f
  end.

Definition createRequest (w : Wallet) (asset amount reason : string) : Go unit :=
  id ← uuid_New;
  now ← time_Now;
  CreateFundingRequest (MkFunding id (w_ID w) asset amount FundingStateRequested "" reason
    now now);;
  let idem := "fr:" +:+ uuid_String (w_ID w) +:+ ":" +:+ asset +:+ ":" +:+ uuid_String id in
  match treasury with
  | Some f => wrap_err "treasury request"
      (ask XTreasury f (MkTreasuryRequest id (w_ID w) asset amount idem reason))
  | None => mret tt
  end;;
  emit em (MkEvent "wallet.funding.requested" (Some (w_ID w))
    [("asset", AString asset); ("amount", AString amount); ("reason", AString reason);
     ("id", AUUID id)]).

Definition EvaluateAndRequest (walletID : uuid) (asset : string) : Go unit :=
  w ← GetWallet walletID;
  r ← attempt (GetBalance walletID asset);
  confirmed ← match r with
              | Ok bal => mret (parseDec (b_Confirmed bal))
              | Err e => if errors_Is e ErrNoRows then mret dec_Zero else throw e
              end;
  if negb (w_Type w =s WalletTypeHot) then mret tt
  else if SFleb (cf_HotWalletMinBalanceUSD cfg) (dec_InexactFloat64 confirmed) then mret tt
  else
    o ← attempt (GetOpenFundingRequest walletID asset);
    match o with
    | Ok _ => mret tt
    | Err e =>
        if errors_Is e ErrNoRows then
          createRequest w asset (pretty (float_int64 (SFsub 53 1024
            (cf_HotWalletMinBalanceUSD cfg) (dec_InexactFloat64 confirmed))))
            "auto:below_threshold"
        else throw e
    end.

Definition ManualRequest (walletID : uuid) (asset amount reason : string) : Go unit :=
  w ← GetWallet walletID;
  if w_State w =s WalletStateRetired then throw ErrWalletRetired
  else
    o ← attempt (GetOpenFundingRequest walletID asset);
    match o with
    | Ok _ => throw ErrDuplicateFunding
    | Err e =>
        if errors_Is e ErrNoRows then createRequest w asset amount reason else throw e
    end.

Definition MarkApproved (id : uuid) (treasuryBatchID : string) : Go unit :=
  UpdateFundingState id FundingStateApproved treasuryBatchID.

Definition MarkSettled (id : uuid) : Go unit :=
  UpdateFundingState id FundingStateSettled "".

Definition MarkRejected (id : uuid) (reason : string) : Go unit :=
  UpdateFundingState id FundingStateRejected "".

(** ** Lemmas *)
Definition has_open (wid : uuid) (asset : string) (w : World) : bool :=
  range_any (open_funding wid asset) (fundingReq (store w)).

Lemma GetOpenFundingRequest_run wid asset w :
  if has_open wid asset w
  then ∃ f, GetOpenFundingRequest wid asset w = (Ok f, w)
  else GetOpenFundingRequest wid asset w =
    (Err (ErrWrap "no open funding request" ErrNoRows), w).
Proof.
  unfold has_open, GetOpenFundingRequest. go_run.
  destruct (range_find _ _) as [f|] eqn:Hf.
  - apply range_find_Some in Hf as [Hp [k Hk]].
    assert (range_any (open_funding wid asset) (fundingReq (store w)) = true) as ->;
      [|by exists f]. apply range_any_true. eauto.
  - rewrite range_find_None, <- range_any_false in Hf. by rewrite Hf.
Qed.

Definition confirmed_of (wid : uuid) (asset : string) (w : World) : decimal :=
  match balances (store w) !! balanceKey wid asset with
  | Some b => parseDec (b_Confirmed b)
  | None => dec_Zero
  end.

(** A hot wallet whose balance is not at least the threshold. *)
Definition below (W : Wallet) (asset : string) (w : World) : bool :=
  (w_Type W =s WalletTypeHot) && negb (SFleb (cf_HotWalletMinBalanceUSD cfg)
    (dec_InexactFloat64 (confirmed_of (w_ID W) asset w))).

Definition shortfall (W : Wallet) (asset : string) (w : World) : string :=
  pretty (float_int64 (SFsub 53 1024 (cf_HotWalletMinBalanceUSD cfg)
    (dec_InexactFloat64 (confirmed_of (w_ID W) asset w)))).

Lemma EvaluateAndRequest_run wid asset w W :
  wallets (store w) !! wid = Some W → w_ID W = wid →
  EvaluateAndRequest wid asset w =
    if below W asset w && negb (has_open wid asset w)
    then createRequest W asset (shortfall W asset w) "auto:below_threshold" w
    else (Ok tt, w).
Proof.
  intros HW <-. unfold EvaluateAndRequest.
  rewrite (bind_Ok _ _ _ _ _ (GetWallet_run _ _ _ HW)).
  rewrite (bind_Ok _ _ w (match balances (store w) !! balanceKey (w_ID W) asset with
    | Some b => Ok b | None => Err (ErrWrap "balance not found" ErrNoRows) end) w)
    by (unfold GetBalance; go_run; by destruct (balances (store w) !! _)).
  rewrite (bind_Ok _ _ w (confirmed_of (w_ID W) asset w) w)
    by (unfold confirmed_of; by destruct (balances (store w) !! _)).
  unfold below, shortfall. destruct (w_Type W =s WalletTypeHot); [|done]. simpl.
  destruct (SFleb _ _); [done|]. simpl.
  pose proof (GetOpenFundingRequest_run (w_ID W) asset w) as Ho.
  destruct (has_open (w_ID W) asset w).
  - destruct Ho as [f Ho]. unfold mbind, GoM_bind, attempt. by rewrite Ho.
  - unfold mbind at 1, GoM_bind at 1, attempt. by rewrite Ho.
Qed.

Lemma ManualRequest_run wid asset amount reason w W :
  wallets (store w) !! wid = Some W →
  ManualRequest wid asset amount reason w =
    if w_State W =s WalletStateRetired then (Err ErrWalletRetired, w)
    else if has_open wid asset w then (Err ErrDuplicateFunding, w)
    else createRequest W asset amount reason w.
Proof.
  intros HW. unfold ManualRequest. rewrite (bind_Ok _ _ _ _ _ (GetWallet_run _ _ _ HW)).
  destruct (w_State W =s WalletStateRetired); [done|].
  pose proof (GetOpenFundingRequest_run wid asset w) as Ho.
  destruct (has_open wid asset w).
  - destruct Ho as [f Ho]. unfold mbind, GoM_bind, attempt. by rewrite Ho.
  - unfold mbind at 1, GoM_bind at 1, attempt. by rewrite Ho.
Qed.

(** The row and the message of one funding request. *)
Definition treasury_message (id : uuid) (W : Wallet) (asset amount reason : string) :
    TreasuryRequest :=
  MkTreasuryRequest id (w_ID W) asset amount ("fr:" +:+ uuid_String (w_ID W) +:+ ":" +:+
    asset +:+ ":" +:+ uuid_String id) reason.

Definition filed (W : Wallet) (asset amount reason : string) (id : uuid) (w w' : World) : Prop :=
  ∃ t, fundingReq (store w') = <[id := MkFunding id (w_ID W) asset amount
    FundingStateRequested "" reason t t]> (fundingReq (store w)).

(** The answer of a treasury that may be absent. *)
Definition answer (tr : list exchange) (q : TreasuryRequest) : result unit :=
  match treasury with Some f => wrap_result "treasury request" (f tr q) | None => Ok tt end.

Definition sent (tr : list exchange) (q : TreasuryRequest) : list exchange :=
  match treasury with Some f => [XTreasury q (f tr q)] | None => [] end.

Lemma createRequest_run `{!EmitterLaws em} W asset amount reason w :
  has_open (w_ID W) asset w = false →
  let id := new_uuid (ids w) in
  let q := treasury_message id W asset amount reason in
  ∃ w', createRequest W asset amount reason w = (answer (trace w) q, w') ∧
    trace w' = trace w ++ sent (trace w) q ∧ filed W asset amount reason id w w'.
Proof.
  intros Ho id q. unfold createRequest, CreateFundingRequest, or_now. go_run. simpl.
  unfold has_open in Ho. rewrite Ho. unfold answer, sent, filed.
  destruct (time_IsZero _); simpl; destruct treasury as [f|]; simpl;
    try (match goal with |- context [MkTreasuryRequest ?a ?b ?c ?d ?e ?g] =>
      change (MkTreasuryRequest a b c d e g) with q end;
      destruct (f (trace w) q) as [[]|e]; simpl);
    try (match goal with |- context [emit em ?ev ?w0] =>
      destruct (emit_run em ev w0) as (w1 & -> & [(o & q' & Hs) (_ & _ & _ & Ht)]);
      exists w1; rewrite Hs, Ht; simpl end; rewrite ?app_nil_r; by eauto);
    eexists; split_and!; try done; by eexists.
Qed.
End funding.

(** ** Theorems *)
Section theorems.
Context `{GoRuntime} `{UUIDLib} `{Environment} `{FloatLib}.
Context (treasury : option (list exchange → TreasuryRequest → result unit)).
Context (em : option Emitter) `{!EmitterLaws em} (cfg : Config).

Lemma filed_open W asset amount reason id w w' :
  filed W asset amount reason id w w' → has_open (w_ID W) asset w' = true.
Proof.
  intros [t Ht]. unfold has_open. rewrite Ht. apply range_any_true.
  exists id. eexists. rewrite lookup_insert_eq. split; [done|].
  by apply open_funding_spec.
Qed.

(** C34. Auto-funding asks once and only when needed.  On a well-formed store:
    for a hot wallet whose confirmed balance is not at least the threshold and
    that has no open request for the asset, [EvaluateAndRequest] files exactly
    one request for the shortfall and sends exactly one message to the
    treasury, with the same id, wallet, asset and amount, and returns the
    treasury's answer; afterwards a request is open.  In every other case it
    succeeds and changes nothing. *)
Theorem EvaluateAndRequest_correct wid asset w W :
  store_ok (store w) → wallets (store w) !! wid = Some W →
  if below cfg W asset w && negb (has_open wid asset w) then
    ∃ id w', let q := treasury_message id W asset (shortfall cfg W asset w)
        "auto:below_threshold" in
      EvaluateAndRequest treasury em cfg wid asset w = (answer treasury (trace w) q, w') ∧
      trace w' = trace w ++ sent treasury (trace w) q ∧
      filed W asset (shortfall cfg W asset w) "auto:below_threshold" id w w' ∧
      has_open wid asset w' = true
  else EvaluateAndRequest treasury em cfg wid asset w = (Ok tt, w).
Proof.
  intros Hok HW. assert (w_ID W = wid) as Hid by exact (ok_wallets _ Hok _ _ HW).
  rewrite (EvaluateAndRequest_run treasury em cfg wid asset w W HW Hid).
  destruct (below cfg W asset w && negb _) eqn:Hb; [|done].
  apply andb_true_iff in Hb as [_ Ho%negb_true_iff]. rewrite <- Hid in *.
  destruct (createRequest_run treasury em W asset (shortfall cfg W asset w)
    "auto:below_threshold" w Ho) as (w' & Hr & Ht & Hf).
  exists (new_uuid (ids w)), w'. split_and!; [done|done|done|by eapply filed_open].
Qed.

(** An operator's request obeys the same rule: it is refused for a retired
    wallet and, with [ErrDuplicateFunding], while a request is open, without
    any change; otherwise it files one request, of the operator's amount, and
    sends one message. *)
Theorem ManualRequest_correct wid asset amount reason w W :
  store_ok (store w) → wallets (store w) !! wid = Some W →
  if w_State W =s WalletStateRetired then
    ManualRequest treasury em wid asset amount reason w = (Err ErrWalletRetired, w)
  else if has_open wid asset w then
    ManualRequest treasury em wid asset amount reason w = (Err ErrDuplicateFunding, w)
  else ∃ id w', let q := treasury_message id W asset amount reason in
    ManualRequest treasury em wid asset amount reason w = (answer treasury (trace w) q, w') ∧
    trace w' = trace w ++ sent treasury (trace w) q ∧ filed W asset amount reason id w w'.
Proof.
  intros Hok HW. assert (w_ID W = wid) as Hid by exact (ok_wallets _ Hok _ _ HW).
  rewrite (ManualRequest_run treasury em wid asset amount reason w W HW).
  destruct (w_State W =s _); [done|]. destruct (has_open wid asset w) eqn:Ho; [done|].
  rewrite <- Hid in Ho. destruct (createRequest_run treasury em W asset amount reason w Ho)
    as (w' & Hr & Ht & Hf). by exists (new_uuid (ids w)), w'.
Qed.

(** A request the treasury refused is never sent again: the call returns
    the treasury's error and leaves the request open, and from then on, as
    long as it is open, [EvaluateAndRequest] succeeds without sending anything
    and [ManualRequest] refuses. *)
Theorem treasury_failure_not_retried f wid asset w W e :
  treasury = Some f →
  store_ok (store w) → wallets (store w) !! wid = Some W →
  below cfg W asset w = true → has_open wid asset w = false →
  (∀ q, f (trace w) q = Err e) →
  ∃ w', EvaluateAndRequest treasury em cfg wid asset w
      = (Err (ErrWrap "treasury request" e), w') ∧ has_open wid asset w' = true ∧
    ∀ w2 W2, has_open wid asset w2 = true → wallets (store w2) !! wid = Some W2 →
      w_ID W2 = wid →
      EvaluateAndRequest treasury em cfg wid asset w2 = (Ok tt, w2) ∧
      ∀ amount reason, ∃ e', ManualRequest treasury em wid asset amount reason w2
        = (Err e', w2).
Proof.
  intros Ht Hok HW Hb Ho Hf.
  assert (w_ID W = wid) as Hid by exact (ok_wallets _ Hok _ _ HW).
  rewrite (EvaluateAndRequest_run treasury em cfg wid asset w W HW Hid), Hb, Ho.
  cbn [andb negb]. rewrite <- Hid in Ho.
  destruct (createRequest_run treasury em W asset (shortfall cfg W asset w)
    "auto:below_threshold" w Ho) as (w' & Hr & _ & Hfl).
  exists w'. split_and!.
  - rewrite Hr. unfold answer. rewrite Ht, Hf. done.
  - rewrite <- Hid. by eapply filed_open.
  - intros w2 W2 Ho2 HW2 Hid2. split.
    + rewrite (EvaluateAndRequest_run treasury em cfg wid asset w2 W2 HW2 Hid2), Ho2.
      by rewrite andb_false_r.
    + intros amount reason. rewrite (ManualRequest_run treasury em wid asset amount reason
        w2 W2 HW2), Ho2. destruct (w_State W2 =s _); by eexists.
Qed.
End theorems.

(** ** Witnesses *)
Section witnesses.
#[local] Existing Instances ref_runtime ref_uuid ref_env ref_decimal.

#[local] Instance toy_float : FloatLib := {
  dec_InexactFloat64 _ := S754_zero false;
  int64_out_of_range _ := 0
}.

Definition hot_wallet : Wallet := MkWallet (uuid_of_Z 1) ChainEthereum WalletTypeHot "hot"
  WalletStateActive "k" "mpc" None None 1 1.
Definition hot_world : World := (CreateWallet hot_wallet initial_world).2.
Definition refuse : list exchange → TreasuryRequest → result unit :=
  λ _ _, Err (ErrNew "no funds").

Lemma hot_world_ok : store_ok (store hot_world).
Proof. apply CreateWallet_ok, New_ok. Qed.

Lemma hot_wallet_row : wallets (store hot_world) !! uuid_of_Z 1 = Some hot_wallet.
Proof. vm_compute. reflexivity. Qed.

Lemma hot_below : below default_config hot_wallet "ETH" hot_world = true.
Proof. vm_compute. reflexivity. Qed.

Lemma hot_shortfall : shortfall default_config hot_wallet "ETH" hot_world = "50000".
Proof. vm_compute. reflexivity. Qed.

Lemma EvaluateAndRequest_correct_witness :
  if below default_config hot_wallet "ETH" hot_world &&
     negb (has_open (uuid_of_Z 1) "ETH" hot_world) then
    ∃ id w', let q := treasury_message id hot_wallet "ETH"
        (shortfall default_config hot_wallet "ETH" hot_world) "auto:below_threshold" in
      EvaluateAndRequest (Some refuse) None default_config (uuid_of_Z 1) "ETH" hot_world
        = (answer (Some refuse) (trace hot_world) q, w') ∧
      trace w' = trace hot_world ++ sent (Some refuse) (trace hot_world) q ∧
      filed hot_wallet "ETH" (shortfall default_config hot_wallet "ETH" hot_world)
        "auto:below_threshold" id hot_world w' ∧
      has_open (uuid_of_Z 1) "ETH" w' = true
  else EvaluateAndRequest (Some refuse) None default_config (uuid_of_Z 1) "ETH" hot_world
    = (Ok tt, hot_world).
Proof.
  exact (EvaluateAndRequest_correct (Some refuse) None default_config (uuid_of_Z 1) "ETH"
    hot_world hot_wallet hot_world_ok hot_wallet_row).
Defined.

Lemma ManualRequest_correct_witness :
  if w_State hot_wallet =s WalletStateRetired then
    ManualRequest (Some refuse) None (uuid_of_Z 1) "ETH" "7" "ops" hot_world
      = (Err ErrWalletRetired, hot_world)
  else if has_open (uuid_of_Z 1) "ETH" hot_world then
    ManualRequest (Some refuse) None (uuid_of_Z 1) "ETH" "7" "ops" hot_world
      = (Err ErrDuplicateFunding, hot_world)
  else ∃ id w', let q := treasury_message id hot_wallet "ETH" "7" "ops" in
    ManualRequest (Some refuse) None (uuid_of_Z 1) "ETH" "7" "ops" hot_world
      = (answer (Some refuse) (trace hot_world) q, w') ∧
    trace w' = trace hot_world ++ sent (Some refuse) (trace hot_world) q ∧
    filed hot_wallet "ETH" "7" "ops" id hot_world w'.
Proof.
  exact (ManualRequest_correct (Some refuse) None (uuid_of_Z 1) "ETH" "7" "ops"
    hot_world hot_wallet hot_world_ok hot_wallet_row).
Defined.

Lemma treasury_failure_not_retried_witness :
  ∃ w', EvaluateAndRequest (Some refuse) None default_config (uuid_of_Z 1) "ETH" hot_world
      = (Err (ErrWrap "treasury request" (ErrNew "no funds")), w') ∧
    has_open (uuid_of_Z 1) "ETH" w' = true ∧
    ∀ w2 W2, has_open (uuid_of_Z 1) "ETH" w2 = true →
      wallets (store w2) !! uuid_of_Z 1 = Some W2 → w_ID W2 = uuid_of_Z 1 →
      EvaluateAndRequest (Some refuse) None default_config (uuid_of_Z 1) "ETH" w2
        = (Ok tt, w2) ∧
      ∀ amount reason, ∃ e', ManualRequest (Some refuse) None (uuid_of_Z 1) "ETH" amount
        reason w2 = (Err e', w2).
Proof.
  apply (treasury_failure_not_retried (Some refuse) None default_config refuse
    (uuid_of_Z 1) "ETH" hot_world hot_wallet (ErrNew "no funds")).
  - reflexivity.
  - exact hot_world_ok.
  - exact hot_wallet_row.
  - exact hot_below.
  - vm_compute. reflexivity.
  - reflexivity.
Defined.
End witnesses.
