(* ===== verification/Withdrawal.v ===== *)
(** * Withdrawal: [internal/withdrawal/withdrawal.go]

    The withdrawal saga: whitelist check, reservation of a nonce or outputs,
    MPC signing, broadcast, confirmation, failure and reorg. *)
From stdpp Require Import base tactics list gmap strings numbers pretty.
From Stdlib Require Import ZArith Lia.
From S2P Require Import Prelude.
From S2P Require Import GoLang.
From S2P Require Import GoText.
From S2P Require Import Crypto.
From S2P Require Import Domain.
From S2P Require Import Evm.
From S2P Require Import Config.
From S2P Require Import World.
From S2P Require Import Reference.
From S2P Require Import Decimal.
From S2P Require Import TxBuilder.
From S2P Require Import MemStore.
From S2P Require Import MemStoreFacts.
From S2P Require Import MemStoreFrames.
From S2P Require Import Lock.
From S2P Require Import Nonce.
From S2P Require Import Utxo.
From S2P Require Import AuditOutbox.

#[local] Open Scope string_scope.
#[local] Open Scope list_scope.
#[local] Open Scope Z_scope.

(** [withdrawal.CreateRequest]. *)
Record WithdrawalCreate : Type := MkWithdrawalCreate {
  wq_WalletID : uuid;
  wq_ToAddress : string;
  wq_Asset : string;
  wq_Amount : string
}.

(** The fields of the service that are interfaces: [None] is [nil]. *)
Record Collaborators : Type := MkCollaborators {
  co_Locker : Locker;
  co_sleep : Go unit;
  co_Policy : list exchange → CheckRequest → result (option CheckResponse);
  co_Signer : list exchange → SignRequest → result SignResponse;
  co_Gateway : list exchange → BroadcastRequest → result BroadcastResponse;
  co_KeyLookup : option (uuid → Go string);
  co_Audit : option Emitter;
  co_BTCKeys : option (uuid → Go BTCKeys);
  co_SolanaKeys : option (uuid → Go SolanaKeys);
  co_SolanaBlockhash : option (Go (list byte))
}.

(** The writes of the row of a withdrawal in [ConstructAndSign]. *)
Inductive RowWrite : Type := WNonce | WOutpoints | WSignedTx | WFailed | WSigned.

(** When such a write reports an error, and whether it was made all the same: [None] for
    a store whose writes of a row that is there succeed, as those of the in-memory store
    do. *)
Definition Faults : Type := option (RowWrite → World → option (error * bool)).

Definition reliable : Faults := None.

Definition write (fl : Faults) (k : RowWrite) (m : Go unit) : Go unit :=
  match fl with
  | None => m
  | Some f => λ w,
      match f k w with
      | None => m w
      | Some (e, made) => (Err e, if made : bool then (m w).2 else w)
      end
  end.

(** A write that fails does no more than one that succeeds. *)
Lemma within_write (R : relation World) `{!Reflexive R} fl k m :
  within R m → within R (write fl k m).
Proof.
  intros Hm w. specialize (Hm w). destruct fl as [f|]; [|done]. simpl.
  destruct (f k w) as [[e []]|]; done.
Qed.

#[export] Hint Resolve within_write : within.

Section withdrawal.
Context `{GoRuntime} `{UUIDLib} `{Environment} `{DecimalLib} `{CryptoLib}.
Context (C : Collaborators).

Definition resolveBuildOpts (w : Wallet) : Go BuildOpts :=
  btc ← match co_BTCKeys C with
        | Some f =>
            if w_Chain w =s ChainBitcoin then wrap_err "resolve btc keys" (f (w_ID w))
            else mret zero_BTCKeys
        | None => mret zero_BTCKeys
        end;
  sol ← match co_SolanaKeys C with
        | Some f =>
            if w_Chain w =s ChainSolana then wrap_err "resolve solana keys" (f (w_ID w))
            else mret zero_SolanaKeys
        | None => mret zero_SolanaKeys
        end;
  mret (MkBuildOpts btc sol (co_SolanaBlockhash C)).

Definition decisionID (r : result (option CheckResponse)) : string :=
  match r with
  | Err _ => "error"
  | Ok None => "nil"
  | Ok (Some dec) => cp_DecisionID dec
  end.

Definition with_outcome (wr : WithdrawalRequest) (state reason decision : string) :
    WithdrawalRequest :=
  MkWithdrawal (wr_ID wr) (wr_WalletID wr) (wr_ToAddress wr) (wr_Asset wr) (wr_Amount wr)
    state decision reason (wr_TxHash wr) (wr_NonceValue wr) (wr_ReservedOutpoints wr)
    (wr_SignedTxBytes wr) (wr_CreatedAt wr) (wr_UpdatedAt wr).

(** The rejected branch of [Create]. *)
Definition reject (wr : WithdrawalRequest) (dec : option CheckResponse) :
    Go WithdrawalRequest :=
  let reason := match dec with
                | Some d => if cp_Reason d =s "" then "policy_error" else cp_Reason d
                | None => "policy_error"
                end in
  let decision := match dec with Some d => cp_DecisionID d | None => "" end in
  ignore (UpdateWithdrawalState (wr_ID wr) WithdrawalStateFailed reason "" decision);;
  mret (with_outcome wr WithdrawalStateFailed reason decision).

Definition Create (req : WithdrawalCreate) : Go WithdrawalRequest :=
  w ← wrap_err "get wallet" (GetWallet (wq_WalletID req));
  if w_State w =s WalletStateRetired then throw ErrWalletRetired
  else if w_State w =s WalletStatePaused then throw (ErrNew "wallet is paused")
  else
    now ← time_Now;
    id ← uuid_New;
    let wr := MkWithdrawal id (wq_WalletID req) (wq_ToAddress req) (wq_Asset req)
      (wq_Amount req) WithdrawalStatePending "" "" "" None [] [] now now in
    wrap_err "create withdrawal" (CreateWithdrawal wr);;
    emit (co_Audit C) (MkEvent "withdrawal.created" (Some (wq_WalletID req))
      [("id", AUUID id); ("to", AString (wq_ToAddress req));
       ("asset", AString (wq_Asset req)); ("amount", AString (wq_Amount req))]);;
    dec ← attempt (ask XCheck (co_Policy C) (MkCheckRequest
      (uuid_String (wq_WalletID req)) (wq_ToAddress req) (wq_Asset req) (wq_Amount req)));
    emit (co_Audit C) (MkEvent "withdrawal.whitelist_checked" (Some (wq_WalletID req))
      [("id", AUUID id); ("decision_id", AString (decisionID dec))]);;
    match dec with
    | Err _ => reject wr None
    | Ok None => reject wr None
    | Ok (Some d) =>
        if cp_Approved d then
          UpdateWithdrawalState id WithdrawalStateWhitelisted "" "" (cp_DecisionID d);;
          mret (with_outcome wr WithdrawalStateWhitelisted "" (cp_DecisionID d))
        else reject wr (Some d)
    end.

Definition rollback (w : Wallet) (n : Z) (ops : list string) : Go unit :=
  when ((0 <=? n) && IsEVM (w_Chain w)) (ignore (RollbackNonce (w_ID w) (w_Chain w) n));;
  when (negb (bool_decide (ops = []))) (ignore (Unlock ops)).

Definition noncePtr (wr : WithdrawalRequest) : Z :=
  match wr_NonceValue wr with None => -1 | Some n => n end.

(** [if err := m; err != nil { cleanup; return fmt.Errorf("msg: %w", err) }]. *)
Definition or_cleanup {A} (msg : string) (cleanup : Go unit) (m : Go A) : Go A :=
  r ← attempt m;
  match r with
  | Ok a => mret a
  | Err e => cleanup;; throw (ErrWrap msg e)
  end.

Definition fail_with (fl : Faults) (id : uuid) (reason : string) : Go unit :=
  ignore (write fl WFailed (UpdateWithdrawalState id WithdrawalStateFailed reason "" "")).

(** The reservations of [ConstructAndSign]: nonce (-1 when none) and
    outpoints. *)
Definition reserve (fl : Faults) (id : uuid) (wr : WithdrawalRequest) (w : Wallet) :
    Go (Z * list string) :=
  if IsEVM (w_Chain w) then
    n ← wrap_err "reserve nonce"
      (ReserveNonce (co_Locker C) (co_sleep C) (wr_WalletID wr) (w_Chain w));
    ignore (write fl WNonce (UpdateWithdrawalNonce id n));;
    mret (n, [])
  else if w_Chain w =s ChainBitcoin then
    amount ← or_cleanup "parse btc amount"
      (ignore (RollbackNonce (wr_WalletID wr) (w_Chain w) (-1)))
      (of_result (dec_NewFromString (wr_Amount wr)));
    '(ops, _) ← or_cleanup "select utxos"
      (ignore (RollbackNonce (wr_WalletID wr) (w_Chain w) (-1)))
      (SelectForAmount (wr_WalletID wr) amount);
    or_cleanup "persist outpoints" (rollback w (-1) ops)
      (write fl WOutpoints (UpdateWithdrawalOutpoints id ops));;
    mret (-1, ops)
  else mret (-1, []).

Definition resolve_key (walletID : uuid) : Go string :=
  match co_KeyLookup C with
  | None => mret ""
  | Some f => wrap_err "resolve key" (f walletID)
  end.

(** From the reservation to the signed bytes. *)
Definition build_and_sign (fl : Faults) (id : uuid) (wr : WithdrawalRequest) (w : Wallet)
    (keyID : string) (n : Z) (ops : list string) : Go (list byte) :=
  opts ← or_cleanup "resolve build opts" (rollback w n ops) (resolveBuildOpts w);
  unsigned ← or_cleanup "build unsigned tx" (rollback w n ops)
    (BuildUnsignedTx w wr n ops opts);
  resp ← or_cleanup "sign" (rollback w n ops;; fail_with fl id "sign_failed")
    (ask XSign (co_Signer C) (MkSignRequest keyID (ut_Payload unsigned) (wr_WalletID wr)));
  signedBytes ← or_cleanup "assemble signed tx"
    (rollback w n ops;; fail_with fl id "assemble_failed")
    (of_result (ut_Assemble unsigned (sp_Signature resp)));
  or_cleanup "persist signed tx" (rollback w n ops)
    (write fl WSignedTx (UpdateWithdrawalSignedTx id signedBytes));;
  mret signedBytes.

Definition ConstructAndSign (fl : Faults) (id : uuid) : Go unit :=
  wr ← GetWithdrawal id;
  if negb (wr_State wr =s WithdrawalStateWhitelisted) then
    throw (ErrNew ("withdrawal not in whitelisted state (is " +:+ wr_State wr +:+ ")"))
  else
    w ← GetWallet (wr_WalletID wr);
    keyID ← resolve_key (wr_WalletID wr);
    '(reservedNonce, reservedOutpoints) ← reserve fl id wr w;
    signedBytes ← build_and_sign fl id wr w keyID reservedNonce reservedOutpoints;
    write fl WSigned (UpdateWithdrawalState id WithdrawalStateSigned "" "" "");;
    emit (co_Audit C) (MkEvent "withdrawal.signed" (Some (wr_WalletID wr))
      [("id", AUUID id); ("nonce", AInt reservedNonce);
       ("utxos", AStrings reservedOutpoints);
       ("signed_bytes_len", AInt (Z.of_nat (length signedBytes)))]).

Definition Broadcast (id : uuid) : Go unit :=
  wr ← GetWithdrawal id;
  if negb (wr_State wr =s WithdrawalStateSigned) then
    throw (ErrNew ("withdrawal not signed (is " +:+ wr_State wr +:+ ")"))
  else
    w ← GetWallet (wr_WalletID wr);
    if bool_decide (wr_SignedTxBytes wr = []) then
      throw (ErrNew ("withdrawal " +:+ uuid_String id +:+ " has no signed tx bytes"))
    else
      resp ← or_cleanup "broadcast"
        (rollback w (noncePtr wr) (wr_ReservedOutpoints wr);;
         fail_with reliable id "broadcast_failed")
        (ask XBroadcast (co_Gateway C)
          (MkBroadcastRequest (w_Chain w) (wr_SignedTxBytes wr) (wr_WalletID wr)));
      when ((w_Chain w =s ChainBitcoin) && negb (bool_decide (wr_ReservedOutpoints wr = [])))
        (ignore (MarkSpent (wr_ReservedOutpoints wr) (bp_TxHash resp)));;
      match wr_NonceValue wr with
      | Some n => when (IsEVM (w_Chain w))
          (ignore (CommitNonce (wr_WalletID wr) (w_Chain w) n))
      | None => mret tt
      end;;
      UpdateWithdrawalState id WithdrawalStateBroadcast "" (bp_TxHash resp) "";;
      emit (co_Audit C) (MkEvent "withdrawal.broadcast" (Some (wr_WalletID wr))
        [("id", AUUID id); ("tx_hash", AString (bp_TxHash resp))]).

Definition Confirm (id : uuid) (txHash : string) : Go unit :=
  wr ← GetWithdrawal id;
  if negb (wr_State wr =s WithdrawalStateBroadcast) then
    throw (ErrNew ("withdrawal not broadcast (is " +:+ wr_State wr +:+ ")"))
  else
    UpdateWithdrawalState id WithdrawalStateConfirmed "" txHash "";;
    emit (co_Audit C) (MkEvent "withdrawal.confirmed" (Some (wr_WalletID wr))
      [("id", AUUID id); ("tx_hash", AString txHash)]).

Definition Fail (id : uuid) (reason : string) : Go unit :=
  wr ← GetWithdrawal id;
  w ← GetWallet (wr_WalletID wr);
  rollback w (noncePtr wr) [];;
  UpdateWithdrawalState id WithdrawalStateFailed reason "" "";;
  emit (co_Audit C) (MkEvent "withdrawal.failed" (Some (wr_WalletID wr))
    [("id", AUUID id); ("reason", AString reason)]).

Definition OnReorg (id : uuid) (outpoints : list string) : Go unit :=
  wr ← GetWithdrawal id;
  RestoreOnReorg outpoints;;
  if wr_State wr =s WithdrawalStateConfirmed then
    UpdateWithdrawalState id WithdrawalStateBroadcast "reorg" "" ""
  else mret tt.
End withdrawal.
