(* ===== verification/WithdrawalSaga.v ===== *)
(** * WithdrawalSaga: the state machine the withdrawal service implements

    The abstract machine ([transition]), the relation [saga] between the
    worlds before and after an operation (rows keep their request and move
    along the machine; only whitelisted requests are signed or broadcast), and
    the proof that every operation of the service is within it. *)
From stdpp Require Import base tactics list gmap strings numbers.
From Stdlib Require Import ZArith Lia.
From S2P Require Import Prelude.
From S2P Require Import GoLang.
From S2P Require Import GoText.
From S2P Require Import Crypto.
From S2P Require Import Domain.
From S2P Require Import Evm.
From S2P Require Import Config.
From S2P Require Import World.
From S2P Require Import Reference.
From S2P Require Import Decimal.
From S2P Require Import TxBuilder.
From S2P Require Import MemStore.
From S2P Require Import MemStoreFacts.
From S2P Require Import MemStoreFrames.
From S2P Require Import Lock.
From S2P Require Import Nonce.
From S2P Require Import Utxo.
From S2P Require Import AuditOutbox.
From S2P Require Import Withdrawal.

#[local] Open Scope string_scope.
#[local] Open Scope list_scope.
#[local] Open Scope Z_scope.

(** ** The abstract machine *)
Inductive transition : string → string → Prop :=
  | t_sign : transition WithdrawalStateWhitelisted WithdrawalStateSigned
  | t_broadcast : transition WithdrawalStateSigned WithdrawalStateBroadcast
  | t_confirm : transition WithdrawalStateBroadcast WithdrawalStateConfirmed
  | t_reorg : transition WithdrawalStateConfirmed WithdrawalStateBroadcast
  | t_fail s : transition s WithdrawalStateFailed.

(** States reached only through an approved whitelist check. *)
Definition cleared (s : string) : bool :=
  one_of [WithdrawalStateWhitelisted; WithdrawalStateSigned; WithdrawalStateBroadcast;
          WithdrawalStateConfirmed] s.

Lemma transition_cleared s t : transition s t → cleared t = true → cleared s = true.
Proof. by destruct 1. Qed.

Lemma transitions_cleared s t : rtc transition s t → cleared t = true → cleared s = true.
Proof. induction 1; eauto using transition_cleared. Qed.

(** A failed withdrawal stays failed. *)
Lemma transitions_failed t :
  rtc transition WithdrawalStateFailed t → t = WithdrawalStateFailed.
Proof.
  intros Hr. remember WithdrawalStateFailed as s eqn:Hs.
  induction Hr as [|x y z Hst _ IH]; [done|]. subst x.
  inversion Hst; subst. auto.
Qed.

(** ** What the machine sees of the table *)
Record Req : Type := MkReq {
  q_ID : uuid;
  q_WalletID : uuid;
  q_ToAddress : string;
  q_Asset : string;
  q_Amount : string
}.

Definition req_of (x : WithdrawalRequest) : Req :=
  MkReq (wr_ID x) (wr_WalletID x) (wr_ToAddress x) (wr_Asset x) (wr_Amount x).

Definition row_key (x : WithdrawalRequest) : string * Req := (wr_State x, req_of x).

Definition rows (s : Store) : gmap uuid (string * Req) := row_key <$> withdrawals s.

(** An exchange that signs or broadcasts on behalf of a wallet. *)
Definition spending (x : exchange) : bool :=
  match x with XSign _ _ | XBroadcast _ _ => true | _ => false end.

Definition advance (k k' : string * Req) : Prop :=
  k.2 = k'.2 ∧ rtc transition k.1 k'.1.

Section saga_relation.
Context `{UUIDLib} `{DecimalLib} `{CryptoLib}.

(** The exchange is for this request: what is signed is the payload built for
    the request's recipient and amount, on behalf of its wallet. *)
Definition authorised (q : Req) (x : exchange) : Prop :=
  match x with
  | XSign sq _ => sq_WalletID sq = q_WalletID q ∧
      ∃ w wr n ops opts world u world', req_of wr = q ∧
        BuildUnsignedTx w wr n ops opts world = (Ok u, world') ∧
        sq_TxBytes sq = ut_Payload u
  | XBroadcast bq _ => bq_WalletID bq = q_WalletID q
  | _ => True
  end.

Definition cleared_row (w : World) (x : exchange) : Prop :=
  ∃ id k, rows (store w) !! id = Some k ∧ cleared k.1 = true ∧ authorised k.2 x.

Definition saga (w w' : World) : Prop :=
  (∃ xs, trace w' = trace w ++ xs ∧
    ∀ x, x ∈ xs → spending x = true → cleared_row w x) ∧
  ∀ id, option_Forall2 advance (rows (store w) !! id) (rows (store w') !! id).
End saga_relation.

Lemma advance_refl k : advance k k.
Proof. split; [done|reflexivity]. Qed.

Lemma rows_advance_refl w w' :
  rows (store w') = rows (store w) →
  ∀ id, option_Forall2 advance (rows (store w) !! id) (rows (store w') !! id).
Proof.
  intros -> id. destruct (rows (store w) !! id); constructor. apply advance_refl.
Qed.

#[export] Instance saga_preorder `{UUIDLib} `{DecimalLib} `{CryptoLib} : PreOrder saga.
Proof.
  split.
  - intros w. split; [|by apply rows_advance_refl]. exists []. rewrite app_nil_r.
    split; [done|]. by intros ? ?%elem_of_nil.
  - intros x y z [(xs & Htx & Hx) Hrx] [(ys & Hty & Hy) Hry]. split.
    + exists (xs ++ ys). rewrite Hty, Htx, app_assoc. split; [done|].
      intros e [He|He]%elem_of_app Hs; [by eapply Hx|].
      destruct (Hy e He Hs) as (id & k & Hk & Hc & Hw).
      specialize (Hrx id). rewrite Hk in Hrx.
      destruct (rows (store x) !! id) as [k0|] eqn:Hk0; inversion Hrx as [?? [Hq Ht]|]; subst.
      exists id, k0. split_and!; [done|by eapply transitions_cleared|congruence].
    + intros id. specialize (Hrx id). specialize (Hry id).
      destruct Hrx as [k k1 [Hq Ht]|]; inversion Hry as [? k2 [Hq' Ht']|]; subst;
        constructor. split; [congruence|by etrans].
Qed.

(** ** Silent methods *)
Definition silent (w w' : World) : Prop :=
  rows (store w') = rows (store w) ∧ trace w' = trace w.

#[export] Instance silent_frame_rel : FrameRel silent.
Proof.
  split; [split|]; unfold silent.
  - done.
  - intros ??? [] []. split; congruence.
  - by intros w w' -> ->.
Qed.

Lemma silent_saga `{UUIDLib} `{DecimalLib} `{CryptoLib} w w' : silent w w' → saga w w'.
Proof.
  intros [Hr Ht]. split; [|by apply rows_advance_refl]. exists []. rewrite app_nil_r.
  split; [done|]. by intros ? ?%elem_of_nil.
Qed.

Lemma within_silent_saga `{UUIDLib} `{DecimalLib} `{CryptoLib} {A} (m : Go A) : within silent m → within saga m.
Proof. intros Hm w. apply silent_saga, Hm. Qed.

(** ** Operations that start from a known row *)
Definition at_row (id : uuid) (k : string * Req) (w : World) : Prop :=
  rows (store w) !! id = Some k.

Section triples.
Context `{UUIDLib} `{DecimalLib} `{CryptoLib} (P : World → Prop).

(** [m] follows the machine, and [P] holds when it returns. *)
Definition ok_step {A} (m : Go A) : Prop := ∀ w, P w →
  saga w (m w).2 ∧ ∀ a w', m w = (Ok a, w') → P w'.

(** [m] follows the machine, and [P] holds afterwards in any case. *)
Definition steady_step {A} (m : Go A) : Prop := ∀ w, P w → saga w (m w).2 ∧ P (m w).2.

Definition saga_from {A} (m : Go A) : Prop := ∀ w, P w → saga w (m w).2.

Lemma steady_ok {A} (m : Go A) : steady_step m → ok_step m.
Proof.
  intros Hm w Hw. destruct (Hm w Hw) as [Hs HP]. split; [done|].
  intros a w' Hr. by rewrite Hr in HP.
Qed.

(** The continuation may use that the first call returned. *)
Lemma ok_bind_eq {A B} (m : Go A) (f : A → Go B) :
  ok_step m → (∀ w a w', m w = (Ok a, w') → ok_step (f a)) → ok_step (m ≫= f).
Proof.
  intros Hm Hf w Hw. destruct (Hm w Hw) as [Hs HP]. unfold mbind, GoM_bind.
  destruct (m w) as [[a|e] w1] eqn:Hr; simpl in *; [|split; [done|congruence]].
  destruct (Hf _ _ _ Hr w1 (HP a w1 eq_refl)) as [Hs' HP']. split; [by etrans|done].
Qed.

Lemma ok_bind {A B} (m : Go A) (f : A → Go B) :
  ok_step m → (∀ a, ok_step (f a)) → ok_step (m ≫= f).
Proof. intros Hm Hf. apply ok_bind_eq; auto. Qed.

Lemma saga_from_bind {A B} (m : Go A) (f : A → Go B) :
  ok_step m → (∀ a, saga_from (f a)) → saga_from (m ≫= f).
Proof.
  intros Hm Hf w Hw. destruct (Hm w Hw) as [Hs HP]. unfold mbind, GoM_bind.
  destruct (m w) as [[a|e] w1]; simpl in *; [|done].
  etrans; [exact Hs|]. apply Hf, (HP a w1 eq_refl).
Qed.

Lemma saga_from_then {A B} (m : Go A) (f : A → Go B) :
  saga_from m → (∀ a, within saga (f a)) → saga_from (m ≫= f).
Proof.
  intros Hm Hf w Hw. specialize (Hm w Hw). unfold mbind, GoM_bind.
  destruct (m w) as [[a|e] w1]; simpl in *; [|done]. etrans; [exact Hm|apply Hf].
Qed.

Lemma ok_ret {A} (a : A) : ok_step (mret a).
Proof. intros w Hw. split; [reflexivity|]. by intros b w' [= <- <-]. Qed.

Lemma or_cleanup_Ok {A} msg cleanup (m : Go A) w a w' :
  or_cleanup msg cleanup m w = (Ok a, w') → m w = (Ok a, w').
Proof.
  unfold or_cleanup. go_run. destruct (m w) as [[b|e] w1]; [done|].
  by destruct (cleanup w1) as [[]].
Qed.

Lemma ok_or_cleanup {A} msg cleanup (m : Go A) :
  steady_step m → saga_from cleanup → ok_step (or_cleanup msg cleanup m).
Proof.
  intros Hm Hc w Hw. unfold or_cleanup. go_run.
  destruct (Hm w Hw) as [Hs HP]. destruct (m w) as [[a|e] w1]; simpl in *.
  - split; [done|]. by intros b w' [= _ <-].
  - specialize (Hc w1 HP). destruct (cleanup w1) as [[[]|e'] w2]; simpl in *;
      (split; [by etrans|congruence]).
Qed.
End triples.

Lemma at_row_silent `{UUIDLib} `{DecimalLib} `{CryptoLib} {A} id k (m : Go A) : within silent m → steady_step (at_row id k) m.
Proof.
  intros Hm w Hw. split; [apply silent_saga, Hm|]. unfold at_row.
  by rewrite (proj1 (Hm w)).
Qed.

(** Asking the signer or the gateway on behalf of a cleared row. *)
Lemma at_row_ask `{UUIDLib} `{DecimalLib} `{CryptoLib} {Q A} id k mk f (q : Q) :
  cleared k.1 = true → (∀ r, authorised k.2 (mk q r)) →
  steady_step (at_row id k) (ask (R := A) mk f q).
Proof.
  intros Hc Hs w Hw. unfold ask. simpl. split; [|done].
  split; [|by apply rows_advance_refl]. eexists. split; [done|].
  intros x ->%list_elem_of_singleton _. exists id, k. auto.
Qed.

(** ** The collaborators of the service *)
Definition same_visible (w w' : World) : Prop :=
  store w' = store w ∧ trace w' = trace w.

(** Resolvers only read, the emitter writes the audit tables, and nothing else
    runs while the service waits for a lock. *)
Class CollaboratorLaws `{UUIDLib} (C : Collaborators) : Type := {
  co_locker_laws :: LockerLaws (co_Locker C);
  co_emitter_laws :: EmitterLaws (co_Audit C);
  co_sleep_quiet : within same_visible (co_sleep C);
  co_key_quiet f wid : co_KeyLookup C = Some f → within same_visible (f wid);
  co_btc_quiet f wid : co_BTCKeys C = Some f → within same_visible (f wid);
  co_solana_quiet f wid : co_SolanaKeys C = Some f → within same_visible (f wid);
  co_blockhash_quiet m : co_SolanaBlockhash C = Some m → within same_visible m
}.

Lemma quiet_within {A} (R : relation World) `{!FrameRel R} (m : Go A) :
  within same_visible m → within R m.
Proof. intros Hm w. destruct (Hm w). by apply frame_rel_same. Qed.

Section frames.
Context `{GoRuntime} `{UUIDLib} `{Environment} `{DecimalLib} `{CryptoLib}.
Context (C : Collaborators) `{!CollaboratorLaws C}.
Context (R : relation World) `{!FrameRel R}.

Lemma RollbackNonce_frame id c n : ignores set_nonces R → within R (RollbackNonce id c n).
Proof. intros Hi. unfold RollbackNonce. solve_within. Qed.

Lemma CommitNonce_frame id c n : ignores set_nonces R → within R (CommitNonce id c n).
Proof. intros Hi. unfold CommitNonce. solve_within. Qed.

Lemma ReserveNonce_frame id c :
  ignores set_nonces R → within R (ReserveNonce (co_Locker C) (co_sleep C) id c).
Proof.
  intros Hi. apply within_reserve_loop; [apply _|apply _|done|].
  apply quiet_within; [done|apply co_sleep_quiet].
Qed.

Lemma SelectForAmount_frame id amount :
  ignores set_utxos R → within R (SelectForAmount id amount).
Proof. intros Hi. unfold SelectForAmount. solve_within. Qed.

Lemma Unlock_frame ops : ignores set_utxos R → within R (Unlock ops).
Proof. intros Hi. unfold Unlock. solve_within. Qed.

Lemma MarkSpent_frame ops tx : ignores set_utxos R → within R (MarkSpent ops tx).
Proof. intros Hi. unfold MarkSpent. solve_within. Qed.

Lemma rollback_frame w n ops :
  ignores set_nonces R → ignores set_utxos R → within R (rollback w n ops).
Proof.
  intros Hn Hu. unfold rollback. apply within_bind; [apply _|..].
  - apply within_when; [apply _|]. by apply within_ignore, RollbackNonce_frame.
  - intros _. apply within_when; [apply _|]. by apply within_ignore, Unlock_frame.
Qed.

Lemma within_or_cleanup {A} msg cleanup (m : Go A) :
  within R m → within R cleanup → within R (or_cleanup msg cleanup m).
Proof. intros Hm Hc. unfold or_cleanup. solve_within. Qed.

Lemma resolve_key_frame wid : within R (resolve_key C wid).
Proof.
  unfold resolve_key. destruct (co_KeyLookup C) as [f|] eqn:Hf; [|solve_within].
  apply within_wrap_err, quiet_within; [done|]. by eapply co_key_quiet.
Qed.

Lemma resolveBuildOpts_frame w : within R (resolveBuildOpts C w).
Proof.
  unfold resolveBuildOpts. apply within_bind; [apply _|..].
  - destruct (co_BTCKeys C) as [f|] eqn:Hf; [|solve_within].
    case_bool_decide; [|solve_within].
    apply within_wrap_err, quiet_within; [done|]. by eapply co_btc_quiet.
  - intros btc. apply within_bind; [apply _|..|solve_within].
    destruct (co_SolanaKeys C) as [f|] eqn:Hf; [|solve_within].
    case_bool_decide; [|solve_within].
    apply within_wrap_err, quiet_within; [done|]. by eapply co_solana_quiet.
Qed.

Lemma BuildUnsignedTx_frame w wr n ops opts :
  bo_SolanaBlockhash opts = co_SolanaBlockhash C →
  within R (BuildUnsignedTx w wr n ops opts).
Proof.
  intros Ho. assert (within R (fetch_blockhash opts)) as Hf.
  { unfold fetch_blockhash. rewrite Ho.
    destruct (co_SolanaBlockhash C) as [m|] eqn:Hm; [|solve_within].
    apply within_bind; [apply _|apply within_attempt|solve_within].
    apply quiet_within; [done|]. by apply co_blockhash_quiet. }
  unfold BuildUnsignedTx, buildSolanaUnsignedTx.
  destruct (IsEVM (w_Chain w)); [apply within_of_result, _|].
  case_bool_decide; [apply within_of_result, _|].
  case_bool_decide; [|apply within_throw, _].
  apply within_bind; [apply _|apply within_of_result, _|intros to].
  apply within_bind; [apply _|apply within_of_result, _|intros lamports].
  apply within_bind; [apply _|exact Hf|intros bh]. apply within_ret, _.
Qed.

Lemma resolveBuildOpts_blockhash w world opts world' :
  resolveBuildOpts C w world = (Ok opts, world') →
  bo_SolanaBlockhash opts = co_SolanaBlockhash C.
Proof.
  unfold resolveBuildOpts, mbind, GoM_bind.
  match goal with |- context [match ?m world with _ => _ end] => 
    destruct (m world) as [[btc|e] w1]; [|done] end.
  match goal with |- context [match ?m w1 with _ => _ end] => 
    destruct (m w1) as [[sol|e] w2]; [|done] end.
  by intros [= <- _].
Qed.
End frames.

#[export] Hint Resolve RollbackNonce_frame CommitNonce_frame ReserveNonce_frame
  SelectForAmount_frame Unlock_frame MarkSpent_frame rollback_frame within_or_cleanup
  resolve_key_frame resolveBuildOpts_frame : within.

(** ** Every operation follows the machine *)
Section operations.
Context `{GoRuntime} `{UUIDLib} `{Environment} `{DecimalLib} `{CryptoLib}.
Context (C : Collaborators) `{!CollaboratorLaws C}.

(** Tables other than the withdrawals are invisible to the machine. *)
Lemma silent_ignores {X} (set : Store → X → Store) :
  (∀ s x, rows (set s x) = rows s) → ignores set silent.
Proof. intros Hs w x. split; [apply Hs|done]. Qed.

Lemma update_withdrawal_row_silent f id :
  (∀ now x, row_key (f now x) = row_key x) → within silent (update_withdrawal_row f id).
Proof.
  intros Hf w. unfold update_withdrawal_row. go_run.
  destruct (withdrawals (store w) !! id) as [x|] eqn:Hx; simpl; [|done].
  split; [|done]. unfold rows. simpl. rewrite fmap_insert, Hf.
  apply insert_id. by rewrite lookup_fmap, Hx.
Qed.

Lemma UpdateWithdrawalState_rows id st r tx d w :
  trace (UpdateWithdrawalState id st r tx d w).2 = trace w ∧
  rows (store (UpdateWithdrawalState id st r tx d w).2) =
    match rows (store w) !! id with
    | Some k => <[id := (st, k.2)]> (rows (store w))
    | None => rows (store w)
    end.
Proof.
  unfold UpdateWithdrawalState, rows. go_run. rewrite lookup_fmap.
  destruct (withdrawals (store w) !! id) as [x|]; simpl; [|done].
  destruct (terminal_state st); simpl; (split; [done|]); by rewrite fmap_insert.
Qed.

Lemma UpdateWithdrawalState_saga id st r tx d w :
  (∀ k, rows (store w) !! id = Some k → transition k.1 st) →
  saga w (UpdateWithdrawalState id st r tx d w).2.
Proof.
  intros Ht. destruct (UpdateWithdrawalState_rows id st r tx d w) as [Htr Hrows]. split.
  - exists []. rewrite app_nil_r. split; [done|]. by intros ? ?%elem_of_nil.
  - intros id'. rewrite Hrows. destruct (rows (store w) !! id) as [k|] eqn:Hk.
    + destruct (decide (id' = id)) as [->|Hne].
      * rewrite Hk, lookup_insert_eq. constructor. split; [done|].
        apply rtc_once. by apply Ht.
      * rewrite lookup_insert_ne by done.
        destruct (rows (store w) !! id'); constructor. apply advance_refl.
    + destruct (rows (store w) !! id'); constructor. apply advance_refl.
Qed.

Lemma UpdateWithdrawalState_fail_saga id r tx d :
  within saga (UpdateWithdrawalState id WithdrawalStateFailed r tx d).
Proof. intros w. apply UpdateWithdrawalState_saga. intros k _. constructor. Qed.

Lemma fail_with_saga fl id r : within saga (fail_with fl id r).
Proof. apply within_ignore, within_write, UpdateWithdrawalState_fail_saga. apply _. Qed.

Lemma emit_silent ev : within silent (emit (co_Audit C) ev).
Proof. apply within_emit; [apply _|apply _|by apply silent_ignores..]. Qed.

Lemma rollback_silent w n ops : within silent (rollback w n ops).
Proof. apply rollback_frame; [apply _|by apply silent_ignores..]. Qed.

Lemma reserve_silent fl id wr w : within silent (reserve C fl id wr w).
Proof.
  assert (ignores set_nonces silent) as Hn by by apply silent_ignores.
  assert (ignores set_utxos silent) as Hu by by apply silent_ignores.
  assert (∀ n, within silent (UpdateWithdrawalNonce id n)) as Hun
    by (intros n; by apply update_withdrawal_row_silent).
  assert (∀ ops, within silent (UpdateWithdrawalOutpoints id ops)) as Huo
    by (intros ops; by apply update_withdrawal_row_silent).
  unfold reserve. apply within_if; [|apply within_if; [|solve_within]].
  - apply within_bind; [apply _|apply within_wrap_err|].
    { apply ReserveNonce_frame; [apply _|apply _|done]. }
    intros n. apply within_bind; [apply _|apply within_ignore, within_write; [apply _|done]|solve_within].
  - assert (∀ n, within silent (ignore (RollbackNonce (wr_WalletID wr) (w_Chain w) n))) as Hr
      by (intros n; apply within_ignore; apply RollbackNonce_frame; [apply _|exact Hn]).
    apply within_bind; [apply _|..].
    { apply within_or_cleanup; [apply _|apply within_of_result, _|apply Hr]. }
    intros amount. apply within_bind; [apply _|..].
    { apply within_or_cleanup; [apply _|apply SelectForAmount_frame; [apply _|exact Hu]|apply Hr]. }
    intros [ops tot]. apply within_bind; [apply _|..|intros _; apply within_ret, _].
    apply within_or_cleanup; [apply _|apply within_write; [apply _|apply Huo]|apply rollback_silent].
Qed.

Lemma GetWithdrawal_run id w :
  GetWithdrawal id w =
  (match withdrawals (store w) !! id with
   | Some x => Ok x
   | None => Err (ErrWrap "withdrawal not found" ErrNoRows)
   end, w).
Proof. unfold GetWithdrawal. go_run. by destruct (withdrawals (store w) !! id). Qed.

(** Start from the row an operation has read. *)
Lemma from_row {A} id (f : WithdrawalRequest → Go A) :
  (∀ x, saga_from (at_row id (row_key x)) (f x)) →
  within saga (GetWithdrawal id ≫= f).
Proof.
  intros Hf w. unfold mbind, GoM_bind. rewrite GetWithdrawal_run.
  destruct (withdrawals (store w) !! id) as [x|] eqn:Hx; [|reflexivity].
  apply Hf. unfold at_row, rows. by rewrite lookup_fmap, Hx.
Qed.

Lemma saga_from_throw {A} P e : saga_from P (throw (A := A) e).
Proof. intros w _. reflexivity. Qed.

Lemma at_row_read {A} id k (m : Go A) :
  (∀ R : relation World, FrameRel R → within R m) → ok_step (at_row id k) m.
Proof. intros Hm. apply steady_ok, at_row_silent, Hm, _. Qed.

Lemma saga_from_update id k st r tx d :
  transition k.1 st → saga_from (at_row id k) (UpdateWithdrawalState id st r tx d).
Proof.
  intros Ht w Hw. apply UpdateWithdrawalState_saga. intros k' Hk'.
  unfold at_row in Hw. congruence.
Qed.

Lemma saga_from_write P fl k m : saga_from P m → saga_from P (write fl k m).
Proof.
  intros Hm w Hw. specialize (Hm w Hw). destruct fl as [f|]; [|done]. simpl.
  by destruct (f k w) as [[e []]|].
Qed.

Lemma from_within {A} P (m : Go A) : within saga m → saga_from P m.
Proof. intros Hm w _. apply Hm. Qed.
End operations.

(** ** The operations *)
Section lifecycle.
Context `{GoRuntime} `{UUIDLib} `{Environment} `{DecimalLib} `{CryptoLib}.
Context (C : Collaborators) `{!CollaboratorLaws C}.

Lemma build_and_sign_ok fl id wr w keyID n ops :
  cleared (wr_State wr) = true →
  ok_step (at_row id (row_key wr)) (build_and_sign C fl id wr w keyID n ops).
Proof.
  intros Hc. unfold build_and_sign.
  assert (∀ P, saga_from P (rollback w n ops)) as Hroll
    by (intros P; apply from_within, within_silent_saga, rollback_silent).
  assert (∀ P r, saga_from P (rollback w n ops;; fail_with fl id r)) as Hrf.
  { intros P r. apply from_within, within_bind; [apply _|..].
    - apply within_silent_saga, rollback_silent.
    - intros _. apply fail_with_saga. }
  apply ok_bind_eq; [apply ok_or_cleanup; [|apply Hroll]|].
  { apply at_row_silent, resolveBuildOpts_frame; apply _. }
  intros w0 opts w1 Ho%or_cleanup_Ok%resolveBuildOpts_blockhash.
  apply ok_bind_eq; [apply ok_or_cleanup; [|apply Hroll]|].
  { apply at_row_silent. apply (BuildUnsignedTx_frame C); [apply _|done]. }
  intros w2 u w3 Hu%or_cleanup_Ok. apply ok_bind; [apply ok_or_cleanup; [|apply Hrf]|].
  { apply at_row_ask; [done|]. intros r. split; [done|].
    exists w, wr, n, ops, opts, w2, u, w3. done. }
  intros resp. apply ok_bind; [apply ok_or_cleanup; [|apply Hrf]|].
  { apply at_row_silent, within_of_result, _. }
  intros bytes. apply ok_bind; [apply ok_or_cleanup; [|apply Hroll]|].
  { apply at_row_silent, within_write; [apply _|]. by apply update_withdrawal_row_silent. }
  intros _. apply ok_ret.
Qed.

Lemma ConstructAndSign_saga fl id : within saga (ConstructAndSign C fl id).
Proof.
  unfold ConstructAndSign. apply from_row. intros wr.
  case_bool_decide as Hst; simpl; [|apply saga_from_throw].
  assert (cleared (wr_State wr) = true) as Hc by by rewrite Hst.
  apply saga_from_bind; [apply at_row_read; intros R HR; apply GetWallet_reads, HR|].
  intros w. apply saga_from_bind.
  { apply at_row_read. intros R HR. by apply resolve_key_frame. }
  intros keyID. apply saga_from_bind; [apply steady_ok, at_row_silent, reserve_silent, _|].
  intros [n ops]. apply saga_from_bind; [by apply build_and_sign_ok|].
  intros bytes. apply saga_from_then.
  - apply saga_from_write, saga_from_update. simpl. rewrite Hst. constructor.
  - intros _. apply within_silent_saga, (emit_silent C).
Qed.

Lemma Broadcast_saga id : within saga (Broadcast C id).
Proof.
  unfold Broadcast. apply from_row. intros wr.
  case_bool_decide as Hst; simpl; [|apply saga_from_throw].
  assert (cleared (wr_State wr) = true) as Hc by by rewrite Hst.
  apply saga_from_bind; [apply at_row_read; intros R HR; apply GetWallet_reads, HR|].
  intros w. case_bool_decide; [apply saga_from_throw|].
  apply saga_from_bind; [apply ok_or_cleanup|].
  { by apply at_row_ask. }
  { apply from_within, within_bind; [apply _|apply within_silent_saga, rollback_silent|].
    intros _. apply fail_with_saga. }
  intros resp. apply saga_from_bind; [apply steady_ok, at_row_silent|].
  { apply within_when; [apply _|]. apply within_ignore, MarkSpent_frame; [apply _|].
    by apply silent_ignores. }
  intros _. apply saga_from_bind; [apply steady_ok, at_row_silent|].
  { destruct (wr_NonceValue wr); [|apply within_ret, _].
    apply within_when; [apply _|]. apply within_ignore, CommitNonce_frame; [apply _|].
    by apply silent_ignores. }
  intros _. apply saga_from_then.
  - apply saga_from_update. simpl. rewrite Hst. constructor.
  - intros _. apply within_silent_saga, (emit_silent C).
Qed.

Lemma Confirm_saga id tx : within saga (Confirm C id tx).
Proof.
  unfold Confirm. apply from_row. intros wr.
  case_bool_decide as Hst; simpl; [|apply saga_from_throw].
  apply saga_from_then.
  - apply saga_from_update. simpl. rewrite Hst. constructor.
  - intros _. apply within_silent_saga, (emit_silent C).
Qed.

Lemma Fail_saga id reason : within saga (Fail C id reason).
Proof.
  unfold Fail. apply within_bind; [apply _|..|intros wr].
  { apply within_silent_saga, GetWithdrawal_reads, _. }
  apply within_bind; [apply _|apply within_silent_saga, GetWallet_reads, _|intros w].
  apply within_bind; [apply _|apply within_silent_saga, rollback_silent|intros _].
  apply within_bind; [apply _|apply UpdateWithdrawalState_fail_saga|intros _].
  apply within_silent_saga, (emit_silent C).
Qed.

Lemma OnReorg_saga id ops : within saga (OnReorg id ops).
Proof.
  unfold OnReorg. apply from_row. intros wr. apply saga_from_bind.
  { apply steady_ok, at_row_silent. unfold RestoreOnReorg.
    apply RestoreUTXOs_frame; [apply _|]. by apply silent_ignores. }
  intros _. case_bool_decide as Hst.
  - apply saga_from_update. simpl. rewrite Hst. constructor.
  - intros w _. reflexivity.
Qed.
End lifecycle.
