(* ===== verification/WithdrawalResources.v ===== *)
(** * WithdrawalResources: nonces and outputs reserved for a withdrawal

    [ConstructAndSign] holds a nonce or a set of outputs while it builds and
    signs, and gives them back on every error path but one, the failed write of
    the state SIGNED ([signed_write_keeps_nonce]); [Broadcast] commits what is
    held or gives it back. *)
From stdpp Require Import base tactics numbers gmap strings list.
From Stdlib Require Import ZArith Lia.
From S2P Require Import Prelude.
From S2P Require Import GoLang.
From S2P Require Import GoText.
From S2P Require Import GoBytes.
From S2P Require Import Crypto.
From S2P Require Import Domain.
From S2P Require Import Evm.
From S2P Require Import Config.
From S2P Require Import World.
From S2P Require Import Reference.
From S2P Require Import Decimal.
From S2P Require Import TxBuilder.
From S2P Require Import MemStore.
From S2P Require Import MemStoreFacts.
From S2P Require Import MemStoreFrames.
From S2P Require Import Lock.
From S2P Require Import Nonce.
From S2P Require Import Utxo.
From S2P Require Import AuditOutbox.
From S2P Require Import Withdrawal.
From S2P Require Import WithdrawalSaga.

#[local] Open Scope string_scope.
#[local] Open Scope list_scope.
#[local] Open Scope Z_scope.

(** ** Resources *)
Section resources.
Context `{GoRuntime} `{UUIDLib} `{Environment} `{DecimalLib} `{CryptoLib}.

Definition lock_of (op : string) (w : World) : option string :=
  u_LockState <$> utxo_at op w.

Definition same_resources (w w' : World) : Prop :=
  (∀ wid c, pending wid c w' = pending wid c w) ∧ ∀ op, lock_of op w' = lock_of op w.

#[export] Instance same_resources_store_rel : StoreRel same_resources.
Proof.
  split; [split|]; unfold same_resources, pending, lock_of, utxo_at.
  - done.
  - intros x y z [Hp Hl] [Hp' Hl']. split; intros; congruence.
  - by intros w w' ->.
Qed.

(** What a withdrawal of wallet [W] holds: a nonce, the last one handed out,
    on an EVM chain; locked outputs that were free elsewhere. *)
Definition holding (W : Wallet) (n : Z) (ops : list string) (w0 w1 : World) : Prop :=
  if IsEVM (w_Chain W) then
    ops = [] ∧ n = pending (w_ID W) (w_Chain W) w0 ∧ 0 ≤ n < 2 ^ 63 - 1 ∧
    pending (w_ID W) (w_Chain W) w1 = n + 1 ∧ other_rows (w_ID W) (w_Chain W) w0 w1 ∧
    ∀ op, lock_of op w1 = lock_of op w0
  else
    n = -1 ∧ (∀ wid c, pending wid c w1 = pending wid c w0) ∧
    (∀ op, op ∈ ops → lock_of op w0 = Some UTXOLockStateFree ∧
       lock_of op w1 = Some UTXOLockStateLocked) ∧
    ∀ op, op ∉ ops → lock_of op w1 = lock_of op w0.

Lemma holding_store W n ops w0 w1 w2 :
  nonces (store w2) = nonces (store w1) → utxos (store w2) = utxos (store w1) →
  holding W n ops w0 w1 → holding W n ops w0 w2.
Proof.
  unfold holding, pending, other_rows, lock_of, utxo_at, nonce_row. intros -> ->. done.
Qed.

Lemma pending_other wid c wid' c' w w' :
  other_rows wid c w w' → (wid', c') ≠ (wid, c) → pending wid' c' w' = pending wid' c' w.
Proof.
  intros Ho Hne. unfold pending, nonce_row. rewrite Ho; [done|].
  intros [-> ->]%nonceKey_inj. done.
Qed.

(** Giving back the last nonce handed out restores the counters. *)
Lemma RollbackNonce_releases wid c w0 w1 :
  0 ≤ pending wid c w0 < 2 ^ 63 - 1 → pending wid c w1 = pending wid c w0 + 1 →
  other_rows wid c w0 w1 →
  ∀ wid' c', pending wid' c' (RollbackNonce wid c (pending wid c w0) w1).2
    = pending wid' c' w0.
Proof.
  intros Hn Hp Ho wid' c'. unfold RollbackNonce. go_run.
  destruct (RollbackPendingNonce_spec wid c (pending wid c w0) w1 Hn)
    as (r & w2 & -> & Hp2 & _ & Ho2 & _). simpl.
  destruct (decide ((wid', c') = (wid, c))) as [[= -> ->]|Hne].
  - rewrite Hp2. unfold rolled_back. by rewrite int64_succ_lt, Hp, Z.eqb_refl by lia.
  - rewrite (pending_other wid c _ _ w1 w2) by done. by apply (pending_other wid c).
Qed.

Lemma Unlock_run ops w :
  Forall (λ op, is_Some (lock_of op w)) ops →
  (Unlock ops w).1 = Ok tt ∧
  nonces (store (Unlock ops w).2) = nonces (store w) ∧
  withdrawals (store (Unlock ops w).2) = withdrawals (store w) ∧
  (∀ op, op ∈ ops → lock_of op (Unlock ops w).2 = Some UTXOLockStateFree) ∧
  ∀ op, op ∉ ops → lock_of op (Unlock ops w).2 = lock_of op w.
Proof.
  intros Hall. unfold Unlock, RestoreUTXOs, lock_of in *. go_run.
  rewrite update_loop_run; [|done|].
  - simpl. unfold utxo_at. simpl. split_and!; [done..| |]; intros op Hop;
      rewrite alter_all_lookup by done; [|by rewrite decide_False].
    rewrite decide_True by done. rewrite list.Forall_forall in Hall.
    destruct (Hall op Hop) as [st Hst]. unfold utxo_at in Hst.
    by destruct (utxos (store w) !! op).
  - eapply Forall_impl; [exact Hall|]. intros op. simpl. by rewrite fmap_is_Some.
Qed.

Lemma rollback_releases W n ops w0 w1 :
  holding W n ops w0 w1 → same_resources w0 (rollback W n ops w1).2.
Proof.
  unfold holding, rollback. destruct (IsEVM (w_Chain W)) eqn:He.
  - intros (-> & -> & Hn & Hp & Ho & Hl). rewrite (proj2 (Z.leb_le _ _)) by lia.
    rewrite bool_decide_true by done. simpl. go_run.
    pose proof (RollbackNonce_releases _ _ w0 w1 Hn Hp Ho) as Hr.
    pose proof (RollbackNonce_frame (unchanged utxos) (w_ID W) (w_Chain W)
      (pending (w_ID W) (w_Chain W) w0) ltac:(by intros ??) w1) as Hu.
    destruct (RollbackNonce _ _ _ w1) as [r w2]. simpl in *. split; [done|].
    intros op. rewrite <- Hl. unfold lock_of, utxo_at. by rewrite Hu.
  - intros (-> & Hp & Hin & Hout). simpl. go_run.
    assert (Forall (λ op, is_Some (lock_of op w1)) ops) as Hall.
    { apply list.Forall_forall. intros op [_ ->]%Hin. done. }
    destruct (Unlock_run ops w1 Hall) as (_ & Hn & _ & Hi & Ho).
    destruct (bool_decide (ops = [])) eqn:Hops; simpl.
    + apply bool_decide_eq_true in Hops as ->. split; [done|].
      intros op. apply Hout, not_elem_of_nil.
    + destruct (Unlock ops w1) as [r w2]. simpl in *. split.
      * intros wid c. rewrite <- Hp. unfold pending, nonce_row. by rewrite Hn.
      * intros op. destruct (decide (op ∈ ops)) as [Hop|Hop].
        -- rewrite Hi by done. by destruct (Hin op Hop) as [-> _].
        -- by rewrite Ho, Hout.
Qed.
End resources.

(** ** Reserving *)
Section reserving.
Context `{GoRuntime} `{UUIDLib} `{Environment} `{DecimalLib} `{CryptoLib}.
Context (C : Collaborators) `{!CollaboratorLaws C}.

Lemma reserve_loop_quiet i wid c w :
  match reserve_loop (co_Locker C) (co_sleep C) i wid c w with
  | (Ok v, w') => v = pending wid c w ∧ pending wid c w' = int64 (v + 1) ∧
      other_rows wid c w w'
  | (Err _, w') => store w' = store w
  end.
Proof.
  revert w. induction i as [|i IH]; intros w; [done|].
  destruct (held (L := co_Locker C) (nonce_lock_name wid c) w) as [tok|] eqn:Hh.
  - destruct (acquire_held (L := co_Locker C) (nonce_lock_name wid c) 5000000000 w) as (w1 & Ha & Hs & _);
      [by rewrite Hh|].
    simpl. go_run. rewrite Ha. pose proof (co_sleep_quiet w1) as [Hq _].
    destruct (co_sleep C w1) as [[[]|e] w2]; simpl in *; [|congruence].
    specialize (IH w2). rewrite Hs in Hq.
    destruct (reserve_loop _ _ i wid c w2) as [[v|e] w3]; [|congruence].
    unfold pending, other_rows in *. by rewrite Hq in IH.
  - destruct (reserve_loop_free (co_Locker C) (co_sleep C) wid c i w Hh)
      as (w2 & -> & Hp & _ & Ho & _). done.
Qed.

(** The row of the withdrawal says what it holds. *)
Definition recorded (id : uuid) (W : Wallet) (n : Z) (ops : list string) (s : Store) : Prop :=
  ∃ x, withdrawals s !! id = Some x ∧
    (IsEVM (w_Chain W) = true → wr_NonceValue x = Some n) ∧
    (w_Chain W = ChainBitcoin → wr_ReservedOutpoints x = ops).

Lemma update_withdrawal_row_run f id w x :
  withdrawals (store w) !! id = Some x →
  update_withdrawal_row f id w =
    (Ok tt, set_store (set_withdrawals (store w)
      (<[id := f (clock (ticks w)) x]> (withdrawals (store w)))) (time_Now w).2).
Proof. intros Hx. unfold update_withdrawal_row. go_run. by rewrite Hx. Qed.

(** The error of the write of the nonce is dropped, so the row says what it holds when
    that write does not fail. *)
Definition nonce_written (fl : Faults) : Prop :=
  ∀ f w, fl = Some f → f WNonce w = None.

Definition noted (fl : Faults) (id : uuid) (W : Wallet) (n : Z) (ops : list string)
    (s : Store) : Prop :=
  is_Some (withdrawals s !! id) ∧ (nonce_written fl → recorded id W n ops s).

(** A write of a row, made or not. *)
Lemma write_row_run fl k f id w x :
  withdrawals (store w) !! id = Some x →
  ∃ r w' y, write fl k (update_withdrawal_row f id) w = (r, w') ∧
    nonces (store w') = nonces (store w) ∧ utxos (store w') = utxos (store w) ∧
    withdrawals (store w') !! id = Some y ∧
    (y = x ∨ y = f (clock (ticks w)) x) ∧
    (match r with
     | Ok _ => y = f (clock (ticks w)) x
     | Err e => ∃ g made, fl = Some g ∧ g k w = Some (e, made)
     end).
Proof.
  intros Hx. pose proof (update_withdrawal_row_run f id w x Hx) as Hr.
  assert (∀ w', (update_withdrawal_row f id w).2 = w' →
    nonces (store w') = nonces (store w) ∧ utxos (store w') = utxos (store w) ∧
    withdrawals (store w') !! id = Some (f (clock (ticks w)) x)) as Hmade.
  { intros w' <-. rewrite Hr. simpl. by rewrite lookup_insert_eq. }
  destruct (Hmade _ eq_refl) as (Hn & Hu & Hw).
  destruct fl as [g|]; simpl; [destruct (g k w) as [[e []]|] eqn:Hg|].
  - eexists _, _, _. split_and!; [done|done|done|done|by right|by eexists _, _].
  - eexists _, _, _. split_and!; [done|done|done|exact Hx|by left|by eexists _, _].
  - rewrite Hr in *. eexists _, _, _. split_and!; [done|done|done|done|by right|done].
  - rewrite Hr in *. eexists _, _, _. split_and!; [done|done|done|done|by right|done].
Qed.

(** Only EVM chains have nonce counters. *)
Definition evm_counters (s : Store) : Prop :=
  ∀ wid c, IsEVM c = false → nonces s !! nonceKey wid c = None.

Lemma RollbackNonce_none wid c n w :
  nonces (store w) !! nonceKey wid c = None → (RollbackNonce wid c n w).2 = w.
Proof. intros Hn. unfold RollbackNonce, RollbackPendingNonce. go_run. by rewrite Hn. Qed.

Lemma SelectForAmount_holding W amount w :
  utxos_ok (utxos (store w)) → IsEVM (w_Chain W) = false →
  match SelectForAmount (w_ID W) amount w with
  | (Ok (ops, _), w') => holding W (-1) ops w w' ∧
      withdrawals (store w') = withdrawals (store w)
  | (Err _, w') => w' = w
  end.
Proof.
  intros Hok Hevm. destruct (SelectForAmount_spec (w_ID W) amount w Hok)
    as (k & tot & _ & _ & _ & [(_ & w' & -> & Hl)|(_ & _ & e & ->)]); [|done].
  set (ops := u_Outpoint <$> _) in *.
  pose proof (LockUTXOs_frame (unchanged nonces) ops ltac:(by intros ??) w) as Hn.
  pose proof (LockUTXOs_frame (unchanged withdrawals) ops ltac:(by intros ??) w) as Hw.
  rewrite Hl in Hn, Hw. unfold unchanged in *. simpl in *.
  apply LockUTXOs_Ok in Hl as (Hfree & Hlocked & Hother & _).
  rewrite list.Forall_forall in Hfree, Hlocked.
  split; [|done]. unfold holding. rewrite Hevm. split_and!; [done|..].
  - intros wid c. unfold pending, nonce_row. by rewrite Hn.
  - intros op Hop. unfold lock_of. destruct (Hfree op Hop) as (u & -> & Hu),
      (Hlocked op Hop) as (u' & -> & Hu'). simpl. by rewrite Hu, Hu'.
  - intros op Hop. unfold lock_of. by rewrite Hother.
Qed.

Lemma reserve_holding fl id wr W w x :
  store_ok (store w) → evm_counters (store w) → w_ID W = wr_WalletID wr →
  0 ≤ pending (w_ID W) (w_Chain W) w < 2 ^ 63 - 1 →
  withdrawals (store w) !! id = Some x →
  match reserve C fl id wr W w with
  | (Ok (n, ops), w') => holding W n ops w w' ∧ noted fl id W n ops (store w')
  | (Err _, w') => same_resources w w'
  end.
Proof.
  intros Hok Hev HW Hp Hx. unfold reserve. rewrite <- HW.
  destruct (IsEVM (w_Chain W)) eqn:He; [|case_bool_decide as Hb].
  - unfold ReserveNonce.
    pose proof (reserve_loop_quiet 50 (w_ID W) (w_Chain W) w) as Hr.
    pose proof (ReserveNonce_frame C (unchanged utxos) (w_ID W) (w_Chain W)
      ltac:(by intros ??) w) as Hu.
    pose proof (ReserveNonce_frame C (unchanged withdrawals) (w_ID W) (w_Chain W)
      ltac:(by intros ??) w) as Hwd.
    unfold ReserveNonce, unchanged in Hu, Hwd. go_run.
    destruct (reserve_loop _ _ 50 _ _ w) as [[n|e] w1]; simpl in *;
      [|by apply store_rel_same].
    destruct Hr as (-> & Hp1 & Ho). rewrite int64_succ_lt in Hp1 by lia.
    rewrite <- Hwd in Hx. unfold UpdateWithdrawalNonce.
    match goal with |- context [write fl WNonce (update_withdrawal_row ?f id) w1] =>
      destruct (write_row_run fl WNonce f id w1 x Hx)
        as (r & w2 & y & -> & Hn2 & Hu2 & Hy & _ & Hr) end. split.
    + eapply holding_store; [exact Hn2|exact Hu2|].
      unfold holding. rewrite He. split_and!; [done|done|lia|lia|done|exact Ho|].
      intros op. unfold lock_of, utxo_at. by rewrite Hu.
    + split; [by eexists|]. intros Hw. destruct r as [[]|e].
      * subst y. eexists. split_and!; [exact Hy|done|]. intros Hb. by rewrite Hb in He.
      * destruct Hr as (g & made & -> & Hg). by rewrite (Hw g w1 eq_refl) in Hg.
  - assert (nonces (store w) !! nonceKey (w_ID W) (w_Chain W) = None) as Hnone by auto.
    unfold or_cleanup. go_run.
    destruct (dec_NewFromString (wr_Amount wr)) as [amount|e].
    2:{ pose proof (RollbackNonce_none _ _ (-1) w Hnone) as Hr.
        destruct (RollbackNonce _ _ _ w) as [? w1]. simpl in *. by subst. }
    pose proof (SelectForAmount_holding W amount w (ok_utxos _ Hok) He) as Hs.
    destruct (SelectForAmount (w_ID W) amount w) as [[[ops tot]|e] w1].
    + destruct Hs as [Hh Hwd]. rewrite <- Hwd in Hx. unfold UpdateWithdrawalOutpoints.
      match goal with |- context [write fl WOutpoints (update_withdrawal_row ?f id) w1] =>
        destruct (write_row_run fl WOutpoints f id w1 x Hx)
          as (r & w2 & y & -> & Hn2 & Hu2 & Hy & _ & Hr) end.
      apply (holding_store _ _ _ _ _ w2) in Hh; [|done..]. destruct r as [[]|e].
      * split; [done|]. split; [by eexists|]. intros _. subst y.
        eexists. split_and!; [exact Hy|congruence|done].
      * apply rollback_releases in Hh. by destruct (rollback W (-1) ops w2) as [[] w3].
    + subst w1. pose proof (RollbackNonce_none _ _ (-1) w Hnone) as Hr.
      destruct (RollbackNonce _ _ _ w) as [? w1]. simpl in *. by subst.
  - simpl. split.
    + unfold holding. rewrite He. split_and!; [done|done| |done].
      by intros op ?%elem_of_nil.
    + split; [by eexists|]. intros _. exists x. split_and!; [done|congruence|done].
Qed.
End reserving.

(** ** Signing under a reservation *)
Section signing.
Context `{GoRuntime} `{UUIDLib} `{Environment} `{DecimalLib} `{CryptoLib}.
Context (C : Collaborators) `{!CollaboratorLaws C}.
Context (fl : Faults) (id : uuid) (W : Wallet) (n : Z) (ops : list string) (w0 : World).

Definition held_by (w : World) : Prop :=
  holding W n ops w0 w ∧ noted fl id W n ops (store w).

(** On success the reservation is still held, on an error it is released. *)
Definition secure {A} (m : Go A) : Prop := ∀ w, held_by w →
  match m w with
  | (Ok _, w') => held_by w'
  | (Err _, w') => same_resources w0 w'
  end.

Lemma secure_bind {A B} (m : Go A) (f : A → Go B) :
  secure m → (∀ w a w', m w = (Ok a, w') → secure (f a)) → secure (m ≫= f).
Proof.
  intros Hm Hf w Hw. specialize (Hm w Hw). unfold mbind, GoM_bind.
  destruct (m w) as [[a|e] w1] eqn:Hr; [|done]. by eapply Hf.
Qed.

Lemma secure_ret {A} (a : A) : secure (mret a).
Proof. by intros w Hw. Qed.

Lemma secure_or_cleanup {A} msg cleanup (m : Go A) :
  (∀ w, held_by w → held_by (m w).2) →
  (∀ w, held_by w → same_resources w0 (cleanup w).2) →
  secure (or_cleanup msg cleanup m).
Proof.
  intros Hm Hc w Hw. specialize (Hm w Hw). unfold or_cleanup. go_run.
  destruct (m w) as [[a|e] w1]; simpl in *; [done|].
  specialize (Hc w1 Hm). by destruct (cleanup w1) as [[] w2].
Qed.

Lemma held_by_store {A} (m : Go A) :
  within (unchanged (λ s, s)) m → ∀ w, held_by w → held_by (m w).2.
Proof.
  intros Hm w [Hh Hr]. specialize (Hm w). unfold unchanged in Hm.
  split; [eapply holding_store; [..|exact Hh]; by rewrite Hm|by rewrite Hm].
Qed.

Lemma cleanup_rollback w : held_by w → same_resources w0 (rollback W n ops w).2.
Proof. intros [Hh _]. by apply rollback_releases. Qed.

Lemma fail_with_resources i r : within same_resources (fail_with fl i r).
Proof.
  apply within_ignore, within_write, UpdateWithdrawalState_frame; [apply _..|by intros ??|by intros ??].
Qed.

Lemma cleanup_fail r w :
  held_by w → same_resources w0 ((rollback W n ops;; fail_with fl id r) w).2.
Proof.
  intros Hw. pose proof (cleanup_rollback w Hw) as Hr.
  unfold mbind, GoM_bind. destruct (rollback W n ops w) as [[[]|e] w1]; [|done].
  etrans; [exact Hr|apply fail_with_resources].
Qed.

(** Writing the row again keeps what it says it holds. *)
Lemma held_by_row w w' x y :
  held_by w → withdrawals (store w) !! id = Some x →
  nonces (store w') = nonces (store w) → utxos (store w') = utxos (store w) →
  withdrawals (store w') !! id = Some y →
  wr_NonceValue y = wr_NonceValue x → wr_ReservedOutpoints y = wr_ReservedOutpoints x →
  held_by w'.
Proof.
  intros [Hh [_ Hr]] Hx Hn Hu Hy Hny Hoy. split; [by eapply holding_store|].
  split; [by eexists|]. intros (x' & Hx' & Hnx & Hox)%Hr. exists y.
  rewrite Hx in Hx'. injection Hx' as <-. by rewrite Hny, Hoy.
Qed.

Lemma held_by_signed bytes w :
  held_by w → held_by (write fl WSignedTx (UpdateWithdrawalSignedTx id bytes) w).2.
Proof.
  intros Hw. destruct (proj1 (proj2 Hw)) as [x Hx]. unfold UpdateWithdrawalSignedTx.
  match goal with |- context [write fl WSignedTx (update_withdrawal_row ?f id) w] =>
    destruct (write_row_run fl WSignedTx f id w x Hx)
      as (r & w2 & y & -> & Hn2 & Hu2 & Hy & Hyx & _) end.
  by destruct Hyx as [-> | ->]; eapply held_by_row.
Qed.

Lemma build_and_sign_secure wr keyID : secure (build_and_sign C fl id wr W keyID n ops).
Proof.
  unfold build_and_sign.
  apply secure_bind; [apply secure_or_cleanup; [|apply cleanup_rollback]|].
  { apply held_by_store, resolveBuildOpts_frame; apply _. }
  intros w1 opts w2 Ho%or_cleanup_Ok%resolveBuildOpts_blockhash.
  apply secure_bind; [apply secure_or_cleanup; [|apply cleanup_rollback]|].
  { apply held_by_store. apply (BuildUnsignedTx_frame C); [apply _|done]. }
  intros w3 u w4 _. apply secure_bind; [apply secure_or_cleanup; [|apply cleanup_fail]|].
  { apply held_by_store, within_ask, _. }
  intros w5 resp w6 _. apply secure_bind; [apply secure_or_cleanup; [|apply cleanup_fail]|].
  { apply held_by_store, within_of_result, _. }
  intros w7 bytes w8 _.
  apply secure_bind; [apply secure_or_cleanup; [|apply cleanup_rollback]|].
  { apply held_by_signed. }
  intros ? ? ? _. apply secure_ret.
Qed.

(** The last steps of [ConstructAndSign]: the reservation stays, also when the row cannot
    be marked. *)
Lemma mark_signed st r tx d w :
  held_by w →
  match write fl WSigned (UpdateWithdrawalState id st r tx d) w with
  | (Ok _, w') => held_by w' ∧ wr_State <$> withdrawals (store w') !! id = Some st
  | (Err e, w') => held_by w' ∧ ∃ f made, fl = Some f ∧ f WSigned w = Some (e, made)
  end.
Proof.
  intros Hw. destruct (proj1 (proj2 Hw)) as [x Hx].
  assert (∃ w' y, UpdateWithdrawalState id st r tx d w = (Ok tt, w') ∧ held_by w' ∧
    withdrawals (store w') !! id = Some y ∧ wr_State y = st) as (w' & y & Hr & Hh & Hy & Hst).
  { unfold UpdateWithdrawalState. go_run. rewrite Hx.
    destruct (terminal_state st); eexists _, _; (split; [done|]); simpl; rewrite lookup_insert_eq;
      (split; [|done]); (eapply held_by_row; [exact Hw|exact Hx|done..| | |]); simpl;
      rewrite ?lookup_insert_eq; done. }
  destruct fl as [f|]; simpl.
  - destruct (f WSigned w) as [[e []]|] eqn:Hf; rewrite ?Hr, ?Hy; simpl; rewrite ?Hst; eauto 6.
  - rewrite Hr, Hy. simpl. by rewrite Hst.
Qed.

Lemma emit_held ev w : held_by w →
  ∃ w', emit (co_Audit C) ev w = (Ok tt, w') ∧ held_by w' ∧
    withdrawals (store w') = withdrawals (store w).
Proof.
  intros [Hh Hr]. destruct (emit_run (co_Audit C) ev w) as (w' & He & _).
  pose proof (within_emit (co_Audit C) (unchanged nonces) ev
    ltac:(by intros ??) ltac:(by intros ??) w) as Hn.
  pose proof (within_emit (co_Audit C) (unchanged utxos) ev
    ltac:(by intros ??) ltac:(by intros ??) w) as Hu.
  pose proof (within_emit (co_Audit C) (unchanged withdrawals) ev
    ltac:(by intros ??) ltac:(by intros ??) w) as Hw.
  rewrite He in *. unfold unchanged in *. simpl in *. exists w'. split; [done|]. split; [|exact Hw].
  split; [by eapply holding_store; [..|exact Hh]|].
  unfold noted, recorded in *. by rewrite Hw.
Qed.
End signing.

(** ** Broadcasting *)
Section broadcasting.
Context `{GoRuntime} `{UUIDLib} `{Environment} `{DecimalLib} `{CryptoLib}.
Context (C : Collaborators) `{!CollaboratorLaws C}.

(** What a withdrawal of wallet [W] recorded as [x] gives back: its outputs are free
    again, and its nonce is the next one again if it was the last one handed out. *)
Definition released (W : Wallet) (x : WithdrawalRequest) (w w' : World) : Prop :=
  (∀ op, lock_of op w' =
    if bool_decide (op ∈ wr_ReservedOutpoints x) then Some UTXOLockStateFree
    else lock_of op w) ∧
  ∀ wid c, pending wid c w' =
    if IsEVM (w_Chain W) && bool_decide ((wid, c) = (w_ID W, w_Chain W)) &&
       bool_decide (wr_NonceValue x = Some (pending wid c w - 1))
    then pending wid c w - 1 else pending wid c w.

Lemma rollback_nonce_released W x w :
  (∀ n, wr_NonceValue x = Some n → 0 ≤ n < 2 ^ 63 - 1) →
  ∃ w1, when ((0 <=? noncePtr x) && IsEVM (w_Chain W))
      (ignore (RollbackNonce (w_ID W) (w_Chain W) (noncePtr x))) w = (Ok tt, w1) ∧
    utxos (store w1) = utxos (store w) ∧
    ∀ wid c, pending wid c w1 =
      if IsEVM (w_Chain W) && bool_decide ((wid, c) = (w_ID W, w_Chain W)) &&
         bool_decide (wr_NonceValue x = Some (pending wid c w - 1))
      then pending wid c w - 1 else pending wid c w.
Proof.
  intros Hn. unfold noncePtr. destruct (wr_NonceValue x) as [n|] eqn:Hx.
  2:{ exists w. split_and!; [done|done|]. intros wid c. by rewrite andb_false_r. }
  destruct (Hn n eq_refl). rewrite (proj2 (Z.leb_le 0 n)) by lia. simpl.
  destruct (IsEVM (w_Chain W)); simpl; [|by exists w].
  pose proof (RollbackNonce_frame (unchanged utxos) (w_ID W) (w_Chain W) n
    ltac:(by intros ??) w) as Hu. unfold unchanged, RollbackNonce in *.
  destruct (RollbackPendingNonce_spec (w_ID W) (w_Chain W) n w)
    as (r & w1 & Hr & Hp & _ & Ho & _); [lia|].
  go_run. rewrite Hr in *. simpl in *. exists w1. split_and!; [done|done|].
  intros wid c. case_bool_decide as Hk; simpl; [|by apply (pending_other (w_ID W) (w_Chain W))].
  injection Hk as -> ->. rewrite Hp. unfold rolled_back. rewrite int64_succ_lt by lia.
  destruct (Z.eqb_spec (pending (w_ID W) (w_Chain W) w) (n + 1)) as [->|Hne].
  - replace (n + 1 - 1) with n by lia. by rewrite bool_decide_true.
  - rewrite bool_decide_false; [done|]. intros [= ->]. lia.
Qed.

Lemma rollback_released W x w :
  Forall (λ op, is_Some (utxo_at op w)) (wr_ReservedOutpoints x) →
  (∀ n, wr_NonceValue x = Some n → 0 ≤ n < 2 ^ 63 - 1) →
  released W x w (rollback W (noncePtr x) (wr_ReservedOutpoints x) w).2.
Proof.
  intros Hall Hn. destruct (rollback_nonce_released W x w Hn) as (w1 & Hr & Hu & Hp).
  unfold rollback. rewrite (bind_Ok _ _ _ _ _ Hr).
  assert (∀ op, lock_of op w1 = lock_of op w) as Hl.
  { intros op. unfold lock_of, utxo_at. by rewrite Hu. }
  destruct (bool_decide (wr_ReservedOutpoints x = [])) eqn:He; simpl.
  - apply bool_decide_eq_true in He. split; [|exact Hp]. rewrite He. exact Hl.
  - assert (Forall (λ op, is_Some (lock_of op w1)) (wr_ReservedOutpoints x)) as Hall'.
    { eapply Forall_impl; [exact Hall|]. intros op [u Hu']. rewrite Hl. unfold lock_of.
      by rewrite Hu'. }
    destruct (Unlock_run _ _ Hall') as (_ & Hn1 & _ & Hi & Ho). unfold ignore.
    destruct (Unlock (wr_ReservedOutpoints x) w1) as [r w2]. simpl in *. split.
    + intros op. clear He. case_bool_decide; [by apply Hi|]. by rewrite Ho, Hl.
    + intros wid c. rewrite <-Hp. unfold pending, nonce_row. by rewrite Hn1.
Qed.

Lemma rollback_run W n ops w : (rollback W n ops w).1 = Ok tt.
Proof.
  unfold rollback. go_run. destruct (_ && _); simpl.
  - destruct (RollbackNonce _ _ _ w) as [r w1].
    destruct (negb _); [|done]. by destruct (Unlock ops w1).
  - destruct (negb _); [|done]. by destruct (Unlock ops w).
Qed.

Lemma UpdateWithdrawalState_run id st r tx d w x :
  withdrawals (store w) !! id = Some x →
  ∃ w' now, UpdateWithdrawalState id st r tx d w = (Ok tt, w') ∧
    withdrawals (store w') !! id = Some (with_withdrawal_state st r tx d now x) ∧
    nonces (store w') = nonces (store w) ∧ utxos (store w') = utxos (store w).
Proof.
  intros Hx. unfold UpdateWithdrawalState. go_run. rewrite Hx.
  destruct (terminal_state st); eexists _, _; (split; [done|]); simpl;
    by rewrite lookup_insert_eq.
Qed.

(** The table of outputs after [ops] were spent by [tx]. *)
Definition spent_by (ops : list string) (tx : string) (w w' : World) : Prop :=
  (∀ op u, op ∈ ops → utxo_at op w = Some u → ∃ u', utxo_at op w' = Some u' ∧
     u_LockState u' = UTXOLockStateSpent ∧ u_TxHash u' = tx ∧ u_Value u' = u_Value u) ∧
  ∀ op, op ∉ ops → utxo_at op w' = utxo_at op w.

Lemma MarkSpent_run ops tx w :
  Forall (λ op, is_Some (utxo_at op w)) ops →
  (MarkSpent ops tx w).1 = Ok tt ∧ spent_by ops tx w (MarkSpent ops tx w).2.
Proof.
  intros Hall. unfold MarkSpent, MarkUTXOsSpent, spent_by. go_run.
  rewrite update_loop_run by done. simpl. unfold utxo_at. simpl.
  split_and!; [done|..]; intros op.
  - intros u Hop Hu. rewrite alter_all_lookup, decide_True, Hu by done. simpl. eauto.
  - intros Hop. by rewrite alter_all_lookup, decide_False.
Qed.

(** The counters after nonce [n] was committed. *)
Definition committed (wid : uuid) (c : string) (n : Z) (w w' : World) : Prop :=
  pending wid c w' = pending wid c w ∧
  broadcast wid c w' = Z.max (broadcast wid c w) (int64 (n + 1)) ∧ other_rows wid c w w'.

(** The two updates of [Broadcast] after the gateway's answer. *)
Lemma settle_run W x tx w :
  Forall (λ op, is_Some (utxo_at op w)) (wr_ReservedOutpoints x) →
  ∃ w', (when ((w_Chain W =s ChainBitcoin) &&
            negb (bool_decide (wr_ReservedOutpoints x = [])))
          (ignore (MarkSpent (wr_ReservedOutpoints x) tx));;
        match wr_NonceValue x with
        | Some n => when (IsEVM (w_Chain W))
            (ignore (CommitNonce (wr_WalletID x) (w_Chain W) n))
        | None => mret tt
        end) w = (Ok tt, w') ∧
    withdrawals (store w') = withdrawals (store w) ∧
    (w_Chain W = ChainBitcoin → spent_by (wr_ReservedOutpoints x) tx w w') ∧
    (w_Chain W ≠ ChainBitcoin → utxos (store w') = utxos (store w)) ∧
    (∀ n, IsEVM (w_Chain W) = true → wr_NonceValue x = Some n →
      committed (wr_WalletID x) (w_Chain W) n w w').
Proof.
  intros Hall. destruct (decide (w_Chain W = ChainBitcoin)) as [Hb|Hb].
  - rewrite Hb, IsEVM_not_bitcoin. simpl.
    destruct (MarkSpent_run (wr_ReservedOutpoints x) tx w Hall) as [_ Hs].
    pose proof (MarkSpent_frame (unchanged withdrawals) (wr_ReservedOutpoints x) tx
      ltac:(by intros ??) w) as Hw. unfold unchanged in Hw.
    destruct (bool_decide (wr_ReservedOutpoints x = [])) eqn:He; simpl; go_run.
    + exists w. apply bool_decide_eq_true in He. rewrite He.
      split_and!; [by destruct (wr_NonceValue x)|done| |done|done].
      intros _. split; [|done]. by intros ?? ?%elem_of_nil.
    + destruct (MarkSpent _ tx w) as [r w1]. simpl in *. exists w1.
      by split_and!; [destruct (wr_NonceValue x)|..].
  - rewrite (bool_decide_false _ Hb). simpl. go_run.
    destruct (wr_NonceValue x) as [n|]; [|by exists w].
    destruct (IsEVM (w_Chain W)) eqn:He; [|by exists w].
    pose proof (CommitNonce_frame (unchanged withdrawals) (wr_WalletID x) (w_Chain W) n
      ltac:(by intros ??) w) as Hw.
    pose proof (CommitNonce_frame (unchanged utxos) (wr_WalletID x) (w_Chain W) n
      ltac:(by intros ??) w) as Hu. unfold unchanged, CommitNonce in *.
    destruct (AdvanceBroadcastNonce_spec (wr_WalletID x) (w_Chain W) n w)
      as (w1 & Hr & Hc). rewrite Hr in *. exists w1.
    split_and!; [done|done|done|done|]. by intros ? _ [= <-].
Qed.

Lemma or_cleanup_Err {A B} msg cleanup (m : Go A) (f : A → Go B) w e w1 w2 :
  m w = (Err e, w1) → cleanup w1 = (Ok tt, w2) →
  (or_cleanup msg cleanup m ≫= f) w = (Err (ErrWrap msg e), w2).
Proof. intros Hm Hc. unfold or_cleanup. go_run. by rewrite Hm, Hc. Qed.

Lemma or_cleanup_run {A B} msg cleanup (m : Go A) (f : A → Go B) w a w1 :
  m w = (Ok a, w1) → (or_cleanup msg cleanup m ≫= f) w = f a w1.
Proof. intros Hm. unfold or_cleanup. go_run. by rewrite Hm. Qed.
End broadcasting.

(** ** The service keeps the store well-formed *)
Section well_formed.
Context `{GoRuntime} `{UUIDLib} `{Environment} `{DecimalLib} `{CryptoLib}.
Context (C : Collaborators) `{!CollaboratorLaws C}.

Lemma update_withdrawal_tx_ok id (n : WithdrawalRequest → option Z)
    (ops : WithdrawalRequest → list string) (bytes : WithdrawalRequest → list byte) :
  within keeps_ok (update_withdrawal_row
    (λ now x, with_withdrawal_tx (n x) (ops x) (bytes x) now x) id).
Proof. by apply update_withdrawal_row_ok. Qed.

Lemma reserve_loop_ok i wid c :
  within keeps_ok (reserve_loop (co_Locker C) (co_sleep C) i wid c).
Proof.
  assert (within keeps_ok (co_sleep C)) as Hs
    by (apply quiet_within; [apply _|apply co_sleep_quiet]).
  pose proof IncrementPendingNonce_ok. induction i; simpl; solve_within.
Qed.

Lemma RollbackNonce_ok wid c n : within keeps_ok (RollbackNonce wid c n).
Proof. pose proof RollbackPendingNonce_ok. unfold RollbackNonce. solve_within. Qed.

Lemma SelectForAmount_ok wid amount : within keeps_ok (SelectForAmount wid amount).
Proof. pose proof LockUTXOs_ok. unfold SelectForAmount. solve_within. Qed.

Lemma rollback_ok w n ops : within keeps_ok (rollback w n ops).
Proof.
  pose proof RollbackNonce_ok. pose proof RestoreUTXOs_ok.
  unfold rollback, Unlock. solve_within.
Qed.

Lemma reserve_ok fl id wr w : within keeps_ok (reserve C fl id wr w).
Proof.
  pose proof reserve_loop_ok. pose proof RollbackNonce_ok. pose proof SelectForAmount_ok.
  pose proof rollback_ok. pose proof update_withdrawal_tx_ok.
  unfold reserve, ReserveNonce, UpdateWithdrawalNonce, UpdateWithdrawalOutpoints,
    or_cleanup. solve_within.
Qed.

Lemma build_and_sign_keeps fl id wr w k n ops :
  within keeps_ok (build_and_sign C fl id wr w k n ops).
Proof.
  pose proof rollback_ok as Hr. pose proof update_withdrawal_tx_ok as Ht.
  pose proof UpdateWithdrawalState_ok as Hu.
  assert (∀ A msg r (m : Go A), within keeps_ok m →
    within keeps_ok (or_cleanup msg (rollback w n ops;; fail_with fl id r) m)) as Hf.
  { intros A msg r m Hm. unfold or_cleanup, fail_with. solve_within. }
  assert (∀ A msg (m : Go A), within keeps_ok m →
    within keeps_ok (or_cleanup msg (rollback w n ops) m)) as Hc.
  { intros A msg m Hm. unfold or_cleanup. solve_within. }
  unfold build_and_sign. intros w0.
  assert (within keeps_ok (or_cleanup "resolve build opts" (rollback w n ops)
    (resolveBuildOpts C w))) as H5 by (apply Hc, resolveBuildOpts_frame; apply _).
  specialize (H5 w0). unfold mbind at 1, GoM_bind at 1.
  destruct (or_cleanup "resolve build opts" _ _ w0) as [[opts|e] w1] eqn:Ho; [|done].
  apply or_cleanup_Ok, resolveBuildOpts_blockhash in Ho.
  etrans; [exact H5|]. simpl. revert w1 H5. intros w1 _. revert w1.
  apply within_bind; [apply _|apply Hc, (BuildUnsignedTx_frame C); [apply _|done]|intros u].
  apply within_bind; [apply _|apply Hf, within_ask, _|intros resp].
  apply within_bind; [apply _|apply Hf, within_of_result, _|intros bytes].
  apply within_bind; [apply _|apply Hc, within_write, Ht; apply _|intros _; apply within_ret, _].
Qed.

Lemma Create_ok req : within keeps_ok (Create C req).
Proof.
  pose proof CreateWithdrawal_ok. pose proof UpdateWithdrawalState_ok.
  unfold Create, reject. solve_within.
Qed.

Lemma ConstructAndSign_ok fl id : within keeps_ok (ConstructAndSign C fl id).
Proof.
  pose proof reserve_ok. pose proof build_and_sign_keeps.
  pose proof UpdateWithdrawalState_ok. unfold ConstructAndSign. solve_within.
Qed.

Lemma Broadcast_ok id : within keeps_ok (Broadcast C id).
Proof.
  pose proof rollback_ok. pose proof UpdateWithdrawalState_ok.
  pose proof MarkUTXOsSpent_ok. pose proof AdvanceBroadcastNonce_ok.
  unfold Broadcast, or_cleanup, fail_with, MarkSpent, CommitNonce. solve_within.
Qed.

Lemma Confirm_ok id tx : within keeps_ok (Confirm C id tx).
Proof. pose proof UpdateWithdrawalState_ok. unfold Confirm. solve_within. Qed.

Lemma Fail_ok id r : within keeps_ok (Fail C id r).
Proof.
  pose proof UpdateWithdrawalState_ok. pose proof rollback_ok. unfold Fail. solve_within.
Qed.

Lemma OnReorg_ok id ops : within keeps_ok (OnReorg id ops).
Proof.
  pose proof UpdateWithdrawalState_ok. pose proof RestoreUTXOs_ok.
  unfold OnReorg, RestoreOnReorg. solve_within.
Qed.
End well_formed.

(** ** Theorems *)
Section theorems.
Context `{GoRuntime} `{UUIDLib} `{Environment} `{DecimalLib} `{CryptoLib}.
Context (C : Collaborators) `{!CollaboratorLaws C}.

(** C2. Signing is all or nothing for the reserved resources.  Let the writes of the
    withdrawal's row fail at will, made or not ([fl]); the calls of the resolvers, the
    signer and the reservations may fail as well.  On a well-formed store, if
    [ConstructAndSign] returns an error then every nonce counter and every output's lock
    state is as it was before the call, with one exception: when the last write, that of
    the state SIGNED, reports an error, the call returns that error and keeps what it
    reserved.  If it succeeds then the withdrawal is SIGNED and holds exactly, on an EVM
    chain, the next nonce, the counter being advanced by one and all other counters kept,
    and on Bitcoin the selected outputs, which were free and are now locked while all
    others kept their state; its row says so, unless the write of the nonce, whose error
    is dropped, failed. *)
Theorem ConstructAndSign_all_or_nothing fl id w x W :
  store_ok (store w) → evm_counters (store w) →
  withdrawals (store w) !! id = Some x →
  wallets (store w) !! wr_WalletID x = Some W →
  0 ≤ pending (w_ID W) (w_Chain W) w < 2 ^ 63 - 1 →
  match ConstructAndSign C fl id w with
  | (Err e, w') => same_resources w w' ∨
      ∃ n ops f w1 made, holding W n ops w w' ∧ fl = Some f ∧ f WSigned w1 = Some (e, made)
  | (Ok _, w') =>
      wr_State <$> withdrawals (store w') !! id = Some WithdrawalStateSigned ∧
      ∃ n ops, holding W n ops w w' ∧ (nonce_written fl → recorded id W n ops (store w'))
  end.
Proof.
  intros Hok Hev Hx HW Hp. unfold ConstructAndSign. unfold mbind at 1, GoM_bind at 1.
  rewrite GetWithdrawal_run, Hx. case_bool_decide as Hst; simpl; [|by left].
  unfold mbind at 1, GoM_bind at 1, GetWallet at 1. go_run. rewrite HW.
  assert (w_ID W = wr_WalletID x) as Hid by by destruct (ok_wallets _ Hok _ _ HW).
  pose proof (resolve_key_frame C (unchanged (λ s, s)) (wr_WalletID x) w) as Hk.
  destruct (resolve_key C (wr_WalletID x) w) as [[key|e] w1]; simpl in *;
    [|left; by apply store_rel_same].
  unfold unchanged in Hk.
  pose proof (reserve_holding C fl id x W w1 x) as Hr. rewrite Hk in Hr.
  assert (∀ n ops w2, holding W n ops w1 w2 → holding W n ops w w2) as Hfrom.
  { unfold holding, pending, other_rows, lock_of, utxo_at. by rewrite Hk. }
  assert (∀ w2, same_resources w1 w2 → same_resources w w2) as Hsame.
  { unfold same_resources, pending, lock_of, utxo_at. by rewrite Hk. }
  specialize (Hr Hok Hev Hid).
  assert (pending (w_ID W) (w_Chain W) w1 = pending (w_ID W) (w_Chain W) w) as Hpe
    by (unfold pending; by rewrite Hk).
  rewrite Hpe in Hr. specialize (Hr Hp Hx).
  destruct (reserve C fl id x W w1) as [[[n ops]|e] w2]; [|left; by apply Hsame].
  pose proof (build_and_sign_secure C fl id W n ops w1 x key w2 Hr) as Hb.
  destruct (build_and_sign C fl id x W key n ops w2) as [[bytes|e] w3]; [|left; by apply Hsame].
  pose proof (mark_signed fl id W n ops w1 WithdrawalStateSigned "" "" "" w3 Hb) as Hm.
  destruct (write fl WSigned _ w3) as [[[]|e] w4].
  - destruct Hm as [Hh4 Hs4].
    match goal with |- context [emit (co_Audit C) ?ev w4] =>
      destruct (emit_held C fl id W n ops w1 ev w4 Hh4) as (w5 & -> & [Hh5 [_ Hr5]] & Hs5) end.
    rewrite Hs5. split; [done|]. exists n, ops. split; [by apply Hfrom|done].
  - destruct Hm as [[Hh4 _] (f & made & Hfl & Hf)]. right.
    exists n, ops, f, w3, made. by split_and!; [apply Hfrom|..].
Qed.

(** C21. A broadcast settles the reservation one way or the other.  For a SIGNED
    withdrawal with signed bytes, whose outputs are known and whose nonce, if any, is at
    most 2^63 - 2: if the gateway refuses, the call returns its error, the withdrawal is
    FAILED, exactly its outputs are free again, and the counter of its chain goes back to
    its nonce if that was the last one handed out; otherwise the counter stays, since a
    later nonce is in use, and no other counter moves.  If the gateway accepts, the
    withdrawal is BROADCAST with the gateway's transaction hash (an empty hash leaves the
    one of the row), on Bitcoin its outputs (and no others) are SPENT by that
    transaction, and on an EVM chain the broadcast counter has advanced past its
    nonce. *)
Theorem Broadcast_settles id w x W :
  store_ok (store w) → withdrawals (store w) !! id = Some x →
  wallets (store w) !! wr_WalletID x = Some W →
  wr_State x = WithdrawalStateSigned → wr_SignedTxBytes x ≠ [] →
  Forall (λ op, is_Some (utxo_at op w)) (wr_ReservedOutpoints x) →
  (∀ n, wr_NonceValue x = Some n → 0 ≤ n < 2 ^ 63 - 1) →
  match co_Gateway C (trace w)
    (MkBroadcastRequest (w_Chain W) (wr_SignedTxBytes x) (wr_WalletID x)) with
  | Err e => ∃ w', Broadcast C id w = (Err (ErrWrap "broadcast" e), w') ∧
      wr_State <$> withdrawals (store w') !! id = Some WithdrawalStateFailed ∧
      released W x w w'
  | Ok resp => ∃ w' x', Broadcast C id w = (Ok tt, w') ∧
      withdrawals (store w') !! id = Some x' ∧ wr_State x' = WithdrawalStateBroadcast ∧
      wr_TxHash x' = or_keep (bp_TxHash resp) (wr_TxHash x) ∧
      (w_Chain W = ChainBitcoin →
        spent_by (wr_ReservedOutpoints x) (bp_TxHash resp) w w') ∧
      (∀ n, IsEVM (w_Chain W) = true → wr_NonceValue x = Some n →
        committed (wr_WalletID x) (w_Chain W) n w w')
  end.
Proof.
  intros Hok Hx HW Hst Hbytes Hall Hnonce. unfold Broadcast.
  rewrite (bind_Ok _ _ w x w) by by rewrite GetWithdrawal_run, Hx.
  rewrite (bool_decide_true _ Hst). cbn [negb].
  rewrite (bind_Ok _ _ w W w) by by apply GetWallet_run.
  rewrite (bool_decide_false _ Hbytes).
  set (q := MkBroadcastRequest _ _ _). set (w1 := log_exchange
    (XBroadcast q (co_Gateway C (trace w) q)) w).
  assert (ask XBroadcast (co_Gateway C) q w = (co_Gateway C (trace w) q, w1)) as Hask
    by done.
  destruct (co_Gateway C (trace w) q) as [resp|e].
  - rewrite (or_cleanup_run _ _ _ _ _ _ _ Hask).
    destruct (settle_run W x (bp_TxHash resp) w1 Hall)
      as (w2 & Hrun & Hwd & Hbtc & Hnb & Hevm).
    destruct (UpdateWithdrawalState_run id WithdrawalStateBroadcast "" (bp_TxHash resp)
      "" w2 x) as (w3 & now & Hu & Hx3 & Hn3 & Hu3); [by rewrite Hwd|].
    rewrite (then_run _ _ _ _ _ Hrun), (bind_Ok _ _ _ _ _ Hu).
    match goal with |- context [emit (co_Audit C) ?ev w3] =>
      destruct (emit_run (co_Audit C) ev w3) as (w4 & He & [(o & q' & Hs) _]) end.
    exists w4. eexists. split_and!; [exact He|by rewrite Hs|done|done|..].
    + intros Hb. destruct (Hbtc Hb) as [H5 H6]. unfold spent_by, utxo_at in *.
      rewrite Hs. simpl. by rewrite Hu3.
    + intros n Hevm' Hn. destruct (Hevm n Hevm' Hn) as (H5 & H6 & H7).
      unfold committed, pending, broadcast, other_rows, nonce_row in *.
      rewrite Hs. simpl. by rewrite Hn3.
  - pose proof (rollback_frame (unchanged withdrawals) W (noncePtr x)
      (wr_ReservedOutpoints x) ltac:(by intros ??) ltac:(by intros ??) w1) as Hr.
    unfold unchanged in Hr.
    pose proof (run_eq _ _ _ (rollback_run W (noncePtr x) (wr_ReservedOutpoints x) w1))
      as Hrb.
    destruct (rollback_released W x w1 Hall Hnonce) as [Hl Hp].
    set (w2 := (rollback W (noncePtr x) (wr_ReservedOutpoints x) w1).2) in *.
    destruct (UpdateWithdrawalState_run id WithdrawalStateFailed "broadcast_failed" "" ""
      w2 x) as (w3 & now & Hu & Hx3 & Hn3 & Hu3); [by rewrite Hr|].
    exists w3. split_and!; [|by rewrite Hx3|].
    + apply (or_cleanup_Err _ _ _ _ _ _ w1); [exact Hask|].
      rewrite (bind_Ok _ _ _ _ _ Hrb). unfold fail_with, ignore. simpl. by rewrite Hu.
    + unfold released, pending, lock_of, utxo_at, nonce_row in *. by rewrite Hn3, Hu3.
Qed.
End theorems.

(** ** A concrete service

    The in-process locker, a policy that approves everything, a signer that
    refuses its first request, a gateway that accepts; no resolvers. *)
Section demo.
#[local] Existing Instances ref_runtime ref_uuid ref_env ref_decimal ref_crypto.

Definition eth_wallet : Wallet := MkWallet (uuid_of_Z 1) ChainEthereum WalletTypeHot "eth"
  WalletStateActive "k" "mpc" None None 1 1.

Definition to_addr : string := "0x00000000000000000000000000000000000000ff".

Definition is_sign (x : exchange) : bool := match x with XSign _ _ => true | _ => false end.

Definition demo_signer (tr : list exchange) (q : SignRequest) : result SignResponse :=
  if existsb is_sign tr then Ok (MkSignResponse (27 :: replicate 64 1) "s")
  else Err (ErrNew "signer unavailable").

Definition demo : Collaborators := MkCollaborators MemLocker (mret tt)
  (λ _ _, Ok (Some (MkCheckResponse true "d" ""))) demo_signer
  (λ _ _, Ok (MkBroadcastResponse "0xhash")) None None None None None.

#[export] Instance demo_laws : CollaboratorLaws demo.
Proof.
  split; [apply MemLocker_laws|apply no_emitter_laws|by intros w|done..].
Defined.

Definition demo_request (amount : string) : WithdrawalCreate :=
  MkWithdrawalCreate (uuid_of_Z 1) to_addr "ETH" amount.

(** The wallet, two approved withdrawals, and a signature that failed. *)
Definition demo0 : World := (CreateWallet eth_wallet initial_world).2.
Definition demo1 : World := (Create demo (demo_request "5") demo0).2.
Definition demo2 : World := (Create demo (demo_request "7") demo1).2.
Definition first_id : uuid := uuid_of_Z 1000.
Definition second_id : uuid := uuid_of_Z 1001.
Definition demo3 : World := (ConstructAndSign demo reliable first_id demo2).2.
Definition demo4 : World := (ConstructAndSign demo reliable second_id demo3).2.
Definition row_at (id : uuid) (w : World) : WithdrawalRequest :=
  default (MkWithdrawal uuid_Nil uuid_Nil "" "" "" "" "" "" "" None [] [] 0 0)
    (withdrawals (store w) !! id).

Lemma demo0_ok : store_ok (store demo0).
Proof. apply CreateWallet_ok, New_ok. Qed.

Lemma demo3_ok : store_ok (store demo3).
Proof. apply (ConstructAndSign_ok demo), (Create_ok demo), (Create_ok demo), demo0_ok. Qed.

Lemma demo4_ok : store_ok (store demo4).
Proof. apply (ConstructAndSign_ok demo), demo3_ok. Qed.

Lemma demo_counters : evm_counters (store demo3).
Proof.
  intros wid c Hc. apply eq_None_not_Some. intros Hs.
  assert (nonceKey wid c = nonceKey (uuid_of_Z 1) ChainEthereum) as Hk.
  { assert (dom (nonces (store demo3)) = {[nonceKey (uuid_of_Z 1) ChainEthereum]}) as Hd
      by (vm_compute; reflexivity).
    apply elem_of_dom in Hs. rewrite Hd in Hs. by apply elem_of_singleton in Hs. }
  apply nonceKey_inj in Hk as [_ ->]. done.
Qed.

(** A store on which the signed bytes cannot be written: the second withdrawal gives back
    the nonce it reserved. *)
Definition no_signed_tx : Faults :=
  Some (λ k _, match k with WSignedTx => Some (ErrNew "disk full", false) | _ => None end).

Lemma ConstructAndSign_all_or_nothing_witness :
  match ConstructAndSign demo no_signed_tx second_id demo3 with
  | (Err e, w') => same_resources demo3 w' ∨
      ∃ n ops f w1 made,
        holding (default eth_wallet (wallets (store demo3) !! uuid_of_Z 1)) n ops demo3 w' ∧
        no_signed_tx = Some f ∧ f WSigned w1 = Some (e, made)
  | (Ok _, w') =>
      wr_State <$> withdrawals (store w') !! second_id = Some WithdrawalStateSigned ∧
      ∃ n ops, holding (default eth_wallet (wallets (store demo3) !! uuid_of_Z 1))
          n ops demo3 w' ∧
        (nonce_written no_signed_tx →
         recorded second_id (default eth_wallet (wallets (store demo3) !! uuid_of_Z 1))
          n ops (store w'))
  end.
Proof.
  apply (ConstructAndSign_all_or_nothing demo no_signed_tx second_id demo3
    (row_at second_id demo3)).
  - exact demo3_ok.
  - apply demo_counters.
  - vm_compute. reflexivity.
  - vm_compute. reflexivity.
  - vm_compute. split; [discriminate|reflexivity].
Defined.

(** A store on which the state SIGNED cannot be written keeps the nonce reserved: the
    counter has moved and the row is still WHITELISTED. *)
Definition no_signed_state : Faults :=
  Some (λ k _, match k with WSigned => Some (ErrNew "disk full", false) | _ => None end).

Lemma signed_write_keeps_nonce :
  let '(r, w') := ConstructAndSign demo no_signed_state second_id demo3 in
  r = Err (ErrNew "disk full") ∧
  pending (uuid_of_Z 1) ChainEthereum w' = pending (uuid_of_Z 1) ChainEthereum demo3 + 1 ∧
  wr_State <$> withdrawals (store w') !! second_id = Some WithdrawalStateWhitelisted.
Proof. vm_compute. done. Qed.

Definition demo_wallet : Wallet :=
  default eth_wallet (wallets (store demo4) !! uuid_of_Z 1).
Definition demo_row : WithdrawalRequest := row_at second_id demo4.

Lemma Broadcast_settles_witness :
  ∃ w' x', Broadcast demo second_id demo4 = (Ok tt, w') ∧
    withdrawals (store w') !! second_id = Some x' ∧
    wr_State x' = WithdrawalStateBroadcast ∧
    wr_TxHash x' = or_keep "0xhash" (wr_TxHash demo_row) ∧
    (w_Chain demo_wallet = ChainBitcoin →
      spent_by (wr_ReservedOutpoints demo_row) "0xhash" demo4 w') ∧
    (∀ n, IsEVM (w_Chain demo_wallet) = true → wr_NonceValue demo_row = Some n →
      committed (wr_WalletID demo_row) (w_Chain demo_wallet) n demo4 w').
Proof.
  apply (Broadcast_settles demo second_id demo4 demo_row demo_wallet).
  - exact demo4_ok.
  - vm_compute. reflexivity.
  - vm_compute. reflexivity.
  - vm_compute. reflexivity.
  - vm_compute. discriminate.
  - assert (wr_ReservedOutpoints demo_row = []) as -> by (vm_compute; reflexivity).
    constructor.
  - assert (wr_NonceValue demo_row = Some 0) as -> by (vm_compute; reflexivity).
    intros n [= <-]. lia.
Defined.
End demo.
