(* ===== verification/WithdrawalProps.v ===== *)
(** * WithdrawalProps: what the withdrawal service guarantees

    Policy safety and life cycle over all histories of operations, duplicate
    requests, release of reservations on failure, and the effect of a
    broadcast. *)
From stdpp Require Import base tactics numbers gmap strings list.
From Stdlib Require Import ZArith Lia.
From S2P Require Import Prelude.
From S2P Require Import GoLang.
From S2P Require Import GoText.
From S2P Require Import GoBytes.
From S2P Require Import Crypto.
From S2P Require Import Domain.
From S2P Require Import Evm.
From S2P Require Import Config.
From S2P Require Import World.
From S2P Require Import Reference.
From S2P Require Import Decimal.
From S2P Require Import TxBuilder.
From S2P Require Import MemStore.
From S2P Require Import MemStoreFacts.
From S2P Require Import MemStoreFrames.
From S2P Require Import Lock.
From S2P Require Import Nonce.
From S2P Require Import Utxo.
From S2P Require Import AuditOutbox.
From S2P Require Import Withdrawal.
From S2P Require Import WithdrawalSaga.
From S2P Require Import WithdrawalResources.

#[local] Open Scope string_scope.
#[local] Open Scope list_scope.
#[local] Open Scope Z_scope.

(** ** Creating a withdrawal *)
Section create.
Context `{GoRuntime} `{UUIDLib} `{Environment} `{DecimalLib} `{CryptoLib}.
Context (C : Collaborators) `{!CollaboratorLaws C}.

(** The policy request made for a withdrawal request. *)
Definition check_of (q : Req) : CheckRequest :=
  MkCheckRequest (uuid_String (q_WalletID q)) (q_ToAddress q) (q_Asset q) (q_Amount q).

Definition approves (a : result (option CheckResponse)) : bool :=
  match a with Ok (Some d) => cp_Approved d | _ => false end.

(** The state a new withdrawal ends up in, given the policy's answer. *)
Definition verdict (a : result (option CheckResponse)) : string :=
  if approves a then WithdrawalStateWhitelisted else WithdrawalStateFailed.

Lemma CreateWithdrawal_rows x w :
  silent w (CreateWithdrawal x w).2 ∧ (∃ e, (CreateWithdrawal x w).1 = Err e) ∨
  (CreateWithdrawal x w).1 = Ok tt ∧ rows (store w) !! wr_ID x = None ∧
    trace (CreateWithdrawal x w).2 = trace w ∧
    rows (store (CreateWithdrawal x w).2) = <[wr_ID x := row_key x]> (rows (store w)).
Proof.
  unfold CreateWithdrawal, rows. go_run. rewrite lookup_fmap.
  destruct (withdrawals (store w) !! wr_ID x) eqn:Hx; simpl; [left; split; [done|by eexists]|].
  destruct (default false _); simpl; [left; split; [done|by eexists]|]. right.
  destruct (time_IsZero _); simpl; split_and!; try done; by rewrite fmap_insert.
Qed.

(** A state update on a row that exists succeeds. *)
Lemma UpdateWithdrawalState_present id st r tx d w k :
  rows (store w) !! id = Some k →
  ∃ w', UpdateWithdrawalState id st r tx d w = (Ok tt, w') ∧ trace w' = trace w ∧
    rows (store w') = <[id := (st, k.2)]> (rows (store w)).
Proof.
  intros Hk. destruct (UpdateWithdrawalState_rows id st r tx d w) as [Ht Hr].
  rewrite Hk in Hr. unfold rows in Hk. rewrite lookup_fmap in Hk.
  apply fmap_Some in Hk as (x & Hx & ->).
  assert ((UpdateWithdrawalState id st r tx d w).1 = Ok tt) as Hok.
  { unfold UpdateWithdrawalState. go_run. rewrite Hx. by destruct (terminal_state st). }
  eexists. rewrite (run_eq _ _ _ Hok). done.
Qed.

Lemma emit_continue {A} ev (k : Go A) w :
  ∃ w1, silent w w1 ∧ (emit (co_Audit C) ev;; k) w = k w1.
Proof.
  destruct (emit_run (co_Audit C) ev w) as (w1 & He & _). exists w1.
  pose proof (emit_silent C ev w) as Hs. rewrite He in Hs.
  split; [done|]. unfold mbind, GoM_bind. by rewrite He.
Qed.

Lemma reject_run x dec w k :
  rows (store w) !! wr_ID x = Some k →
  ∃ wr w', reject x dec w = (Ok wr, w') ∧ wr_State wr = WithdrawalStateFailed ∧
    trace w' = trace w ∧
    rows (store w') = <[wr_ID x := (WithdrawalStateFailed, k.2)]> (rows (store w)).
Proof.
  intros Hk. unfold reject. go_run.
  match goal with |- context [UpdateWithdrawalState ?i ?s ?r ?t ?d w] =>
    destruct (UpdateWithdrawalState_present i s r t d w k Hk) as (w' & -> & Ht & Hr) end.
  by eexists _, _.
Qed.

(** The end of [Create]: the verdict on the policy's answer is recorded. *)
Lemma decide_run x (ans : result (option CheckResponse)) w k :
  rows (store w) !! wr_ID x = Some k →
  ∃ wr w', match ans with
    | Err _ => reject x None
    | Ok None => reject x None
    | Ok (Some d) =>
        if cp_Approved d then
          UpdateWithdrawalState (wr_ID x) WithdrawalStateWhitelisted "" "" (cp_DecisionID d);;
          mret (with_outcome x WithdrawalStateWhitelisted "" (cp_DecisionID d))
        else reject x (Some d)
    end w = (Ok wr, w') ∧ wr_State wr = verdict ans ∧ trace w' = trace w ∧
    rows (store w') = <[wr_ID x := (verdict ans, k.2)]> (rows (store w)).
Proof.
  intros Hk. unfold verdict.
  destruct ans as [[d|]|e]; simpl; [destruct (cp_Approved d)|..];
    try (by apply reject_run).
  destruct (UpdateWithdrawalState_present (wr_ID x) WithdrawalStateWhitelisted "" ""
    (cp_DecisionID d) w k Hk) as (w' & Hu & Ht & Hr).
  unfold mbind, GoM_bind. rewrite Hu. by eexists _, _.
Qed.

(** [Create] refuses and leaves the table alone, or adds one row whose state
    is the verdict of the one policy check it made. *)
Lemma Create_effect req w :
  silent w (Create C req w).2 ∧ (∃ e, (Create C req w).1 = Err e) ∨
  ∃ id ans wr,
    let q := MkReq id (wq_WalletID req) (wq_ToAddress req) (wq_Asset req)
      (wq_Amount req) in
    (Create C req w).1 = Ok wr ∧ wr_State wr = verdict ans ∧
    rows (store w) !! id = None ∧
    trace (Create C req w).2 = trace w ++ [XCheck (check_of q) ans] ∧
    rows (store (Create C req w).2) = <[id := (verdict ans, q)]> (rows (store w)).
Proof.
  unfold Create, GetWallet. go_run.
  destruct (wallets (store w) !! wq_WalletID req) as [wal|]; simpl; [|left; split; [done|by eexists]].
  case_bool_decide; simpl; [left; split; [done|by eexists]|]. case_bool_decide; simpl; [left; split; [done|by eexists]|].
  match goal with |- context [CreateWithdrawal ?x ?w0] =>
    destruct (CreateWithdrawal_rows x w0) as [[Hs [e He]]|(Hok & Hnone & Ht & Hr)] end;
    [rewrite (run_eq _ _ _ He); left; split; [exact Hs|by eexists]|].
  rewrite (run_eq _ _ _ Hok). simpl in Hnone, Ht, Hr.
  match type of Ht with trace ?x = _ => set (w1 := x) in * end.
  set (id := new_uuid (ids w)) in *. right.
  match goal with |- context [emit (co_Audit C) ?ev w1] =>
    destruct (emit_run (co_Audit C) ev w1) as (w2 & He2 & _);
    pose proof (emit_silent C ev w1) as Hs2; rewrite He2 in Hs2 |- * end.
  set (cq := MkCheckRequest _ _ _ _). set (ans := co_Policy C (trace w2) cq).
  match goal with |- context [emit (co_Audit C) ?ev ?w0] =>
    destruct (emit_run (co_Audit C) ev w0) as (w3 & He3 & _);
    pose proof (emit_silent C ev w0) as Hs3; rewrite He3 in Hs3 |- * end.
  destruct Hs2 as [Hr2 Ht2], Hs3 as [Hr3 Ht3]. simpl in Hr2, Ht2, Hr3, Ht3.
  set (x := MkWithdrawal id _ _ _ _ _ _ _ _ _ _ _ _ _) in *.
  assert (rows (store w3) = <[id := row_key x]> (rows (store w))) as Hrows by congruence.
  destruct (decide_run x ans w3 (row_key x)) as (wr & w4 & Hdec & Hst & Ht4 & Hr4);
    [rewrite Hrows; apply lookup_insert_eq|].
  change (wr_ID x) with id in Hdec, Hr4. unfold mbind, GoM_bind, mret, GoM_ret in Hdec.
  rewrite Hdec. exists id, ans, wr.
  split_and!; [done|done|exact Hnone|simpl; rewrite Ht4, Ht3, Ht2, Ht; done|].
  simpl. rewrite Hr4, Hrows. by rewrite insert_insert_eq.
Qed.
End create.

(** ** Histories of the service *)
Section histories.
Context `{GoRuntime} `{UUIDLib} `{Environment} `{DecimalLib} `{CryptoLib}.
Context (C : Collaborators) `{!CollaboratorLaws C}.

(** What the other services of the process may do: anything but writing the
    withdrawal table or asking the signer or the gateway. *)
Definition elsewhere (w w' : World) : Prop :=
  rows (store w') = rows (store w) ∧
  ∃ xs, trace w' = trace w ++ xs ∧ Forall (λ x, spending x = false) xs.

Inductive service_step (w : World) : World → Prop :=
  | s_create req : service_step w (Create C req w).2
  | s_sign fl id : service_step w (ConstructAndSign C fl id w).2
  | s_broadcast id : service_step w (Broadcast C id w).2
  | s_confirm id tx : service_step w (Confirm C id tx w).2
  | s_fail id reason : service_step w (Fail C id reason w).2
  | s_reorg id ops : service_step w (OnReorg id ops w).2
  | s_elsewhere w' : elsewhere w w' → service_step w w'.

(** One of the policy's answers in the trace approved this very request. *)
Definition approved (tr : list exchange) (q : Req) : Prop :=
  ∃ a, XCheck (check_of q) a ∈ tr ∧ approves a = true.

Lemma approved_app tr xs q : approved tr q → approved (tr ++ xs) q.
Proof. intros (a & Ha & Hd). exists a. split; [|done]. apply elem_of_app. by left. Qed.

(** Before each signature or broadcast the policy approved a request it is
    for. *)
Definition policy_safe (tr : list exchange) : Prop :=
  ∀ pre x post, tr = pre ++ x :: post → spending x = true →
    ∃ q, approved pre q ∧ authorised q x.

Definition policy_inv (w : World) : Prop :=
  policy_safe (trace w) ∧
  ∀ id k, rows (store w) !! id = Some k → cleared k.1 = true → approved (trace w) k.2.

Lemma policy_safe_app tr xs :
  policy_safe tr →
  (∀ x, x ∈ xs → spending x = true → ∃ q, approved tr q ∧ authorised q x) →
  policy_safe (tr ++ xs).
Proof.
  intros Htr Hxs pre x post Heq Hx.
  apply app_eq_app in Heq as (l & [[-> Hl]|[-> Hl]]).
  - destruct l as [|y l]; simpl in Hl.
    + destruct (Hxs x) as (q & Ha & Hq); [rewrite <- Hl; set_solver|done|].
      rewrite app_nil_r in Ha. by exists q.
    + injection Hl as <- ->. by apply (Htr pre x l).
  - destruct (Hxs x) as (q & Ha & Hq); [rewrite Hl; set_solver|done|].
    exists q. split; [by apply approved_app|done].
Qed.

Lemma policy_inv_saga w w' : policy_inv w → saga w w' → policy_inv w'.
Proof.
  intros [Hp Hr] [(xs & Ht' & Hxs) Hrows]. split; rewrite Ht'.
  - apply policy_safe_app; [done|]. intros x Hx Hsp.
    destruct (Hxs x Hx Hsp) as (id & k & Hk & Hc & Ha). exists k.2. eauto.
  - intros id k' Hk' Hc. specialize (Hrows id). rewrite Hk' in Hrows.
    destruct (rows (store w) !! id) as [k|] eqn:Hk; inversion Hrows as [?? [Hq Ht]|]; subst.
    rewrite <- Hq. apply approved_app, (Hr id k Hk). by eapply transitions_cleared.
Qed.

Lemma policy_inv_elsewhere w w' : policy_inv w → elsewhere w w' → policy_inv w'.
Proof.
  intros [Hp Hr] [Hrows (xs & Ht' & Hxs)]. split; rewrite Ht'.
  - apply policy_safe_app; [done|]. intros x Hx Hs. rewrite list.Forall_forall in Hxs.
    by rewrite (Hxs x Hx) in Hs.
  - intros id k. rewrite Hrows. intros Hk Hc. by eapply approved_app, Hr.
Qed.

Lemma policy_inv_Create req w : policy_inv w → policy_inv (Create C req w).2.
Proof.
  intros Hw. destruct (Create_effect C req w)
    as [[Hs _]|(id & ans & wr & _ & _ & Hnone & Ht & Hr)];
    [by eapply policy_inv_saga, silent_saga|].
  destruct Hw as [Hp Hc]. split; rewrite Ht.
  - apply policy_safe_app; [done|]. by intros x ->%list_elem_of_singleton.
  - intros i k. rewrite Hr. intros [[-> <-]|[? Hk]]%lookup_insert_Some Hk'.
    + exists ans. simpl. split; [apply elem_of_app; right; by apply list_elem_of_singleton|].
      unfold verdict in Hk'. simpl in Hk'. by destruct (approves ans).
    + by eapply approved_app, Hc.
Qed.

Lemma policy_inv_step w w' : policy_inv w → service_step w w' → policy_inv w'.
Proof.
  intros Hw Hst.
  destruct Hst; [by apply policy_inv_Create|..|by eapply policy_inv_elsewhere];
    (eapply policy_inv_saga; [exact Hw|]).
  - by apply ConstructAndSign_saga.
  - by apply Broadcast_saga.
  - by apply Confirm_saga.
  - by apply Fail_saga.
  - by apply OnReorg_saga.
Qed.

Lemma policy_inv_steps w w' : policy_inv w → rtc service_step w w' → policy_inv w'.
Proof. intros Hw Hr. induction Hr; eauto using policy_inv_step. Qed.

(** A row never disappears, keeps its request, and moves along the machine. *)
Lemma service_step_rows w w' id k :
  service_step w w' → rows (store w) !! id = Some k →
  ∃ k', rows (store w') !! id = Some k' ∧ advance k k'.
Proof.
  intros Hst Hk.
  assert (saga w w' → ∃ k', rows (store w') !! id = Some k' ∧ advance k k') as Hsaga.
  { intros [_ Hr]. specialize (Hr id). rewrite Hk in Hr. inversion Hr; eauto. }
  destruct Hst as [req| | | | | |w' [Hr _]];
    [|apply Hsaga..|rewrite Hr; exists k; split; [done|apply advance_refl]].
  - destruct (Create_effect C req w) as [[Hs _]|(i & ans & wr & _ & _ & Hnone & _ & Hr)];
      [by apply Hsaga, silent_saga|].
    exists k. split; [|apply advance_refl]. rewrite Hr, lookup_insert_ne; [done|congruence].
  - by apply ConstructAndSign_saga.
  - by apply Broadcast_saga.
  - by apply Confirm_saga.
  - by apply Fail_saga.
  - by apply OnReorg_saga.
Qed.

(** C1. Policy safety. Start a process on a store without withdrawals and let
    its services run any sequence of operations ([Create], [ConstructAndSign],
    [Broadcast], [Confirm], [Fail], [OnReorg], or steps of other services).
    In the resulting trace every request to the MPC signer and to the gateway
    comes after an approval by the policy engine of a withdrawal request with
    the same wallet, and the bytes sent to the signer are the payload built
    from that request's recipient and amount. *)
Theorem only_approved_spend w w' pre x post :
  withdrawals (store w) = ∅ → trace w = [] → rtc service_step w w' →
  trace w' = pre ++ x :: post → spending x = true →
  ∃ q, approved pre q ∧ authorised q x.
Proof.
  intros Hw Ht Hr Htr Hx. refine (proj1 (policy_inv_steps w w' _ Hr) pre x post Htr Hx).
  split.
  - rewrite Ht. intros [] ?? [=].
  - intros id k. unfold rows. by rewrite Hw, fmap_empty, lookup_empty.
Qed.

(** C3. Life cycle. Whatever sequence of operations runs, a withdrawal that
    exists keeps its row with the same wallet, recipient, asset and amount,
    its state only moves along the machine WHITELISTED, SIGNED, BROADCAST,
    CONFIRMED (and back to BROADCAST on a reorg) or to FAILED, and FAILED is
    final. *)
Theorem withdrawal_lifecycle w w' id st q :
  rtc service_step w w' → rows (store w) !! id = Some (st, q) →
  ∃ st', rows (store w') !! id = Some (st', q) ∧ rtc transition st st' ∧
    (st = WithdrawalStateFailed → st' = WithdrawalStateFailed).
Proof.
  intros Hr Hk. assert (∃ k', rows (store w') !! id = Some k' ∧ advance (st, q) k')
    as ([st' q'] & Hk' & Hq & Ht).
  { induction Hr as [|x y z Hst _ IH] in st, q, Hk |- *.
    - eexists. split; [exact Hk|apply advance_refl].
    - destruct (service_step_rows _ _ _ _ Hst Hk) as ([s1 q1] & Hk1 & [Hq Ht]).
      destruct (IH _ _ Hk1) as (k' & Hk' & [Hq' Ht']). simpl in *. subst.
      exists k'. split; [done|]. split; [done|by etrans]. }
  simpl in *. subst. exists st'. split_and!; [done..|].
  intros ->. by apply transitions_failed.
Qed.
End histories.

(** ** Creation, failure and duplicates *)
Section outcomes.
Context `{GoRuntime} `{UUIDLib} `{Environment} `{DecimalLib} `{CryptoLib}.
Context (C : Collaborators) `{!CollaboratorLaws C}.

Definition dedup_key (req : WithdrawalCreate) : string :=
  withdrawalDedupKey (wq_WalletID req) (wq_ToAddress req) (wq_Amount req) (wq_Asset req).

Definition in_flight (req : WithdrawalCreate) (w : World) : bool :=
  default false (inflightWithdrawals (store w) !! dedup_key req).

(** C39. The whitelist check fails closed: [Create] either returns an error
    with the withdrawal table and the trace as they were, or asks the policy
    engine exactly once, about the wallet, recipient, asset and amount of the
    request, and adds one row, WHITELISTED when the answer is an approval and
    FAILED on any other answer: a refusal, no decision, or an error. *)
Theorem Create_fails_closed req w :
  silent w (Create C req w).2 ∧ (∃ e, (Create C req w).1 = Err e) ∨
  ∃ id ans wr, (Create C req w).1 = Ok wr ∧
    let q := MkReq id (wq_WalletID req) (wq_ToAddress req) (wq_Asset req)
      (wq_Amount req) in
    trace (Create C req w).2 = trace w ++ [XCheck (check_of q) ans] ∧
    rows (store w) !! id = None ∧
    rows (store (Create C req w).2) = <[id := (wr_State wr, q)]> (rows (store w)) ∧
    wr_State wr = (if approves ans then WithdrawalStateWhitelisted
                   else WithdrawalStateFailed).
Proof.
  destruct (Create_effect C req w) as [?|(id & ans & wr & Hr & Hst & Hn & Ht & Hrows)];
    [by left|]. right. exists id, ans, wr. rewrite Hst. by split_and!.
Qed.

(** A request that is in flight is refused: for a wallet in use, while
    the in-flight table has the request, [Create] with the same wallet,
    recipient, amount and asset returns [ErrDuplicateWithdrawal], changes no
    table and does not ask the policy engine. *)
Theorem Create_refuses_duplicate req w W :
  wallets (store w) !! wq_WalletID req = Some W →
  w_State W ≠ WalletStateRetired → w_State W ≠ WalletStatePaused →
  withdrawals (store w) !! new_uuid (ids w) = None → in_flight req w = true →
  ∃ e w', Create C req w = (Err e, w') ∧ errors_Is e ErrDuplicateWithdrawal = true ∧
    store w' = store w ∧ trace w' = trace w.
Proof.
  intros HW Hr Hp Hid Hin. unfold Create, GetWallet. go_run. rewrite HW. simpl.
  rewrite !bool_decide_false by done. unfold CreateWithdrawal. go_run. simpl.
  rewrite Hid. unfold in_flight, dedup_key in Hin. rewrite Hin.
  eexists _, _. split_and!; [done|by vm_compute|done|done].
Qed.

Lemma emit_inflight ev w :
  ∃ w', emit (co_Audit C) ev w = (Ok tt, w') ∧
    inflightWithdrawals (store w') = inflightWithdrawals (store w) ∧
    withdrawals (store w') = withdrawals (store w).
Proof.
  destruct (emit_run (co_Audit C) ev w) as (w' & He & [(o & q & Hs) _]).
  exists w'. rewrite Hs. done.
Qed.

Lemma reject_inflight x dec w :
  withdrawals (store w) !! wr_ID x = Some x →
  ∃ wr w', reject x dec w = (Ok wr, w') ∧ wr_State wr = WithdrawalStateFailed ∧
    inflightWithdrawals (store w') = delete (withdrawalDedupKey (wr_WalletID x)
      (wr_ToAddress x) (wr_Amount x) (wr_Asset x)) (inflightWithdrawals (store w)).
Proof.
  intros Hx. unfold reject, UpdateWithdrawalState. go_run. rewrite Hx.
  by eexists _, _.
Qed.

(** The in-flight table follows the verdict: after [Create] returned a
    withdrawal, the request is in flight exactly when the withdrawal is
    WHITELISTED, so an approved request blocks its duplicates and a rejected
    one can be sent again. *)
Theorem Create_in_flight req w wr w' :
  time_IsZero (clock (ticks w)) = false → Create C req w = (Ok wr, w') →
  in_flight req w' = bool_decide (wr_State wr = WithdrawalStateWhitelisted).
Proof.
  intros Hclock. unfold Create, GetWallet. go_run.
  destruct (wallets (store w) !! wq_WalletID req) as [W|]; simpl; [|done].
  do 2 (case_bool_decide; simpl; [done|]). unfold CreateWithdrawal. go_run. simpl.
  destruct (withdrawals (store w) !! _); simpl; [done|].
  destruct (default false _) eqn:Hin; simpl; [done|]. rewrite Hclock. simpl.
  match goal with |- context [emit (co_Audit C) ?ev ?w0] =>
    destruct (emit_inflight ev w0) as (w1 & -> & Hi1 & Hw1) end. simpl in Hi1, Hw1.
  match goal with |- context [emit (co_Audit C) ?ev ?w0] =>
    destruct (emit_inflight ev w0) as (w2 & -> & Hi2 & Hw2) end. simpl in Hi2, Hw2.
  assert (∀ x, withdrawals (store w1) = <[wr_ID x := x]> (withdrawals (store w)) →
    withdrawals (store w2) !! wr_ID x = Some x) as Hrow.
  { intros x Hx. by rewrite Hw2, Hx, lookup_insert_eq. }
  specialize (Hrow _ Hw1). simpl in Hrow. rewrite <- Hi2 in Hi1.
  assert (∀ x dec wr, withdrawals (store w2) !! wr_ID x = Some x →
    withdrawalDedupKey (wr_WalletID x) (wr_ToAddress x) (wr_Amount x) (wr_Asset x)
      = dedup_key req → reject x dec w2 = (Ok wr, w') →
    in_flight req w' = bool_decide (wr_State wr = WithdrawalStateWhitelisted)) as Hrej.
  { intros x dec wr0 Hx Hk Hr. destruct (reject_inflight x dec w2 Hx)
      as (wr1 & w3 & Hr3 & Hs & Hi). rewrite Hr3 in Hr. injection Hr as <- <-.
    unfold in_flight. rewrite Hi, Hk, lookup_delete_eq, Hs. done. }
  destruct (co_Policy C _ _) as [[d|]|e]; [destruct (cp_Approved d)|..];
    try (by apply Hrej).
  unfold UpdateWithdrawalState. go_run. rewrite Hrow. simpl. intros [= <- <-].
  unfold in_flight, dedup_key. simpl. by rewrite Hi1, lookup_insert_eq.
Qed.

(** A request for a wallet in use that is not in flight is taken. *)
Lemma Create_accepts req w W :
  wallets (store w) !! wq_WalletID req = Some W →
  w_State W ≠ WalletStateRetired → w_State W ≠ WalletStatePaused →
  withdrawals (store w) !! new_uuid (ids w) = None → in_flight req w = false →
  time_IsZero (clock (ticks w)) = false →
  ∃ wr w', Create C req w = (Ok wr, w') ∧ wallets (store w') = wallets (store w).
Proof.
  intros HW Hr Hp Hid Hin Hclock. unfold in_flight, dedup_key in Hin.
  unfold Create, GetWallet. go_run. rewrite HW. simpl.
  rewrite !bool_decide_false by done. unfold CreateWithdrawal. go_run. simpl.
  rewrite Hid, Hin, Hclock. simpl.
  do 2 match goal with |- context [emit (co_Audit C) ?ev ?w0] =>
    let o := fresh "o" in let q := fresh "q" in let Hs := fresh "Hs" in
    destruct (emit_run (co_Audit C) ev w0) as (? & -> & [(o & q & Hs) _]); simpl in Hs end.
  destruct (co_Policy C _ _) as [[d|]|e]; [destruct (cp_Approved d)|..];
    unfold reject, UpdateWithdrawalState; go_run; rewrite Hs0; simpl; rewrite Hs; simpl;
    rewrite lookup_insert_eq; eexists _, _; (split; [done|]); simpl; rewrite Hs0; simpl;
    by rewrite Hs.
Qed.

(** What [Fail] does, on every chain and in every state. *)
Lemma Fail_run id reason w x W :
  withdrawals (store w) !! id = Some x →
  wallets (store w) !! wr_WalletID x = Some W →
  ∃ w', Fail C id reason w = (Ok tt, w') ∧
    wr_State <$> withdrawals (store w') !! id = Some WithdrawalStateFailed ∧
    utxos (store w') = utxos (store w) ∧
    nonces (store w') = nonces (store
      (when ((0 <=? noncePtr x) && IsEVM (w_Chain W))
        (ignore (RollbackNonce (w_ID W) (w_Chain W) (noncePtr x))) w).2).
Proof.
  intros Hx HW. unfold Fail.
  rewrite (bind_Ok _ _ w x w) by by rewrite GetWithdrawal_run, Hx.
  rewrite (bind_Ok _ _ w W w) by by apply GetWallet_run.
  rewrite (bind_Ok _ _ _ _ _ (run_eq _ _ _ (rollback_run W (noncePtr x) [] w))).
  pose proof (λ R HR Hn Hu, rollback_frame R (FrameRel0 := HR) W (noncePtr x) [] Hn Hu w) as Hf.
  assert (nonces (store (rollback W (noncePtr x) [] w).2) = nonces (store
    (when ((0 <=? noncePtr x) && IsEVM (w_Chain W))
      (ignore (RollbackNonce (w_ID W) (w_Chain W) (noncePtr x))) w).2)) as Hn.
  { unfold rollback. go_run. destruct (_ && _); [|done].
    by destruct (RollbackNonce _ _ _ w). }
  assert (utxos (store (rollback W (noncePtr x) [] w).2) = utxos (store w)) as Hu.
  { unfold rollback. go_run. destruct (_ && _); [|done].
    pose proof (RollbackNonce_frame (unchanged utxos) (w_ID W) (w_Chain W) (noncePtr x)
      ltac:(by intros ??) w) as Hr. by destruct (RollbackNonce _ _ _ w). }
  set (w1 := (rollback W (noncePtr x) [] w).2) in *.
  destruct (UpdateWithdrawalState_run id WithdrawalStateFailed reason "" "" w1 x)
    as (w2 & now & Hup & Hx2 & Hn2 & Hu2).
  { by rewrite (Hf (unchanged withdrawals) _ ltac:(by intros ??) ltac:(by intros ??)). }
  rewrite (bind_Ok _ _ _ _ _ Hup).
  match goal with |- context [emit (co_Audit C) ?ev w2] =>
    destruct (emit_run (co_Audit C) ev w2) as (w3 & He & [(o & q & Hs) _]) end.
  exists w3. rewrite Hs. simpl. rewrite Hx2, Hn2, Hu2. by split_and!.
Qed.

(** [Fail] does not give back outputs: whatever withdrawal it fails,
    every locked output, so also each one reserved for that withdrawal, is
    still locked when the withdrawal is FAILED. *)
Theorem Fail_keeps_outputs_locked id reason w x W :
  withdrawals (store w) !! id = Some x →
  wallets (store w) !! wr_WalletID x = Some W →
  ∃ w', Fail C id reason w = (Ok tt, w') ∧
    wr_State <$> withdrawals (store w') !! id = Some WithdrawalStateFailed ∧
    ∀ op, is_locked w op → is_locked w' op.
Proof.
  intros Hx HW. destruct (Fail_run id reason w x W Hx HW) as (w' & Hr & Hs & Hu & _).
  exists w'. split_and!; [done|done|]. unfold is_locked, utxo_at in *. by rewrite Hu.
Qed.

(** [Fail] trusts the nonce recorded in the row: failing an EVM
    withdrawal, in whatever state, takes the counter back when the recorded
    nonce is the last one handed out, also when it has since been handed to
    another withdrawal. *)
Theorem Fail_rolls_back_recorded_nonce id reason w x W n :
  store_ok (store w) → withdrawals (store w) !! id = Some x →
  wallets (store w) !! wr_WalletID x = Some W → IsEVM (w_Chain W) = true →
  wr_NonceValue x = Some n → 0 ≤ n < 2 ^ 63 - 1 →
  pending (wr_WalletID x) (w_Chain W) w = n + 1 →
  ∃ w', Fail C id reason w = (Ok tt, w') ∧
    pending (wr_WalletID x) (w_Chain W) w' = n.
Proof.
  intros Hok Hx HW He Hn Hr Hp.
  destruct (Fail_run id reason w x W Hx HW) as (w' & Hf & _ & _ & Hns).
  assert (w_ID W = wr_WalletID x) as Hid by by destruct (ok_wallets _ Hok _ _ HW).
  exists w'. split; [done|]. unfold pending, nonce_row. rewrite Hns.
  assert (noncePtr x = n) as -> by (unfold noncePtr; by rewrite Hn).
  rewrite He, (proj2 (Z.leb_le 0 n)) by lia. simpl. unfold RollbackNonce. go_run.
  rewrite Hid. destruct (RollbackPendingNonce_spec (wr_WalletID x) (w_Chain W) n w Hr)
    as (r & w1 & -> & Hp1 & _). simpl.
  unfold pending, nonce_row, rolled_back in *.
  by rewrite Hp1, Hp, int64_succ_lt, Z.eqb_refl by lia.
Qed.
End outcomes.

(** ** A nonce in two signed transactions *)
Section scenario.
#[local] Existing Instances ref_runtime ref_uuid ref_env ref_decimal ref_crypto.

(** In [demo4] the first withdrawal has failed to sign and the second one is
    signed with the nonce it gave back.  An operator fails the first one
    again, and a third withdrawal is created and signed. *)
Definition refailed : World := (Fail demo first_id "operator" demo4).2.
Definition third_id : uuid := uuid_of_Z 1004.
Definition third_created : World := (Create demo (demo_request "9") refailed).2.
Definition third_signed : World := (ConstructAndSign demo reliable third_id third_created).2.

(** [Fail] without a state check can make two transactions share a nonce:
    in a history of [Create], [ConstructAndSign] and [Fail] calls on one EVM
    wallet, two withdrawals end up SIGNED, both for nonce 0 and with signed
    bytes to broadcast. *)
Theorem Fail_twice_reuses_nonce :
  rtc (service_step demo) demo0 third_signed ∧
  wr_State (row_at second_id third_signed) = WithdrawalStateSigned ∧
  wr_State (row_at third_id third_signed) = WithdrawalStateSigned ∧
  wr_NonceValue (row_at second_id third_signed) = Some 0 ∧
  wr_NonceValue (row_at third_id third_signed) = Some 0 ∧
  wr_SignedTxBytes (row_at second_id third_signed) ≠ [] ∧
  wr_SignedTxBytes (row_at third_id third_signed) ≠ [].
Proof.
  split; [|by vm_compute].
  apply (rtc_l _ _ demo1); [apply s_create|]. apply (rtc_l _ _ demo2); [apply s_create|].
  apply (rtc_l _ _ demo3); [apply s_sign|]. apply (rtc_l _ _ demo4); [apply s_sign|].
  apply (rtc_l _ _ refailed); [apply s_fail|].
  apply (rtc_l _ _ third_created); [apply s_create|]. apply rtc_once, s_sign.
Qed.

Lemma demo_steps : rtc (service_step demo) demo0 demo4.
Proof.
  apply (rtc_l _ _ demo1); [apply s_create|]. apply (rtc_l _ _ demo2); [apply s_create|].
  apply (rtc_l _ _ demo3); [apply s_sign|]. apply rtc_once, s_sign.
Qed.

Lemma only_approved_spend_witness :
  ∃ q, approved (take 3 (trace demo4)) q ∧
    authorised q (default (XTreasury (MkTreasuryRequest uuid_Nil uuid_Nil "" "" "" "")
      (Ok tt)) (trace demo4 !! 3%nat)).
Proof.
  apply (only_approved_spend demo demo0 demo4 (take 3 (trace demo4)) _ []).
  - reflexivity.
  - reflexivity.
  - exact demo_steps.
  - vm_compute. reflexivity.
  - vm_compute. reflexivity.
Defined.

Definition first_req : Req := MkReq first_id (uuid_of_Z 1) to_addr "ETH" "5".

Lemma withdrawal_lifecycle_witness :
  ∃ st', rows (store demo4) !! first_id = Some (st', first_req) ∧
    rtc transition WithdrawalStateWhitelisted st' ∧
    (WithdrawalStateWhitelisted = WithdrawalStateFailed → st' = WithdrawalStateFailed).
Proof.
  apply (withdrawal_lifecycle demo demo1 demo4).
  - apply (rtc_l _ _ demo2); [apply s_create|].
    apply (rtc_l _ _ demo3); [apply s_sign|]. apply rtc_once, s_sign.
  - vm_compute. reflexivity.
Defined.

Lemma Create_refuses_duplicate_witness :
  ∃ e w', Create demo (demo_request "5") demo1 = (Err e, w') ∧
    errors_Is e ErrDuplicateWithdrawal = true ∧
    store w' = store demo1 ∧ trace w' = trace demo1.
Proof.
  apply (Create_refuses_duplicate demo (demo_request "5") demo1
    (default eth_wallet (wallets (store demo1) !! uuid_of_Z 1))).
  - vm_compute. reflexivity.
  - vm_compute. discriminate.
  - vm_compute. discriminate.
  - vm_compute. reflexivity.
  - vm_compute. reflexivity.
Defined.

Lemma Create_in_flight_witness :
  in_flight (demo_request "5") demo1 =
    bool_decide (wr_State (row_at first_id demo1) = WithdrawalStateWhitelisted).
Proof.
  destruct (Create demo (demo_request "5") demo0) as [[wr|e] w'] eqn:Hc.
  - assert (demo1 = w') as -> by (unfold demo1; by rewrite Hc).
    rewrite (Create_in_flight demo (demo_request "5") demo0 wr w');
      [|vm_compute; reflexivity|exact Hc].
    assert ((Create demo (demo_request "5") demo0).1 = Ok wr) as H1 by by rewrite Hc.
    assert ((Create demo (demo_request "5") demo0).2 = w') as H2 by by rewrite Hc.
    rewrite <- H2. vm_compute in H1. injection H1 as <-. vm_compute. reflexivity.
  - assert (is_ok (Create demo (demo_request "5") demo0).1 = false) as H1
      by by rewrite Hc.
    vm_compute in H1. discriminate.
Defined.

Lemma Fail_rolls_back_recorded_nonce_witness :
  ∃ w', Fail demo first_id "operator" demo4 = (Ok tt, w') ∧
    pending (wr_WalletID (row_at first_id demo4)) (w_Chain demo_wallet) w' = 0.
Proof.
  apply (Fail_rolls_back_recorded_nonce demo first_id "operator" demo4
    (row_at first_id demo4) demo_wallet 0).
  - exact demo4_ok.
  - vm_compute. reflexivity.
  - vm_compute. reflexivity.
  - vm_compute. reflexivity.
  - vm_compute. reflexivity.
  - lia.
  - vm_compute. reflexivity.
Defined.

(** A Bitcoin withdrawal with one output reserved. *)
Definition btc_row : WithdrawalRequest :=
  MkWithdrawal first_id (uuid_of_Z 1) "bc1q" "BTC" "5" WithdrawalStateSigned "d" "" ""
    None ["aa:0"] [1] 1 1.
Definition btc_world : World :=
  set_store (set_utxos (set_withdrawals (set_wallets New {[uuid_of_Z 1 := btc_wallet]})
    {[first_id := btc_row]}) {["aa:0" := MkUTXO "aa:0" (uuid_of_Z 1) "5" "p2wpkh" 6
      UTXOLockStateLocked (Some 1) None "" 1]}) initial_world.

Lemma Fail_keeps_outputs_locked_witness :
  ∃ w', Fail demo first_id "operator" btc_world = (Ok tt, w') ∧
    wr_State <$> withdrawals (store w') !! first_id = Some WithdrawalStateFailed ∧
    ∀ op, is_locked btc_world op → is_locked w' op.
Proof.
  apply (Fail_keeps_outputs_locked demo first_id "operator" btc_world btc_row btc_wallet).
  - vm_compute. reflexivity.
  - vm_compute. reflexivity.
Defined.

Lemma btc_world_locked : is_locked btc_world "aa:0" ∧ "aa:0" ∈ wr_ReservedOutpoints btc_row.
Proof. split; [by eexists|]. apply list_elem_of_here. Qed.
End scenario.
