(* ===== verification/Resolver.v ===== *)
(** * Resolver: [internal/withdrawal/resolver.go]

    [DeriverKeyResolver] gives the withdrawal builder the keys of the wallet's
    active address, and [wired] is the service as [cmd/wallet-manager/main.go]
    assembles it: the resolver, the key-mapping lookup and the outbox emitter
    behind the interfaces of the saga. *)
From stdpp Require Import base tactics numbers gmap strings pretty list.
From Stdlib Require Import ZArith Lia.
From S2P Require Import Prelude.
From S2P Require Import GoLang.
From S2P Require Import GoText.
From S2P Require Import GoBytes.
From S2P Require Import Crypto.
From S2P Require Import Domain.
From S2P Require Import Evm.
From S2P Require Import Config.
From S2P Require Import World.
From S2P Require Import Reference.
From S2P Require Import Decimal.
From S2P Require Import TxBuilder.
From S2P Require Import MemStore.
From S2P Require Import MemStoreFacts.
From S2P Require Import MemStoreFrames.
From S2P Require Import MemStoreProps.
From S2P Require Import Lock.
From S2P Require Import Nonce.
From S2P Require Import Utxo.
From S2P Require Import AuditOutbox.
From S2P Require Import KeyMapping.
From S2P Require Import Cache.
From S2P Require Import Deriver.
From S2P Require Import Wallet.
From S2P Require Import Withdrawal.
From S2P Require Import WithdrawalSaga.

#[local] Open Scope string_scope.
#[local] Open Scope list_scope.
#[local] Open Scope Z_scope.

#[export] Instance same_visible_frame_rel : FrameRel same_visible.
Proof.
  split; [split|]; unfold same_visible.
  - done.
  - intros ??? [] []. split; congruence.
  - done.
Qed.

Section resolver.
Context `{GoRuntime} `{UUIDLib} `{CryptoLib} (reg : Registry).

(** The registry and the store of the resolver are not [nil]. *)
Definition BTCPubKeyHash (walletID : uuid) : Go BTCKeys :=
  r ← attempt (GetActiveAddress walletID);
  match r with
  | Err _ => mret zero_BTCKeys
  | Ok addr =>
      if a_DerivationPath addr =s "" then mret zero_BTCKeys
      else
        '(pkHash, compressed) ← wrap_err ("derive btc pubkey hash for wallet "
            +:+ uuid_String walletID +:+ " at " +:+ a_DerivationPath addr)
          (of_result (BTCPubKeyHashFor reg (a_DerivationPath addr)));
        mret (MkBTCKeys pkHash compressed)
  end.

Definition SolanaFrom (walletID : uuid) : Go SolanaKeys :=
  r ← attempt (GetActiveAddress walletID);
  match r with
  | Err _ => mret zero_SolanaKeys
  | Ok addr =>
      if a_Address addr =s "" then mret zero_SolanaKeys
      else
        let decoded := base58_Decode (a_Address addr) in
        if bool_decide (length decoded ≠ 32%nat) then
          throw (ErrNew ("solana: wallet " +:+ uuid_String walletID +:+ " active address "
            +:+ quote (a_Address addr) +:+ " decodes to " +:+ pretty (length decoded)
            +:+ " bytes, want 32"))
        else mret (MkSolanaKeys (copy_into 32 decoded))
  end.

(** ** The resolvers only read *)
Lemma BTCPubKeyHash_quiet wid : within same_visible (BTCPubKeyHash wid).
Proof. unfold BTCPubKeyHash. solve_within. Qed.

Lemma SolanaFrom_quiet wid : within same_visible (SolanaFrom wid).
Proof. unfold SolanaFrom. solve_within. Qed.
End resolver.

(** ** The service of [main.go]

    The locker, the clients of the outside services and the blockhash fetcher
    are arguments: [main.go] chooses them by the environment. *)
Section wiring.
Context `{GoRuntime} `{UUIDLib} `{Environment} `{DecimalLib} `{CryptoLib}.
Context (reg : Registry) (L : Locker) (sleep : Go unit).
Context (policy : list exchange → CheckRequest → result (option CheckResponse)).
Context (signer : list exchange → SignRequest → result SignResponse).
Context (gateway : list exchange → BroadcastRequest → result BroadcastResponse).
Context (fetcher : option (Go (list byte))).

Definition wired : Collaborators := MkCollaborators L sleep policy signer gateway
  (Some ResolveActiveKeyID) (Some EmitterService_Emit) (Some (BTCPubKeyHash reg))
  (Some (SolanaFrom)) fetcher.

Lemma ResolveActiveKeyID_quiet wid : within same_visible (ResolveActiveKeyID wid).
Proof.
  intros w. rewrite ResolveActiveKeyID_run. by destruct (sort_Slice _ _).
Qed.

(** The components of the program discharge the interface the saga is proved
    against: every theorem about the saga holds of the wired service. *)
#[export] Instance wired_laws :
  LockerLaws L → within same_visible sleep →
  (∀ m, fetcher = Some m → within same_visible m) → CollaboratorLaws wired.
Proof.
  intros HL Hsleep Hf. split; simpl; try done.
  - apply EmitterService_laws.
  - intros f wid [= <-]. apply ResolveActiveKeyID_quiet.
  - intros f wid [= <-]. apply BTCPubKeyHash_quiet.
  - intros f wid [= <-]. apply SolanaFrom_quiet.
Defined.
End wiring.

(** ** Lemmas *)
Lemma hex_decode_length l : length (hex_decode l) = Nat.div2 (length l).
Proof.
  revert l. fix IH 1. intros [|hi [|lo l]]; simpl; [done..|]. by rewrite IH.
Qed.

Lemma fromHexChar_range c : 0 ≤ fromHexChar c < 16.
Proof.
  unfold fromHexChar.
  repeat match goal with |- context [if ?b then _ else _] => destruct b eqn:? end; lia.
Qed.

Lemma hex_decode_bytes l : Forall is_byte (hex_decode l).
Proof.
  revert l. fix IH 1. intros [|hi [|lo l]]; simpl; constructor; [|apply IH].
  pose proof (fromHexChar_range hi). pose proof (fromHexChar_range lo).
  unfold is_byte. rewrite join_nibbles_spec by done. lia.
Qed.

Lemma hexDecode32_length s : isHex32 s = true → length (hexDecode32 s) = 32%nat.
Proof.
  unfold isHex32, hexDecode32. intros [Hl _]%andb_true_iff. apply bool_decide_eq_true in Hl.
  rewrite hex_decode_length, list_ascii_length, Hl. done.
Qed.

(** ** Theorems *)
Section theorems.
Context `{GoRuntime} `{UUIDLib} `{CryptoLib} (reg : Registry).

(** C37. A withdrawal is built with the keys of the wallet's own address.  When
    the active address is a derived Bitcoin address, the key hash resolved is
    the hash of the compressed key resolved with it and is the witness program
    of that address; when it is the address of a Solana key given in
    hexadecimal, the sender resolved is exactly that key. *)
Theorem resolved_keys_own_address w wid i a :
  store_ok (store w) → addresses (store w) !! i = Some a → active_of wid a = true →
  (∀ index change r, derive_spec reg ChainBitcoin index change = Ok r → in_int64 index →
    a_Address a = dr_Address r → a_DerivationPath a = dr_DerivationPath r →
    ∃ keys, BTCPubKeyHash reg wid w = (Ok keys, w) ∧
      bk_PubKeyHash keys = Hash160 (bk_CompressedPubKey keys) ∧
      bech32Address "bc" (0 :: bk_PubKeyHash keys) = Ok (a_Address a)) ∧
  (∀ pubkey hex, ParseXpub pubkey = Ok hex → isHex32 hex = true →
    NewSolana pubkey = Ok (a_Address a) → a_Address a ≠ "" →
    SolanaFrom wid w = (Ok (MkSolanaKeys (hexDecode32 hex)), w)).
Proof.
  intros Hok Ha Hact. pose proof (GetActiveAddress_active wid w i a Hok Ha Hact) as Hget.
  split.
  - intros index change r Hr Hidx Haddr Hpath.
    destruct (btc_derivation_keys reg index change r Hr Hidx)
      as (hash & pub & Hparse & Hkeys & Hh & Hb & _).
    exists (MkBTCKeys hash pub). unfold BTCPubKeyHash. go_run. rewrite Hget.
    assert (a_DerivationPath a ≠ "") as Hne by (rewrite Hpath; by intros Heq; rewrite Heq in Hparse).
    rewrite (bool_decide_false _ Hne), Hpath, Hkeys. rewrite Haddr. done.
  - intros pubkey hex Hp Hhex Hnew Hne. unfold NewSolana in Hnew. rewrite Hp in Hnew.
    simpl in Hnew. rewrite Hhex in Hnew. injection Hnew as Hnew.
    pose proof (hexDecode32_length hex Hhex) as Hlen.
    unfold SolanaFrom. go_run. rewrite Hget.
    rewrite (bool_decide_false _ Hne), <- Hnew, base58_roundtrip by apply hex_decode_bytes.
    rewrite bool_decide_false by (intros Hn; by apply Hn).
    by rewrite copy_into_exact.
Qed.
End theorems.

(** ** Witnesses *)
Section witnesses.
#[local] Existing Instances ref_runtime ref_uuid ref_env ref_crypto.

Definition btc_derived : DeriveResult :=
  match derive_spec some_registry ChainBitcoin 7 1 with
  | Ok r => r
  | Err _ => MkDeriveResult "" "" 0 0
  end.

Definition btc_row : Address := MkAddress (uuid_of_Z 21) (uuid_of_Z 20) ChainBitcoin
  (dr_Address btc_derived) (dr_DerivationPath btc_derived) 7 1 AddressStateActive 0 1.
Definition btc_world : World := (InsertAddress btc_row initial_world).2.

Definition sol_hex : string :=
  "000102030405060708090a0b0c0d0e0f101112131415161718191A1B1C1D1E1F".
Definition sol_row : Address := MkAddress (uuid_of_Z 31) (uuid_of_Z 30) ChainSolana
  (base58_Encode (hexDecode32 sol_hex)) sol_path 0 0 AddressStateActive 0 1.
Definition sol_world : World := (InsertAddress sol_row initial_world).2.

Lemma resolved_keys_own_address_witness :
  (∃ keys, BTCPubKeyHash some_registry (uuid_of_Z 20) btc_world = (Ok keys, btc_world) ∧
    bk_PubKeyHash keys = Hash160 (bk_CompressedPubKey keys) ∧
    bech32Address "bc" (0 :: bk_PubKeyHash keys) = Ok (a_Address btc_row)) ∧
  SolanaFrom (uuid_of_Z 30) sol_world = (Ok (MkSolanaKeys (hexDecode32 sol_hex)), sol_world).
Proof.
  split.
  - apply (resolved_keys_own_address some_registry btc_world (uuid_of_Z 20) (uuid_of_Z 21)
      btc_row) with (index := 7) (change := 1) (r := btc_derived).
    + apply InsertAddress_ok, New_ok.
    + vm_compute. reflexivity.
    + vm_compute. reflexivity.
    + vm_compute. reflexivity.
    + unfold in_int64. lia.
    + reflexivity.
    + reflexivity.
  - apply (resolved_keys_own_address some_registry sol_world (uuid_of_Z 30) (uuid_of_Z 31)
      sol_row) with (pubkey := sol_hex).
    + apply InsertAddress_ok, New_ok.
    + vm_compute. reflexivity.
    + vm_compute. reflexivity.
    + vm_compute. reflexivity.
    + vm_compute. reflexivity.
    + vm_compute. reflexivity.
    + vm_compute. discriminate.
Defined.
End witnesses.
