(* ===== verification/Http.v ===== *)
(** * Http: requests, responses and handlers

    The parts of [net/http] the handlers read and write.  A response body is the
    Go value handed to the JSON encoder, as a case of [Body]; the router hands a
    handler the parameters of the path it matched. *)
From stdpp Require Import base tactics numbers gmap strings list.
From Stdlib Require Import ZArith Lia.
From S2P Require Import Prelude.
From S2P Require Import GoLang.
From S2P Require Import GoText.
From S2P Require Import Domain.
From S2P Require Import World.

#[local] Open Scope string_scope.
#[local] Open Scope list_scope.
#[local] Open Scope Z_scope.

(** [err.Error()]. *)
Fixpoint error_text (e : error) : string :=
  match e with
  | ErrNoRows => "sql: no rows in result set"
  | ErrDuplicateEvent => "duplicate balance event"
  | ErrDuplicateWithdrawal => "duplicate in-flight withdrawal"
  | ErrDuplicateFunding => "duplicate open funding request"
  | ErrDuplicateAudit => "duplicate audit event"
  | ErrWalletRetired => "wallet is retired"
  | ErrNoSolanaRPC => "solana: no RPC URL configured"
  | ErrNew msg => msg
  | ErrWrap msg cause => msg +:+ ": " +:+ error_text cause
  end.

(** [time.Time.Unix]: whole seconds since 1970. *)
Definition time_Unix (t : time) : Z := int64 ((t - 62135596800000000000) / 1000000000).

Record Request : Type := MkRequest {
  rq_Method : string;
  rq_Path : string;
  rq_Header : string → string;    (** [r.Header.Get] *)
  rq_Query : string → string;     (** [r.URL.Query().Get] *)
  rq_Param : string → string;     (** [chi.URLParam] *)
  rq_Body : string
}.

(** [rest.balanceResp]. *)
Record balanceResp : Type := MkBalanceResp {
  br_Asset : string;
  br_Confirmed : string;
  br_Pending : string;
  br_Locked : string
}.

Inductive Body : Type :=
  | BError (msg : string)                      (** [{"error": msg}] *)
  | BUnauthorized (code msg : string)          (** [authtoken.errBody] *)
  | BStatus (status : string)                  (** [{"status": status}] *)
  | BReady (status : string) (checks : gmap string string)
  | BWallet (w : Wallet)
  | BWallets (l : list Wallet)
  | BAddress (a : Address)
  | BAddresses (l : list Address)
  | BBalances (l : list balanceResp)
  | BWithdrawal (w : WithdrawalRequest)
  | BWithdrawals (l : list WithdrawalRequest)
  | BFundingRequests (l : list FundingRequest)
  | BNonce (n : Z)
  | BNotFound.                                 (** the router's own answer *)

Record Response : Type := MkResponse { rs_Status : Z; rs_Body : Body }.

Definition Handler : Type := Request → Go Response.

Definition StatusOK : Z := 200.
Definition StatusCreated : Z := 201.
Definition StatusBadRequest : Z := 400.
Definition StatusUnauthorized : Z := 401.
Definition StatusNotFound : Z := 404.
Definition StatusConflict : Z := 409.
Definition StatusInternalServerError : Z := 500.
Definition StatusServiceUnavailable : Z := 503.
