(* ===== verification/AuthToken.v ===== *)
(** * AuthToken: [internal/authtoken]

    HS256 service tokens: base64url, HMAC-SHA256 over an arbitrary SHA-256, the
    token format, the HTTP middleware and the gRPC interceptor. *)
From stdpp Require Import base tactics numbers gmap strings pretty list.
From Stdlib Require Import ZArith Lia Ascii.
From S2P Require Import Prelude.
From S2P Require Import GoLang.
From S2P Require Import GoText.
From S2P Require Import GoBytes.
From S2P Require Import Crypto.
From S2P Require Import Domain.
From S2P Require Import Json.
From S2P Require Import World.
From S2P Require Import Reference.
From S2P Require Import Http.

#[local] Open Scope string_scope.
#[local] Open Scope list_scope.
#[local] Open Scope Z_scope.

(** ** [base64.RawURLEncoding] *)
Definition b64_char (v : Z) : ascii :=
  of_byte (if v <? 26 then 65 + v
           else if v <? 52 then 71 + v
           else if v <? 62 then v - 4
           else if v =? 62 then 45 else 95).

Definition b64_val (c : ascii) : option Z :=
  let b := byte_of c in
  if in_range 65 90 b then Some (b - 65)
  else if in_range 97 122 b then Some (b - 71)
  else if in_range 48 57 b then Some (b + 4)
  else if b =? 45 then Some 62
  else if b =? 95 then Some 63
  else None.

(** The six-bit groups of a byte string. *)
Fixpoint sextets (l : list Z) : list Z :=
  match l with
  | a :: b :: c :: l => a / 4 :: a mod 4 * 16 + b / 16 :: b mod 16 * 4 + c / 64
      :: c mod 64 :: sextets l
  | [a; b] => [a / 4; a mod 4 * 16 + b / 16; b mod 16 * 4]
  | [a] => [a / 4; a mod 4 * 16]
  | [] => []
  end.

Definition encode (b : list Z) : string :=
  String.string_of_list_ascii (b64_char <$> sextets b).

Fixpoint octets (l : list Z) : option (list Z) :=
  match l with
  | a :: b :: c :: d :: l =>
      (λ r, a * 4 + b / 16 :: b mod 16 * 16 + c / 4 :: c mod 4 * 64 + d :: r) <$> octets l
  | [a; b; c] => Some [a * 4 + b / 16; b mod 16 * 16 + c / 4]
  | [a; b] => Some [a * 4 + b / 16]
  | [_] => None
  | [] => Some []
  end.

(** The decoder skips line breaks. *)
Definition not_break (c : ascii) : bool :=
  negb ((byte_of c =? 13) || (byte_of c =? 10)).

Definition decode (s : string) : result (list Z) :=
  match mapM b64_val (List.filter not_break (String.list_ascii_of_string s)) ≫= octets with
  | Some l => Ok l
  | None => Err (ErrNew "illegal base64 data")
  end.

(** ** Tokens *)
Record Claims : Type := MkClaims { cl_Sub : string; cl_Iat : Z; cl_Exp : Z }.

(** [json.Marshal] of the claims and of the header map, whose keys it sorts. *)
Definition claims_json (c : Claims) : json :=
  JObject [("sub", JString (cl_Sub c)); ("iat", JNum (pretty (cl_Iat c)));
           ("exp", JNum (pretty (cl_Exp c)))].

Definition header_json : json := JObject [("alg", JString "HS256"); ("typ", JString "JWT")].

(** [json.Unmarshal(body, &c)]. *)
Definition parse_claims (s : string) : result Claims :=
  v ← json_Unmarshal s;
  l ← members v;
  sub ← field as_string "sub" "" l;
  iat ← field as_int "iat" 0 l;
  exp ← field as_int "exp" 0 l;
  Ok (MkClaims sub iat exp).

Definition bytes_string (l : list Z) : string := String.string_of_list_ascii (of_byte <$> l).

Section tokens.
Context `{CryptoLib}.

(** [hmac.New(sha256.New, key)] applied to a message: blocks of 64 bytes. *)
Definition hmac_key (key : list Z) : list Z :=
  copy_into 64 (if (64 <? length key)%nat then Sha256 key else key).

Definition hmac_sha256 (key msg : list Z) : list Z :=
  Sha256 ((Z.lxor 0x5C <$> hmac_key key) ++
    Sha256 ((Z.lxor 0x36 <$> hmac_key key) ++ msg)).

Definition token_mac (secret signed : string) : string :=
  encode (hmac_sha256 (string_bytes secret) (string_bytes signed)).

Definition sign (header : json) (claims : Claims) (secret : string) : string :=
  let head := encode (string_bytes (json_print header)) in
  let body := encode (string_bytes (json_print (claims_json claims))) in
  let signed := head +:+ "." +:+ body in
  signed +:+ "." +:+ token_mac secret signed.

Definition verify (token secret : string) : result Claims :=
  match strings_Split "." token with
  | [p0; p1; p2] =>
      if negb (token_mac secret (p0 +:+ "." +:+ p1) =s p2) then
        Err (ErrNew "invalid signature")
      else
        body ← wrap_result "decode payload" (decode p1);
        wrap_result "parse payload" (parse_claims (bytes_string body))
  | _ => Err (ErrNew "malformed token")
  end.
End tokens.

(** ** gRPC statuses *)

(** [status.Error(code, msg)]. *)
Inductive code : Type := InvalidArgument | NotFound | Internal | Unauthenticated.
Record StatusError : Type := MkStatus { st_Code : code; st_Message : string }.

(** What a call answers: a value or a status. *)
Abbreviation Reply A := (A + StatusError)%type.

Section service.
Context `{CryptoLib} `{Environment}.

(** The process environment and whether this is a test binary; [None] is a
    process that has stopped. *)
Definition SecretFromEnv (getenv : string → string) (testing : bool) :
    option (string * bool) :=
  let s := getenv "SERVICE_TOKEN_SECRET" in
  if negb (s =s "") then Some (s, false)
  else if (getenv "DEV_MODE" =s "1") || testing then Some ("", true)
  else None.

Definition skipPaths (path : string) : bool := one_of ["/healthz"; "/readyz"; "/metrics"] path.

Definition writeUnauthorized (msg : string) : Go Response :=
  mret (MkResponse StatusUnauthorized (BUnauthorized "unauthorized" msg)).

Definition Middleware (secret : string) (bypass : bool) (h : Handler) : Handler := λ r,
  if bypass || skipPaths (rq_Path r) then h r
  else
    let auth := rq_Header r "Authorization" in
    if negb (strings_HasPrefix auth "Bearer ") then
      writeUnauthorized "missing or malformed Authorization header"
    else
      let token := strings_TrimPrefix auth "Bearer " in
      match verify token secret with
      | Err e => writeUnauthorized (error_text e)
      | Ok claims =>
          now ← time_Now;
          if cl_Exp claims <? time_Unix now then writeUnauthorized "token expired"
          else h r
      end.

Definition Issue (serviceName secret : string) : Go string :=
  if secret =s "" then
    throw (ErrNew "authtoken: secret is required to issue a token")
  else
    now ← time_Now;
    mret (sign header_json (MkClaims serviceName (time_Unix now)
      (time_Unix (time_Add now (24 * Hour)))) secret).

(** ** gRPC *)

(** The metadata of a call, if it carries any: the values of a key. *)
Definition Metadata : Type := option (string → list string).

Definition grpcSkipMethods (m : string) : bool :=
  one_of ["/grpc.health.v1.Health/Check"; "/grpc.reflection.v1alpha.ServerReflectionInfo";
          "/grpc.reflection.v1.ServerReflectionInfo"] m.

Definition unauthenticated {A} (msg : string) : Go (Reply A) :=
  mret (inr (MkStatus Unauthenticated msg)).

Definition metadata_token (md : string → list string) : string :=
  let token := match md "authorization" with
               | v :: _ => strings_TrimPrefix v "Bearer "
               | [] => ""
               end in
  if token =s "" then match md "x-service-token" with v :: _ => v | [] => "" end
  else token.

Definition GRPCUnaryInterceptor {A} (secret : string) (bypass : bool) (md : Metadata)
    (fullMethod : string) (handler : Go (Reply A)) : Go (Reply A) :=
  if bypass || grpcSkipMethods fullMethod then handler
  else match md with
  | None => unauthenticated "missing metadata"
  | Some md =>
      let token := metadata_token md in
      if token =s "" then unauthenticated "missing or malformed Authorization metadata"
      else match verify token secret with
      | Err e => unauthenticated (error_text e)
      | Ok claims =>
          now ← time_Now;
          if cl_Exp claims <? time_Unix now then unauthenticated "token expired"
          else handler
      end
  end.
End service.

(** ** Lemmas *)
Lemma b64_char_spec v : 0 ≤ v < 64 →
  b64_val (b64_char v) = Some v ∧ not_break (b64_char v) = true ∧ b64_char v ≠ "."%char.
Proof.
  intros Hv.
  assert (∀ n, (n < 64)%nat → let c := b64_char (Z.of_nat n) in
    b64_val c = Some (Z.of_nat n) ∧ not_break c = true ∧ c ≠ "."%char) as Hall.
  { intros n Hn. do 64 (destruct n as [|n]; [vm_compute; split_and!; discriminate || reflexivity|]).
    lia. }
  specialize (Hall (Z.to_nat v) ltac:(lia)). by rewrite Z2Nat.id in Hall by lia.
Qed.

Lemma sextets_range l : Forall is_byte l → Forall (λ v, 0 ≤ v < 64) (sextets l).
Proof.
  revert l. fix IH 1. unfold is_byte. intros [|a [|b [|c l]]] Hl.
  - constructor.
  - inversion_clear Hl. repeat constructor; Z.to_euclidean_division_equations; lia.
  - inversion_clear Hl as [|?? Ha Hl']. inversion_clear Hl'.
    repeat constructor; Z.to_euclidean_division_equations; lia.
  - inversion_clear Hl as [|?? Ha Hl']. inversion_clear Hl' as [|?? Hb Hl].
    inversion_clear Hl as [|?? Hc Hl']. simpl.
    repeat (constructor; [Z.to_euclidean_division_equations; lia|]). by apply IH.
Qed.

Lemma octets_sextets l : Forall is_byte l → octets (sextets l) = Some l.
Proof.
  revert l. fix IH 1. unfold is_byte. intros [|a [|b [|c l]]] Hl.
  - done.
  - inversion_clear Hl. simpl. repeat f_equal. Z.to_euclidean_division_equations; lia.
  - inversion_clear Hl as [|?? Ha Hl']. inversion_clear Hl'. simpl.
    repeat f_equal; Z.to_euclidean_division_equations; lia.
  - inversion_clear Hl as [|?? Ha Hl']. inversion_clear Hl' as [|?? Hb Hl].
    inversion_clear Hl as [|?? Hc Hl']. simpl. rewrite (IH l Hl'). simpl.
    repeat f_equal; Z.to_euclidean_division_equations; lia.
Qed.

Lemma decode_encode l : Forall is_byte l → decode (encode l) = Ok l.
Proof.
  intros Hl. unfold decode, encode. rewrite String.list_ascii_of_string_of_list_ascii.
  pose proof (sextets_range l Hl) as Hs.
  assert (List.filter not_break (b64_char <$> sextets l) = b64_char <$> sextets l) as ->.
  { clear Hl. induction Hs as [|v s Hv Hs IH]; csimpl; [done|].
    destruct (b64_char_spec v Hv) as (_ & -> & _). by rewrite IH. }
  assert (mapM b64_val (b64_char <$> sextets l) = Some (sextets l)) as ->.
  { apply mapM_Some, Forall2_fmap_l, Forall_Forall2_diag. eapply Forall_impl; [exact Hs|].
    intros v Hv. by apply b64_char_spec. }
  simpl. by rewrite octets_sextets.
Qed.

Lemma encode_no_dot l : Forall is_byte l → no_char "." (encode l) = true.
Proof.
  intros Hl. unfold no_char, encode. rewrite String.list_ascii_of_string_of_list_ascii.
  pose proof (sextets_range l Hl) as Hs. clear Hl.
  induction Hs as [|v s Hv Hs IH]; csimpl; [done|]. rewrite IH, andb_true_r.
  rewrite bool_decide_false; [done|]. apply b64_char_spec. done.
Qed.

Lemma bytes_string_bytes s : bytes_string (string_bytes s) = s.
Proof.
  unfold bytes_string, string_bytes. rewrite <- list_fmap_compose.
  rewrite (list_fmap_ext _ id); [|intros; apply of_byte_of].
  by rewrite list_fmap_id, String.string_of_list_ascii_of_string.
Qed.

(** Which member sets which field. *)
Ltac eval_fields :=
  repeat match goal with
  | |- context [names_field ?a ?b] =>
      let x := eval vm_compute in (names_field a b) in
      change (names_field a b) with x; cbn beta iota
  end.

Lemma parse_claims_print c :
  ascii_text (cl_Sub c) = true → in_int64 (cl_Iat c) → in_int64 (cl_Exp c) →
  parse_claims (json_print (claims_json c)) = Ok c.
Proof.
  intros Hs Hi He. unfold parse_claims. rewrite json_Unmarshal_print.
  - simpl. eval_fields. rewrite !strconv_Atoi_pretty by done. simpl. eval_fields.
    by destruct c.
  - simpl. rewrite Hs, !big_SetString_pretty. by rewrite !bool_decide_true.
  - simpl. unfold max_depth. lia.
Qed.

Lemma token_mac_bytes `{CryptoLib} key msg : Forall is_byte (hmac_sha256 key msg).
Proof. unfold hmac_sha256. apply Sha256_bytes. Qed.

Lemma split_three a b c :
  no_char "." a = true → no_char "." b = true → no_char "." c = true →
  strings_Split "." (a +:+ "." +:+ b +:+ "." +:+ c) = [a; b; c].
Proof.
  intros Ha Hb Hc. etrans; [by apply strings_Split_app|].
  change ("" +:+ ?s) with s. f_equal. etrans; [by apply strings_Split_app|].
  change ("" +:+ ?s) with s. f_equal. by apply strings_Split_last.
Qed.

(** A minted token has three parts, and they are what [verify] recomputes. *)
Lemma verify_sign `{CryptoLib} c secret :
  ascii_text (cl_Sub c) = true → in_int64 (cl_Iat c) → in_int64 (cl_Exp c) →
  verify (sign header_json c secret) secret = Ok c.
Proof.
  intros Hs Hi He. unfold verify, sign, token_mac.
  set (head := encode (string_bytes (json_print header_json))).
  set (body := encode (string_bytes (json_print (claims_json c)))).
  rewrite !string_app_assoc, split_three
    by (apply encode_no_dot; apply string_bytes_range || apply token_mac_bytes).
  rewrite bool_decide_true by done. unfold body, wrap_result, mbind, result_bind. simpl negb.
  rewrite decode_encode by apply string_bytes_range.
  by rewrite bytes_string_bytes, parse_claims_print.
Qed.

Lemma time_Unix_range t : in_int64 (time_Unix t).
Proof. apply int64_range. Qed.

(** ** Theorems *)
Section theorems.
Context `{CryptoLib} `{Environment}.

(** What [verify] accepts: three parts, the third the MAC of the other two. *)
Definition authentic (secret token : string) (c : Claims) : Prop :=
  ∃ p0 p1 body, strings_Split "." token = [p0; p1; token_mac secret (p0 +:+ "." +:+ p1)] ∧
    decode p1 = Ok body ∧ parse_claims (bytes_string body) = Ok c.

Lemma verify_authentic token secret c :
  verify token secret = Ok c ↔ authentic secret token c.
Proof.
  unfold verify, authentic. split.
  - destruct (strings_Split "." token) as [|p0 [|p1 [|p2 [|]]]] eqn:Hs; try done.
    case_bool_decide as Hm; simpl; [|done]. subst p2.
    destruct (decode p1) as [body|] eqn:Hd; [|done]. simpl.
    destruct (parse_claims _) eqn:Hc; [|done]. simpl. intros [= ->].
    by exists p0, p1, body.
  - intros (p0 & p1 & body & -> & Hd & Hc). rewrite bool_decide_true by done. simpl.
    rewrite Hd. simpl. by rewrite Hc.
Qed.

(** The world after a reading of the clock. *)
Definition ticked (w : World) : World := (time_Now w).2.

(** No request reaches a protected endpoint without a valid token.  With the
    middleware on and a path that is not exempt, a request is either answered
    401 with nothing but the clock touched, or it carries a bearer token whose
    third part is the HMAC of the first two under the secret and whose expiry
    has not passed, and then the answer is the handler's. *)
Theorem Middleware_guards secret h r w :
  skipPaths (rq_Path r) = false →
  (∃ msg w', Middleware secret false h r w =
      (Ok (MkResponse StatusUnauthorized (BUnauthorized "unauthorized" msg)), w') ∧
    (w' = w ∨ w' = ticked w)) ∨
  (∃ token c, rq_Header r "Authorization" = "Bearer " +:+ token ∧
    authentic secret token c ∧ time_Unix (clock (ticks w)) ≤ cl_Exp c ∧
    Middleware secret false h r w = h r (ticked w)).
Proof.
  intros Hp. unfold Middleware. rewrite Hp. simpl.
  destruct (strings_HasPrefix _ _) eqn:Hb; simpl; [|left; eauto].
  apply prefix_spec in Hb as [token Hb]. rewrite Hb, strings_TrimPrefix_app.
  destruct (verify token secret) as [c|e] eqn:Hv; [|left; eauto].
  destruct (cl_Exp c <? time_Unix (clock (ticks w))) eqn:He.
  - left. eexists _, _. split; [|by right]. unfold writeUnauthorized. go_run. by rewrite He.
  - right. exists token, c. split_and!; [done|by apply verify_authentic|lia|].
    unfold ticked. go_run. by rewrite He.
Qed.

(** C40. A token that was issued is honoured for a day.  The token [Issue] mints
    for a service opens the middleware of every process with the same secret
    until its expiry, and is refused as expired after it. *)
Theorem Issue_honoured svc secret w0 h r w :
  secret ≠ "" → ascii_text svc = true → skipPaths (rq_Path r) = false →
  rq_Header r "Authorization" = "Bearer " +:+
    match (Issue svc secret w0).1 with Ok t => t | Err _ => "" end →
  Middleware secret false h r w =
    if time_Unix (clock (ticks w0) + 24 * Hour) <? time_Unix (clock (ticks w))
    then (Ok (MkResponse StatusUnauthorized (BUnauthorized "unauthorized" "token expired")),
          ticked w)
    else h r (ticked w).
Proof.
  intros Hs Ha Hp Hh. unfold Issue in Hh. rewrite bool_decide_false in Hh by done.
  unfold Middleware. rewrite Hp. simpl. go_run.
  assert (strings_HasPrefix (rq_Header r "Authorization") "Bearer " = true) as ->.
  { rewrite Hh. apply prefix_spec. by eexists. }
  rewrite Hh, strings_TrimPrefix_app, verify_sign by (done || apply time_Unix_range).
  simpl. unfold ticked, time_Add, writeUnauthorized. go_run. by destruct (_ <? _).
Qed.
End theorems.

(** ** Witnesses *)
Section witnesses.
#[local] Existing Instances ref_crypto ref_env.

Definition hello : Handler := λ _, mret (MkResponse StatusOK (BStatus "ok")).

Definition get (path auth : string) : Request := MkRequest "GET" path
  (λ k, if k =s "Authorization" then auth else "") (λ _, "") (λ _, "") "".

Lemma Middleware_guards_witness :
  (∃ msg w', Middleware "s3cret" false hello (get "/v1/wallets" "Bearer a.b.c") initial_world =
      (Ok (MkResponse StatusUnauthorized (BUnauthorized "unauthorized" msg)), w') ∧
    (w' = initial_world ∨ w' = ticked initial_world)) ∨
  (∃ token c, rq_Header (get "/v1/wallets" "Bearer a.b.c") "Authorization"
      = "Bearer " +:+ token ∧
    authentic "s3cret" token c ∧ time_Unix (clock (ticks initial_world)) ≤ cl_Exp c ∧
    Middleware "s3cret" false hello (get "/v1/wallets" "Bearer a.b.c") initial_world
      = hello (get "/v1/wallets" "Bearer a.b.c") (ticked initial_world)).
Proof. apply Middleware_guards. reflexivity. Defined.

Definition minted : string :=
  match (Issue "treasury" "s3cret" initial_world).1 with Ok t => t | Err _ => "" end.

Lemma Issue_honoured_witness :
  Middleware "s3cret" false hello (get "/v1/wallets" ("Bearer " +:+ minted)) initial_world =
    if time_Unix (clock (ticks initial_world) + 24 * Hour)
        <? time_Unix (clock (ticks initial_world))
    then (Ok (MkResponse StatusUnauthorized (BUnauthorized "unauthorized" "token expired")),
          ticked initial_world)
    else hello (get "/v1/wallets" ("Bearer " +:+ minted)) (ticked initial_world).
Proof.
  apply (Issue_honoured "treasury" "s3cret" initial_world).
  - discriminate.
  - reflexivity.
  - reflexivity.
  - reflexivity.
Defined.
End witnesses.
