(* ===== verification/GrpcServer.v ===== *)
(** * GrpcServer: [internal/api/grpc/server.go]

    The callbacks of the MPC Signing Service and the Blockchain Gateway: requests
    decoded by the JSON codec, the three handlers over the key-mapping, balance
    and withdrawal services, and the method table the gRPC library dispatches
    on. *)
From stdpp Require Import base tactics numbers gmap strings pretty list.
From Stdlib Require Import ZArith Lia Lqa QArith Sorted.
From S2P Require Import Prelude.
From S2P Require Import GoLang.
From S2P Require Import GoText.
From S2P Require Import Crypto.
From S2P Require Import Domain.
From S2P Require Import Json.
From S2P Require Import Config.
From S2P Require Import World.
From S2P Require Import Reference.
From S2P Require Import Decimal.
From S2P Require Import MemStore.
From S2P Require Import MemStoreFacts.
From S2P Require Import MemStoreFrames.
From S2P Require Import Lock.
From S2P Require Import Utxo.
From S2P Require Import AuditOutbox.
From S2P Require Import KeyMapping.
From S2P Require Import Balance.
From S2P Require Import Withdrawal.
From S2P Require Import WithdrawalSaga.
From S2P Require Import WithdrawalResources.
From S2P Require Import Http.
From S2P Require Import AuthToken.

#[local] Open Scope string_scope.
#[local] Open Scope list_scope.
#[local] Open Scope Z_scope.

(** ** Messages *)
Record ResolveKeyIDRequest : Type := MkResolveKeyID { rk_WalletID : string }.

Record OnConfirmationRequest : Type := MkOnConfirmation {
  oc_TxHash : string;
  oc_WalletID : string;
  oc_Asset : string;
  oc_Amount : string;
  oc_Confirmations : Z;
  oc_BlockHeight : Z;
  oc_EventID : string;
  oc_IsFinalized : bool;
  oc_WithdrawalID : string
}.

Record OnReorgRequest : Type := MkOnReorg {
  or_BlockHeight : Z;
  or_WalletID : string;
  or_Asset : string;
  or_EventID : string;
  or_Outpoints : list string;
  or_WithdrawalID : string
}.

(** [ResolveKeyIDResponse] and [Empty]. *)
Inductive RpcReply : Type :=
  | RKeys (keyIDs : list string) (currentKeyID : string)
  | REmpty.

(** [jsonCodec.Unmarshal] into each request. *)
Definition decode_ResolveKeyID (data : string) : result ResolveKeyIDRequest :=
  l ← json_Unmarshal data ≫= members;
  wid ← field as_string "wallet_id" "" l;
  Ok (MkResolveKeyID wid).

Definition decode_OnConfirmation (data : string) : result OnConfirmationRequest :=
  l ← json_Unmarshal data ≫= members;
  tx ← field as_string "tx_hash" "" l;
  wid ← field as_string "wallet_id" "" l;
  asset ← field as_string "asset" "" l;
  amount ← field as_string "amount" "" l;
  confs ← field as_int "confirmations" 0 l;
  height ← field as_int "block_height" 0 l;
  event ← field as_string "event_id" "" l;
  final ← field as_bool "is_finalized" false l;
  wdr ← field as_string "withdrawal_id" "" l;
  Ok (MkOnConfirmation tx wid asset amount confs height event final wdr).

Definition decode_OnReorg (data : string) : result OnReorgRequest :=
  l ← json_Unmarshal data ≫= members;
  height ← field as_int "block_height" 0 l;
  wid ← field as_string "wallet_id" "" l;
  asset ← field as_string "asset" "" l;
  event ← field as_string "event_id" "" l;
  ops ← field as_strings "outpoints" [] l;
  wdr ← field as_string "withdrawal_id" "" l;
  Ok (MkOnReorg height wid asset event ops wdr).

Definition chainOfAsset (asset : string) : string :=
  if one_of ["btc"; "bitcoin"] asset then "bitcoin"
  else if one_of ["sol"; "solana"] asset then "solana"
  else "ethereum".

(** The gRPC library hands a handler the interceptor, which the handler is to
    apply to its own work. *)
Definition Interceptor : Type := Go (Reply RpcReply) → Go (Reply RpcReply).
Definition MethodHandler : Type := string → Interceptor → Go (Reply RpcReply).

(** [status.Errorf(code, "prefix: %v", err)]. *)
Definition status_err {A} (c : code) (prefix : string) (e : error) : Go (Reply A) :=
  mret (inr (MkStatus c (prefix +:+ ": " +:+ error_text e))).

Section server.
Context `{GoRuntime} `{UUIDLib} `{Environment} `{DecimalLib} `{CryptoLib}.
(** The balance service and the withdrawal service. *)
Context (em : option Emitter) (cfg : Config).
Context (UTXORestore : option (list string → Go unit)).
Context (OnConfirmedDecrease : option (uuid → string → Go unit)).
Context (C : Collaborators).

(** [for _, m := range mappings]: the key of the last current mapping. *)
Definition current_key (l : list KeyMapping) : string :=
  foldl (λ cur m, if km_RotationState m =s RotationStateCurrent then km_KeyID m else cur) "" l.

Definition resolveKeyIDHandler : MethodHandler := λ data _,
  match decode_ResolveKeyID data with
  | Err e => status_err InvalidArgument "decode" e
  | Ok req =>
      match uuid_Parse (rk_WalletID req) with
      | Err e => status_err InvalidArgument "invalid wallet_id" e
      | Ok wid =>
          r ← attempt (ResolveActive wid);
          match r with
          | Err e => status_err NotFound "resolve key" e
          | Ok mappings => mret (inl (RKeys (km_KeyID <$> mappings) (current_key mappings)))
          end
      end
  end.

Definition confirmation_of (wid : uuid) (req : OnConfirmationRequest) : ConfirmationEvent :=
  MkConfirmation wid (oc_Asset req) (oc_Amount req) (oc_Confirmations req)
    (oc_BlockHeight req) (oc_EventID req) (oc_IsFinalized req)
    (chainOfAsset (oc_Asset req)).

Definition onConfirmationHandler : MethodHandler := λ data _,
  match decode_OnConfirmation data with
  | Err e => status_err InvalidArgument "decode" e
  | Ok req =>
      if negb (oc_WithdrawalID req =s "") then
        match uuid_Parse (oc_WithdrawalID req) with
        | Err e => status_err InvalidArgument "invalid withdrawal id" e
        | Ok wid =>
            r ← attempt (Confirm C wid (oc_TxHash req));
            match r with
            | Err e => status_err Internal "confirm" e
            | Ok _ => mret (inl REmpty)
            end
        end
      else if negb (oc_WalletID req =s "") then
        match uuid_Parse (oc_WalletID req) with
        | Err e => status_err InvalidArgument "invalid wallet id" e
        | Ok wid =>
            r ← attempt (ApplyConfirmationEvent em cfg OnConfirmedDecrease
              (confirmation_of wid req));
            match r with
            | Err e => status_err Internal "apply confirmation" e
            | Ok _ => mret (inl REmpty)
            end
        end
      else mret (inl REmpty)
  end.

Definition reorg_of (wid : uuid) (req : OnReorgRequest) : ReorgEvent :=
  MkReorg wid (or_Asset req) (or_BlockHeight req) (or_EventID req) (or_Outpoints req).

(** The second half of the handler: the balances of the wallet. *)
Definition reorg_balances (req : OnReorgRequest) : Go (Reply RpcReply) :=
  if negb (or_WalletID req =s "") then
    match uuid_Parse (or_WalletID req) with
    | Err e => status_err InvalidArgument "invalid wallet id" e
    | Ok wid =>
        r ← attempt (ApplyReorgEvent em UTXORestore (reorg_of wid req));
        match r with
        | Err e => status_err Internal "apply reorg" e
        | Ok _ => mret (inl REmpty)
        end
    end
  else mret (inl REmpty).

Definition onReorgHandler : MethodHandler := λ data _,
  match decode_OnReorg data with
  | Err e => status_err InvalidArgument "decode" e
  | Ok req =>
      if negb (or_WithdrawalID req =s "") then
        match uuid_Parse (or_WithdrawalID req) with
        | Err e => status_err InvalidArgument "invalid withdrawal id" e
        | Ok wid =>
            r ← attempt (OnReorg wid (or_Outpoints req));
            match r with
            | Err e => status_err Internal "withdrawal reorg" e
            | Ok _ => reorg_balances req
            end
        end
      else reorg_balances req
  end.

(** [registerMethods]: the full method name and its handler. *)
Definition registerMethods : list (string * MethodHandler) :=
  [("/wallet.WalletService/ResolveKeyID", resolveKeyIDHandler);
   ("/wallet.WalletService/OnConfirmation", onConfirmationHandler);
   ("/wallet.WalletService/OnReorg", onReorgHandler)].

(** A unary call: the library finds the method and calls its handler with the
    server's interceptor, bound to the call's metadata. *)
Definition serve (secret : string) (bypass : bool) (md : Metadata)
    (fullMethod data : string) : option (Go (Reply RpcReply)) :=
  h ← snd <$> find (λ e, e.1 =s fullMethod) registerMethods;
  Some (h data (GRPCUnaryInterceptor secret bypass md fullMethod)).
End server.

(** ** The messages on the wire

    The members the callers send, by the tags of the request structs. *)
Definition ResolveKeyID_json (r : ResolveKeyIDRequest) : json :=
  JObject [("wallet_id", JString (rk_WalletID r))].

Definition OnConfirmation_json (r : OnConfirmationRequest) : json :=
  JObject [("tx_hash", JString (oc_TxHash r)); ("wallet_id", JString (oc_WalletID r));
    ("asset", JString (oc_Asset r)); ("amount", JString (oc_Amount r));
    ("confirmations", JNum (pretty (oc_Confirmations r)));
    ("block_height", JNum (pretty (oc_BlockHeight r)));
    ("event_id", JString (oc_EventID r)); ("is_finalized", JBool (oc_IsFinalized r));
    ("withdrawal_id", JString (oc_WithdrawalID r))].

Definition OnReorg_json (r : OnReorgRequest) : json :=
  JObject [("block_height", JNum (pretty (or_BlockHeight r)));
    ("wallet_id", JString (or_WalletID r)); ("asset", JString (or_Asset r));
    ("event_id", JString (or_EventID r));
    ("outpoints", JArray (JString <$> or_Outpoints r));
    ("withdrawal_id", JString (or_WithdrawalID r))].

(** Text in ASCII and integers in range. *)
Definition ResolveKeyID_ok (r : ResolveKeyIDRequest) : Prop :=
  ascii_text (rk_WalletID r) = true.

Definition OnConfirmation_ok (r : OnConfirmationRequest) : Prop :=
  forallb ascii_text [oc_TxHash r; oc_WalletID r; oc_Asset r; oc_Amount r; oc_EventID r;
    oc_WithdrawalID r] = true ∧
  in_int64 (oc_Confirmations r) ∧ in_int64 (oc_BlockHeight r).

Definition OnReorg_ok (r : OnReorgRequest) : Prop :=
  forallb ascii_text (or_WalletID r :: or_Asset r :: or_EventID r :: or_WithdrawalID r ::
    or_Outpoints r) = true ∧
  in_int64 (or_BlockHeight r).

Lemma as_elements_print l : as_elements (JString <$> l) = Ok l.
Proof. induction l as [|s l IH]; csimpl; [done|]. by rewrite IH. Qed.

Lemma json_depth_strings l : json_depth (JArray (JString <$> l)) ≤ 1.
Proof.
  simpl. induction l as [|s l IH]; csimpl; lia.
Qed.

Lemma printable_strings l :
  printable (JArray (JString <$> l)) = forallb ascii_text l.
Proof. simpl. induction l as [|s l IH]; csimpl; [done|]. by rewrite IH. Qed.

(** The JSON codec of the gRPC server is lossless on the callbacks of the
    Blockchain Gateway: every confirmation whose text is ASCII and whose
    integers fit 64 bits is decoded from its encoding to itself. *)
Theorem OnConfirmation_roundtrip r : OnConfirmation_ok r →
  decode_OnConfirmation (json_print (OnConfirmation_json r)) = Ok r.
Proof.
  intros (Ht & Hc & Hb). unfold decode_OnConfirmation. rewrite json_Unmarshal_print.
  - simpl. eval_fields. rewrite !strconv_Atoi_pretty by done. simpl. eval_fields.
    by destruct r.
  - cbn [forallb] in Ht. rewrite !andb_true_iff in Ht. simpl.
    rewrite !big_SetString_pretty, !bool_decide_true by done. rewrite !andb_true_iff. naive_solver.
  - simpl. unfold max_depth. lia.
Qed.

Lemma OnReorg_roundtrip r : OnReorg_ok r →
  decode_OnReorg (json_print (OnReorg_json r)) = Ok r.
Proof.
  intros (Ht & Hb). unfold decode_OnReorg. rewrite json_Unmarshal_print.
  - simpl. eval_fields. rewrite !strconv_Atoi_pretty, as_elements_print by done. simpl.
    eval_fields. by destruct r.
  - cbn [forallb] in Ht. rewrite !andb_true_iff in Ht. destruct Ht as (?&?&?&?&Ho).
    rewrite <-printable_strings in Ho. unfold OnReorg_json. cbn [printable forallb snd fst].
    simpl in *. rewrite Ho, !big_SetString_pretty, !bool_decide_true by done. rewrite !andb_true_iff. naive_solver.
  - pose proof (json_depth_strings (or_Outpoints r)). unfold OnReorg_json, max_depth.
    simpl in *. lia.
Qed.

Lemma ResolveKeyID_roundtrip r : ResolveKeyID_ok r →
  decode_ResolveKeyID (json_print (ResolveKeyID_json r)) = Ok r.
Proof.
  intros Ht. unfold decode_ResolveKeyID. rewrite json_Unmarshal_print.
  - simpl. eval_fields. by destruct r.
  - simpl. by rewrite Ht.
  - simpl. unfold max_depth. lia.
Qed.

(** ** Key resolution *)
Lemma current_key_snoc l m :
  current_key (l ++ [m]) =
    if km_RotationState m =s RotationStateCurrent then km_KeyID m else current_key l.
Proof. unfold current_key. by rewrite foldl_app. Qed.

Lemma current_key_unique k l :
  (∃ m, m ∈ l ∧ is_current m = true) →
  (∀ m, m ∈ l → is_current m = true → km_KeyID m = k) →
  current_key l = k.
Proof.
  induction l as [|m l IH] using rev_ind; intros (m' & Hin & Hc) Hall.
  { by apply elem_of_nil in Hin. }
  rewrite current_key_snoc. change (km_RotationState m =s _) with (is_current m).
  destruct (is_current m) eqn:Hm.
  - apply Hall; [|done]. set_solver.
  - apply IH; [|set_solver]. exists m'. split; [|done].
    apply elem_of_app in Hin as [|Hin]; [done|]. apply list_elem_of_singleton in Hin.
    congruence.
Qed.

Section resolve.
Context `{GoRuntime} `{UUIDLib}.

Lemma ResolveActive_run wid w m :
  m ∈ active_keys wid w →
  ResolveActive wid w = (Ok (sort_Slice older (active_keys wid w)), w).
Proof.
  intros Hm. unfold ResolveActive, ResolveActiveKey. go_run.
  change (List.filter (λ m, is_current m || is_cooling m) (mappings_of (store w) wid))
    with (active_keys wid w).
  by destruct (active_keys wid w) eqn:Hl; [apply elem_of_nil in Hm|].
Qed.

(** The signing service learns every key it may be asked to sign with.  For a
    wallet whose current mappings all name the key [k], the reply to
    [ResolveKeyID] lists the keys of exactly the current and cooling mappings,
    oldest first, names [k] as the current one and changes nothing; for a wallet
    without an active mapping the call is answered [NotFound]. *)
Theorem ResolveKeyID_correct wid i w k :
  ascii_text (uuid_String wid) = true →
  (∀ m, m ∈ mappings_of (store w) wid → is_current m = true → km_KeyID m = k) →
  let call := resolveKeyIDHandler
    (json_print (ResolveKeyID_json (MkResolveKeyID (uuid_String wid)))) i w in
  if bool_decide (active_keys wid w = []) then
    ∃ msg, call = (Ok (inr (MkStatus NotFound msg)), w)
  else ∃ ms cur, call = (Ok (inl (RKeys (km_KeyID <$> ms) cur)), w) ∧
    ms ≡ₚ active_keys wid w ∧
    StronglySorted (λ x y, older y x = false) ms ∧
    ((∃ m, m ∈ mappings_of (store w) wid ∧ is_current m = true) → cur = k).
Proof.
  intros Ha Hk call. unfold call, resolveKeyIDHandler.
  rewrite ResolveKeyID_roundtrip by done. simpl. rewrite uuid_Parse_String.
  case_bool_decide as Hn.
  - unfold ResolveActive, ResolveActiveKey, status_err. go_run.
    change (List.filter (λ m, is_current m || is_cooling m) (mappings_of (store w) wid))
      with (active_keys wid w). rewrite Hn. eauto.
  - destruct (active_keys wid w) as [|m0 l0] eqn:Hl; [done|].
    pose proof (ResolveActive_run wid w m0) as Hr. rewrite Hl in Hr.
    unfold attempt. go_run. rewrite Hr by set_solver. rewrite <-Hl in *.
    pose proof (sort_Slice_perm older (active_keys wid w)) as Hp.
    eexists _, _. split_and!; [done|done| |].
    + apply sort_Slice_sorted, older_strict_weak.
    + intros (m & Hin & Hc). apply current_key_unique.
      * exists m. split; [|done]. rewrite Hp. apply elem_of_active_keys. split; [done|].
        unfold key_active. by rewrite Hc.
      * intros m'. rewrite Hp, elem_of_active_keys. intros []. by apply Hk.
Qed.
End resolve.

Section theorems.
Context `{GoRuntime} `{UUIDLib} `{Environment} `{DecimalLib} `{CryptoLib}.
Context (em : option Emitter) `{!EmitterLaws em} (cfg : Config).
Context (UTXORestore : option (list string → Go unit)).
Context (decrease : option (uuid → string → Go unit)).
Context (C : Collaborators).

Lemma OnConfirmation_run req i w wid :
  OnConfirmation_ok req → oc_WithdrawalID req = "" → uuid_Parse (oc_WalletID req) = Ok wid →
  oc_WalletID req ≠ "" →
  onConfirmationHandler em cfg decrease C (json_print (OnConfirmation_json req)) i w =
    match ApplyConfirmationEvent em cfg decrease (confirmation_of wid req) w with
    | (Ok _, w') => (Ok (inl REmpty), w')
    | (Err e, w') =>
        (Ok (inr (MkStatus Internal ("apply confirmation: " +:+ error_text e))), w')
    end.
Proof.
  intros Hok Hw Hp Hne. unfold onConfirmationHandler.
  rewrite OnConfirmation_roundtrip, Hw, Hp by done. simpl.
  rewrite bool_decide_false by done. simpl. unfold status_err. go_run.
  by destruct (ApplyConfirmationEvent _ _ _ _ _) as [[]].
Qed.

(** What identifies an event to the dedup table. *)
Definition same_event (r1 r2 : OnConfirmationRequest) : Prop :=
  oc_WalletID r1 = oc_WalletID r2 ∧ oc_Asset r1 = oc_Asset r2 ∧
  oc_BlockHeight r1 = oc_BlockHeight r2 ∧ oc_EventID r1 = oc_EventID r2.

(** Confirmations are delivered at least once and applied once.  After a
    deposit callback, every callback about the same wallet, asset, block and event
    is acknowledged and leaves the store exactly as it was, whatever amount,
    number of confirmations or finality it reports.  Hence a deposit that was
    first reported unconfirmed stays out of the confirmed balance, also when the
    gateway reports it again as final. *)
Theorem OnConfirmation_applied_once r1 r2 i1 i2 w wid :
  decrease_ok decrease →
  OnConfirmation_ok r1 → OnConfirmation_ok r2 → same_event r1 r2 →
  oc_WithdrawalID r1 = "" → oc_WithdrawalID r2 = "" →
  oc_WalletID r1 ≠ "" → uuid_Parse (oc_WalletID r1) = Ok wid →
  let handler := onConfirmationHandler em cfg decrease C in
  ∃ w1 w2, handler (json_print (OnConfirmation_json r1)) i1 w = (Ok (inl REmpty), w1) ∧
    handler (json_print (OnConfirmation_json r2)) i2 w1 = (Ok (inl REmpty), w2) ∧
    store w2 = store w1 ∧
    (isConfirmed cfg (confirmation_of wid r1) = false →
     confirmed_of wid (oc_Asset r1) w2 == confirmed_of wid (oc_Asset r1) w)%Q.
Proof.
  intros Hdec Hok1 Hok2 (Hw & Ha & Hb & He) Hn1 Hn2 Hne Hp handler.
  unfold handler. rewrite (OnConfirmation_run r1 i1 w wid) by done.
  set (ev := confirmation_of wid r1).
  assert (∃ w1, ApplyConfirmationEvent em cfg decrease ev w = (Ok tt, w1) ∧
    seen ev w1 = true ∧ (isConfirmed cfg ev = false →
      confirmed_of wid (oc_Asset r1) w1 == confirmed_of wid (oc_Asset r1) w)%Q)
    as (w1 & -> & Hs & Hc).
  { destruct (seen ev w) eqn:Hs.
    - destruct (ApplyConfirmationEvent_seen em cfg decrease ev w Hs) as (w1 & -> & Heq).
      exists w1. unfold seen, confirmed_of, row in *. by rewrite Heq.
    - destruct (ApplyConfirmationEvent_fresh em cfg decrease Hdec ev w Hs) as
        (w1 & -> & Hc & _ & _ & _ & _ & Hev).
      exists w1. split_and!; [done|by unfold seen; rewrite Hev, lookup_insert_eq|].
      intros Hf. rewrite Hf in Hc. simpl in Hc. rewrite Hc. lra. }
  assert (seen (confirmation_of wid r2) w1 = true) as Hs2.
  { rewrite <-Hs. unfold seen, event_key, ev, confirmation_of. simpl. congruence. }
  rewrite Hw in Hne, Hp. exists w1. rewrite (OnConfirmation_run r2 i2 w1 wid) by done.
  destruct (ApplyConfirmationEvent_seen em cfg decrease _ w1 Hs2) as (w2 & -> & Heq).
  exists w2. split_and!; [done|done|done|]. intros Hf.
  rewrite <-(Hc Hf). unfold confirmed_of, row. by rewrite Heq.
Qed.

(** The gRPC server does not enforce its tokens.  The interceptor refuses a
    call without metadata before its handler runs, but every registered method
    answers such a call exactly as if the caller had been authenticated: the
    method handlers do not apply the interceptor they are given. *)
Theorem grpc_tokens_not_enforced secret m data (h : Go (Reply RpcReply)) w :
  grpcSkipMethods m = false →
  GRPCUnaryInterceptor secret false None m h w =
    (Ok (inr (MkStatus Unauthenticated "missing metadata")), w) ∧
  ∀ md bypass secret',
    serve em cfg UTXORestore decrease C secret false None m data =
    serve em cfg UTXORestore decrease C secret' bypass md m data.
Proof.
  intros Hm. split.
  - unfold GRPCUnaryInterceptor, unauthenticated. by rewrite Hm.
  - intros md bypass secret'. unfold serve, registerMethods. simpl.
    repeat (case_bool_decide; [done|]). done.
Qed.

(** A reorg whose wallet id does not parse is answered [InvalidArgument], with
    the withdrawal's half of it already applied. *)
Lemma onReorg_partial r i w id e :
  OnReorg_ok r → or_WithdrawalID r ≠ "" → uuid_Parse (or_WithdrawalID r) = Ok id →
  or_WalletID r ≠ "" → uuid_Parse (or_WalletID r) = Err e →
  (OnReorg id (or_Outpoints r) w).1 = Ok tt →
  onReorgHandler em UTXORestore (json_print (OnReorg_json r)) i w =
    (Ok (inr (MkStatus InvalidArgument ("invalid wallet id: " +:+ error_text e))),
     (OnReorg id (or_Outpoints r) w).2).
Proof.
  intros Hok Hn Hp Hnw He Hr. unfold onReorgHandler, reorg_balances.
  rewrite OnReorg_roundtrip, Hp, He by done. rewrite !bool_decide_false by done.
  simpl. unfold attempt, status_err. go_run.
  by destruct (OnReorg id (or_Outpoints r) w) as [[]].
Qed.
End theorems.

(** ** Witnesses *)
Section witnesses.
#[local] Existing Instances ref_runtime ref_uuid ref_env ref_decimal ref_crypto.

Definition callback (confirmations : Z) (final : bool) : OnConfirmationRequest :=
  MkOnConfirmation "0xfeed" (uuid_String acct) "btc" "5" confirmations 100 "e7" final "".

Lemma callback_ok confirmations final :
  in_int64 confirmations → OnConfirmation_ok (callback confirmations final).
Proof. intros Hc. split_and!; [reflexivity|exact Hc|split; vm_compute; congruence]. Qed.

Lemma OnConfirmation_roundtrip_witness :
  decode_OnConfirmation (json_print (OnConfirmation_json (callback 3 true)))
    = Ok (callback 3 true).
Proof. apply OnConfirmation_roundtrip, callback_ok. split; vm_compute; congruence. Defined.

Definition keyed_world : World :=
  set_store (set_keyMappings New (<[acct := [
    MkKeyMapping acct "k-old" 5 (Some 90) RotationStateCooling 5;
    MkKeyMapping acct "k-new" 9 None RotationStateCurrent 9]]> ∅)) initial_world.

Lemma ResolveKeyID_correct_witness :
  let call := resolveKeyIDHandler
    (json_print (ResolveKeyID_json (MkResolveKeyID (uuid_String acct)))) (λ g, g)
    keyed_world in
  if bool_decide (active_keys acct keyed_world = []) then
    ∃ msg, call = (Ok (inr (MkStatus NotFound msg)), keyed_world)
  else ∃ ms cur, call = (Ok (inl (RKeys (km_KeyID <$> ms) cur)), keyed_world) ∧
    ms ≡ₚ active_keys acct keyed_world ∧
    StronglySorted (λ x y, older y x = false) ms ∧
    ((∃ m, m ∈ mappings_of (store keyed_world) acct ∧ is_current m = true) → cur = "k-new").
Proof.
  apply (ResolveKeyID_correct acct (λ g, g) keyed_world "k-new").
  - reflexivity.
  - intros m Hm Hc. vm_compute in Hm. set_unfold in Hm.
    destruct Hm as [->|[->|[]]]; [discriminate Hc|reflexivity].
Defined.

Lemma OnConfirmation_applied_once_witness :
  let handler := onConfirmationHandler None default_config None demo in
  ∃ w1 w2, handler (json_print (OnConfirmation_json (callback 0 false))) (λ g, g)
      initial_world = (Ok (inl REmpty), w1) ∧
    handler (json_print (OnConfirmation_json (callback 6 true))) (λ g, g) w1
      = (Ok (inl REmpty), w2) ∧
    store w2 = store w1 ∧
    (isConfirmed default_config (confirmation_of acct (callback 0 false)) = false →
     confirmed_of acct "btc" w2 == confirmed_of acct "btc" initial_world)%Q.
Proof.
  apply (OnConfirmation_applied_once None default_config None demo (callback 0 false)
    (callback 6 true) (λ g, g) (λ g, g) initial_world acct).
  - apply no_decrease_ok.
  - apply callback_ok. split; vm_compute; congruence.
  - apply callback_ok. split; vm_compute; congruence.
  - split_and!; reflexivity.
  - reflexivity.
  - reflexivity.
  - discriminate.
  - apply uuid_Parse_String.
Defined.

Lemma grpc_tokens_not_enforced_witness :
  GRPCUnaryInterceptor "s3cret" false None "/wallet.WalletService/OnConfirmation"
    (mret (inl REmpty)) initial_world =
    (Ok (inr (MkStatus Unauthenticated "missing metadata")), initial_world) ∧
  ∀ md bypass secret',
    serve None default_config None None demo "s3cret" false None
      "/wallet.WalletService/OnConfirmation" "{}" =
    serve None default_config None None demo secret' bypass md
      "/wallet.WalletService/OnConfirmation" "{}".
Proof. apply grpc_tokens_not_enforced. reflexivity. Defined.
End witnesses.
