(* ===== verification/Rest.v ===== *)
(** * Rest: [internal/api/rest/rest.go]

    The HTTP control plane: the route table, one handler per endpoint over the
    services, and the token middleware in front of it.  The router library is a
    parameter ([ChiRouter]).  A panic of a handler, which the recovering
    middleware turns into status 500, is the error the service models return, and
    is answered as the handler answers that error. *)
From stdpp Require Import base tactics numbers gmap strings pretty list.
From Stdlib Require Import ZArith Lia Ascii.
From S2P Require Import Prelude.
From S2P Require Import GoLang.
From S2P Require Import GoText.
From S2P Require Import Crypto.
From S2P Require Import Domain.
From S2P Require Import Json.
From S2P Require Import Config.
From S2P Require Import World.
From S2P Require Import Reference.
From S2P Require Import Decimal.
From S2P Require Import TxBuilder.
From S2P Require Import MemStore.
From S2P Require Import MemStoreFacts.
From S2P Require Import MemStoreFrames.
From S2P Require Import Lock.
From S2P Require Import Nonce.
From S2P Require Import AuditOutbox.
From S2P Require Import Balance.
From S2P Require Import Cache.
From S2P Require Import Deriver.
From S2P Require Import Wallet.
From S2P Require Import Funding.
From S2P Require Import Withdrawal.
From S2P Require Import WithdrawalSaga.
From S2P Require Import WithdrawalResources.
From S2P Require Import WithdrawalProps.
From S2P Require Import Resolver.
From S2P Require Import Http.
From S2P Require Import AuthToken.

#[local] Open Scope string_scope.
#[local] Open Scope list_scope.
#[local] Open Scope Z_scope.

(** ** The router library

    [chi] matches the segments of a path against those of a pattern, a segment in
    braces against any nonempty segment, which becomes the parameter of that
    name. *)
Definition param_name (seg : string) : option string :=
  match seg with
  | String "{" rest => Some (String.substring 0 (pred (String.length rest)) rest)
  | _ => None
  end.

Fixpoint seg_match (pat path : list string) : option (list (string * string)) :=
  match pat, path with
  | [], [] => Some []
  | p :: pat, s :: path =>
      binds ← seg_match pat path;
      match param_name p with
      | Some name => if s =s "" then None else Some ((name, s) :: binds)
      | None => if p =s s then Some binds else None
      end
  | _, _ => None
  end.

Definition path_match (pattern path : string) : option (list (string * string)) :=
  seg_match (strings_Split "/" pattern) (strings_Split "/" path).

Inductive Matched : Type :=
  | Found (i : nat) (params : string → string)
  | NoRoute (status : Z).     (** 404, or 405 for another method of the path *)

Class ChiRouter : Type := {
  chi_Match : list (string * string) → string → string → Matched;
  chi_sound routes m p i params :
    chi_Match routes m p = Found i params →
    ∃ pat binds, routes !! i = Some (m, pat) ∧ path_match pat p = Some binds ∧
      (NoDup (binds.*1) → ∀ k v, (k, v) ∈ binds → params k = v);
  chi_complete routes m p i pat binds :
    routes !! i = Some (m, pat) → path_match pat p = Some binds →
    ∃ j params, chi_Match routes m p = Found j params
}.

(** ** Requests and responses *)
Definition writeJSON (status : Z) (v : Body) : Go Response := mret (MkResponse status v).
Definition writeError (status : Z) (err : error) : Go Response :=
  writeJSON status (BError (error_text err)).

Definition parseID `{UUIDLib} (r : Request) : result uuid := uuid_Parse (rq_Param r "id").

(** [decodeJSON], to the members the request struct is filled from. *)
Definition decodeJSON (r : Request) : result (list (string * json)) :=
  json_Decode (rq_Body r) ≫= members.

Record createWalletReq : Type := MkCreateWalletReq {
  cw_Chain : string;
  cw_Type : string;
  cw_Label : string;
  cw_KeyID : string
}.

Definition decode_createWallet (r : Request) : result createWalletReq :=
  l ← decodeJSON r;
  chain ← field as_string "chain" "" l;
  type ← field as_string "type" "" l;
  label ← field as_string "label" "" l;
  key ← field as_string "key_id" "" l;
  Ok (MkCreateWalletReq chain type label key).

Record fundingReq : Type := MkFundingReq {
  fq_Asset : string;
  fq_Amount : string;
  fq_Reason : string
}.

Definition decode_funding (r : Request) : result fundingReq :=
  l ← decodeJSON r;
  asset ← field as_string "asset" "" l;
  amount ← field as_string "amount" "" l;
  reason ← field as_string "reason" "" l;
  Ok (MkFundingReq asset amount reason).

Record createWithdrawalReq : Type := MkCreateWithdrawalReq {
  cwr_WalletID : string;
  cwr_ToAddress : string;
  cwr_Asset : string;
  cwr_Amount : string
}.

Definition decode_createWithdrawal (r : Request) : result createWithdrawalReq :=
  l ← decodeJSON r;
  wid ← field as_string "wallet_id" "" l;
  to ← field as_string "to_address" "" l;
  asset ← field as_string "asset" "" l;
  amount ← field as_string "amount" "" l;
  Ok (MkCreateWithdrawalReq wid to asset amount).

Definition decode_allocateNonce (r : Request) : result string :=
  l ← decodeJSON r; field as_string "chain" "" l.

(** [rest.ReadinessCheck]; [None] is a [nil] check. *)
Record ReadinessCheck : Type := MkReadiness {
  rc_Name : string;
  rc_Check : option (Go unit)
}.

Definition healthz : Handler := λ _, writeJSON StatusOK (BStatus "ok").

(** The loop of [readyz]: the results and the number of failed checks. *)
Fixpoint run_checks (checks : list ReadinessCheck) (results : gmap string string)
    (failed : nat) : Go (gmap string string * nat) :=
  match checks with
  | [] => mret (results, failed)
  | c :: checks =>
      match rc_Check c with
      | None => run_checks checks (<[rc_Name c := "ok"]> results) failed
      | Some check =>
          r ← attempt check;
          match r with
          | Err _ => run_checks checks (<[rc_Name c := "down"]> results) (S failed)
          | Ok _ => run_checks checks (<[rc_Name c := "ok"]> results) failed
          end
      end
  end.

Definition readyz (checks : list ReadinessCheck) : Handler := λ _,
  '(results, failed) ← run_checks checks ∅ 0%nat;
  if bool_decide (failed = length checks) && bool_decide (0 < length checks)%nat then
    writeJSON StatusServiceUnavailable (BReady "not ready" results)
  else if bool_decide (0 < failed)%nat then
    writeJSON StatusOK (BReady "degraded" results)
  else writeJSON StatusOK (BReady "ready" results).

(** ** The handlers *)
Section rest.
Context `{GoRuntime} `{UUIDLib} `{Environment} `{FloatLib} `{CryptoLib}.
(** [Deps.Wallets]. *)
Context (c : Cache) (reg : Registry) (L : Locker) (sleep : Go unit).
Context (em : option Emitter) (cfg : Config).
(** [Deps.Funding], [Deps.Withdrawal], [Deps.Nonce] and [Deps.Readiness]. *)
Context (treasury : option (list exchange → TreasuryRequest → result unit)).
Context (C : Collaborators) (nonceSvc : option (Locker * Go unit)).
Context (checks : list ReadinessCheck).

Definition with_id (r : Request) (k : uuid → Go Response) : Go Response :=
  match parseID r with
  | Err e => writeError StatusBadRequest e
  | Ok id => k id
  end.

Definition createWallet : Handler := λ r,
  match decode_createWallet r with
  | Err e => writeError StatusBadRequest e
  | Ok req =>
      wl ← attempt (Wallet_Create em (MkCreateRequest (cw_Chain req) (cw_Type req)
        (cw_Label req) (cw_KeyID req)));
      match wl with
      | Err e => writeError StatusBadRequest e
      | Ok wl => writeJSON StatusCreated (BWallet wl)
      end
  end.

Definition getWallet : Handler := λ r, with_id r (λ id,
  wl ← attempt (Wallet_Get id);
  match wl with
  | Err e =>
      if errors_Is e ErrNoRows then writeError StatusNotFound (ErrNew "wallet not found")
      else writeError StatusInternalServerError e
  | Ok wl => writeJSON StatusOK (BWallet wl)
  end).

Definition listWallets : Handler := λ r,
  wallets ← attempt (Wallet_List (rq_Query r "chain") (rq_Query r "type")
    (rq_Query r "state"));
  match wallets with
  | Err e => writeError StatusInternalServerError e
  | Ok wallets => writeJSON StatusOK (BWallets wallets)
  end.

(** The answer of a derivation, with the status of success. *)
Definition derivation_reply (status : Z) (r : result Address) : Go Response :=
  match r with
  | Err e =>
      if errors_Is e ErrWalletRetired then writeError StatusConflict e
      else writeError StatusInternalServerError e
  | Ok addr => writeJSON status (BAddress addr)
  end.

Definition getAddresses : Handler := λ r, with_id r (λ id,
  if rq_Query r "derive" =s "true" then
    addr ← attempt (DeriveAddress c reg L sleep em cfg id false);
    derivation_reply StatusOK addr
  else
    addrs ← attempt (Wallet_ListAddresses id);
    match addrs with
    | Err e => writeError StatusInternalServerError e
    | Ok addrs => writeJSON StatusOK (BAddresses addrs)
    end).

Definition deriveAddress : Handler := λ r, with_id r (λ id,
  addr ← attempt (DeriveAddress c reg L sleep em cfg id true);
  derivation_reply StatusCreated addr).

Definition getBalances : Handler := λ r, with_id r (λ id,
  bals ← attempt (GetBalances id);
  match bals with
  | Err e => writeError StatusInternalServerError e
  | Ok bals => writeJSON StatusOK (BBalances ((λ b,
      MkBalanceResp (b_Asset b) (b_Confirmed b) (b_Pending b) (b_Locked b)) <$> bals))
  end).

Definition createFundingRequest : Handler := λ r, with_id r (λ id,
  match decode_funding r with
  | Err e => writeError StatusBadRequest e
  | Ok req =>
      o ← attempt (ManualRequest treasury em id (fq_Asset req) (fq_Amount req)
        (fq_Reason req));
      match o with
      | Err e =>
          if errors_Is e ErrDuplicateFunding then writeError StatusConflict e
          else if errors_Is e ErrWalletRetired then writeError StatusConflict e
          else writeError StatusInternalServerError e
      | Ok _ => writeJSON StatusCreated (BStatus "requested")
      end
  end).

Definition createWithdrawal : Handler := λ r,
  match decode_createWithdrawal r with
  | Err e => writeError StatusBadRequest e
  | Ok req =>
      match uuid_Parse (cwr_WalletID req) with
      | Err _ => writeError StatusBadRequest (ErrNew "invalid wallet_id")
      | Ok wid =>
          wr ← attempt (Create C (MkWithdrawalCreate wid (cwr_ToAddress req)
            (cwr_Asset req) (cwr_Amount req)));
          match wr with
          | Err e =>
              if errors_Is e ErrDuplicateWithdrawal then writeError StatusConflict e
              else writeError StatusInternalServerError e
          | Ok wr => writeJSON StatusCreated (BWithdrawal wr)
          end
      end
  end.

Definition getWithdrawal : Handler := λ r, with_id r (λ id,
  wr ← attempt (GetWithdrawal id);
  match wr with
  | Err e =>
      if errors_Is e ErrNoRows then writeError StatusNotFound (ErrNew "withdrawal not found")
      else writeError StatusInternalServerError e
  | Ok wr => writeJSON StatusOK (BWithdrawal wr)
  end).

Definition list_withdrawals_of (r : Request) (walletID : uuid) : Go Response :=
  wrs ← attempt (ListWithdrawals walletID (rq_Query r "state"));
  match wrs with
  | Err e => writeError StatusInternalServerError e
  | Ok wrs => writeJSON StatusOK (BWithdrawals wrs)
  end.

Definition listWithdrawals : Handler := λ r,
  if negb (rq_Query r "wallet_id" =s "") then
    match uuid_Parse (rq_Query r "wallet_id") with
    | Err _ => writeError StatusBadRequest (ErrNew "invalid wallet_id")
    | Ok id => list_withdrawals_of r id
    end
  else list_withdrawals_of r uuid_Nil.

Definition listFundingRequests : Handler := λ r, with_id r (λ id,
  frs ← attempt (ListFundingRequests id (rq_Query r "state"));
  match frs with
  | Err e => writeError StatusInternalServerError e
  | Ok frs => writeJSON StatusOK (BFundingRequests frs)
  end).

Definition allocateNonce : Handler := λ r, with_id r (λ id,
  match nonceSvc with
  | None => writeError StatusServiceUnavailable (ErrNew "nonce service unavailable")
  | Some (NL, nsleep) =>
      match decode_allocateNonce r with
      | Err e => writeError StatusBadRequest e
      | Ok chain =>
          if chain =s "" then writeError StatusBadRequest (ErrNew "chain is required")
          else
            n ← attempt (ReserveNonce NL nsleep id chain);
            match n with
            | Err e => writeError StatusInternalServerError e
            | Ok n => writeJSON StatusOK (BNonce n)
            end
      end
  end).

(** ** The router *)
Definition routes : list (string * string * Handler) :=
  [("GET", "/healthz", healthz);
   ("GET", "/readyz", readyz checks);
   ("POST", "/v1/wallets", createWallet);
   ("GET", "/v1/wallets/{id}", getWallet);
   ("GET", "/v1/wallets", listWallets);
   ("GET", "/v1/wallets/{id}/addresses", getAddresses);
   ("POST", "/v1/wallets/{id}/addresses/derive", deriveAddress);
   ("GET", "/v1/wallets/{id}/balances", getBalances);
   ("POST", "/v1/wallets/{id}/funding-request", createFundingRequest);
   ("GET", "/v1/wallets/{id}/funding-requests", listFundingRequests);
   ("POST", "/v1/wallets/{id}/nonce/allocate", allocateNonce);
   ("POST", "/v1/withdrawals", createWithdrawal);
   ("GET", "/v1/withdrawals", listWithdrawals);
   ("GET", "/v1/withdrawals/{id}", getWithdrawal)].

Definition with_params (params : string → string) (r : Request) : Request :=
  MkRequest (rq_Method r) (rq_Path r) (rq_Header r) (rq_Query r) params (rq_Body r).

Context `{ChiRouter}.

Definition dispatch : Handler := λ r,
  match chi_Match (routes.*1) (rq_Method r) (rq_Path r) with
  | NoRoute status => mret (MkResponse status BNotFound)
  | Found i params =>
      match routes !! i with
      | Some (_, h) => h (with_params params r)
      | None => mret (MkResponse StatusNotFound BNotFound)
      end
  end.

(** The handler of the process; [None] is a process that stopped for want of a
    secret. *)
Definition NewRouter (getenv : string → string) (testing : bool) : option Handler :=
  '(secret, bypass) ← SecretFromEnv getenv testing;
  Some (Middleware secret bypass dispatch).
End rest.

(** ** Lemmas *)
Section facts.
Context `{GoRuntime} `{UUIDLib} `{Environment} `{FloatLib} `{CryptoLib}.
Context (c : Cache) (reg : Registry) (L : Locker) (sleep : Go unit).
Context (em : option Emitter) (cfg : Config).
Context (treasury : option (list exchange → TreasuryRequest → result unit)).
Context (C : Collaborators) (nonceSvc : option (Locker * Go unit)).
Context (checks : list ReadinessCheck).

(** What the readiness checks do to the world, as a relation they all stay within. *)
Definition checks_within (R : relation World) : Prop := ∀ k g,
  k ∈ checks → rc_Check k = Some g → within R g.

Lemma run_checks_within R `{!PreOrder R} l results failed :
  (∀ k g, k ∈ l → rc_Check k = Some g → within R g) →
  within R (run_checks l results failed).
Proof.
  revert results failed. induction l as [|k l IH]; intros results failed Hq; simpl.
  { apply within_ret, _. }
  assert (∀ res f, within R (run_checks l res f)) as IH'.
  { intros. apply IH. intros k' g Hk'. apply Hq. set_solver. }
  destruct (rc_Check k) as [g|] eqn:Hg; [|apply IH'].
  apply within_bind; [apply _| |intros [|]; apply IH'].
  apply within_attempt, (Hq k); [set_solver|done].
Qed.

Lemma readyz_within R `{!PreOrder R} r : checks_within R → within R (readyz checks r).
Proof.
  intros Hq. unfold readyz, writeJSON. apply within_bind; [apply _|by apply run_checks_within|].
  intros [results failed]. by repeat case_match; apply within_ret.
Qed.

Lemma with_id_within (R : relation World) `{!FrameRel R} r k :
  (∀ id, within R (k id)) → within R (with_id r k).
Proof. intros Hk. unfold with_id, writeError, writeJSON. solve_within. Qed.

(** The handlers of GET, without a derivation. *)
Definition read_only (r : Request) : Prop := rq_Query r "derive" ≠ "true".

Lemma GET_quiet h pat r :
  read_only r → pat ≠ "/readyz" →
  ("GET", pat, h) ∈ routes c reg L sleep em cfg treasury C nonceSvc checks →
  within same_visible (h r).
Proof.
  intros Hr Hpat Hin. unfold routes in Hin. set_unfold in Hin.
  repeat destruct Hin as [Hin|Hin]; try done; injection Hin as -> ->; try done;
    unfold healthz, getWallet, listWallets, getAddresses, getBalances, listFundingRequests,
      listWithdrawals, list_withdrawals_of, getWithdrawal, Wallet_Get, Wallet_List,
      Wallet_ListAddresses, GetBalances, writeError, writeJSON;
    rewrite ?(bool_decide_false (rq_Query r "derive" = "true")) by done;
    try (apply with_id_within; [apply _|]); unfold writeError, writeJSON; solve_within.
Qed.

Context `{ChiRouter}.

(** The exempt paths lead to the two probes only: whatever such a request does, the
    readiness checks do. *)
Lemma dispatch_skip R `{!PreOrder R} r :
  skipPaths (rq_Path r) = true → checks_within R →
  within R (dispatch c reg L sleep em cfg treasury C nonceSvc checks r).
Proof.
  intros Hp Hq. unfold dispatch.
  destruct (chi_Match _ _ _) as [i params|status] eqn:Hm; [|apply within_ret, _].
  apply chi_sound in Hm as (pat & binds & Hi & Hmatch & _).
  unfold skipPaths, one_of in Hp. apply bool_decide_eq_true in Hp. set_unfold in Hp.
  rewrite list_lookup_fmap in Hi.
  destruct (routes _ _ _ _ _ _ _ _ _ _ !! i) as [[[m' pat'] h]|] eqn:Hl; [|done].
  injection Hi as -> ->. apply list_elem_of_lookup_2 in Hl. unfold routes in Hl.
  set_unfold in Hl.
  repeat destruct Hl as [Hl|Hl]; try done; injection Hl as _ -> ->;
    try apply within_ret, _; try (by apply readyz_within);
    exfalso; repeat destruct Hp as [Hp|Hp]; try done; rewrite Hp in Hmatch; discriminate Hmatch.
Qed.
End facts.

(** The probe's pattern matches the probe's path only. *)
Lemma strings_Split_join sep s : String.concat (String sep "") (strings_Split sep s) = s.
Proof.
  induction s as [|c s IH]; simpl; [done|].
  case_bool_decide as Hc; destruct (strings_Split sep s) as [|x l] eqn:Hs; simpl in *.
  - destruct s; simpl in Hs; [done|]. by repeat case_match.
  - subst c. by rewrite IH.
  - by subst s.
  - destruct l; simpl in *; [by rewrite IH|]. rewrite <- IH. done.
Qed.

Lemma path_match_readyz s binds : path_match "/readyz" s = Some binds → s = "/readyz".
Proof.
  unfold path_match. change (strings_Split "/" "/readyz") with [""; "readyz"].
  rewrite <- (strings_Split_join "/" s) at 2.
  destruct (strings_Split "/" s) as [|a [|b [|]]]; simpl; try done;
    repeat case_bool_decide; simpl; intros; by simplify_eq/=.
Qed.

(** ** The front door *)
Section front.
Context `{GoRuntime} `{UUIDLib} `{Environment} `{FloatLib} `{CryptoLib} `{ChiRouter}.
Context (c : Cache) (reg : Registry) (L : Locker) (sleep : Go unit).
Context (em : option Emitter) (cfg : Config).
Context (treasury : option (list exchange → TreasuryRequest → result unit)).
Context (C : Collaborators) (nonceSvc : option (Locker * Go unit)).
Context (checks : list ReadinessCheck).

(** C9. The REST server acts on nothing without a token.  With a secret configured, a
    request whose path is not one of the three exempt ones is either answered 401 with
    no table changed and no outside service called, or carries a bearer token whose
    third part is the HMAC of the first two under that secret and whose expiry has not
    passed.  On an exempt path no token is asked for, and the request does nothing but
    run readiness checks: it stays within every reflexive and transitive relation of
    worlds that each check stays within.  (The checks call the outside services they
    probe; the gRPC server of the process is not covered, as it asks for no tokens.) *)
Theorem rest_requires_token getenv testing r w h :
  getenv "SERVICE_TOKEN_SECRET" ≠ "" →
  NewRouter c reg L sleep em cfg treasury C nonceSvc checks getenv testing = Some h →
  let w' := (h r w).2 in
  if skipPaths (rq_Path r) then
    ∀ R : relation World, PreOrder R → checks_within checks R → R w w'
  else
    ((∃ msg, (h r w).1 =
        Ok (MkResponse StatusUnauthorized (BUnauthorized "unauthorized" msg))) ∧
     store w' = store w ∧ trace w' = trace w) ∨
    ∃ token claims, rq_Header r "Authorization" = "Bearer " +:+ token ∧
      authentic (getenv "SERVICE_TOKEN_SECRET") token claims ∧
      time_Unix (clock (ticks w)) ≤ cl_Exp claims.
Proof.
  intros Hs. unfold NewRouter, SecretFromEnv. rewrite bool_decide_false by done. simpl.
  intros [= <-]. destruct (skipPaths (rq_Path r)) eqn:Hp.
  - intros R HR HC. unfold Middleware. rewrite Hp. simpl.
    by apply (dispatch_skip c reg L sleep em cfg treasury C nonceSvc checks R).
  - match goal with |- context [Middleware ?s false ?h r w] =>
      destruct (Middleware_guards s h r w Hp) as [(msg & w' & -> & Hw)|Hok] end.
    + left. split; [by exists msg|]. by destruct Hw as [->| ->].
    + right. destruct Hok as (token & claims & Hh & Ha & He & _). by exists token, claims.
Qed.

(** GET is safe.  A GET request that neither asks for a derivation nor goes to the
    readiness probe changes no table and calls no outside service, whatever route it
    takes and whatever answer it gets. *)
Theorem GET_is_safe r w :
  rq_Method r = "GET" → rq_Query r "derive" ≠ "true" → rq_Path r ≠ "/readyz" →
  let w' := (dispatch c reg L sleep em cfg treasury C nonceSvc checks r w).2 in
  store w' = store w ∧ trace w' = trace w.
Proof.
  intros Hm Hd Hpath. unfold dispatch.
  destruct (chi_Match _ _ _) as [i params|status] eqn:Hf; [|done].
  apply chi_sound in Hf as (pat & binds & Hi & Hmatch & _).
  rewrite list_lookup_fmap, Hm in Hi.
  destruct (routes _ _ _ _ _ _ _ _ _ _ !! i) as [[[m' pat'] h]|] eqn:Hl; [|done].
  injection Hi as -> ->. apply list_elem_of_lookup_2 in Hl.
  apply (GET_quiet c reg L sleep em cfg treasury C nonceSvc checks h pat); [done| |done].
  intros ->. by apply path_match_readyz in Hmatch.
Qed.
End front.

(** ** Readiness *)
Section readiness.
(** Checks with a fixed verdict. *)
Context (checks : list ReadinessCheck) (down : string → bool).
Context (Hverdict : ∀ k g w, k ∈ checks → rc_Check k = Some g →
  (g w).1 = if down (rc_Name k) then Err (ErrNew "down") else Ok tt).

Definition is_down (k : ReadinessCheck) : bool :=
  match rc_Check k with Some _ => down (rc_Name k) | None => false end.

Definition verdict (k : ReadinessCheck) : string := if is_down k then "down" else "ok".

Lemma run_checks_spec l results failed w :
  l ⊆ checks →
  ∃ w', run_checks l results failed w =
    (Ok (foldl (λ m k, <[rc_Name k := verdict k]> m) results l,
         (failed + length (List.filter is_down l))%nat), w').
Proof.
  revert results failed w. induction l as [|k l IH]; intros results failed w Hsub; simpl.
  { exists w. by rewrite Nat.add_0_r. }
  assert (l ⊆ checks) as Hl by set_solver.
  assert (is_down k = match rc_Check k with Some _ => down (rc_Name k) | None => false end)
    as Hd by done.
  assert (verdict k = if is_down k then "down" else "ok") as -> by done.
  destruct (rc_Check k) as [g|] eqn:Hg; rewrite Hd; [|by apply IH].
  pose proof (Hverdict k g w ltac:(set_solver) Hg) as Hv. go_run.
  destruct (g w) as [res w1]. simpl in Hv. subst res.
  destruct (down (rc_Name k)); [|by apply IH].
  destruct (IH (<[rc_Name k := "down"]> results) (S failed) w1 Hl) as [w' ->].
  exists w'. simpl. repeat f_equal. lia.
Qed.

Lemma results_lookup l (results : gmap string string) k :
  NoDup (rc_Name <$> l) → k ∈ l →
  foldl (λ m k, <[rc_Name k := verdict k]> m) results l !! rc_Name k = Some (verdict k).
Proof.
  induction l as [|k' l IH] using rev_ind; intros Hnd Hk.
  { by apply elem_of_nil in Hk. }
  rewrite foldl_app. simpl. rewrite fmap_app in Hnd.
  apply NoDup_app in Hnd as (Hnd & Hdisj & _). apply elem_of_app in Hk as [Hk|Hk].
  - rewrite lookup_insert_ne; [by apply IH|]. intros Heq.
    apply (Hdisj (rc_Name k)); [by apply list_elem_of_fmap_2|]. rewrite <-Heq. set_solver.
  - apply list_elem_of_singleton in Hk as ->. by rewrite lookup_insert_eq.
Qed.

Lemma filter_length_all {A} (f : A → bool) l :
  bool_decide (length (List.filter f l) = length l) = forallb f l.
Proof.
  induction l as [|x l IH]; simpl; [done|]. rewrite <-IH.
  pose proof (filter_length_le f l). destruct (f x); simpl.
  - apply bool_decide_ext. lia.
  - rewrite bool_decide_false by lia. done.
Qed.

Lemma filter_length_some {A} (f : A → bool) l :
  bool_decide (0 < length (List.filter f l))%nat = existsb f l.
Proof.
  induction l as [|x l IH]; simpl; [done|]. rewrite <-IH.
  by destruct (f x).
Qed.

(** [/readyz] reports what the checks found: each check under its name, "down"
    exactly when it fails; 503 and "not ready" exactly when there are checks and
    all of them fail; "degraded" with status 200 when only some do; and "ready"
    when none does. *)
Theorem readyz_status r w :
  NoDup (rc_Name <$> checks) →
  ∃ results w',
    readyz checks r w = (Ok (
      if bool_decide (checks ≠ []) && forallb is_down checks
      then MkResponse StatusServiceUnavailable (BReady "not ready" results)
      else if existsb is_down checks then MkResponse StatusOK (BReady "degraded" results)
      else MkResponse StatusOK (BReady "ready" results)), w') ∧
    ∀ k, k ∈ checks → results !! rc_Name k = Some (verdict k).
Proof.
  intros Hnd. destruct (run_checks_spec checks ∅ 0 w ltac:(done)) as [w' Hr].
  eexists _, w'. split; [|intros k; by apply results_lookup].
  unfold readyz. rewrite (bind_Ok _ _ _ _ _ Hr), Nat.add_0_l.
  rewrite filter_length_all, filter_length_some, andb_comm.
  assert (bool_decide (0 < length checks)%nat = bool_decide (checks ≠ [])) as ->.
  { apply bool_decide_ext. destruct checks; simpl; split; (lia || done). }
  unfold writeJSON. by repeat case_match.
Qed.
End readiness.

(** ** Endpoints *)
Section endpoints.
Context `{GoRuntime} `{UUIDLib} `{Environment} `{FloatLib} `{CryptoLib}.
Context (c : Cache) (reg : Registry) (L : Locker) (sleep : Go unit).
Context (em : option Emitter) (cfg : Config).
Context (treasury : option (list exchange → TreasuryRequest → result unit)).

(** The id drawn next is not in use. *)
Definition fresh_id (w : World) : Prop := withdrawals (store w) !! new_uuid (ids w) = None.

Definition create_of (wid : uuid) (req : createWithdrawalReq) : WithdrawalCreate :=
  MkWithdrawalCreate wid (cwr_ToAddress req) (cwr_Asset req) (cwr_Amount req).

(** Posting a withdrawal twice makes one.  For an active wallet a withdrawal
    that is not in flight is answered 201 with its row; when the policy engine
    approved it, the same request sent again is answered 409, and changes no table
    and reaches no outside service. *)
Theorem createWithdrawal_once (C : Collaborators) `{!CollaboratorLaws C} r req wid W w :
  decode_createWithdrawal r = Ok req → uuid_Parse (cwr_WalletID req) = Ok wid →
  wallets (store w) !! wid = Some W → w_State W = WalletStateActive →
  fresh_id w → in_flight (create_of wid req) w = false →
  time_IsZero (clock (ticks w)) = false →
  ∃ wr w1, createWithdrawal C r w = (Ok (MkResponse StatusCreated (BWithdrawal wr)), w1) ∧
    (wr_State wr = WithdrawalStateWhitelisted → fresh_id w1 →
     ∃ msg w2, createWithdrawal C r w1 = (Ok (MkResponse StatusConflict (BError msg)), w2) ∧
       store w2 = store w1 ∧ trace w2 = trace w1).
Proof.
  intros Hd Hp HW Ha Hid Hfl Hclock.
  assert (w_State W ≠ WalletStateRetired ∧ w_State W ≠ WalletStatePaused) as [Hnr Hnp]
    by (rewrite Ha; done).
  destruct (Create_accepts C (create_of wid req) w W HW Hnr Hnp Hid Hfl Hclock)
    as (wr & w1 & Hc & Hws).
  pose proof (Create_in_flight C _ w wr w1 Hclock Hc) as Hin.
  exists wr, w1. unfold createWithdrawal, writeJSON, writeError. rewrite Hd, Hp.
  fold (create_of wid req). go_run. rewrite Hc. split; [done|]. intros Hst Hid1.
  rewrite bool_decide_true in Hin by done. simpl in HW.
  destruct (Create_refuses_duplicate C (create_of wid req) w1 W) as (e & w2 & Hr & He & Hs & Ht);
    [by rewrite Hws|done..|].
  exists (error_text e), w2. rewrite Hr, He. by split_and!.
Qed.

(** A retired wallet takes no more work: asking it for an address, for funding
    or for a withdrawal changes no table and reaches no outside service.  The first
    two are answered 409, the withdrawal 500. *)
Theorem retired_wallet_answers (C : Collaborators) r1 r2 freq r3 req wid W w :
  wallets (store w) !! wid = Some W → w_State W = WalletStateRetired →
  parseID r1 = Ok wid → parseID r2 = Ok wid → decode_funding r2 = Ok freq →
  decode_createWithdrawal r3 = Ok req → uuid_Parse (cwr_WalletID req) = Ok wid →
  let refused status := (Ok (MkResponse status (BError "wallet is retired")), w) in
  deriveAddress c reg L sleep em cfg r1 w = refused StatusConflict ∧
  createFundingRequest em treasury r2 w = refused StatusConflict ∧
  createWithdrawal C r3 w = refused StatusInternalServerError.
Proof.
  intros HW Hr Hp1 Hp2 Hf Hd Hw refused.
  pose proof (GetWallet_run wid w W HW) as Hg. unfold refused. clear refused.
  unfold deriveAddress, createFundingRequest, createWithdrawal, with_id, derivation_reply,
    writeError, writeJSON, DeriveAddress, ForceRotate, ManualRequest, Create.
  rewrite Hp1, Hp2, Hf, Hd, Hw. go_run. simpl. rewrite Hg. simpl.
  rewrite Hr, bool_decide_true by done. done.
Qed.

(** A nonce allocated over HTTP is the wallet's next one.  With the nonce lock
    free, a request with a chain is answered 200 with the pending nonce of that
    wallet and chain, the counter moves up by one, the lock is free again, and no
    counter of another wallet or chain changes; an empty chain is refused with 400
    and nothing touched. *)
Theorem allocateNonce_next (NL : Locker) `{!LockerLaws NL} nsleep r wid chain w :
  parseID r = Ok wid → decode_allocateNonce r = Ok chain →
  held (nonce_lock_name wid chain) w = None →
  if chain =s "" then
    allocateNonce (Some (NL, nsleep)) r w =
      (Ok (MkResponse StatusBadRequest (BError "chain is required")), w)
  else ∃ w', allocateNonce (Some (NL, nsleep)) r w =
      (Ok (MkResponse StatusOK (BNonce (pending wid chain w))), w') ∧
    pending wid chain w' = int64 (pending wid chain w + 1) ∧
    held (nonce_lock_name wid chain) w' = None ∧ other_rows wid chain w w'.
Proof.
  intros Hp Hd Hfree. unfold allocateNonce, with_id, writeError, writeJSON.
  rewrite Hp, Hd. case_bool_decide; [done|].
  destruct (reserve_loop_free NL nsleep wid chain 49 w Hfree) as (w' & Hr & Hn & _ & Ho & Hf).
  exists w'. unfold ReserveNonce. go_run. rewrite Hr. by split_and!.
Qed.
End endpoints.

(** ** Witnesses *)

(** A router that takes the first route that matches. *)
Fixpoint ref_find (routes : list (string * string)) (m p : string) (i : nat) :
    option (nat * list (string * string)) :=
  match routes with
  | [] => None
  | (m', pat) :: routes =>
      match path_match pat p with
      | Some binds => if m' =s m then Some (i, binds) else ref_find routes m p (S i)
      | None => ref_find routes m p (S i)
      end
  end.

Definition ref_Match (routes : list (string * string)) (m p : string) : Matched :=
  match ref_find routes m p 0 with
  | Some (i, binds) =>
      Found i (λ k, default "" ((list_to_map binds : gmap string string) !! k))
  | None => NoRoute StatusNotFound
  end.

Lemma ref_find_sound routes m p i j binds :
  ref_find routes m p i = Some (j, binds) →
  ∃ n pat, j = (i + n)%nat ∧ routes !! n = Some (m, pat) ∧ path_match pat p = Some binds.
Proof.
  revert i. induction routes as [|[m' pat] routes IH]; simpl; intros i; [done|].
  assert (ref_find routes m p (S i) = Some (j, binds) →
    ∃ n pat', j = (i + n)%nat ∧ ((m', pat) :: routes) !! n = Some (m, pat') ∧
      path_match pat' p = Some binds) as Hrec.
  { intros (n & pat' & -> & Hl & Hm)%IH. exists (S n), pat'. split_and!; [lia|done|done]. }
  destruct (path_match pat p) as [b|] eqn:Hm; [|done].
  case_bool_decide as Heq; [|done]. intros [= <- <-]. subst m'. exists 0%nat, pat.
  by rewrite Nat.add_0_r.
Qed.

Lemma ref_find_complete routes m p n pat binds i :
  routes !! n = Some (m, pat) → path_match pat p = Some binds →
  is_Some (ref_find routes m p i).
Proof.
  revert n i. induction routes as [|[m' pat'] routes IH]; intros n i Hl Hm; [done|]. simpl.
  destruct n as [|n]; simpl in Hl.
  - injection Hl as -> ->. rewrite Hm, bool_decide_true by done. by eexists.
  - destruct (path_match pat' p); [case_bool_decide; [by eexists|]|]; by eapply IH.
Qed.

#[local] Instance ref_chi : ChiRouter.
Proof.
  refine {| chi_Match := ref_Match |}.
  - unfold ref_Match. intros rs m p i params.
    destruct (ref_find rs m p 0) as [[j binds]|] eqn:Hf; [|done]. intros [= <- <-].
    destruct (ref_find_sound _ _ _ _ _ _ Hf) as (n & pat & -> & Hl & Hm).
    exists pat, binds. split_and!; [done|done|]. intros Hnd k v Hin.
    by rewrite (elem_of_list_to_map_1 _ k v) by done.
  - unfold ref_Match. intros rs m p i pat binds Hl Hm.
    destruct (ref_find_complete rs m p i pat binds 0 Hl Hm) as [[j b] ->]. by eexists _, _.
Defined.

Section witnesses.
#[local] Existing Instances ref_runtime ref_uuid ref_env ref_decimal ref_crypto toy_float.

Definition no_treasury : option (list exchange → TreasuryRequest → result unit) := None.

Definition test_env (k : string) : string :=
  if k =s "SERVICE_TOKEN_SECRET" then "s3cret" else "".

Definition request (method path body : string) (id : string) : Request :=
  MkRequest method path (λ _, "") (λ _, "") (λ k, if k =s "id" then id else "") body.

(** A withdrawal posted without a token, and the readiness probe: the check calls the
    treasury, and the request does nothing else. *)
Definition treasury_check : ReadinessCheck := MkReadiness "treasury"
  (Some (ask XTreasury (λ _ _, Err (ErrNew "down"))
    (MkTreasuryRequest uuid_Nil uuid_Nil "" "" "" ""))).

Definition same_store : relation World := λ w w', store w' = store w.

Definition guarded : Handler := Middleware "s3cret" false (dispatch MemCache some_registry
  MemLocker (mret tt) None default_config no_treasury demo None [treasury_check]).

Lemma rest_requires_token_witness :
  let post := request "POST" "/v1/withdrawals" "{}" "" in
  let probe := request "GET" "/readyz" "" "" in
  (((∃ msg, (guarded post initial_world).1 =
        Ok (MkResponse StatusUnauthorized (BUnauthorized "unauthorized" msg))) ∧
     store (guarded post initial_world).2 = store initial_world ∧
     trace (guarded post initial_world).2 = trace initial_world) ∨
   ∃ token claims, rq_Header post "Authorization" = "Bearer " +:+ token ∧
     authentic (test_env "SERVICE_TOKEN_SECRET") token claims ∧
     time_Unix (clock (ticks initial_world)) ≤ cl_Exp claims) ∧
  same_store initial_world (guarded probe initial_world).2 ∧
  length (trace (guarded probe initial_world).2) = 1%nat.
Proof.
  intros post probe. split_and!.
  - apply (rest_requires_token MemCache some_registry MemLocker (mret tt) None default_config
      no_treasury demo None [treasury_check] test_env false post initial_world guarded);
      [discriminate|reflexivity].
  - apply (rest_requires_token MemCache some_registry MemLocker (mret tt) None default_config
      no_treasury demo None [treasury_check] test_env false probe initial_world guarded);
      [discriminate|reflexivity| |].
    + split; [intros x; reflexivity|]. intros x y z Hxy Hyz. exact (eq_trans Hyz Hxy).
    + intros k g Hk Hg. apply list_elem_of_singleton in Hk. subst k. simplify_eq/=.
      intros x. reflexivity.
  - vm_compute. reflexivity.
Defined.

Lemma GET_is_safe_witness :
  let w' := (dispatch MemCache some_registry MemLocker (mret tt) None default_config no_treasury
    demo None [] (request "GET" "/v1/wallets/7/balances" "" "") demo1).2 in
  store w' = store demo1 ∧ trace w' = trace demo1.
Proof.
  apply (GET_is_safe MemCache some_registry MemLocker (mret tt) None default_config no_treasury
    demo None []).
  - reflexivity.
  - discriminate.
  - discriminate.
Defined.

Definition probes : list ReadinessCheck :=
  [MkReadiness "db" (Some (mret tt)); MkReadiness "kafka" (Some (throw (ErrNew "down")));
   MkReadiness "redis" None].

Lemma readyz_status_witness :
  ∃ results w',
    readyz probes (request "GET" "/readyz" "" "") initial_world = (Ok (
      if bool_decide (probes ≠ []) && forallb (is_down (λ n, n =s "kafka")) probes
      then MkResponse StatusServiceUnavailable (BReady "not ready" results)
      else if existsb (is_down (λ n, n =s "kafka")) probes
      then MkResponse StatusOK (BReady "degraded" results)
      else MkResponse StatusOK (BReady "ready" results)), w') ∧
    ∀ k, k ∈ probes → results !! rc_Name k = Some (verdict (λ n, n =s "kafka") k).
Proof.
  apply readyz_status.
  - intros k g w Hk Hg. unfold probes in Hk. set_unfold in Hk.
    destruct Hk as [->|[->|[->|[]]]]; simplify_eq/=; reflexivity.
  - apply (bool_decide_unpack _). vm_compute. exact I.
Defined.

Definition withdrawal_body : string := json_print (JObject
  [("wallet_id", JString (uuid_String (uuid_of_Z 1))); ("to_address", JString to_addr);
   ("asset", JString "ETH"); ("amount", JString "5")]).

Definition withdrawal_req : createWithdrawalReq :=
  MkCreateWithdrawalReq (uuid_String (uuid_of_Z 1)) to_addr "ETH" "5".

Lemma createWithdrawal_once_witness :
  let r := request "POST" "/v1/withdrawals" withdrawal_body "" in
  ∃ wr w1, createWithdrawal demo r demo0 =
      (Ok (MkResponse StatusCreated (BWithdrawal wr)), w1) ∧
    (wr_State wr = WithdrawalStateWhitelisted → fresh_id w1 →
     ∃ msg w2, createWithdrawal demo r w1 =
         (Ok (MkResponse StatusConflict (BError msg)), w2) ∧
       store w2 = store w1 ∧ trace w2 = trace w1).
Proof.
  apply (createWithdrawal_once demo (request "POST" "/v1/withdrawals" withdrawal_body "")
    withdrawal_req (uuid_of_Z 1) eth_wallet demo0);
    try (vm_compute; reflexivity).
Defined.

Definition retired_demo : World :=
  (UpdateWalletState (uuid_of_Z 1) WalletStateRetired demo0).2.

Lemma retired_wallet_answers_witness :
  let id := uuid_String (uuid_of_Z 1) in
  let refused status :=
    (Ok (MkResponse status (BError "wallet is retired")), retired_demo) in
  deriveAddress MemCache some_registry MemLocker (mret tt) None default_config
    (request "POST" "/d" "" id) retired_demo = refused StatusConflict ∧
  createFundingRequest None no_treasury (request "POST" "/f" "{}" id) retired_demo
    = refused StatusConflict ∧
  createWithdrawal demo (request "POST" "/v1/withdrawals" withdrawal_body "") retired_demo
    = refused StatusInternalServerError.
Proof.
  apply (retired_wallet_answers MemCache some_registry MemLocker (mret tt) None default_config
    no_treasury demo (request "POST" "/d" "" (uuid_String (uuid_of_Z 1)))
    (request "POST" "/f" "{}" (uuid_String (uuid_of_Z 1))) (MkFundingReq "" "" "")
    (request "POST" "/v1/withdrawals" withdrawal_body "") withdrawal_req (uuid_of_Z 1)
    (default eth_wallet (wallets (store retired_demo) !! uuid_of_Z 1)));
    vm_compute; reflexivity.
Defined.

Lemma allocateNonce_next_witness :
  let chain := "ethereum" in
  let r := request "POST" "/n" (json_print (JObject [("chain", JString "ethereum")]))
    (uuid_String wid0) in
  if chain =s "" then
    allocateNonce (Some (MemLocker, mret tt)) r w1 =
      (Ok (MkResponse StatusBadRequest (BError "chain is required")), w1)
  else ∃ w', allocateNonce (Some (MemLocker, mret tt)) r w1 =
      (Ok (MkResponse StatusOK (BNonce (pending wid0 chain w1))), w') ∧
    pending wid0 chain w' = int64 (pending wid0 chain w1 + 1) ∧
    held (nonce_lock_name wid0 chain) w' = None ∧ other_rows wid0 chain w1 w'.
Proof.
  apply (allocateNonce_next MemLocker (mret tt) (request "POST" "/n"
    (json_print (JObject [("chain", JString "ethereum")])) (uuid_String wid0)) wid0
    "ethereum" w1); vm_compute; reflexivity.
Defined.
End witnesses.
