(* ===== verification/PgEngine.v ===== *)
(** * PgEngine: the database under [internal/storage/postgres]

    The tables of [internal/storage/postgres/schema.sql] and of migration 0002,
    their constraints as an executable check, and what [database/sql] and the
    server do with a statement: run it on the transaction of the context or on its
    own, check the constraints, and report success or an error.  What the server
    decides by itself (its clock, failures, the outcome of a commit beside other
    transactions, the collation of text, the order of rows that compare equal, the text
    of a NUMERIC) is a parameter ([PgServer]). *)
From stdpp Require Import base tactics numbers gmap strings pretty list.
From Stdlib Require Import ZArith Lia Sorted.
From S2P Require Import Prelude.
From S2P Require Import GoLang.
From S2P Require Import Domain.

#[local] Open Scope string_scope.
#[local] Open Scope list_scope.
#[local] Open Scope Z_scope.

(** ** Tables

    A row has the fields of the Go struct it is read into; columns no query reads
    are left out.  A NUMERIC(38,18) holds the text the server prints for it. *)
Record PgDB : Type := MkDB {
  pg_wallets : gmap uuid Wallet;
  pg_addresses : gmap uuid Address;
  pg_balances : gmap (uuid * string) Balance;
  pg_balance_events : gmap uuid BalanceEvent;
  pg_utxos : gmap string UTXO;
  pg_nonces : gmap (uuid * string) Nonce;
  pg_withdrawals : gmap uuid WithdrawalRequest;
  pg_key_mappings : gmap (uuid * string) KeyMapping;
  pg_funding : gmap uuid FundingRequest;
  pg_audit : gmap uuid AuditOutboxEvent;
  pg_audit_seq : gmap uuid Z
}.

Definition empty_db : PgDB := MkDB ∅ ∅ ∅ ∅ ∅ ∅ ∅ ∅ ∅ ∅ ∅.

Section setters.
Context (d : PgDB).
Definition put_wallets x := MkDB x (pg_addresses d) (pg_balances d) (pg_balance_events d)
  (pg_utxos d) (pg_nonces d) (pg_withdrawals d) (pg_key_mappings d) (pg_funding d)
  (pg_audit d) (pg_audit_seq d).
Definition put_addresses x := MkDB (pg_wallets d) x (pg_balances d) (pg_balance_events d)
  (pg_utxos d) (pg_nonces d) (pg_withdrawals d) (pg_key_mappings d) (pg_funding d)
  (pg_audit d) (pg_audit_seq d).
Definition put_balances x := MkDB (pg_wallets d) (pg_addresses d) x (pg_balance_events d)
  (pg_utxos d) (pg_nonces d) (pg_withdrawals d) (pg_key_mappings d) (pg_funding d)
  (pg_audit d) (pg_audit_seq d).
Definition put_balance_events x := MkDB (pg_wallets d) (pg_addresses d) (pg_balances d) x
  (pg_utxos d) (pg_nonces d) (pg_withdrawals d) (pg_key_mappings d) (pg_funding d)
  (pg_audit d) (pg_audit_seq d).
Definition put_utxos x := MkDB (pg_wallets d) (pg_addresses d) (pg_balances d)
  (pg_balance_events d) x (pg_nonces d) (pg_withdrawals d) (pg_key_mappings d)
  (pg_funding d) (pg_audit d) (pg_audit_seq d).
Definition put_nonces x := MkDB (pg_wallets d) (pg_addresses d) (pg_balances d)
  (pg_balance_events d) (pg_utxos d) x (pg_withdrawals d) (pg_key_mappings d)
  (pg_funding d) (pg_audit d) (pg_audit_seq d).
Definition put_withdrawals x := MkDB (pg_wallets d) (pg_addresses d) (pg_balances d)
  (pg_balance_events d) (pg_utxos d) (pg_nonces d) x (pg_key_mappings d) (pg_funding d)
  (pg_audit d) (pg_audit_seq d).
Definition put_key_mappings x := MkDB (pg_wallets d) (pg_addresses d) (pg_balances d)
  (pg_balance_events d) (pg_utxos d) (pg_nonces d) (pg_withdrawals d) x (pg_funding d)
  (pg_audit d) (pg_audit_seq d).
Definition put_funding x := MkDB (pg_wallets d) (pg_addresses d) (pg_balances d)
  (pg_balance_events d) (pg_utxos d) (pg_nonces d) (pg_withdrawals d) (pg_key_mappings d) x
  (pg_audit d) (pg_audit_seq d).
Definition put_audit x := MkDB (pg_wallets d) (pg_addresses d) (pg_balances d)
  (pg_balance_events d) (pg_utxos d) (pg_nonces d) (pg_withdrawals d) (pg_key_mappings d)
  (pg_funding d) x (pg_audit_seq d).
Definition put_audit_seq x := MkDB (pg_wallets d) (pg_addresses d) (pg_balances d)
  (pg_balance_events d) (pg_utxos d) (pg_nonces d) (pg_withdrawals d) (pg_key_mappings d)
  (pg_funding d) (pg_audit d) x.
End setters.

(** ** Constraints *)

(** The rows of a table. *)
Definition rows_of {K A} `{Countable K} (m : gmap K A) : list A := (map_to_list m).*2.

(** A (partial) unique index: the keys of the rows it covers are distinct. *)
Definition unique {K A B} `{Countable K, EqDecision B} (key : A → option B) (m : gmap K A) :
    bool := bool_decide (NoDup (omap key (rows_of m))).

(** [REFERENCES wallets(id)]. *)
Definition references {K A} `{Countable K} (d : PgDB) (wid : A → uuid) (m : gmap K A) : bool :=
  forallb (λ r, bool_decide (is_Some (pg_wallets d !! wid r))) (rows_of m).

(** [INT] columns. *)
Definition int4 (z : Z) : bool := (- 2 ^ 31 <=? z) && (z <? 2 ^ 31).
Definition opt_int4 (o : option Z) : bool := match o with Some z => int4 z | None => true end.
Definition all_rows {K A} `{Countable K} (p : A → bool) (m : gmap K A) : bool :=
  forallb p (rows_of m).

Definition live_withdrawal (w : WithdrawalRequest) : bool :=
  one_of ["PENDING"; "WHITELISTED"; "SIGNED"; "BROADCAST"] (wr_State w).

Definition only (b : bool) {A} (x : A) : option A := if b then Some x else None.

Definition wallets_valid (d : PgDB) : bool :=
  unique (λ w, Some (w_Chain w, w_KeyID w)) (pg_wallets d) &&
  all_rows (λ w, opt_int4 (w_RotationDays w) && opt_int4 (w_RotationAfterReceives w))
    (pg_wallets d).

Definition addresses_valid (d : PgDB) : bool :=
  unique (λ a, Some (a_WalletID a, a_Index a, a_Change a)) (pg_addresses d) &&
  unique (λ a, Some (a_Chain a, a_Address a)) (pg_addresses d) &&
  unique (λ a, only (a_State a =s "ACTIVE") (a_WalletID a)) (pg_addresses d) &&
  references d a_WalletID (pg_addresses d) &&
  all_rows (λ a, int4 (a_Index a) && int4 (a_Change a) && int4 (a_ReceiveCount a))
    (pg_addresses d).

Definition balances_valid (d : PgDB) : bool := references d b_WalletID (pg_balances d).

Definition balance_events_valid (d : PgDB) : bool :=
  unique (λ e, Some (be_WalletID e, be_Asset e, be_BlockHeight e, be_EventID e))
    (pg_balance_events d).

Definition utxos_valid (d : PgDB) : bool :=
  references d u_WalletID (pg_utxos d) && all_rows (λ u, int4 (u_Confirmations u)) (pg_utxos d).

Definition nonces_valid (d : PgDB) : bool :=
  references d n_WalletID (pg_nonces d) && all_rows (λ n, int4 (n_Version n)) (pg_nonces d).

Definition withdrawals_valid (d : PgDB) : bool :=
  unique (λ w, only (live_withdrawal w)
    (wr_WalletID w, wr_ToAddress w, wr_Amount w, wr_Asset w)) (pg_withdrawals d) &&
  references d wr_WalletID (pg_withdrawals d).

Definition key_mappings_valid (d : PgDB) : bool :=
  unique (λ m, only (km_RotationState m =s "CURRENT") (km_WalletID m)) (pg_key_mappings d) &&
  references d km_WalletID (pg_key_mappings d).

Definition funding_valid (d : PgDB) : bool :=
  unique (λ f, only (fr_State f =s "REQUESTED") (fr_WalletID f, fr_Asset f)) (pg_funding d) &&
  references d fr_WalletID (pg_funding d).

Definition audit_valid (d : PgDB) : bool :=
  unique (λ e, Some (ae_EventID e)) (pg_audit d) &&
  all_rows (λ e, int4 (ae_Attempts e)) (pg_audit d).

Definition valid (d : PgDB) : bool :=
  wallets_valid d && addresses_valid d && balances_valid d && balance_events_valid d &&
  utxos_valid d && nonces_valid d && withdrawals_valid d && key_mappings_valid d &&
  funding_valid d && audit_valid d.

(** ** The server *)

(** What a statement that fails for no reason of its own reports, and whether the
    server had carried it out before the answer was lost. *)
Record Fault : Type := MkFault { f_Error : error; f_Applied : bool }.

Class PgServer : Type := {
  (** the error of the [n]-th message to the server, if it has one *)
  pg_fault : nat → option Fault;
  (** [now()] of a transaction that starts with the [n]-th message *)
  pg_clock : nat → time;
  (** [time.Now] of the process, at that point *)
  app_clock : nat → time;
  (** a TIMESTAMPTZ holds microseconds *)
  timestamptz : time → time;
  timestamptz_idem t : timestamptz (timestamptz t) = timestamptz t;
  pg_clock_stored n : timestamptz (pg_clock n) = pg_clock n;
  (** NUMERIC(38,18): the text printed for the text given *)
  numeric : string → option string;
  numeric_idem s t : numeric s = Some t → numeric t = Some t;
  numeric_empty : numeric "" = None;
  numeric_int n : 0 ≤ n < 10 ^ 20 →
    numeric (pretty n) = Some (pretty n +:+ ".000000000000000000");
  (** COMMIT of a serializable transaction, from the database it started on, the
      one it made and the one it finds: the outcome, or a serialization failure.
      Where nobody else committed, what it made is what is left. *)
  pg_commit : nat → PgDB → PgDB → PgDB → option PgDB;
  pg_commit_alone n d work d' : pg_commit n d work d = Some d' → d' = work;
  pg_commit_valid n d0 work d d' :
    valid work = true → valid d = true → pg_commit n d0 work d = Some d' → valid d' = true;
  (** the order of text under the collation of the database *)
  collate_lt : string → string → bool;
  collate_order : strict_weak collate_lt;
  (** ORDER BY *)
  order_by : ∀ {A : Type}, (A → A → bool) → list A → list A;
  order_by_perm {A} (lt : A → A → bool) l : order_by lt l ≡ₚ l;
  order_by_sorted {A} (lt : A → A → bool) l :
    strict_weak lt → StronglySorted (λ x y, lt y x = false) (order_by lt l)
}.

(** ** Connections *)

(** A transaction: the database it started on, the one it has made, its [now()],
    and whether a statement of it has failed. *)
Record Tx : Type := MkTx {
  tx_Start : PgDB;
  tx_Work : PgDB;
  tx_Now : time;
  tx_Failed : bool
}.

(** The committed database, the transaction of the context, and the number of
    messages sent. *)
Record PgWorld : Type := MkPg {
  pw_DB : PgDB;
  pw_Tx : option Tx;
  pw_Calls : nat
}.

Abbreviation Pg := (GoM PgWorld).

Definition pq_error (msg : string) : error := ErrNew ("pq: " +:+ msg).
Definition ErrInFailedTransaction : error :=
  pq_error "current transaction is aborted, commands ignored until end of transaction block".
Definition ErrSerialization : error :=
  pq_error "could not serialize access due to read/write dependencies among transactions".
Definition ErrConstraint : error := pq_error "constraint violation".

(** What a statement does: its result and the database after it, or an error. *)
Definition Stmt (A : Type) : Type := time → PgDB → result (A * PgDB).

Section engine.
Context `{PgServer}.

(** A statement that leaves a constraint violated is refused. *)
Definition checked {A} (f : Stmt A) : Stmt A := λ now d,
  match f now d with
  | Ok (a, d') => if valid d' then Ok (a, d') else Err ErrConstraint
  | Err e => Err e
  end.

(** [s.exec], [s.queryRow] and [s.query]: on the transaction of the context, or a
    transaction of its own. *)
Definition statement {A} (f : Stmt A) : Pg A := λ w,
  let n := pw_Calls w in
  match pw_Tx w with
  | None =>
      let r := checked f (pg_clock n) (pw_DB w) in
      let d' := match r with Ok (_, d') => d' | Err _ => pw_DB w end in
      match pg_fault n with
      | Some fault =>
          (Err (f_Error fault), MkPg (if f_Applied fault then d' else pw_DB w) None (S n))
      | None => (match r with Ok (a, _) => Ok a | Err e => Err e end, MkPg d' None (S n))
      end
  | Some tx =>
      let failed e :=
        (Err e, MkPg (pw_DB w) (Some (MkTx (tx_Start tx) (tx_Work tx) (tx_Now tx) true)) (S n)) in
      if tx_Failed tx then failed ErrInFailedTransaction
      else match pg_fault n, checked f (tx_Now tx) (tx_Work tx) with
      | Some fault, _ => failed (f_Error fault)
      | None, Err e => failed e
      | None, Ok (a, d') =>
          (Ok a, MkPg (pw_DB w) (Some (MkTx (tx_Start tx) d' (tx_Now tx) false)) (S n))
      end
  end.

(** [time.Now]. *)
Definition pg_time_Now : Pg time := λ w,
  (Ok (app_clock (pw_Calls w)), MkPg (pw_DB w) (pw_Tx w) (S (pw_Calls w))).

(** [tx.Commit]. *)
Definition commit (tx : Tx) : Pg unit := λ w,
  let n := pw_Calls w in
  let fail e d := (Err e, MkPg d None (S n)) in
  if tx_Failed tx then fail ErrInFailedTransaction (pw_DB w)
  else match pg_commit n (tx_Start tx) (tx_Work tx) (pw_DB w), pg_fault n with
  | None, None => fail ErrSerialization (pw_DB w)
  | None, Some fault => fail (f_Error fault) (pw_DB w)
  | Some d', Some fault => fail (f_Error fault) (if f_Applied fault then d' else pw_DB w)
  | Some d', None => (Ok tt, MkPg d' None (S n))
  end.
End engine.
