(* ===== verification/PgReference.v ===== *)
(** * PgReference: a Postgres server without faults

    An instance of [PgServer], with which the hypotheses of the theorems about the
    Postgres store are met. *)
From stdpp Require Import base tactics numbers gmap strings pretty list.
From Stdlib Require Import ZArith Lia Sorted Ascii.
From S2P Require Import Prelude.
From S2P Require Import GoLang.
From S2P Require Import GoText.
From S2P Require Import Domain.
From S2P Require Import Json.
From S2P Require Import Reference.
From S2P Require Import PgEngine.

#[local] Open Scope string_scope.
#[local] Open Scope list_scope.
#[local] Open Scope Z_scope.

Definition zeros : string := ".000000000000000000".

(** Whole numbers in range, with or without eighteen zeros after the point. *)
Definition whole (t : string) : bool :=
  match big_SetString t with
  | Some z => (t =s pretty z) && (0 <=? z) && (z <? 10 ^ 20)
  | None => false
  end.

Definition ref_numeric (s : string) : option string :=
  let t := str_take (String.length s - 19) s in
  if whole s then Some (s +:+ zeros)
  else if (s =s t +:+ zeros) && whole t then Some s else None.

Lemma str_take_app s t : str_take (String.length s) (s +:+ t) = s.
Proof.
  induction s as [|c s IH]; [by destruct t|].
  change (String c s +:+ t) with (String c (s +:+ t)). simpl. by rewrite IH.
Qed.

Lemma whole_zeros s : whole (s +:+ zeros) = false.
Proof. unfold whole, zeros. by rewrite (big_SetString_dot s "000000000000000000"). Qed.

Lemma ref_numeric_idem s t : ref_numeric s = Some t → ref_numeric t = Some t.
Proof.
  unfold ref_numeric at 1. destruct (whole s) eqn:Hw.
  - intros [= <-]. unfold ref_numeric. rewrite whole_zeros.
    assert (String.length (s +:+ zeros) - 19 = String.length s)%nat as ->.
    { rewrite string_app_length. unfold zeros. simpl. lia. }
    by rewrite str_take_app, Hw, bool_decide_true.
  - case_bool_decide as Hs; [|done]. simpl.
    destruct (whole (str_take _ s)) eqn:Ht; [|done]. intros [= <-].
    unfold ref_numeric. by rewrite Hw, (bool_decide_true _ Hs), Ht.
Qed.

Lemma ref_numeric_int n : 0 ≤ n < 10 ^ 20 →
  ref_numeric (pretty n) = Some (pretty n +:+ ".000000000000000000").
Proof.
  intros Hn. unfold ref_numeric, whole. rewrite big_SetString_pretty, bool_decide_true by done.
  assert ((0 <=? n) = true) as -> by lia. by assert ((n <? 10 ^ 20) = true) as -> by lia.
Qed.

#[local] Existing Instance ref_runtime.

Definition ref_pg : PgServer.
Proof.
  refine {| pg_fault _ := None; pg_clock n := 1000 * (Z.of_nat n + 1);
    app_clock n := 1000 * (Z.of_nat n + 1); timestamptz t := t; numeric := ref_numeric;
    pg_commit _ d work d' := if valid work then Some work else None;
    collate_lt := string_lt; order_by A lt l := sort_Slice lt l |}.
  - done.
  - done.
  - exact ref_numeric_idem.
  - done.
  - exact ref_numeric_int.
  - intros n d work d'. destruct (valid work); [|done]. by intros [= <-].
  - intros n d0 work d d' Hw _. rewrite Hw. by intros [= <-].
  - exact string_lt_strict_weak.
  - intros A. apply sort_Slice_perm.
  - intros A. apply sort_Slice_sorted.
Defined.
