(* ===== verification/Postgres.v ===== *)
(** * Postgres: [internal/storage/postgres/postgres.go]

    [InTx] and the methods of the store, each with the SQL statements it sends;
    [pg_X] is method [X].  Arguments keep the Go types: a [nil] slice of outpoints
    is [None], as the driver sends it as NULL. *)
From stdpp Require Import base tactics numbers gmap strings pretty list.
From Stdlib Require Import ZArith Lia Sorted.
From S2P Require Import Prelude.
From S2P Require Import GoLang.
From S2P Require Import Domain.
From S2P Require Import PgEngine.

#[local] Open Scope string_scope.
#[local] Open Scope list_scope.
#[local] Open Scope Z_scope.

(** ** Statements *)
Section statements.
Context `{PgServer}.

Definition ErrUnique : error := pq_error "duplicate key value violates unique constraint".
Definition ErrNotNull : error := pq_error "null value in column violates not-null constraint".
Definition ErrRange : error := pq_error "value out of range".

(** A query: nothing changes. *)
Definition select {A} (f : PgDB → result A) : Stmt A := λ _ d,
  match f d with Ok a => Ok (a, d) | Err e => Err e end.

(** [queryRow(...).Scan(...)] of at most one row; that there is none is found by
    the client. *)
Definition query_row {A} (f : PgDB → option A) : Pg A :=
  o ← statement (select (λ d, Ok (f d)));
  match o with Some a => mret a | None => throw ErrNoRows end.

(** INSERT of a row under its primary key. *)
Definition insert_row {K A} `{Countable K} (get : PgDB → gmap K A)
    (put : PgDB → gmap K A → PgDB) (k : K) (r : A) : Stmt unit := λ _ d,
  match get d !! k with
  | Some _ => Err ErrUnique
  | None => Ok (tt, put d (<[k := r]> (get d)))
  end.

(** UPDATE of the row with a primary key, where it satisfies [p]: rows affected. *)
Definition update_row {K A} `{Countable K} (get : PgDB → gmap K A)
    (put : PgDB → gmap K A → PgDB) (k : K) (p : A → bool) (f : time → A → A) : Stmt Z := λ now d,
  match get d !! k with
  | Some r => if p r then Ok (1, put d (<[k := f now r]> (get d))) else Ok (0, d)
  | None => Ok (0, d)
  end.

(** UPDATE of every row that satisfies [p]. *)
Definition update_rows {K A} `{Countable K} (get : PgDB → gmap K A)
    (put : PgDB → gmap K A → PgDB) (p : time → A → bool) (f : time → A → A) : Stmt unit := λ now d,
  Ok (tt, put d ((λ r, if p now r then f now r else r) <$> get d)).

(** SELECT of the rows that satisfy [p], in order. *)
Definition select_rows {K A} `{Countable K} (get : PgDB → gmap K A) (p : A → bool)
    (lt : A → A → bool) : Stmt (list A) :=
  select (λ d, Ok (order_by lt (List.filter p (rows_of (get d))))).

(** A NUMERIC argument. *)
Definition with_numeric {A} (s : string) (k : string → Stmt A) : Stmt A :=
  match numeric s with
  | Some t => k t
  | None => λ _ _, Err (pq_error "invalid input syntax for type numeric")
  end.

Definition always {A} (_ : A) : bool := true.

(** [COALESCE(NULLIF($n,''), old)]. *)
Definition coalesce (new old : string) : string := if new =s "" then old else new.

(** A filter argument that is absent when empty. *)
Definition sql_matches (f v : string) : bool := (f =s "") || (v =s f).
End statements.

(** ** Transactions *)
Section store.
Context `{PgServer}.

Definition pg_InTx {A} (fn : Pg A) : Pg A := λ w,
  let n := pw_Calls w in
  match pg_fault n with
  | Some fault => (Err (f_Error fault), MkPg (pw_DB w) (pw_Tx w) (S n))
  | None =>
      let tx := MkTx (pw_DB w) (pw_DB w) (pg_clock n) false in
      let '(r, w1) := fn (MkPg (pw_DB w) (Some tx) (S n)) in
      let back w' := MkPg (pw_DB w') (pw_Tx w) (pw_Calls w') in
      match r, pw_Tx w1 with
      | Ok a, Some tx1 =>
          match commit tx1 w1 with
          | (Ok _, w2) => (Ok a, back w2)
          | (Err e, w2) => (Err e, back w2)
          end
      | Err e, _ => (Err e, back (MkPg (pw_DB w1) None (S (pw_Calls w1))))
      | Ok a, None => (Ok a, back w1)
      end
  end.

(** ** Wallets *)
Definition pg_CreateWallet (w : Wallet) : Pg unit :=
  statement (insert_row pg_wallets put_wallets (w_ID w)
    (MkWallet (w_ID w) (w_Chain w) (w_Type w) (w_Label w) (w_State w) (w_KeyID w)
      (w_CustodianRef w) (w_RotationDays w) (w_RotationAfterReceives w)
      (timestamptz (w_CreatedAt w)) (timestamptz (w_UpdatedAt w)))).

Definition pg_GetWallet (id : uuid) : Pg Wallet :=
  query_row (λ d, pg_wallets d !! id).

Definition pg_UpdateWalletState (id : uuid) (state : string) : Pg unit :=
  statement (update_row pg_wallets put_wallets id always (λ now w,
    MkWallet (w_ID w) (w_Chain w) (w_Type w) (w_Label w) state (w_KeyID w)
      (w_CustodianRef w) (w_RotationDays w) (w_RotationAfterReceives w)
      (w_CreatedAt w) now));; mret tt.

Definition pg_ListWallets (chainF typeF stateF : string) : Pg (list Wallet) :=
  statement (select_rows pg_wallets (λ w, sql_matches chainF (w_Chain w) &&
      sql_matches typeF (w_Type w) && sql_matches stateF (w_State w))
    (λ x y, time_Before (w_CreatedAt x) (w_CreatedAt y))).

(** ** Addresses *)
Definition pg_InsertAddress (a : Address) : Pg unit :=
  statement (insert_row pg_addresses put_addresses (a_ID a)
    (MkAddress (a_ID a) (a_WalletID a) (a_Chain a) (a_Address a) (a_DerivationPath a)
      (a_Index a) (a_Change a) (a_State a) (a_ReceiveCount a) (timestamptz (a_CreatedAt a)))).

(** LIMIT 1 of the active rows. *)
Definition pg_GetActiveAddress (walletID : uuid) : Pg Address :=
  query_row (λ d, head (List.filter
    (λ a, bool_decide (a_WalletID a = walletID) && (a_State a =s "ACTIVE"))
    (rows_of (pg_addresses d)))).

Definition pg_GetAddress (id : uuid) : Pg Address :=
  query_row (λ d, pg_addresses d !! id).

Definition pg_ListAddresses (walletID : uuid) : Pg (list Address) :=
  statement (select_rows pg_addresses (λ a, bool_decide (a_WalletID a = walletID))
    (λ x y, (a_Change x <? a_Change y) ||
      ((a_Change x =? a_Change y) && (a_Index x <? a_Index y)))).

Definition set_address (state : string) (count : Z) (a : Address) : Address :=
  MkAddress (a_ID a) (a_WalletID a) (a_Chain a) (a_Address a) (a_DerivationPath a)
    (a_Index a) (a_Change a) state count (a_CreatedAt a).

Definition pg_DeprecateAddress (id : uuid) : Pg unit :=
  statement (update_row pg_addresses put_addresses id always (λ _ a,
    set_address "DEPRECATED" (a_ReceiveCount a) a));; mret tt.

(** [COALESCE(MAX(index), -1) + 1], an INT. *)
Definition sql_max_index (chain : string) (change : Z) (d : PgDB) : Z :=
  foldr (λ a m, Z.max (a_Index a) m) (-1) (List.filter
    (λ a, (a_Chain a =s chain) && (a_Change a =? change)) (rows_of (pg_addresses d))).

Definition pg_NextAddressIndex (chain : string) (change : Z) : Pg Z :=
  statement (select (λ d, let next := sql_max_index chain change d + 1 in
    if int4 change && int4 next then Ok next else Err ErrRange)).

Definition pg_IncrementReceiveCount (id : uuid) : Pg unit :=
  statement (update_row pg_addresses put_addresses id always (λ _ a,
    set_address (a_State a) (a_ReceiveCount a + 1) a));; mret tt.

(** ** Balances *)
Definition pg_UpsertBalance (b : Balance) : Pg unit :=
  statement (with_numeric (b_Confirmed b) (λ confirmed,
    with_numeric (b_Pending b) (λ pending,
    with_numeric (b_Locked b) (λ locked now d,
      Ok (tt, put_balances d (<[(b_WalletID b, b_Asset b) :=
        MkBalance (b_WalletID b) (b_Asset b) confirmed pending locked (b_LastBlockSeen b)
          now]> (pg_balances d))))))).

Definition pg_GetBalance (walletID : uuid) (asset : string) : Pg Balance :=
  query_row (λ d, pg_balances d !! (walletID, asset)).

Definition pg_ListBalances (walletID : uuid) : Pg (list Balance) :=
  statement (select_rows pg_balances (λ b, bool_decide (b_WalletID b = walletID))
    (λ x y, collate_lt (b_Asset x) (b_Asset y))).

Definition same_balance_event (e x : BalanceEvent) : bool :=
  bool_decide (be_WalletID x = be_WalletID e) && (be_Asset x =s be_Asset e) &&
  (be_BlockHeight x =? be_BlockHeight e) && (be_EventID x =s be_EventID e).

(** INSERT ... ON CONFLICT DO NOTHING, then the check for another row. *)
Definition pg_RecordBalanceEvent (e : BalanceEvent) : Pg unit :=
  statement (λ _ d,
    if bool_decide (is_Some (pg_balance_events d !! be_ID e)) ||
       existsb (same_balance_event e) (rows_of (pg_balance_events d))
    then Ok (tt, d)
    else Ok (tt, put_balance_events d (<[be_ID e := e]> (pg_balance_events d))));;
  exists' ← statement (select (λ d, Ok (existsb (λ x, same_balance_event e x &&
    negb (bool_decide (be_ID x = be_ID e))) (rows_of (pg_balance_events d)))));
  if exists' : bool then throw ErrDuplicateEvent else mret tt.

(** ** Outputs *)
Definition pg_InsertUTXO (u : UTXO) : Pg unit :=
  statement (with_numeric (u_Value u) (λ value now,
    insert_row pg_utxos put_utxos (u_Outpoint u)
      (MkUTXO (u_Outpoint u) (u_WalletID u) value (u_ScriptType u) (u_Confirmations u)
        (u_LockState u) (timestamptz <$> u_LockedAt u) (timestamptz <$> u_SpentAt u)
        (u_TxHash u) now) now)).

Definition pg_ListFreeUTXOs (walletID : uuid) : Pg (list UTXO) :=
  statement (select_rows pg_utxos
    (λ u, bool_decide (u_WalletID u = walletID) && (u_LockState u =s "FREE"))
    (λ x y, collate_lt (u_Outpoint x) (u_Outpoint y))).

Definition set_utxo (lock : string) (lockedAt spentAt : option time) (txHash : string)
    (now : time) (u : UTXO) : UTXO :=
  MkUTXO (u_Outpoint u) (u_WalletID u) (u_Value u) (u_ScriptType u) (u_Confirmations u)
    lock lockedAt spentAt txHash now.

Definition sql_lock (now : time) (u : UTXO) : UTXO :=
  set_utxo "LOCKED" (Some now) (u_SpentAt u) (u_TxHash u) now u.

Definition lock_one (op : string) : Pg unit :=
  n ← statement (update_row pg_utxos put_utxos op (λ u, u_LockState u =s "FREE") sql_lock);
  if n =? 0 then throw (ErrNew ("utxo not free: " +:+ op)) else mret tt.

Definition pg_LockUTXOs (outpoints : list string) : Pg unit :=
  match outpoints with
  | [] => mret tt
  | _ => pg_InTx (for_each outpoints lock_one)
  end.

Definition pg_MarkUTXOsSpent (outpoints : list string) (txHash : string) : Pg unit :=
  for_each outpoints (λ op,
    statement (update_row pg_utxos put_utxos op always (λ now u,
      set_utxo "SPENT" (u_LockedAt u) (Some now) txHash now u));; mret tt).

Definition pg_RestoreUTXOs (outpoints : list string) : Pg unit :=
  for_each outpoints (λ op,
    statement (update_row pg_utxos put_utxos op always (λ now u,
      set_utxo "FREE" None None "" now u));; mret tt).

Definition pg_PruneUTXOs (outpoints : list string) : Pg unit :=
  for_each outpoints (λ op,
    statement (λ _ d, Ok (tt, put_utxos d (delete op (pg_utxos d))))).

(** ** Nonces *)
Definition pg_GetNonce (walletID : uuid) (chain : string) : Pg Nonce :=
  r ← attempt (query_row (λ d, pg_nonces d !! (walletID, chain)));
  match r with
  | Ok n => mret n
  | Err e => if bool_decide (e = ErrNoRows) then mret (MkNonce walletID chain 0 0 0 0)
             else throw e
  end.

Definition pg_UpsertNonce (n : Nonce) : Pg unit :=
  statement (λ now d, Ok (tt, put_nonces d (<[(n_WalletID n, n_Chain n) :=
    MkNonce (n_WalletID n) (n_Chain n) (n_PendingNonce n) (n_BroadcastNonce n) (n_Version n)
      now]> (pg_nonces d)))).

(** The function [IncrementPendingNonce] runs in a transaction. *)
Definition next_nonce (walletID : uuid) (chain : string) : Pg (Z * Z) :=
  r ← attempt (query_row (λ d, pg_nonces d !! (walletID, chain)));
  match r with
  | Err e =>
      if bool_decide (e = ErrNoRows) then
        statement (λ now, insert_row pg_nonces put_nonces (walletID, chain)
          (MkNonce walletID chain 1 0 1 now) now);;
        mret (0, 1)
      else throw e
  | Ok n =>
      let val := n_PendingNonce n in
      let ver := int64 (n_Version n + 1) in
      statement (update_row pg_nonces put_nonces (walletID, chain) always (λ now n,
        MkNonce (n_WalletID n) (n_Chain n) (int64 (val + 1)) (n_BroadcastNonce n) ver now));;
      mret (val, ver)
  end.

Definition pg_IncrementPendingNonce (walletID : uuid) (chain : string) : Pg (Z * Z) :=
  pg_InTx (next_nonce walletID chain).

Definition pg_AdvanceBroadcastNonce (walletID : uuid) (chain : string) (nonce : Z) : Pg unit :=
  statement (update_row pg_nonces put_nonces (walletID, chain) always (λ now n,
    MkNonce (n_WalletID n) (n_Chain n) (n_PendingNonce n)
      (Z.max (n_BroadcastNonce n) (int64 (nonce + 1))) (n_Version n) now));; mret tt.

Definition pg_RollbackPendingNonce (walletID : uuid) (chain : string) (to : Z) : Pg Z :=
  statement (λ now d,
    if bool_decide (in_int64 (to + 1)) then
      update_row pg_nonces put_nonces (walletID, chain) (λ n, n_PendingNonce n =? to + 1)
        (λ now n, MkNonce (n_WalletID n) (n_Chain n) to (n_BroadcastNonce n) (n_Version n) now)
        now d
    else Err ErrRange).

(** ** Withdrawals *)

(** [pq.Array]: a [nil] slice is NULL. *)
Definition pg_CreateWithdrawal (w : WithdrawalRequest) (reserved : option (list string)) :
    Pg unit :=
  statement (with_numeric (wr_Amount w) (λ amount now d,
    match reserved with
    | None => Err ErrNotNull
    | Some ops => insert_row pg_withdrawals put_withdrawals (wr_ID w)
        (MkWithdrawal (wr_ID w) (wr_WalletID w) (wr_ToAddress w) (wr_Asset w) amount
          (wr_State w) (wr_PolicyDecisionID w) (wr_FailureReason w) (wr_TxHash w)
          (wr_NonceValue w) ops (wr_SignedTxBytes w) (timestamptz (wr_CreatedAt w))
          (timestamptz (wr_UpdatedAt w))) now d
    end)).

Definition pg_GetWithdrawal (id : uuid) : Pg WithdrawalRequest :=
  query_row (λ d, pg_withdrawals d !! id).

Definition pg_ListWithdrawals (walletID : uuid) (stateF : string) :
    Pg (list WithdrawalRequest) :=
  statement (select_rows pg_withdrawals
    (λ w, (bool_decide (walletID = uuid_Nil) || bool_decide (wr_WalletID w = walletID)) &&
      sql_matches stateF (wr_State w))
    (λ x y, time_Before (wr_CreatedAt x) (wr_CreatedAt y))).

Definition update_withdrawal (id : uuid) (f : WithdrawalRequest → WithdrawalRequest) : Pg unit :=
  statement (update_row pg_withdrawals put_withdrawals id always (λ now w,
    let w' := f w in
    MkWithdrawal (wr_ID w') (wr_WalletID w') (wr_ToAddress w') (wr_Asset w') (wr_Amount w')
      (wr_State w') (wr_PolicyDecisionID w') (wr_FailureReason w') (wr_TxHash w')
      (wr_NonceValue w') (wr_ReservedOutpoints w') (wr_SignedTxBytes w') (wr_CreatedAt w')
      now));; mret tt.

Definition pg_UpdateWithdrawalState (id : uuid) (state reason txHash policyDecisionID : string) :
    Pg unit :=
  update_withdrawal id (λ w, MkWithdrawal (wr_ID w) (wr_WalletID w) (wr_ToAddress w)
    (wr_Asset w) (wr_Amount w) state (coalesce policyDecisionID (wr_PolicyDecisionID w))
    (coalesce reason (wr_FailureReason w)) (coalesce txHash (wr_TxHash w)) (wr_NonceValue w)
    (wr_ReservedOutpoints w) (wr_SignedTxBytes w) (wr_CreatedAt w) (wr_UpdatedAt w)).

Definition set_withdrawal_tx (n : option Z) (ops : list string) (tx : list byte)
    (w : WithdrawalRequest) : WithdrawalRequest :=
  MkWithdrawal (wr_ID w) (wr_WalletID w) (wr_ToAddress w) (wr_Asset w) (wr_Amount w)
    (wr_State w) (wr_PolicyDecisionID w) (wr_FailureReason w) (wr_TxHash w) n ops tx
    (wr_CreatedAt w) (wr_UpdatedAt w).

Definition pg_UpdateWithdrawalNonce (id : uuid) (nonce : Z) : Pg unit :=
  update_withdrawal id (λ w,
    set_withdrawal_tx (Some nonce) (wr_ReservedOutpoints w) (wr_SignedTxBytes w) w).

(** The array is NOT NULL, so a [nil] slice fails where there is a row. *)
Definition pg_UpdateWithdrawalOutpoints (id : uuid) (outpoints : option (list string)) :
    Pg unit :=
  match outpoints with
  | Some ops => update_withdrawal id (λ w,
      set_withdrawal_tx (wr_NonceValue w) ops (wr_SignedTxBytes w) w)
  | None => statement (λ _ d,
      match pg_withdrawals d !! id with Some _ => Err ErrNotNull | None => Ok (tt, d) end)
  end.

Definition pg_UpdateWithdrawalSignedTx (id : uuid) (txBytes : list byte) : Pg unit :=
  update_withdrawal id (λ w,
    set_withdrawal_tx (wr_NonceValue w) (wr_ReservedOutpoints w) txBytes w).

(** ** Key mappings *)
Definition pg_BindKeyMapping (m : KeyMapping) : Pg unit :=
  statement (insert_row pg_key_mappings put_key_mappings (km_WalletID m, km_KeyID m)
    (MkKeyMapping (km_WalletID m) (km_KeyID m) (timestamptz (km_ActiveFrom m))
      (timestamptz <$> km_ActiveTo m) (km_RotationState m) (timestamptz (km_CreatedAt m)))).

Definition pg_ResolveActiveKey (walletID : uuid) : Pg (list KeyMapping) :=
  out ← statement (select_rows pg_key_mappings
    (λ m, bool_decide (km_WalletID m = walletID) &&
      one_of ["CURRENT"; "COOLING"] (km_RotationState m))
    (λ x y, time_Before (km_ActiveFrom x) (km_ActiveFrom y)));
  match out with
  | [] => throw ErrNoRows
  | _ => mret out
  end.

Definition set_mapping (from : time) (to : option time) (state : string) (m : KeyMapping) :
    KeyMapping :=
  MkKeyMapping (km_WalletID m) (km_KeyID m) from to state (km_CreatedAt m).

Definition pg_RotateKeyMapping (walletID : uuid) (newKeyID : string) (cooling : duration) :
    Pg unit :=
  t ← pg_time_Now;
  let activeTo := time_Add t cooling in
  pg_InTx (
    statement (update_rows pg_key_mappings put_key_mappings
      (λ _ m, bool_decide (km_WalletID m = walletID) && (km_RotationState m =s "CURRENT"))
      (λ _ m, set_mapping (km_ActiveFrom m) (Some (timestamptz activeTo)) "COOLING" m));;
    statement (λ now d, Ok (tt, put_key_mappings d (<[(walletID, newKeyID) :=
      match pg_key_mappings d !! (walletID, newKeyID) with
      | Some m => set_mapping now None "CURRENT" m
      | None => MkKeyMapping walletID newKeyID now None "CURRENT" now
      end]> (pg_key_mappings d))))).

Definition pg_ExpireCooling : Pg unit :=
  statement (update_rows pg_key_mappings put_key_mappings
    (λ now m, (km_RotationState m =s "COOLING") &&
      match km_ActiveTo m with Some t => time_Before t now | None => false end)
    (λ _ m, set_mapping (km_ActiveFrom m) (km_ActiveTo m) "RETIRED" m)).

(** ** Funding requests *)
Definition pg_CreateFundingRequest (f : FundingRequest) : Pg unit :=
  statement (with_numeric (fr_Amount f) (λ amount,
    insert_row pg_funding put_funding (fr_ID f)
      (MkFunding (fr_ID f) (fr_WalletID f) (fr_Asset f) amount (fr_State f)
        (fr_TreasuryBatchID f) (fr_Reason f) (timestamptz (fr_CreatedAt f))
        (timestamptz (fr_UpdatedAt f))))).

Definition pg_GetOpenFundingRequest (walletID : uuid) (asset : string) : Pg FundingRequest :=
  query_row (λ d, head (List.filter
    (λ f, bool_decide (fr_WalletID f = walletID) && (fr_Asset f =s asset) &&
      (fr_State f =s "REQUESTED")) (rows_of (pg_funding d)))).

Definition pg_ListFundingRequests (walletID : uuid) (stateF : string) :
    Pg (list FundingRequest) :=
  statement (select_rows pg_funding
    (λ f, (bool_decide (walletID = uuid_Nil) || bool_decide (fr_WalletID f = walletID)) &&
      sql_matches stateF (fr_State f))
    (λ x y, time_Before (fr_CreatedAt x) (fr_CreatedAt y))).

Definition pg_UpdateFundingState (id : uuid) (state treasuryBatchID : string) : Pg unit :=
  statement (update_row pg_funding put_funding id always (λ now f,
    MkFunding (fr_ID f) (fr_WalletID f) (fr_Asset f) (fr_Amount f) state
      (coalesce treasuryBatchID (fr_TreasuryBatchID f)) (fr_Reason f) (fr_CreatedAt f)
      now));; mret tt.

(** ** The audit outbox *)
Definition pg_AppendAuditEvent (e : AuditOutboxEvent) : Pg unit :=
  statement (insert_row pg_audit put_audit (ae_ID e)
    (MkAudit (ae_ID e) (ae_EventID e) (ae_WalletID e) (ae_EventType e) (ae_Payload e)
      (ae_Seq e) false 0 (timestamptz (ae_CreatedAt e)) None)).

Definition pg_ListUndeliveredAuditEvents (limit : Z) : Pg (list AuditOutboxEvent) :=
  statement (select (λ d,
    if limit <? 0 then Err (pq_error "LIMIT must not be negative")
    else Ok (take (Z.to_nat limit) (order_by (λ x y, ae_Seq x <? ae_Seq y)
      (List.filter (λ e, negb (ae_Delivered e)) (rows_of (pg_audit d))))))).

Definition pg_MarkAuditDelivered (id : uuid) : Pg unit :=
  statement (update_row pg_audit put_audit id always (λ now e,
    MkAudit (ae_ID e) (ae_EventID e) (ae_WalletID e) (ae_EventType e) (ae_Payload e)
      (ae_Seq e) true (ae_Attempts e + 1) (ae_CreatedAt e) (Some now)));; mret tt.

(** INSERT ... ON CONFLICT DO UPDATE ... RETURNING seq. *)
Definition pg_NextAuditSeq (walletID : uuid) : Pg Z :=
  statement (λ _ d,
    let seq := match pg_audit_seq d !! walletID with Some s => s + 1 | None => 1 end in
    if bool_decide (in_int64 seq) then
      Ok (seq, put_audit_seq d (<[walletID := seq]> (pg_audit_seq d)))
    else Err ErrRange).
End store.
