(* ===== verification/PostgresFacts.v ===== *)
(** * PostgresFacts: transactions and constraints of the Postgres store

    Statements and transactions leave a database in which the constraints of the schema
    hold, whatever faults the server has; a transaction happens as a whole or not at
    all. *)
From stdpp Require Import base tactics numbers gmap strings pretty list.
From Stdlib Require Import ZArith Lia Sorted.
From S2P Require Import Prelude.
From S2P Require Import GoLang.
From S2P Require Import Domain.
From S2P Require Import PgEngine.
From S2P Require Import Postgres.

#[local] Open Scope string_scope.
#[local] Open Scope list_scope.
#[local] Open Scope Z_scope.

(** ** The schema holds *)
Definition pg_ok (w : PgWorld) : Prop :=
  valid (pw_DB w) = true ∧ ∀ tx, pw_Tx w = Some tx → valid (tx_Work tx) = true.

Definition keeps_schema : relation PgWorld := λ w w', pg_ok w → pg_ok w'.

#[export] Instance keeps_schema_preorder : PreOrder keeps_schema.
Proof. split; unfold keeps_schema; auto. Qed.

Section schema.
Context `{PgServer}.

Lemma checked_valid {A} (f : Stmt A) now d a d' :
  checked f now d = Ok (a, d') → valid d' = true.
Proof.
  unfold checked. destruct (f now d) as [[a1 d1]|]; [|done].
  destruct (valid d1) eqn:Hv; [|done]. by intros [= <- <-].
Qed.

Lemma within_statement {A} (f : Stmt A) : within keeps_schema (statement f).
Proof.
  intros w [Hd Ht]. unfold statement.
  destruct (pw_Tx w) as [tx|] eqn:Htx.
  - specialize (Ht tx eq_refl). destruct (tx_Failed tx); [split; simpl; [done|by intros ? [= <-]]|].
    destruct (pg_fault _); [split; simpl; [done|by intros ? [= <-]]|].
    destruct (checked f _ _) as [[a d']|e] eqn:Hc; (split; simpl; [done|]); intros ? [= <-]; simpl;
      [by eapply checked_valid|done].
  - destruct (checked f _ _) as [[a d']|e] eqn:Hc;
      [apply checked_valid in Hc|]; destruct (pg_fault _) as [[e' []]|]; split; simpl; done.
Qed.

Lemma within_pg_InTx {A} (fn : Pg A) : within keeps_schema fn → within keeps_schema (pg_InTx fn).
Proof.
  intros Hfn w [Hd Ht]. unfold pg_InTx. destruct (pg_fault _); [by split|].
  specialize (Hfn (MkPg (pw_DB w)
    (Some (MkTx (pw_DB w) (pw_DB w) (pg_clock (pw_Calls w)) false)) (S (pw_Calls w)))).
  destruct (fn _) as [r w1]. simpl in Hfn.
  assert (pg_ok w1) as [Hd1 Ht1] by (apply Hfn; split; [done|by intros ? [= <-]]).
  destruct r as [a|e]; [|by split]. destruct (pw_Tx w1) as [tx1|]; [|by split].
  specialize (Ht1 tx1 eq_refl). unfold commit. destruct (tx_Failed tx1); [by split|].
  destruct (pg_commit _ _ _ _) as [d'|] eqn:Hc; [apply pg_commit_valid in Hc; [|done..]|];
    destruct (pg_fault _) as [[e' []]|]; by split.
Qed.

Lemma within_pg_time_Now : within keeps_schema pg_time_Now.
Proof. intros w Hw. exact Hw. Qed.
End schema.

#[export] Hint Resolve within_statement within_pg_InTx within_pg_time_Now : within.

(** ** What the constraints say *)
Lemma omap_NoDup_inj {A B} (f : A → option B) l i j x y b :
  NoDup (omap f l) → l !! i = Some x → l !! j = Some y → f x = Some b → f y = Some b → i = j.
Proof.
  revert i j. induction l as [|z l IH]; intros i j Hnd Hi Hj Hx Hy; [done|].
  assert (∀ n u, l !! n = Some u → f u = Some b → b ∈ omap f l) as Hin.
  { intros n u Hu Hfu. apply list_elem_of_omap. exists u. split; [|done].
    by eapply list_elem_of_lookup_2. }
  destruct i as [|i], j as [|j]; simplify_eq/=; [done|..].
  - rewrite Hx in Hnd. apply NoDup_cons in Hnd as [Hn _]. exfalso. eauto.
  - rewrite Hy in Hnd. apply NoDup_cons in Hnd as [Hn _]. exfalso. eauto.
  - f_equal. apply IH; [|done..]. destruct (f z); [by apply NoDup_cons in Hnd as [_ ?]|done].
Qed.

Lemma unique_spec {K A B} `{Countable K, EqDecision B} (key : A → option B) (m : gmap K A)
    k1 k2 r1 r2 b :
  unique key m = true → m !! k1 = Some r1 → m !! k2 = Some r2 →
  key r1 = Some b → key r2 = Some b → k1 = k2.
Proof.
  unfold unique. intros Hu%bool_decide_eq_true H1 H2 Hb1 Hb2.
  apply elem_of_map_to_list, list_elem_of_lookup in H1 as [i Hi].
  apply elem_of_map_to_list, list_elem_of_lookup in H2 as [j Hj].
  assert (i = j) as ->; [|congruence]. unfold rows_of in Hu.
  eapply omap_NoDup_inj; [exact Hu|..|exact Hb1|exact Hb2]; by rewrite list_lookup_fmap, ?Hi, ?Hj.
Qed.

Lemma rows_of_elem {K A} `{Countable K} (m : gmap K A) r :
  r ∈ rows_of m ↔ ∃ k, m !! k = Some r.
Proof.
  unfold rows_of. rewrite list_elem_of_fmap. split.
  - intros ([k r'] & -> & Hin). exists k. by apply elem_of_map_to_list in Hin.
  - intros [k Hk]. exists (k, r). split; [done|]. by apply elem_of_map_to_list.
Qed.

Lemma references_spec {K A} `{Countable K} d (wid : A → uuid) (m : gmap K A) k r :
  references d wid m = true → m !! k = Some r → is_Some (pg_wallets d !! wid r).
Proof.
  unfold references. rewrite forallb_forall. intros Hr Hk.
  apply (bool_decide_unpack _), Is_true_true, Hr, list_elem_of_In, rows_of_elem. by exists k.
Qed.

(** ** Transactions *)

(** Inside a transaction a method touches the working copy only. *)
Definition tx_local {A} (m : Pg A) : Prop := ∀ w tx, pw_Tx w = Some tx →
  pw_DB (m w).2 = pw_DB w ∧ ∃ tx', pw_Tx (m w).2 = Some tx' ∧
    tx_Start tx' = tx_Start tx ∧ tx_Now tx' = tx_Now tx.

Section local.
Context `{PgServer}.

Lemma tx_local_statement {A} (f : Stmt A) : tx_local (statement f).
Proof.
  intros w tx Htx. unfold statement. rewrite Htx.
  destruct (tx_Failed tx); [split; [done|by eexists]|].
  destruct (pg_fault _); [split; [done|by eexists]|].
  destruct (checked f _ _) as [[]|]; (split; [done|by eexists]).
Qed.

Lemma tx_local_ret {A} (a : A) : tx_local (mret a).
Proof. intros w tx Htx. split; [done|by exists tx]. Qed.

Lemma tx_local_throw {A} e : tx_local (throw (A := A) e).
Proof. intros w tx Htx. split; [done|by exists tx]. Qed.

Lemma tx_local_attempt {A} (m : Pg A) : tx_local m → tx_local (attempt m).
Proof. intros Hm w tx Htx. specialize (Hm w tx Htx). unfold attempt. by destruct (m w). Qed.

Lemma tx_local_bind {A B} (m : Pg A) (f : A → Pg B) :
  tx_local m → (∀ a, tx_local (f a)) → tx_local (m ≫= f).
Proof.
  intros Hm Hf w tx Htx. destruct (Hm w tx Htx) as (Hd & tx1 & Htx1 & Hs1 & Hn1).
  unfold mbind, GoM_bind. destruct (m w) as [[a|e] w1]; simpl in *; [|by split; [|exists tx1]].
  destruct (Hf a w1 tx1 Htx1) as (Hd2 & tx2 & Htx2 & Hs2 & Hn2).
  split; [congruence|]. exists tx2. split_and!; congruence.
Qed.

Lemma tx_local_for_each {A} (l : list A) body :
  (∀ x, tx_local (body x)) → tx_local (for_each l body).
Proof.
  intros Hb. induction l as [|x l IH]; simpl; [apply tx_local_ret|].
  by apply tx_local_bind; [|intros []].
Qed.

(** The world a transaction's body starts in. *)
Definition begun (w : PgWorld) : PgWorld :=
  MkPg (pw_DB w) (Some (MkTx (pw_DB w) (pw_DB w) (pg_clock (pw_Calls w)) false))
    (S (pw_Calls w)).

(** A transaction is there as a whole or not at all: when the committed database
    differs afterwards, the body succeeded and its working copy is what is there;
    when [InTx] reports success that is so. *)
Lemma pg_InTx_cases {A} (fn : Pg A) w :
  tx_local fn →
  let '(r, w') := pg_InTx fn w in
  pw_Tx w' = pw_Tx w ∧
  ((pw_DB w' = pw_DB w ∧ is_ok r = false) ∨
   ∃ a w1 tx1, fn (begun w) = (Ok a, w1) ∧ pw_Tx w1 = Some tx1 ∧ tx_Failed tx1 = false ∧
     pw_DB w' = tx_Work tx1 ∧ (∀ b, r = Ok b → b = a)).
Proof.
  intros Hfn. unfold pg_InTx. destruct (pg_fault (pw_Calls w)); [split; [done|by left]|].
  fold (begun w). destruct (Hfn (begun w) _ eq_refl) as (Hd & tx1 & Htx1 & Hs1 & _).
  destruct (fn (begun w)) as [[a|e] w1]; simpl in *; [|split; [done|by left]].
  rewrite Htx1. unfold commit. rewrite Hs1, Hd.
  destruct (tx_Failed tx1) eqn:Hf; simpl; [split; [done|by left]|].
  destruct (pg_commit _ _ _ _) as [d'|] eqn:Hc.
  - apply pg_commit_alone in Hc. subst d'.
    destruct (pg_fault _) as [[e' []]|]; simpl; (split; [done|]); [right|by left|right];
      exists a, w1, tx1; split_and!; try done; congruence.
  - destruct (pg_fault _); simpl; (split; [done|by left]).
Qed.
End local.

#[export] Hint Resolve tx_local_statement tx_local_ret tx_local_throw tx_local_attempt
  tx_local_bind tx_local_for_each : within.
