(* ===== verification/PostgresProps.v ===== *)
(** * PostgresProps: what the Postgres store guarantees under faults

    Outputs are locked and nonces are reserved as a whole or not at all, whatever fails
    on the way and also when the answer to a commit is lost. *)
From stdpp Require Import base tactics numbers gmap strings pretty list.
From Stdlib Require Import ZArith Lia Sorted.
From S2P Require Import Prelude.
From S2P Require Import GoLang.
From S2P Require Import Domain.
From S2P Require Import PgEngine.
From S2P Require Import PgReference.
From S2P Require Import Postgres.
From S2P Require Import PostgresFacts.

#[local] Open Scope string_scope.
#[local] Open Scope list_scope.
#[local] Open Scope Z_scope.

(** A fresh database. *)
Definition pg_start : PgWorld := MkPg empty_db None 0.

(** ** Locking outputs *)

(** The table with the given outputs locked. *)
Definition lock_in (now : time) (ops : list string) (m : gmap string UTXO) : gmap string UTXO :=
  map_imap (λ op u, Some (if bool_decide (op ∈ ops) then sql_lock now u else u)) m.

Definition is_free (d : PgDB) (op : string) : Prop :=
  ∃ u, pg_utxos d !! op = Some u ∧ u_LockState u = "FREE".

Lemma lock_in_nil now m : lock_in now [] m = m.
Proof.
  apply map_eq. intros op. unfold lock_in. rewrite map_lookup_imap.
  by destruct (m !! op).
Qed.

Lemma lock_in_cons now op ops m u :
  m !! op = Some u → op ∉ ops →
  lock_in now ops (<[op := sql_lock now u]> m) = lock_in now (op :: ops) m.
Proof.
  intros Hu Hn. apply map_eq. intros k. unfold lock_in. rewrite !map_lookup_imap.
  destruct (decide (k = op)) as [->|Hne].
  - rewrite lookup_insert_eq, Hu. simpl. rewrite bool_decide_false by done.
    by rewrite bool_decide_true by set_solver.
  - rewrite lookup_insert_ne by done. destruct (m !! k); simpl; [|done]. do 2 f_equal.
    rewrite (bool_decide_ext (k ∈ op :: ops) (k ∈ ops)) by set_solver. done.
Qed.

Section locking.
Context `{PgServer}.

(** A statement that succeeds inside a transaction. *)
Lemma statement_tx_inv {A} (f : Stmt A) w tx a w' :
  pw_Tx w = Some tx → statement f w = (Ok a, w') →
  tx_Failed tx = false ∧ ∃ d', f (tx_Now tx) (tx_Work tx) = Ok (a, d') ∧
    pw_Tx w' = Some (MkTx (tx_Start tx) d' (tx_Now tx) false).
Proof.
  intros Htx. unfold statement. rewrite Htx. destruct (tx_Failed tx); [done|].
  destruct (pg_fault _); [done|]. unfold checked.
  destruct (f _ _) as [[a0 d']|]; [|done]. destruct (valid d'); [|done].
  intros [= <- <-]. split; [done|]. by exists d'.
Qed.

Lemma lock_one_tx op w tx w' :
  pw_Tx w = Some tx → lock_one op w = (Ok tt, w') →
  tx_Failed tx = false ∧ ∃ u, pg_utxos (tx_Work tx) !! op = Some u ∧ u_LockState u = "FREE" ∧
    pw_Tx w' = Some (MkTx (tx_Start tx) (put_utxos (tx_Work tx)
      (<[op := sql_lock (tx_Now tx) u]> (pg_utxos (tx_Work tx)))) (tx_Now tx) false).
Proof.
  intros Htx. unfold lock_one, mbind, GoM_bind.
  destruct (statement _ w) as [[n|] w1] eqn:Hs; [|done]. intros Hn.
  destruct (statement_tx_inv _ _ _ _ _ Htx Hs) as (Hok & d' & Hrow & Htx1).
  split; [done|]. unfold update_row in Hrow.
  destruct (pg_utxos (tx_Work tx) !! op) as [u|] eqn:Hu; [|by injection Hrow as <- <-].
  destruct (u_LockState u =s "FREE") eqn:Hf; [|by injection Hrow as <- <-].
  injection Hrow as <- <-. injection Hn as <-. apply bool_decide_eq_true in Hf.
  by exists u.
Qed.

Lemma lock_all_tx ops w tx w' :
  pw_Tx w = Some tx → tx_Failed tx = false → for_each ops lock_one w = (Ok tt, w') →
  NoDup ops ∧ Forall (is_free (tx_Work tx)) ops ∧
  pw_Tx w' = Some (MkTx (tx_Start tx) (put_utxos (tx_Work tx)
    (lock_in (tx_Now tx) ops (pg_utxos (tx_Work tx)))) (tx_Now tx) false).
Proof.
  revert w tx. induction ops as [|op ops IH]; intros w tx Htx Hf; simpl.
  { intros [= <-]. rewrite lock_in_nil. split_and!; [constructor|constructor|].
    rewrite Htx. destruct tx as [s d n f]. simpl in *. subst f. by destruct d. }
  unfold mbind, GoM_bind. destruct (lock_one op w) as [[[]|e] w1] eqn:Hone; [|done].
  destruct (lock_one_tx op w tx w1 Htx Hone) as (_ & u & Hu & Hfree & Htx1). intros Hrest.
  destruct (IH w1 _ Htx1 eq_refl Hrest) as (Hnd & Hall & Htx'). simpl in *.
  assert (op ∉ ops) as Hnin.
  { intros Hin. rewrite Forall_forall in Hall. destruct (Hall op Hin) as (u' & Hu' & Hl).
    simpl in Hu'. rewrite lookup_insert_eq in Hu'. by injection Hu' as <-. }
  split_and!.
  - by constructor.
  - constructor; [by exists u|]. apply Forall_forall. intros op' Hin.
    rewrite Forall_forall in Hall. destruct (Hall op' Hin) as (u' & Hu' & Hl).
    exists u'. simpl in Hu'. rewrite lookup_insert_ne in Hu' by (intros ->; done). done.
  - rewrite Htx'. by rewrite (lock_in_cons _ _ _ _ u).
Qed.

Lemma lock_one_local op : tx_local (lock_one op).
Proof.
  unfold lock_one. apply tx_local_bind; [apply tx_local_statement|]. intros n.
  destruct (n =? 0); [apply tx_local_throw|apply tx_local_ret].
Qed.

(** C11. Outputs are locked all together or not at all.  When [LockUTXOs] succeeds, the
    outputs were distinct and all free, and they and no others are now locked, by
    this transaction; when it fails the table is as it was, unless the server
    carried out the commit and only its answer was lost, and then all of them are
    locked.  So a failed selection never keeps a part of its outputs. *)
Theorem pg_LockUTXOs_all_or_nothing ops w :
  ops ≠ [] →
  let '(r, w') := pg_LockUTXOs ops w in
  let locked := put_utxos (pw_DB w)
    (lock_in (pg_clock (pw_Calls w)) ops (pg_utxos (pw_DB w))) in
  (is_ok r = false ∧ pw_DB w' = pw_DB w) ∨
  (NoDup ops ∧ Forall (is_free (pw_DB w)) ops ∧ pw_DB w' = locked).
Proof.
  intros Hne. unfold pg_LockUTXOs. destruct ops as [|op ops]; [done|].
  pose proof (pg_InTx_cases (for_each (op :: ops) lock_one) w
    (tx_local_for_each _ _ lock_one_local)) as Hc.
  destruct (pg_InTx _ w) as [r w']. destruct Hc as [_ [[Hd Hr]|Hok]]; [by left|].
  destruct Hok as ([] & w1 & tx1 & Hfn & Htx1 & _ & Hd & _). right.
  destruct (lock_all_tx (op :: ops) (begun w) _ w1 eq_refl eq_refl Hfn) as (Hnd & Hall & Htx').
  rewrite Htx' in Htx1. injection Htx1 as <-. by split_and!.
Qed.
End locking.

(** ** Reserving nonces *)
Section nonces.
Context `{PgServer}.

(** The counters of a wallet and chain; one that has no row stands at zero. *)
Definition pg_counters (d : PgDB) (k : uuid * string) : Z * Z :=
  match pg_nonces d !! k with Some n => (n_PendingNonce n, n_BroadcastNonce n) | None => (0, 0) end.

Lemma next_nonce_local wid chain : tx_local (next_nonce wid chain).
Proof.
  unfold next_nonce, query_row.
  repeat first [apply tx_local_statement | apply tx_local_ret | apply tx_local_throw
    | apply tx_local_attempt | apply tx_local_bind; [|intros ?] | case_match].
Qed.

(** What the query of the transaction answered. *)
Lemma query_row_tx {A} (f : PgDB → option A) w tx r w' :
  pw_Tx w = Some tx → attempt (query_row f) w = (Ok r, w') →
  ∃ tx', pw_Tx w' = Some tx' ∧
    (tx_Failed tx' = true ∨
     tx' = MkTx (tx_Start tx) (tx_Work tx) (tx_Now tx) false ∧
     r = match f (tx_Work tx) with Some a => Ok a | None => Err ErrNoRows end).
Proof.
  intros Htx. unfold attempt, query_row, mbind, GoM_bind, statement, checked, select.
  rewrite Htx. destruct (tx_Failed tx).
  { intros [= _ <-]. eexists. split; [done|by left]. }
  destruct (pg_fault _).
  { intros [= _ <-]. eexists. split; [done|by left]. }
  destruct (valid (tx_Work tx)).
  - destruct (f (tx_Work tx)); intros [= <- <-]; (eexists; split; [done|by right]).
  - intros [= _ <-]. eexists. split; [done|by left].
Qed.

Lemma next_nonce_tx wid chain w tx v ver w' :
  pw_Tx w = Some tx → next_nonce wid chain w = (Ok (v, ver), w') →
  v = (pg_counters (tx_Work tx) (wid, chain)).1 ∧ ∃ row,
    pw_Tx w' = Some (MkTx (tx_Start tx) (put_nonces (tx_Work tx)
      (<[(wid, chain) := row]> (pg_nonces (tx_Work tx)))) (tx_Now tx) false) ∧
    n_PendingNonce row = int64 (v + 1) ∧
    n_BroadcastNonce row = (pg_counters (tx_Work tx) (wid, chain)).2.
Proof.
  intros Htx. unfold next_nonce. unfold mbind at 1, GoM_bind at 1.
  destruct (attempt _ w) as [[r|e] w1] eqn:Hq; [|done].
  destruct (query_row_tx _ _ _ _ _ Htx Hq) as (tx1 & Htx1 & Hcase).
  destruct Hcase as [Hf|[-> Hr]].
  - destruct r as [n|e]; [|case_bool_decide; [|done]]; unfold mbind, GoM_bind;
      destruct (statement _ w1) as [[?|?] w2] eqn:Hs; try done;
      destruct (statement_tx_inv _ _ _ _ _ Htx1 Hs) as [Hok _]; congruence.
  - unfold pg_counters. destruct (pg_nonces (tx_Work tx) !! (wid, chain)) as [n|] eqn:Hn;
      subst r; [|rewrite bool_decide_true by done]; unfold mbind, GoM_bind;
      destruct (statement _ w1) as [[?|?] w2] eqn:Hs; try done; intros [= <- <- <-];
      destruct (statement_tx_inv _ _ _ _ _ Htx1 Hs) as (_ & d' & Hrow & Htx2);
      unfold update_row, insert_row in Hrow; simpl in Hrow; rewrite Hn in Hrow; simpl in Hrow;
      simplify_eq; (split; [done|]); eexists; by split.
Qed.

End nonces.

(** ** Witnesses *)
Section witnesses.
#[local] Existing Instance ref_pg.

Definition pg_wallet : Wallet := MkWallet (uuid_of_Z 1) ChainBitcoin WalletTypeHot "hot"
  WalletStateActive "k" "mpc" None None 1 1.

Definition pg_utxo (op : string) : UTXO :=
  MkUTXO op (uuid_of_Z 1) "5" "P2WPKH" 6 "FREE" None None "" 0.

Definition pg_setup : Pg unit :=
  pg_CreateWallet pg_wallet;; (pg_InsertUTXO (pg_utxo "a:0");; pg_InsertUTXO (pg_utxo "b:1")).

Definition pg_funded : PgWorld := (pg_setup pg_start).2.

Lemma pg_LockUTXOs_all_or_nothing_witness :
  let '(r, w') := pg_LockUTXOs ["a:0"; "b:1"] pg_funded in
  let locked := put_utxos (pw_DB pg_funded)
    (lock_in (pg_clock (pw_Calls pg_funded)) ["a:0"; "b:1"] (pg_utxos (pw_DB pg_funded))) in
  (is_ok r = false ∧ pw_DB w' = pw_DB pg_funded) ∨
  (NoDup ["a:0"; "b:1"] ∧ Forall (is_free (pw_DB pg_funded)) ["a:0"; "b:1"] ∧
   pw_DB w' = locked).
Proof. apply (pg_LockUTXOs_all_or_nothing ["a:0"; "b:1"] pg_funded). discriminate. Defined.

(** The outputs are there and free, and the call locks them. *)
Lemma pg_LockUTXOs_runs : (pg_LockUTXOs ["a:0"; "b:1"] pg_funded).1 = Ok tt.
Proof. vm_compute. reflexivity. Qed.

(** Two reservations of a wallet that exists, and one of a wallet that does not. *)
Lemma pg_nonces_run :
  (pg_IncrementPendingNonce (uuid_of_Z 1) "ethereum" pg_funded).1 = Ok (0, 1) ∧
  (pg_IncrementPendingNonce (uuid_of_Z 1) "ethereum"
    (pg_IncrementPendingNonce (uuid_of_Z 1) "ethereum" pg_funded).2).1 = Ok (1, 2) ∧
  is_ok (pg_IncrementPendingNonce (uuid_of_Z 7) "ethereum" pg_funded).1 = false.
Proof. split_and!; vm_compute; reflexivity. Qed.
End witnesses.
