(* ===== verification/PostgresRuns.v ===== *)
(** * PostgresRuns: calls on a server that does not fail

    What a statement, a query and a transaction come to when the server has no faults
    and no other clients, and how the constraints of a table fare under the insertion and
    the update of a row.  The theorems on services and the refinements compute with
    these. *)
From stdpp Require Import base tactics numbers gmap strings pretty list.
From Stdlib Require Import ZArith Lia.
From S2P Require Import Prelude.
From S2P Require Import GoLang.
From S2P Require Import Domain.
From S2P Require Import PgEngine.
From S2P Require Import PgReference.
From S2P Require Import Postgres.
From S2P Require Import PostgresFacts.

#[local] Open Scope list_scope.
#[local] Open Scope Z_scope.

(** ** Constraints under updates *)
Lemma rows_of_insert {K A} `{Countable K} (m : gmap K A) k r :
  m !! k = None → rows_of (<[k := r]> m) ≡ₚ r :: rows_of m.
Proof. intros Hk. unfold rows_of. by rewrite map_to_list_insert. Qed.

Lemma unique_insert {K A B} `{Countable K, EqDecision B} (key : A → option B) (m : gmap K A) k r :
  m !! k = None → unique key m = true →
  (∀ b, key r = Some b → ∀ r', r' ∈ rows_of m → key r' ≠ Some b) →
  unique key (<[k := r]> m) = true.
Proof.
  unfold unique. rewrite !bool_decide_eq_true. intros Hk Hnd Hfresh.
  rewrite (rows_of_insert m k r Hk). simpl. destruct (key r) as [b|] eqn:Hb; [|done].
  constructor; [|done]. rewrite list_elem_of_omap. intros (r' & Hin & Hr'). by eapply Hfresh.
Qed.

(** A row replaced by one with the same key. *)
Lemma unique_update {K A B} `{Countable K, EqDecision B} (key : A → option B) (m : gmap K A)
    k r r' :
  m !! k = Some r → key r' = key r → unique key m = true → unique key (<[k := r']> m) = true.
Proof.
  intros Hk Hr. rewrite <-(insert_delete_id m k r Hk) at 1. rewrite <-(insert_delete_eq m k r').
  assert (delete k m !! k = None) as Hd by apply lookup_delete_eq.
  unfold unique. rewrite !bool_decide_eq_true.
  rewrite !(rows_of_insert (delete k m)) by done. simpl. by rewrite Hr.
Qed.

Lemma all_rows_insert {K A} `{Countable K} (p : A → bool) (m : gmap K A) k r :
  all_rows p m = true → p r = true → all_rows p (<[k := r]> m) = true.
Proof.
  unfold all_rows. rewrite !forallb_forall. intros Hall Hr x Hx.
  apply list_elem_of_In, rows_of_elem in Hx as [k' Hk'].
  apply lookup_insert_Some in Hk' as [[_ <-]|[_ Hk']]; [done|].
  apply Hall, list_elem_of_In, rows_of_elem. by exists k'.
Qed.

Lemma all_rows_Forall {K A} `{Countable K} (p : A → bool) (m : gmap K A) :
  all_rows p m = true ↔ map_Forall (λ _ r, p r = true) m.
Proof.
  unfold all_rows. rewrite forallb_forall. split.
  - intros Hall k r Hr. apply Hall, list_elem_of_In, rows_of_elem. by exists k.
  - intros Hall r Hr. apply list_elem_of_In, rows_of_elem in Hr as [k Hk]. by eapply Hall.
Qed.

(** A unique index, row by row. *)
Lemma unique_intro {K A B} `{Countable K, EqDecision B} (key : A → option B) (m : gmap K A) :
  (∀ k1 k2 r1 r2 b, m !! k1 = Some r1 → m !! k2 = Some r2 → key r1 = Some b → key r2 = Some b →
    k1 = k2) →
  unique key m = true.
Proof.
  induction m as [|k r m Hk IH] using map_ind; intros Hinj; [done|].
  apply unique_insert; [done| |].
  - apply IH. intros k1 k2 r1 r2 b H1 H2. apply Hinj; rewrite lookup_insert_ne; congruence.
  - intros b Hb r' [k' Hk']%rows_of_elem Hr'. assert (k = k') as <-; [|congruence].
    eapply (Hinj k k' r r' b); [apply lookup_insert_eq| |done..].
    rewrite lookup_insert_ne; congruence.
Qed.

(** A row replaced by one that the index covers no more than before. *)
Lemma unique_weaken {K A B} `{Countable K, EqDecision B} (key : A → option B) (m : gmap K A)
    k r r' :
  m !! k = Some r → (∀ b, key r' = Some b → key r = Some b) →
  unique key m = true → unique key (<[k := r']> m) = true.
Proof.
  intros Hk Hr Hu. apply unique_intro. intros k1 k2 r1 r2 b H1 H2 Hb1 Hb2.
  assert (∀ k0 r0, <[k := r']> m !! k0 = Some r0 → key r0 = Some b →
    ∃ r00, m !! k0 = Some r00 ∧ key r00 = Some b) as Hback.
  { intros k0 r0 [[<- <-]|[_ H0]]%lookup_insert_Some Hb; eauto. }
  destruct (Hback _ _ H1 Hb1) as (? & ? & ?), (Hback _ _ H2 Hb2) as (? & ? & ?).
  by eapply unique_spec.
Qed.

Lemma references_Forall {K A} `{Countable K} d (wid : A → uuid) (m : gmap K A) :
  references d wid m = true ↔ map_Forall (λ _ r, is_Some (pg_wallets d !! wid r)) m.
Proof.
  change (references d wid m) with (all_rows (λ r, bool_decide (is_Some (pg_wallets d !! wid r))) m).
  rewrite all_rows_Forall. split; intros Hall k r Hr; specialize (Hall k r Hr); simpl in *;
    by rewrite bool_decide_eq_true in *.
Qed.

(** ** The first row found *)
Definition first_row {K A} `{Countable K} (p : A → bool) (m : gmap K A) : option A :=
  head (List.filter p (rows_of m)).

Lemma first_row_Some {K A} `{Countable K} (p : A → bool) (m : gmap K A) x :
  first_row p m = Some x → p x = true ∧ ∃ i, m !! i = Some x.
Proof.
  unfold first_row. intros [l Hl]%head_Some.
  assert (In x (List.filter p (rows_of m))) as [Hin Hx]%filter_In by (rewrite Hl; by left).
  by apply list_elem_of_In, rows_of_elem in Hin.
Qed.

Lemma first_row_None {K A} `{Countable K} (p : A → bool) (m : gmap K A) :
  first_row p m = None ↔ map_Forall (λ _ x, p x = false) m.
Proof.
  unfold first_row. rewrite head_None. split.
  - intros Hf i x Hx. apply not_true_iff_false. intros Hp.
    assert (In x (List.filter p (rows_of m))) as Hin; [|by rewrite Hf in Hin].
    apply filter_In. split; [|done]. apply list_elem_of_In, rows_of_elem. by exists i.
  - intros Hall. destruct (List.filter p (rows_of m)) as [|x l] eqn:Hf; [done|].
    destruct (first_row_Some p m x) as [Hp [i Hi]]; [unfold first_row; by rewrite Hf|].
    specialize (Hall i x Hi). simpl in Hall. congruence.
Qed.

(** Where at most one row satisfies [p], it is the one that is found. *)
Lemma first_row_unique {K A} `{Countable K} (p : A → bool) (m : gmap K A) i x :
  (∀ j y, m !! j = Some y → p y = true → i = j) →
  m !! i = Some x → p x = true → first_row p m = Some x.
Proof.
  intros Hu Hx Hp. destruct (first_row p m) as [y|] eqn:Hy.
  - apply first_row_Some in Hy as [Hpy [j Hj]]. rewrite (Hu j y Hj Hpy) in Hx. congruence.
  - rewrite first_row_None in Hy. specialize (Hy i x Hx). simpl in Hy. congruence.
Qed.

(** ** One table at a time *)
Ltac valid_parts :=
  unfold valid in *; rewrite !andb_true_iff in *; destruct_and?; split_and?; done.

Lemma valid_wallets d : valid d = true → wallets_valid d = true.
Proof. intros Hv. valid_parts. Qed.

Lemma valid_addresses d : valid d = true → addresses_valid d = true.
Proof. intros Hv. valid_parts. Qed.

Lemma valid_put_addresses d m :
  valid d = true → addresses_valid (put_addresses d m) = true → valid (put_addresses d m) = true.
Proof. intros Hv Hm. valid_parts. Qed.

Lemma valid_key_mappings d : valid d = true → key_mappings_valid d = true.
Proof. intros Hv. valid_parts. Qed.

Lemma valid_put_key_mappings d m :
  valid d = true → key_mappings_valid (put_key_mappings d m) = true →
  valid (put_key_mappings d m) = true.
Proof. intros Hv Hm. valid_parts. Qed.

Lemma valid_funding d : valid d = true → funding_valid d = true.
Proof. intros Hv. valid_parts. Qed.

Lemma valid_put_funding d m :
  valid d = true → funding_valid (put_funding d m) = true → valid (put_funding d m) = true.
Proof. intros Hv Hm. valid_parts. Qed.

(** ** Runs *)
Section runs.
Context `{PgServer}.

(** A server that never fails by itself. *)
Definition no_faults : Prop := ∀ n, pg_fault n = None.

Lemma statement_auto {A} (f : Stmt A) w :
  no_faults → pw_Tx w = None →
  statement f w = match checked f (pg_clock (pw_Calls w)) (pw_DB w) with
    | Ok (a, d') => (Ok a, MkPg d' None (S (pw_Calls w)))
    | Err e => (Err e, MkPg (pw_DB w) None (S (pw_Calls w)))
    end.
Proof.
  intros Hf Htx. unfold statement. rewrite Htx, Hf. by destruct (checked _ _ _) as [[]|].
Qed.

Lemma statement_ok {A} (f : Stmt A) w a d' :
  no_faults → pw_Tx w = None → f (pg_clock (pw_Calls w)) (pw_DB w) = Ok (a, d') →
  valid d' = true → statement f w = (Ok a, MkPg d' None (S (pw_Calls w))).
Proof. intros Hf Htx Hr Hv. rewrite statement_auto by done. unfold checked. by rewrite Hr, Hv. Qed.

Lemma statement_tx {A} (f : Stmt A) w tx :
  no_faults → pw_Tx w = Some tx → tx_Failed tx = false →
  statement f w = match checked f (tx_Now tx) (tx_Work tx) with
    | Ok (a, d') => (Ok a, MkPg (pw_DB w) (Some (MkTx (tx_Start tx) d' (tx_Now tx) false))
        (S (pw_Calls w)))
    | Err e => (Err e, MkPg (pw_DB w) (Some (MkTx (tx_Start tx) (tx_Work tx) (tx_Now tx) true))
        (S (pw_Calls w)))
    end.
Proof.
  intros Hf Htx Hok. unfold statement. by rewrite Htx, Hf, Hok.
Qed.

(** A server that neither fails nor has other clients. *)
Definition commits_alone : Prop := ∀ n d work,
  valid work = true → pg_commit n d work d = Some work.

(** The database was created with the "C" collation, or one that agrees with it. *)
Definition bytewise_collation : Prop := ∀ s t, collate_lt s t = string_lt s t.

Lemma pg_InTx_run {A} (fn : Pg A) w a n tx1 :
  no_faults → commits_alone → pw_Tx w = None →
  fn (begun w) = (Ok a, MkPg (pw_DB w) (Some tx1) n) → tx_Start tx1 = pw_DB w →
  tx_Failed tx1 = false → valid (tx_Work tx1) = true →
  pg_InTx fn w = (Ok a, MkPg (tx_Work tx1) None (S n)).
Proof.
  intros Hf Hc Htx Hfn Hs Hok Hv. unfold pg_InTx. rewrite Hf. fold (begun w). rewrite Hfn.
  simpl. unfold commit. simpl. rewrite Hok, Hs, Hc, Hf by done. simpl. by rewrite Htx.
Qed.

Lemma query_row_auto {A} (f : PgDB → option A) w :
  no_faults → pw_Tx w = None → valid (pw_DB w) = true →
  query_row f w = (match f (pw_DB w) with Some a => Ok a | None => Err ErrNoRows end,
    MkPg (pw_DB w) None (S (pw_Calls w))).
Proof.
  intros Hf Ht Hv. unfold query_row. erewrite bind_Ok; [|by apply statement_ok].
  by destruct (f (pw_DB w)).
Qed.
End runs.

(** ** The reference server *)
Section reference.
#[local] Existing Instance ref_pg.

Lemma ref_pg_no_faults : no_faults.
Proof. intros n. reflexivity. Qed.

Lemma ref_bytewise : bytewise_collation.
Proof. done. Qed.

Lemma ref_commits_alone : commits_alone.
Proof. intros n d work Hv. simpl. by rewrite Hv. Qed.
End reference.
