(* ===== verification/PostgresServices.v ===== *)
(** * PostgresServices: services on the Postgres store

    The balance service's confirmation handler, and the withdrawal request the
    withdrawal service stores, over the Postgres methods instead of the in-memory
    ones. *)
From stdpp Require Import base tactics numbers gmap strings pretty list.
From Stdlib Require Import ZArith Lia Sorted.
From S2P Require Import Prelude.
From S2P Require Import GoLang.
From S2P Require Import GoText.
From S2P Require Import Crypto.
From S2P Require Import Domain.
From S2P Require Import Evm.
From S2P Require Import Config.
From S2P Require Import Decimal.
From S2P Require Import Reference.
From S2P Require Import AuditOutbox.
From S2P Require Import Balance.
From S2P Require Import Withdrawal.
From S2P Require Import PgEngine.
From S2P Require Import PgReference.
From S2P Require Import Postgres.
From S2P Require Import PostgresFacts.
From S2P Require Import PostgresProps.
From S2P Require Import PostgresRuns.

#[local] Open Scope string_scope.
#[local] Open Scope list_scope.
#[local] Open Scope Z_scope.

Section services.
Context `{PgServer} `{DecimalLib} `{CryptoLib}.
(** The balance service: its configuration, its emitter (errors dropped) and the
    callback on a confirmed decrease. *)
Context (cfg : Config) (pg_emit : Event → Pg unit) (notify : Pg unit).

Definition pg_confirmation_tx (ev : ConfirmationEvent) : Pg unit :=
  r ← attempt (pg_GetBalance (ce_WalletID ev) (ce_Asset ev));
  cur ← match r with
        | Ok b => mret b
        | Err e => if errors_Is e ErrNoRows then mret (zero_balance (ce_WalletID ev) (ce_Asset ev))
                   else throw e
        end;
  let confirmed := parseDec (b_Confirmed cur) in
  let pending := parseDec (b_Pending cur) in
  let amount := parseDec (ce_Amount ev) in
  let confirmed := if isConfirmed cfg ev then dec_Add confirmed amount else confirmed in
  let pending := if isConfirmed cfg ev then pending else dec_Add pending amount in
  now ← pg_time_Now;
  pg_UpsertBalance (MkBalance (ce_WalletID ev) (ce_Asset ev) (formatDec confirmed)
    (formatDec pending) (b_Locked cur) (max64 (b_LastBlockSeen cur) (ce_BlockHeight ev)) now);;
  ignore (pg_emit (MkEvent "wallet.balance.updated" (Some (ce_WalletID ev))
    [("asset", AString (ce_Asset ev)); ("confirmed", AString (formatDec confirmed));
     ("pending", AString (formatDec pending)); ("block_height", AInt (ce_BlockHeight ev));
     ("confirmations", AInt (ce_Confirmations ev))])).

(** [beID] is the id drawn for the event. *)
Definition pg_event (beID : uuid) (ev : ConfirmationEvent) : BalanceEvent :=
  MkBalanceEvent beID (ce_WalletID ev) (ce_Asset ev) (ce_BlockHeight ev) (ce_EventID ev).

Definition pg_ApplyConfirmationEvent (beID : uuid) (ev : ConfirmationEvent) : Pg unit :=
  r ← attempt (pg_RecordBalanceEvent (pg_event beID ev));
  match r with
  | Err e => if errors_Is e ErrDuplicateEvent then mret tt else throw e
  | Ok _ =>
      pg_InTx (pg_confirmation_tx ev);;
      when (isConfirmed cfg ev && dec_IsNegative (parseDec (ce_Amount ev))) (ignore notify)
  end.

(** The row [withdrawal.Service.Create] stores for a request: the reserved outpoints
    are not set yet, a [nil] slice. *)
Definition pg_store_request (req : WithdrawalCreate) (id : uuid) (now : time) : Pg unit :=
  pg_CreateWithdrawal (MkWithdrawal id (wq_WalletID req) (wq_ToAddress req) (wq_Asset req)
    (wq_Amount req) WithdrawalStatePending "" "" "" None [] [] now now) None.
End services.

(** ** Lemmas *)
Section facts.
Context `{PgServer} `{DecimalLib} `{CryptoLib}.

Lemma same_balance_event_key e x :
  same_balance_event e x = true ↔
  (be_WalletID x, be_Asset x, be_BlockHeight x, be_EventID x) =
    (be_WalletID e, be_Asset e, be_BlockHeight e, be_EventID e).
Proof.
  unfold same_balance_event. rewrite !andb_true_iff, !bool_decide_eq_true, Z.eqb_eq.
  split; [intros [[[-> ->] ->] ->]; done|]. intros [= -> -> -> ->]. done.
Qed.

Definition event_known (d : PgDB) (e : BalanceEvent) : bool :=
  existsb (same_balance_event e) (rows_of (pg_balance_events d)).

Lemma valid_event d e :
  valid d = true → pg_balance_events d !! be_ID e = None → event_known d e = false →
  valid (put_balance_events d (<[be_ID e := e]> (pg_balance_events d))) = true.
Proof.
  intros Hv Hid Hk. unfold valid in *. rewrite !andb_true_iff in Hv. destruct_and! Hv.
  rewrite !andb_true_iff. split_and!; try done. unfold balance_events_valid in *. simpl.
  apply unique_insert; [done..|]. intros b [= <-] r' Hin Heq.
  assert (event_known d e = true); [|congruence].
  apply existsb_exists. exists r'. split; [by apply list_elem_of_In|].
  apply same_balance_event_key. congruence.
Qed.

(** Recording an event: new, it is stored; known under another id, it is refused and
    nothing changes. *)
Lemma pg_RecordBalanceEvent_new e w :
  no_faults → pw_Tx w = None → valid (pw_DB w) = true →
  pg_balance_events (pw_DB w) !! be_ID e = None → event_known (pw_DB w) e = false →
  ∃ n, pg_RecordBalanceEvent e w = (Ok tt, MkPg (put_balance_events (pw_DB w)
    (<[be_ID e := e]> (pg_balance_events (pw_DB w)))) None n).
Proof.
  intros Hf Htx Hv Hid Hk. pose proof (valid_event _ _ Hv Hid Hk) as Hv'.
  unfold pg_RecordBalanceEvent. erewrite bind_Ok; [|apply statement_ok; [done..| |exact Hv']].
  2: { unfold event_known in Hk. by rewrite Hid, Hk. }
  erewrite bind_Ok; [|apply statement_ok; [done|done|done|exact Hv']]. simpl.
  match goal with |- context [if ?b then throw _ else _] => assert (b = false) as -> end.
  - apply not_true_iff_false. rewrite existsb_exists. intros (x & Hin & Hx).
    apply andb_true_iff in Hx as [Hx Hne]. apply list_elem_of_In in Hin. simpl in Hin.
    rewrite (rows_of_insert _ _ _ Hid) in Hin. apply elem_of_cons in Hin as [->|Hin].
    + by rewrite bool_decide_true in Hne.
    + assert (event_known (pw_DB w) e = true); [|congruence].
      apply existsb_exists. exists x. split; [by apply list_elem_of_In|done].
  - by eexists.
Qed.

Lemma pg_RecordBalanceEvent_known e x w :
  no_faults → pw_Tx w = None → valid (pw_DB w) = true →
  x ∈ rows_of (pg_balance_events (pw_DB w)) → same_balance_event e x = true →
  be_ID x ≠ be_ID e →
  ∃ n, pg_RecordBalanceEvent e w = (Err ErrDuplicateEvent, MkPg (pw_DB w) None n).
Proof.
  intros Hf Htx Hv Hin Hs Hne. apply list_elem_of_In in Hin.
  unfold pg_RecordBalanceEvent. erewrite bind_Ok; [|apply statement_ok; [done..| |exact Hv]].
  2: { assert (existsb (same_balance_event e) (rows_of (pg_balance_events (pw_DB w))) = true)
         as -> by (apply existsb_exists; by exists x). by rewrite orb_true_r. }
  erewrite bind_Ok; [|apply statement_ok; [done|done|done|exact Hv]]. simpl.
  match goal with |- context [if ?b then throw _ else _] => assert (b = true) as -> end.
  - apply existsb_exists. exists x. split; [done|]. rewrite Hs. by rewrite bool_decide_false.
  - by eexists.
Qed.
End facts.

(** ** Theorems *)
Section theorems.
Context `{PgServer} `{DecimalLib} `{CryptoLib}.
Context (cfg : Config) (pg_emit : Event → Pg unit) (notify : Pg unit).

(** The empty locked amount of a new row is not a NUMERIC. *)
Lemma pg_confirmation_tx_new ev w :
  no_faults → valid (pw_DB w) = true →
  pg_balances (pw_DB w) !! (ce_WalletID ev, ce_Asset ev) = None →
  ∃ e w1, pg_confirmation_tx cfg pg_emit ev (begun w) = (Err e, w1) ∧ pw_DB w1 = pw_DB w.
Proof.
  intros Hf Hv Hb. unfold pg_confirmation_tx, pg_GetBalance, query_row.
  unfold mbind, GoM_bind, attempt.
  rewrite (statement_tx _ (begun w) _ Hf eq_refl eq_refl). unfold checked, select. simpl.
  rewrite Hv, Hb. simpl. unfold pg_UpsertBalance.
  erewrite statement_tx by done. unfold checked, with_numeric. simpl. rewrite numeric_empty.
  destruct (numeric _) as [c|]; [destruct (numeric _) as [p|]|]; by eexists _, _.
Qed.

(** On Postgres the first deposit of an asset is lost.  With a server that does not
    fail, a confirmation for a wallet and asset without a balance row is answered
    with an error (the new row's locked amount is the empty string, which is not a
    NUMERIC), but the event stays recorded; so every redelivery of it is
    acknowledged as a duplicate, and the database never changes again: the deposit
    is not credited. *)
Theorem pg_first_deposit_lost ev id1 w :
  no_faults → pw_Tx w = None → valid (pw_DB w) = true →
  pg_balances (pw_DB w) !! (ce_WalletID ev, ce_Asset ev) = None →
  pg_balance_events (pw_DB w) !! id1 = None →
  event_known (pw_DB w) (pg_event id1 ev) = false →
  ∃ e w1, pg_ApplyConfirmationEvent cfg pg_emit notify id1 ev w = (Err e, w1) ∧
    pg_balances (pw_DB w1) = pg_balances (pw_DB w) ∧
    ∀ id2, id2 ≠ id1 → ∃ w2,
      pg_ApplyConfirmationEvent cfg pg_emit notify id2 ev w1 = (Ok tt, w2) ∧
      pw_DB w2 = pw_DB w1.
Proof.
  intros Hf Htx Hv Hb Hid Hk.
  destruct (pg_RecordBalanceEvent_new (pg_event id1 ev) w Hf Htx Hv Hid Hk) as [n Hr].
  pose proof (valid_event _ (pg_event id1 ev) Hv Hid Hk) as Hv'.
  set (d' := put_balance_events _ _) in *.
  destruct (pg_confirmation_tx_new ev (MkPg d' None n) Hf Hv' Hb) as (e & w1 & Htxr & Hd1).
  assert (∃ w', pg_ApplyConfirmationEvent cfg pg_emit notify id1 ev w = (Err e, w') ∧
    pw_DB w' = d' ∧ pw_Tx w' = None) as (w' & Ha & Hd & Ht).
  { unfold pg_ApplyConfirmationEvent, mbind, GoM_bind, attempt. rewrite Hr.
    unfold pg_InTx. rewrite Hf. fold (begun (MkPg d' None n)). rewrite Htxr.
    by eexists. }
  exists e, w'. split_and!; [done|by rewrite Hd|]. intros id2 Hne.
  destruct (pg_RecordBalanceEvent_known (pg_event id2 ev) (pg_event id1 ev) w' Hf Ht)
    as [m Hm].
  - by rewrite Hd.
  - rewrite Hd. apply rows_of_elem. exists id1. by apply lookup_insert_eq.
  - by apply same_balance_event_key.
  - simpl. congruence.
  - unfold pg_ApplyConfirmationEvent, mbind, GoM_bind, attempt. rewrite Hm. by eexists.
Qed.

(** On Postgres no withdrawal is ever stored.  The service hands the store a row
    whose reserved outpoints are a [nil] slice, which reaches the server as NULL for
    a NOT NULL column: whatever the database and whatever the request, the insert is
    an error and the committed database is as it was. *)
Theorem pg_withdrawals_never_stored req id now w :
  let '(r, w') := pg_store_request req id now w in
  is_ok r = false ∧ pw_DB w' = pw_DB w.
Proof.
  unfold pg_store_request, pg_CreateWithdrawal, statement.
  assert (∀ t d, ∃ e, checked (with_numeric (wq_Amount req) (λ _ _ _, Err ErrNotNull)) t d
    = Err (A := unit * PgDB) e) as Hc.
  { intros t d. unfold checked, with_numeric. by destruct (numeric _); eexists. }
  destruct (pw_Tx w) as [tx|].
  - destruct (tx_Failed tx); [done|]. destruct (pg_fault _); [done|]. simpl.
    destruct (Hc (tx_Now tx) (tx_Work tx)) as [e ->]. done.
  - simpl. destruct (Hc (pg_clock (pw_Calls w)) (pw_DB w)) as [e ->].
    by destruct (pg_fault _) as [[? []]|].
Qed.

(** Amounts do not survive Postgres for the EVM builder.  A withdrawal of a whole
    number of base units that is stored (with its outpoints set) is read back with
    its amount printed to eighteen decimals, and no EVM transaction can be built
    from that row. *)
Theorem pg_amount_not_buildable wr ops amount nonce W w w1 x w2 to :
  no_faults → pw_Tx w = None → 0 ≤ amount < 10 ^ 20 → wr_Amount wr = pretty amount →
  parseEVMAddress (wr_ToAddress wr) = Ok to →
  pg_CreateWithdrawal wr (Some ops) w = (Ok tt, w1) →
  pg_GetWithdrawal (wr_ID wr) w1 = (Ok x, w2) →
  wr_Amount x = pretty amount +:+ ".000000000000000000" ∧
  buildEVMUnsignedTx W x nonce = Err (ErrNew ("evm amount parse: " +:+ quote (wr_Amount x))).
Proof.
  intros Hf Htx Hn Ha Hto. unfold pg_CreateWithdrawal.
  rewrite statement_auto by done. unfold checked, with_numeric, insert_row.
  rewrite Ha, numeric_int by done.
  destruct (pg_withdrawals (pw_DB w) !! wr_ID wr); [done|].
  destruct (valid _) eqn:Hv; [|done]. intros [= <-].
  unfold pg_GetWithdrawal, query_row. unfold mbind, GoM_bind.
  rewrite statement_auto by done. unfold checked, select. simpl pw_DB.
  rewrite Hv. simpl. rewrite lookup_insert_eq. intros [= <- <-]. simpl. split; [done|].
  unfold buildEVMUnsignedTx. simpl. rewrite Hto. simpl.
  by rewrite (big_SetString_dot _ "000000000000000000").
Qed.
End theorems.

(** ** Witnesses *)
Section witnesses.
#[local] Existing Instances ref_pg ref_decimal ref_crypto.

Lemma pg_first_deposit_lost_witness :
  ∃ e w1, pg_ApplyConfirmationEvent default_config (λ _, mret tt) (mret tt) (uuid_of_Z 50)
      (deposit "e1" "5" 6) pg_funded = (Err e, w1) ∧
    pg_balances (pw_DB w1) = pg_balances (pw_DB pg_funded) ∧
    ∀ id2, id2 ≠ uuid_of_Z 50 → ∃ w2,
      pg_ApplyConfirmationEvent default_config (λ _, mret tt) (mret tt) id2
        (deposit "e1" "5" 6) w1 = (Ok tt, w2) ∧
      pw_DB w2 = pw_DB w1.
Proof.
  apply (pg_first_deposit_lost default_config (λ _, mret tt) (mret tt) (deposit "e1" "5" 6)
    (uuid_of_Z 50) pg_funded).
  - exact ref_pg_no_faults.
  - vm_compute. reflexivity.
  - vm_compute. reflexivity.
  - vm_compute. reflexivity.
  - vm_compute. reflexivity.
  - vm_compute. reflexivity.
Defined.

Definition stored_row : WithdrawalRequest := MkWithdrawal (uuid_of_Z 60) (uuid_of_Z 1)
  "0x00000000000000000000000000000000000000ff" "ETH" "5" WithdrawalStatePending "" "" "" None []
  [] 1 1.

Definition pg_stored : PgWorld := (pg_CreateWithdrawal stored_row (Some []) pg_funded).2.

Lemma pg_amount_not_buildable_witness :
  let x := match (pg_GetWithdrawal (uuid_of_Z 60) pg_stored).1 with
           | Ok x => x | Err _ => stored_row end in
  wr_Amount x = pretty 5 +:+ ".000000000000000000" ∧
  buildEVMUnsignedTx pg_wallet x 0
    = Err (ErrNew ("evm amount parse: " +:+ quote (wr_Amount x))).
Proof.
  apply (pg_amount_not_buildable stored_row [] 5 0 pg_wallet pg_funded pg_stored _
    (pg_GetWithdrawal (uuid_of_Z 60) pg_stored).2 (replicate 19 0 ++ [255])).
  - exact ref_pg_no_faults.
  - vm_compute. reflexivity.
  - lia.
  - reflexivity.
  - vm_compute. reflexivity.
  - apply run_eq. vm_compute. reflexivity.
  - apply run_eq. vm_compute. reflexivity.
Defined.
End witnesses.
