(* ===== verification/StoreInterface.v ===== *)
(** * StoreInterface: [storage.Store] of [internal/storage/store.go]

    The interface both stores implement, as a class of operations over the state of the
    store, and its two instances.  The refinement files state the laws
    of its methods once, for every implementation. *)
From stdpp Require Import base tactics numbers gmap strings list.
From Stdlib Require Import ZArith.
From S2P Require Import Prelude.
From S2P Require Import GoLang.
From S2P Require Import Domain.
From S2P Require Import World.
From S2P Require Import MemStore.
From S2P Require Import PgEngine.
From S2P Require Import Postgres.

#[local] Open Scope Z_scope.

(** A row holds the outpoints reserved for a withdrawal as a list; where it matters that
    the Go slice may be [nil], the slice is an argument of its own. *)
Class StoreAPI (S : Type) : Type := {
  st_InTx : GoM S unit → GoM S unit;
  st_CreateWallet : Wallet → GoM S unit;
  st_GetWallet : uuid → GoM S Wallet;
  st_UpdateWalletState : uuid → string → GoM S unit;
  st_ListWallets : string → string → string → GoM S (list Wallet);
  st_InsertAddress : Address → GoM S unit;
  st_GetActiveAddress : uuid → GoM S Address;
  st_ListAddresses : uuid → GoM S (list Address);
  st_DeprecateAddress : uuid → GoM S unit;
  st_NextAddressIndex : string → Z → GoM S Z;
  st_IncrementReceiveCount : uuid → GoM S unit;
  st_GetAddress : uuid → GoM S Address;
  st_UpsertBalance : Balance → GoM S unit;
  st_GetBalance : uuid → string → GoM S Balance;
  st_ListBalances : uuid → GoM S (list Balance);
  st_RecordBalanceEvent : BalanceEvent → GoM S unit;
  st_InsertUTXO : UTXO → GoM S unit;
  st_ListFreeUTXOs : uuid → GoM S (list UTXO);
  st_LockUTXOs : (list string) → GoM S unit;
  st_MarkUTXOsSpent : (list string) → string → GoM S unit;
  st_RestoreUTXOs : (list string) → GoM S unit;
  st_PruneUTXOs : (list string) → GoM S unit;
  st_GetNonce : uuid → string → GoM S Nonce;
  st_UpsertNonce : Nonce → GoM S unit;
  st_IncrementPendingNonce : uuid → string → GoM S (Z * Z);
  st_AdvanceBroadcastNonce : uuid → string → Z → GoM S unit;
  st_RollbackPendingNonce : uuid → string → Z → GoM S Z;
  st_CreateWithdrawal : WithdrawalRequest → (option (list string)) → GoM S unit;
  st_GetWithdrawal : uuid → GoM S WithdrawalRequest;
  st_ListWithdrawals : uuid → string → GoM S (list WithdrawalRequest);
  st_UpdateWithdrawalState : uuid → string → string → string → string → GoM S unit;
  st_UpdateWithdrawalNonce : uuid → Z → GoM S unit;
  st_UpdateWithdrawalOutpoints : uuid → (option (list string)) → GoM S unit;
  st_UpdateWithdrawalSignedTx : uuid → (list byte) → GoM S unit;
  st_BindKeyMapping : KeyMapping → GoM S unit;
  st_ResolveActiveKey : uuid → GoM S (list KeyMapping);
  st_RotateKeyMapping : uuid → string → duration → GoM S unit;
  st_ExpireCooling : GoM S unit;
  st_CreateFundingRequest : FundingRequest → GoM S unit;
  st_GetOpenFundingRequest : uuid → string → GoM S FundingRequest;
  st_ListFundingRequests : uuid → string → GoM S (list FundingRequest);
  st_UpdateFundingState : uuid → string → string → GoM S unit;
  st_AppendAuditEvent : AuditOutboxEvent → GoM S unit;
  st_ListUndeliveredAuditEvents : Z → GoM S (list AuditOutboxEvent);
  st_MarkAuditDelivered : uuid → GoM S unit;
  st_NextAuditSeq : uuid → GoM S Z
}.

(** The in-memory store implements it. *)
#[export] Instance memstore_API `{GoRuntime} `{UUIDLib} `{Environment} : StoreAPI World := {
  st_InTx := InTx;
  st_CreateWallet := CreateWallet;
  st_GetWallet := GetWallet;
  st_UpdateWalletState := UpdateWalletState;
  st_ListWallets := ListWallets;
  st_InsertAddress := InsertAddress;
  st_GetActiveAddress := GetActiveAddress;
  st_ListAddresses := ListAddresses;
  st_DeprecateAddress := DeprecateAddress;
  st_NextAddressIndex := NextAddressIndex;
  st_IncrementReceiveCount := IncrementReceiveCount;
  st_GetAddress := GetAddress;
  st_UpsertBalance := UpsertBalance;
  st_GetBalance := GetBalance;
  st_ListBalances := ListBalances;
  st_RecordBalanceEvent := RecordBalanceEvent;
  st_InsertUTXO := InsertUTXO;
  st_ListFreeUTXOs := ListFreeUTXOs;
  st_LockUTXOs := LockUTXOs;
  st_MarkUTXOsSpent := MarkUTXOsSpent;
  st_RestoreUTXOs := RestoreUTXOs;
  st_PruneUTXOs := PruneUTXOs;
  st_GetNonce := GetNonce;
  st_UpsertNonce := UpsertNonce;
  st_IncrementPendingNonce := IncrementPendingNonce;
  st_AdvanceBroadcastNonce := AdvanceBroadcastNonce;
  st_RollbackPendingNonce := RollbackPendingNonce;
  st_CreateWithdrawal w _ := CreateWithdrawal w;
  st_GetWithdrawal := GetWithdrawal;
  st_ListWithdrawals := ListWithdrawals;
  st_UpdateWithdrawalState := UpdateWithdrawalState;
  st_UpdateWithdrawalNonce := UpdateWithdrawalNonce;
  st_UpdateWithdrawalOutpoints id ops := UpdateWithdrawalOutpoints id (default [] ops);
  st_UpdateWithdrawalSignedTx := UpdateWithdrawalSignedTx;
  st_BindKeyMapping := BindKeyMapping;
  st_ResolveActiveKey := ResolveActiveKey;
  st_RotateKeyMapping := RotateKeyMapping;
  st_ExpireCooling := ExpireCooling;
  st_CreateFundingRequest := CreateFundingRequest;
  st_GetOpenFundingRequest := GetOpenFundingRequest;
  st_ListFundingRequests := ListFundingRequests;
  st_UpdateFundingState := UpdateFundingState;
  st_AppendAuditEvent := AppendAuditEvent;
  st_ListUndeliveredAuditEvents := ListUndeliveredAuditEvents;
  st_MarkAuditDelivered := MarkAuditDelivered;
  st_NextAuditSeq := NextAuditSeq
}.

(** And the Postgres store. *)
#[export] Instance postgres_API `{PgServer} : StoreAPI PgWorld := {
  st_InTx := pg_InTx;
  st_CreateWallet := pg_CreateWallet;
  st_GetWallet := pg_GetWallet;
  st_UpdateWalletState := pg_UpdateWalletState;
  st_ListWallets := pg_ListWallets;
  st_InsertAddress := pg_InsertAddress;
  st_GetActiveAddress := pg_GetActiveAddress;
  st_ListAddresses := pg_ListAddresses;
  st_DeprecateAddress := pg_DeprecateAddress;
  st_NextAddressIndex := pg_NextAddressIndex;
  st_IncrementReceiveCount := pg_IncrementReceiveCount;
  st_GetAddress := pg_GetAddress;
  st_UpsertBalance := pg_UpsertBalance;
  st_GetBalance := pg_GetBalance;
  st_ListBalances := pg_ListBalances;
  st_RecordBalanceEvent := pg_RecordBalanceEvent;
  st_InsertUTXO := pg_InsertUTXO;
  st_ListFreeUTXOs := pg_ListFreeUTXOs;
  st_LockUTXOs := pg_LockUTXOs;
  st_MarkUTXOsSpent := pg_MarkUTXOsSpent;
  st_RestoreUTXOs := pg_RestoreUTXOs;
  st_PruneUTXOs := pg_PruneUTXOs;
  st_GetNonce := pg_GetNonce;
  st_UpsertNonce := pg_UpsertNonce;
  st_IncrementPendingNonce := pg_IncrementPendingNonce;
  st_AdvanceBroadcastNonce := pg_AdvanceBroadcastNonce;
  st_RollbackPendingNonce := pg_RollbackPendingNonce;
  st_CreateWithdrawal := pg_CreateWithdrawal;
  st_GetWithdrawal := pg_GetWithdrawal;
  st_ListWithdrawals := pg_ListWithdrawals;
  st_UpdateWithdrawalState := pg_UpdateWithdrawalState;
  st_UpdateWithdrawalNonce := pg_UpdateWithdrawalNonce;
  st_UpdateWithdrawalOutpoints := pg_UpdateWithdrawalOutpoints;
  st_UpdateWithdrawalSignedTx := pg_UpdateWithdrawalSignedTx;
  st_BindKeyMapping := pg_BindKeyMapping;
  st_ResolveActiveKey := pg_ResolveActiveKey;
  st_RotateKeyMapping := pg_RotateKeyMapping;
  st_ExpireCooling := pg_ExpireCooling;
  st_CreateFundingRequest := pg_CreateFundingRequest;
  st_GetOpenFundingRequest := pg_GetOpenFundingRequest;
  st_ListFundingRequests := pg_ListFundingRequests;
  st_UpdateFundingState := pg_UpdateFundingState;
  st_AppendAuditEvent := pg_AppendAuditEvent;
  st_ListUndeliveredAuditEvents := pg_ListUndeliveredAuditEvents;
  st_MarkAuditDelivered := pg_MarkAuditDelivered;
  st_NextAuditSeq := pg_NextAuditSeq
}.
