(* ===== verification/Refinement.v ===== *)
(** * Refinement: implementations of an abstract table

    An abstract specification is a total function on operations, answers and states; an
    implementation is a method for each operation over the state of a store.  [Refines]
    is the simulation between them, step by step; [run_refines] is what a client of any
    number of calls gets from it.  The refinement files instantiate it
    with the two stores. *)
From stdpp Require Import base tactics numbers list sorting.
From Stdlib Require Import ZArith Lia Sorted.
From S2P Require Import Prelude.

#[local] Open Scope Z_scope.

Section specification.
Context {Op Ans St : Type} (spec_step : Op → St → Ans * St) (admissible : Op → St → Prop).

Fixpoint spec_run (ops : list Op) (st : St) : list Ans * St :=
  match ops with
  | [] => ([], st)
  | op :: ops =>
      let '(a, st1) := spec_step op st in
      let '(l, st2) := spec_run ops st1 in (a :: l, st2)
  end.

Lemma spec_run_app ops1 ops2 st :
  spec_run (ops1 ++ ops2) st =
    let '(l1, st1) := spec_run ops1 st in
    let '(l2, st2) := spec_run ops2 st1 in (l1 ++ l2, st2).
Proof.
  revert st. induction ops1 as [|op ops1 IH]; intros st; simpl; [by destruct (spec_run ops2 st)|].
  destruct (spec_step op st) as [a st1]. rewrite IH.
  destruct (spec_run ops1 st1) as [l1 st2]. by destruct (spec_run ops2 st2).
Qed.

Fixpoint all_admissible (ops : list Op) (st : St) : Prop :=
  match ops with
  | [] => True
  | op :: ops => admissible op st ∧ all_admissible ops (spec_step op st).2
  end.

(** A concrete client is checked by computation. *)
#[export] Instance all_admissible_dec `{∀ op st, Decision (admissible op st)} ops st :
  Decision (all_admissible ops st).
Proof. revert st. induction ops; intros st; simpl; apply _. Defined.

(** ** Implementations *)
Section implementation.
Context {S : Type} (step : Op → GoM S Ans).

Fixpoint run_all (ops : list Op) : GoM S (list Ans) :=
  match ops with
  | [] => mret []
  | op :: ops => a ← step op; l ← run_all ops; mret (a :: l)
  end.

(** [abs n]: the store holds the abstract state and has room for [n] more operations. *)
Class Refines (abs : Z → S → St → Prop) : Prop := step_refines n op w st :
  abs (n + 1) w st → 0 ≤ n → admissible op st →
  ∃ w', step op w = (Ok (spec_step op st).1, w') ∧ abs n w' (spec_step op st).2.

Lemma run_refines abs `{!Refines abs} ops w st :
  abs (Z.of_nat (length ops)) w st → all_admissible ops st →
  ∃ w', run_all ops w = (Ok (spec_run ops st).1, w') ∧ abs 0 w' (spec_run ops st).2.
Proof.
  revert w st. induction ops as [|op ops IH]; intros w st Ha Hadm; [by exists w|].
  destruct Hadm as [Hop Hadm]. rewrite length_cons, Nat2Z.inj_succ, <-Z.add_1_r in Ha.
  destruct (step_refines (Z.of_nat (length ops)) op w st Ha ltac:(lia) Hop) as (w1 & Hr & Ha1).
  destruct (IH _ _ Ha1 Hadm) as (w2 & Hr2 & Ha2).
  exists w2. simpl. unfold mbind, GoM_bind. rewrite Hr, Hr2.
  destruct (spec_step op st) as [a st1]. simpl in *. by destruct (spec_run ops st1).
Qed.
End implementation.
End specification.

(** ** Clients that choose their calls

    A client makes a call, and goes on as the answer says. *)
Inductive Client (Op Ans R : Type) : Type :=
  | Return (r : R)
  | Call (op : Op) (k : Ans → Client Op Ans R).
Arguments Return {Op Ans R} r.
Arguments Call {Op Ans R} op k.

Section clients.
Context {Op Ans St R : Type} (spec_step : Op → St → Ans * St) (admissible : Op → St → Prop).

Fixpoint spec_client (c : Client Op Ans R) (st : St) : R * St :=
  match c with
  | Return r => (r, st)
  | Call op k => let '(a, st1) := spec_step op st in spec_client (k a) st1
  end.

(** The calls on the way, and that each is admissible where it is made. *)
Fixpoint client_calls (c : Client Op Ans R) (st : St) : nat :=
  match c with
  | Return _ => 0
  | Call op k => let '(a, st1) := spec_step op st in S (client_calls (k a) st1)
  end.

Fixpoint client_admissible (c : Client Op Ans R) (st : St) : Prop :=
  match c with
  | Return _ => True
  | Call op k =>
      admissible op st ∧ let '(a, st1) := spec_step op st in client_admissible (k a) st1
  end.

#[export] Instance client_admissible_dec `{∀ op st, Decision (admissible op st)} c st :
  Decision (client_admissible c st).
Proof.
  revert st. induction c as [|op k IH]; intros st; simpl; [apply _|].
  destruct (spec_step op st). apply _.
Defined.

Fixpoint run_client {S : Type} (step : Op → GoM S Ans) (c : Client Op Ans R) : GoM S R :=
  match c with
  | Return r => mret r
  | Call op k => a ← step op; run_client step (k a)
  end.

Lemma client_refines {S : Type} (step : Op → GoM S Ans) abs
    `{!Refines spec_step admissible step abs} c w st :
  abs (Z.of_nat (client_calls c st)) w st → client_admissible c st →
  ∃ w', run_client step c w = (Ok (spec_client c st).1, w') ∧ abs 0 w' (spec_client c st).2.
Proof.
  revert w st. induction c as [r|op k IH]; intros w st Ha Hadm; simpl in *; [by exists w|].
  destruct Hadm as [Hop Hadm].
  destruct (spec_step op st) as [a st1] eqn:Hs. rewrite Nat2Z.inj_succ, <-Z.add_1_r in Ha.
  destruct (step_refines _ _ _ (Z.of_nat (client_calls (k a) st1)) op w st Ha ltac:(lia) Hop)
    as (w1 & Hr & Ha1).
  rewrite Hs in Hr, Ha1. simpl in *. unfold mbind, GoM_bind. rewrite Hr. by apply IH.
Qed.
End clients.

(** ** Several tables at once *)

(** A step that leaves what [abs] says alone. *)
Class Frame {S Op Ans St : Type} (step : Op → GoM S Ans) (abs : Z → S → St → Prop) : Prop :=
  step_frame n op w a w' st :
    step op w = (Ok a, w') → 0 ≤ n → abs (n + 1) w st → abs n w' st.

Section combination.
Context {S OpA AnsA StA OpB AnsB StB : Type}.
Context (specA : OpA → StA → AnsA * StA) (admA : OpA → StA → Prop).
Context (specB : OpB → StB → AnsB * StB) (admB : OpB → StB → Prop).
Context (stepA : OpA → GoM S AnsA) (absA : Z → S → StA → Prop).
Context (stepB : OpB → GoM S AnsB) (absB : Z → S → StB → Prop).

Definition either_spec (op : OpA + OpB) (st : StA * StB) : (AnsA + AnsB) * (StA * StB) :=
  match op with
  | inl op => let '(a, st1) := specA op st.1 in (inl a, (st1, st.2))
  | inr op => let '(b, st2) := specB op st.2 in (inr b, (st.1, st2))
  end.

Definition either_admissible (op : OpA + OpB) (st : StA * StB) : Prop :=
  match op with inl op => admA op st.1 | inr op => admB op st.2 end.

#[export] Instance either_admissible_dec
    `{∀ op st, Decision (admA op st)} `{∀ op st, Decision (admB op st)} op st :
  Decision (either_admissible op st).
Proof. destruct op; simpl; apply _. Defined.

Definition either_step (op : OpA + OpB) : GoM S (AnsA + AnsB) :=
  match op with
  | inl op => a ← stepA op; mret (inl a)
  | inr op => b ← stepB op; mret (inr b)
  end.

Definition both_abs (n : Z) (w : S) (st : StA * StB) : Prop := absA n w st.1 ∧ absB n w st.2.

(** Implementations of two tables that leave each other alone implement the pair. *)
#[export] Instance either_refines
    `{!Refines specA admA stepA absA} `{!Refines specB admB stepB absB}
    `{!Frame stepA absB} `{!Frame stepB absA} :
  Refines either_spec either_admissible either_step both_abs.
Proof.
  intros n op w [sa sb] [Ha Hb] Hn Hadm. destruct op as [op|op]; simpl in *.
  - destruct (step_refines specA admA stepA n op w sa Ha Hn Hadm) as (w' & Hr & Ha').
    exists w'. unfold mbind, GoM_bind. rewrite Hr. destruct (specA op sa) as [a sa'].
    split; [done|]. split; [done|]. by eapply step_frame.
  - destruct (step_refines specB admB stepB n op w sb Hb Hn Hadm) as (w' & Hr & Hb').
    exists w'. unfold mbind, GoM_bind. rewrite Hr. destruct (specB op sb) as [b sb'].
    split; [done|]. split; [by eapply step_frame|done].
Qed.

#[export] Instance frame_either {St} (abs : Z → S → St → Prop)
    `{!Frame stepA abs} `{!Frame stepB abs} : Frame either_step abs.
Proof.
  intros n op w a w' st. destruct op as [op|op]; simpl; unfold mbind, GoM_bind.
  - destruct (stepA op w) as [[x|e] w1] eqn:Hr; [|done]. intros [= _ <-]. by apply (step_frame n op w x).
  - destruct (stepB op w) as [[x|e] w1] eqn:Hr; [|done]. intros [= _ <-]. by apply (step_frame n op w x).
Qed.

#[export] Instance frame_both {Op Ans} (step : Op → GoM S Ans)
    `{!Frame step absA} `{!Frame step absB} : Frame step both_abs.
Proof. intros n op w a w' st Hr Hn [Ha Hb]. split; by eapply step_frame. Qed.
End combination.

(** A loop over a list, each round of which simulates one step of the specification. *)
Lemma for_each_refines {S A St : Type} (abs : S → St → Prop) (P : A → St → Prop)
    (body : A → GoM S unit) (g : St → A → St) :
  (∀ x w st, abs w st → P x st → ∃ w', body x w = (Ok tt, w') ∧ abs w' (g st x)) →
  (∀ x y st, P x st → P x (g st y)) →
  ∀ l w st, abs w st → Forall (λ x, P x st) l →
  ∃ w', for_each l body w = (Ok tt, w') ∧ abs w' (foldl g st l).
Proof.
  intros Hb Hg l. induction l as [|x l IH]; intros w st Ha HP; [by exists w|].
  apply Forall_cons in HP as [Hx Hl]. destruct (Hb x w st Ha Hx) as (w1 & Hr & Ha1).
  destruct (IH w1 (g st x) Ha1) as (w2 & Hr2 & Ha2).
  { eapply Forall_impl; [exact Hl|]. simpl. auto. }
  exists w2. simpl. unfold mbind, GoM_bind. by rewrite Hr.
Qed.

(** ** Listings *)
#[export] Instance filter_bool_perm {A} (p : A → bool) : Proper ((≡ₚ) ==> (≡ₚ)) (List.filter p).
Proof.
  induction 1 as [|x l l' _ IH|x y l|l1 l2 l3 _ IH1 _ IH2]; simpl.
  - done.
  - destruct (p x); by rewrite IH.
  - destruct (p x), (p y); try done. apply Permutation_swap.
  - by rewrite IH1.
Qed.

Lemma StronglySorted_map {A B} (R : relation B) (f : A → B) l :
  StronglySorted (λ x y, R (f x) (f y)) l → StronglySorted R (f <$> l).
Proof.
  induction 1 as [|x l Hl IH Hall]; simpl; constructor; [done|]. by apply Forall_fmap.
Qed.
