(* ===== verification/NonceRefinement.v ===== *)
(** * NonceRefinement: both stores implement the same nonce counters

    An abstract specification of the nonce table, [spec_step], and a simulation of it
    by the in-memory store and by the Postgres store, for every sequence of
    reservations, commits, rollbacks and reads.  A client of the [Store] interface
    therefore gets the same answers from either. *)
From stdpp Require Import base tactics numbers gmap strings pretty list.
From Stdlib Require Import ZArith Lia Sorted.
From S2P Require Import Prelude.
From S2P Require Import GoLang.
From S2P Require Import Domain.
From S2P Require Import World.
From S2P Require Import Reference.
From S2P Require Import MemStore.
From S2P Require Import MemStoreFacts.
From S2P Require Import Lock.
From S2P Require Import Nonce.
From S2P Require Import PgEngine.
From S2P Require Import PgReference.
From S2P Require Import Postgres.
From S2P Require Import PostgresFacts.
From S2P Require Import PostgresProps.
From S2P Require Import PostgresRuns.
From S2P Require Import PostgresServices.
From S2P Require Import StoreInterface.
From S2P Require Import Refinement.

#[local] Open Scope string_scope.
#[local] Open Scope list_scope.
#[local] Open Scope Z_scope.

(** ** The specification *)

(** For each wallet and chain that has one, the counters: next to reserve, and next
    to broadcast. *)
Abbreviation Counters := (gmap (uuid * string) (Z * Z)).

Inductive NonceOp : Type :=
  | Reserve (wid : uuid) (c : string)
  | Commit (wid : uuid) (c : string) (n : Z)
  | Rollback (wid : uuid) (c : string) (n : Z)
  | Read (wid : uuid) (c : string).

#[export] Instance NonceOp_eq_dec : EqDecision NonceOp.
Proof. solve_decision. Defined.

Inductive NonceAnswer : Type :=
  | Reserved (n : Z)
  | Committed
  | RolledBack (rows : Z)
  | Pair (pending broadcast : Z).

Definition counters (st : Counters) (k : uuid * string) : Z * Z := default (0, 0) (st !! k).

Definition spec_step (op : NonceOp) (st : Counters) : NonceAnswer * Counters :=
  match op with
  | Reserve wid c =>
      let '(p, b) := counters st (wid, c) in (Reserved p, <[(wid, c) := (p + 1, b)]> st)
  | Commit wid c n =>
      let '(p, b) := counters st (wid, c) in
      (Committed, <[(wid, c) := (p, Z.max b (n + 1))]> st)
  | Rollback wid c n =>
      let '(p, b) := counters st (wid, c) in
      if p =? n + 1 then (RolledBack 1, <[(wid, c) := (n, b)]> st) else (RolledBack 0, st)
  | Read wid c => let '(p, b) := counters st (wid, c) in (Pair p b, st)
  end.

(** The calls a client makes: reservations for wallets that exist, commits of a
    counter that has been reserved from, nonces that are in range. *)
Definition admissible (wids : gset uuid) (op : NonceOp) (st : Counters) : Prop :=
  match op with
  | Reserve wid c => wid ∈ wids ∧ 0 ≤ (counters st (wid, c)).1 < 2 ^ 63 - 1
  | Commit wid c n => is_Some (st !! (wid, c)) ∧ 0 ≤ n < 2 ^ 63 - 1
  | Rollback wid c n => 0 ≤ n < 2 ^ 63 - 1
  | Read _ _ => True
  end.

#[export] Instance admissible_dec wids op st : Decision (admissible wids op st).
Proof. destruct op; simpl; apply _. Defined.

(** The calls, on any store, and what is compared of their answers: the counters.  The
    version that [st_IncrementPendingNonce] and [st_GetNonce] return beside them is left
    out, since the stores count it differently ([nonce_versions_differ]). *)
Definition nonce_step {S : Type} `{!StoreAPI S} (op : NonceOp) : GoM S NonceAnswer :=
  match op with
  | Reserve wid c => '(v, _) ← st_IncrementPendingNonce wid c; mret (Reserved v)
  | Commit wid c n => st_AdvanceBroadcastNonce wid c n;; mret Committed
  | Rollback wid c n => r ← st_RollbackPendingNonce wid c n; mret (RolledBack r)
  | Read wid c => n ← st_GetNonce wid c; mret (Pair (n_PendingNonce n) (n_BroadcastNonce n))
  end.

(** ** The two stores *)
Section stores.
Context `{GoRuntime} `{UUIDLib} `{Environment} `{PgServer}.

#[local] Abbreviation mem_step := (nonce_step (S := World)).
#[local] Abbreviation pg_step := (nonce_step (S := PgWorld)).

(** What a store holds, as counters. *)
Definition mem_abs (w : World) (st : Counters) : Prop := ∀ wid c,
  (pending wid c w, broadcast wid c w) = counters st (wid, c).

Definition both (n : Nonce) : Z * Z := (n_PendingNonce n, n_BroadcastNonce n).

Record pg_abs (wids : gset uuid) (room : Z) (w : PgWorld) (st : Counters) : Prop := {
  pa_tx : pw_Tx w = None;
  pa_valid : valid (pw_DB w) = true;
  pa_rows k : both <$> pg_nonces (pw_DB w) !! k = st !! k;
  pa_version k n : pg_nonces (pw_DB w) !! k = Some n → 0 ≤ n_Version n ≤ 2 ^ 31 - 1 - room;
  pa_wallets wid : wid ∈ wids → is_Some (pg_wallets (pw_DB w) !! wid);
  pa_room : room ≤ 2 ^ 31 - 1
}.

(** ** The in-memory store *)
Lemma nonce_row_other wid c w w' wid' c' :
  other_rows wid c w w' → (wid', c') ≠ (wid, c) →
  (pending wid' c' w', broadcast wid' c' w') = (pending wid' c' w, broadcast wid' c' w).
Proof.
  intros Ho Hne. unfold pending, broadcast, nonce_row. rewrite Ho; [done|].
  intros [-> ->]%nonceKey_inj. done.
Qed.

(** A row has changed as the specification says, and no other. *)
Lemma mem_abs_update wid c w w' st p b :
  mem_abs w st → other_rows wid c w w' → pending wid c w' = p → broadcast wid c w' = b →
  mem_abs w' (<[(wid, c) := (p, b)]> st).
Proof.
  intros Ha Ho Hp Hb wid' c'. unfold counters.
  destruct (decide ((wid', c') = (wid, c))) as [[= -> ->]|Hne].
  - rewrite lookup_insert_eq. simpl. congruence.
  - rewrite lookup_insert_ne by congruence. rewrite (nonce_row_other wid c w w') by done. apply Ha.
Qed.

Lemma mem_abs_same wid c w w' st :
  mem_abs w st → other_rows wid c w w' →
  pending wid c w' = pending wid c w → broadcast wid c w' = broadcast wid c w → mem_abs w' st.
Proof.
  intros Ha Ho Hp Hb wid' c'. destruct (decide ((wid', c') = (wid, c))) as [[= -> ->]|Hne].
  - rewrite Hp, Hb. apply Ha.
  - rewrite (nonce_row_other wid c w w') by done. apply Ha.
Qed.

#[export] Instance mem_step_refines wids :
  Refines spec_step (admissible wids) mem_step (λ _, mem_abs).
Proof.
  intros _ op w st Ha _ Hadm. destruct op as [wid c|wid c n|wid c n|wid c]; simpl in *;
    pose proof (Ha wid c) as Hk; destruct (counters st (wid, c)) as [p b]; injection Hk as <- <-.
  - destruct (IncrementPendingNonce_spec wid c w) as (v & w' & Hr & Hp & Hb & Ho & _).
    exists w'. go_run. rewrite Hr. split; [done|].
    rewrite int64_succ_lt in Hp by (simpl in Hadm; lia). by eapply mem_abs_update.
  - destruct (AdvanceBroadcastNonce_spec wid c n w) as (w' & Hr & Hp & Hb & Ho).
    exists w'. go_run. rewrite Hr. split; [done|].
    rewrite int64_succ_lt in Hb by lia. by eapply mem_abs_update.
  - destruct (RollbackPendingNonce_spec wid c n w Hadm) as (r & w' & Hr & Hp & Hb & Ho & ->).
    exists w'. go_run. rewrite Hr. unfold rolled_back in Hp. rewrite int64_succ_lt in * by lia.
    destruct (_ =? _); (split; [done|]); [by eapply mem_abs_update|by eapply mem_abs_same].
  - exists w. by split.
Qed.

(** ** The Postgres store *)

Lemma valid_put_nonce d k n :
  valid d = true → is_Some (pg_wallets d !! n_WalletID n) → int4 (n_Version n) = true →
  valid (put_nonces d (<[k := n]> (pg_nonces d))) = true.
Proof.
  intros Hv Hw Hi. unfold valid in *. rewrite !andb_true_iff in Hv |- *. destruct_and! Hv.
  split_and!; try done. unfold nonces_valid in *. rewrite andb_true_iff in *. destruct_and!.
  split; [|by apply all_rows_insert]. apply (all_rows_insert (λ r, bool_decide _)); [done|].
  by apply bool_decide_eq_true.
Qed.

Lemma row_wallet d k n :
  valid d = true → pg_nonces d !! k = Some n → is_Some (pg_wallets d !! n_WalletID n).
Proof.
  unfold valid, nonces_valid. rewrite !andb_true_iff. intros Hv Hk. destruct_and! Hv.
  by eapply references_spec.
Qed.

Lemma pg_abs_same wids room w st m :
  pg_abs wids (room + 1) w st → pg_abs wids room (MkPg (pw_DB w) None m) st.
Proof.
  intros [Ht Hv Hr Hver Hw Hm]. split; try done; [|lia]. intros k n Hk. specialize (Hver k n Hk).
  lia.
Qed.

(** A row written with the counters of the specification. *)
Lemma pg_abs_put wids room w st k n m pb :
  pg_abs wids (room + 1) w st → both n = pb → 0 ≤ n_Version n ≤ 2 ^ 31 - 1 - room → 0 ≤ room →
  is_Some (pg_wallets (pw_DB w) !! n_WalletID n) →
  pg_abs wids room (MkPg (put_nonces (pw_DB w) (<[k := n]> (pg_nonces (pw_DB w)))) None m)
    (<[k := pb]> st).
Proof.
  intros [Ht Hv Hr Hver Hw Hm] <- Hn Hroom Hex. split; simpl.
  - done.
  - apply valid_put_nonce; [done..|]. unfold int4. lia.
  - intros k'. destruct (decide (k' = k)) as [->|Hne].
    + by rewrite !lookup_insert_eq.
    + by rewrite !lookup_insert_ne by done.
  - intros k' n' [[_ <-]|[_ Hk']]%lookup_insert_Some; [done|].
    specialize (Hver k' n' Hk'). lia.
  - done.
  - lia.
Qed.

Context (Hf : no_faults) (Hc : commits_alone).

Lemma update_nonce_run (k : uuid * string) p (f : time → Nonce → Nonce) w n :
  pw_Tx w = None → valid (pw_DB w) = true → pg_nonces (pw_DB w) !! k = Some n →
  let n' := f (pg_clock (pw_Calls w)) n in
  n_WalletID n' = n_WalletID n → int4 (n_Version n') = true →
  statement (update_row pg_nonces put_nonces k p f) w =
    if p n then (Ok 1, MkPg (put_nonces (pw_DB w) (<[k := n']> (pg_nonces (pw_DB w)))) None
      (S (pw_Calls w)))
    else (Ok 0, MkPg (pw_DB w) None (S (pw_Calls w))).
Proof.
  intros Ht Hv Hk n' Hw Hi. destruct (p n) eqn:Hp.
  - apply statement_ok; [done|done| |].
    + unfold update_row. by rewrite Hk, Hp.
    + apply valid_put_nonce; [done| |done]. rewrite Hw. by eapply row_wallet.
  - apply statement_ok; [done|done| |done]. unfold update_row. by rewrite Hk, Hp.
Qed.

(** A reservation: a row that exists is counted up, a new one starts at one. *)
Lemma pg_reserve_run wid c w :
  pw_Tx w = None → valid (pw_DB w) = true → is_Some (pg_wallets (pw_DB w) !! wid) →
  (∀ n, pg_nonces (pw_DB w) !! (wid, c) = Some n →
    0 ≤ n_Version n < 2 ^ 31 - 1 ∧ 0 ≤ n_PendingNonce n < 2 ^ 63 - 1) →
  ∃ n' m, pg_IncrementPendingNonce wid c w =
      (Ok (default 0 (n_PendingNonce <$> pg_nonces (pw_DB w) !! (wid, c)), n_Version n'),
       MkPg (put_nonces (pw_DB w) (<[(wid, c) := n']> (pg_nonces (pw_DB w)))) None m) ∧
    is_Some (pg_wallets (pw_DB w) !! n_WalletID n') ∧
    match pg_nonces (pw_DB w) !! (wid, c) with
    | Some n => both n' = (n_PendingNonce n + 1, n_BroadcastNonce n) ∧
        n_Version n' = n_Version n + 1
    | None => both n' = (1, 0) ∧ n_Version n' = 1
    end.
Proof.
  intros Ht Hv Hw Hb. unfold pg_IncrementPendingNonce, next_nonce.
  set (k := (wid, c)) in *. destruct (pg_nonces (pw_DB w) !! k) as [n|] eqn:Hk.
  - destruct (Hb n eq_refl) as [Hver Hp].
    set (n' := MkNonce (n_WalletID n) (n_Chain n) (int64 (n_PendingNonce n + 1))
      (n_BroadcastNonce n) (int64 (n_Version n + 1)) (pg_clock (pw_Calls w))).
    assert (int64 (n_Version n + 1) = n_Version n + 1) as Hvn by (apply int64_succ_lt; lia).
    assert (is_Some (pg_wallets (pw_DB w) !! n_WalletID n)) as Hwn by by eapply row_wallet.
    assert (valid (put_nonces (pw_DB w) (<[k := n']> (pg_nonces (pw_DB w)))) = true) as Hv'.
    { apply valid_put_nonce; [done..|]. simpl. rewrite Hvn. unfold int4. lia. }
    eexists n', _. split; [|split; [done|]].
    + eapply (pg_InTx_run _ w _ _ (MkTx (pw_DB w) _ _ false)); try done.
      unfold query_row, attempt, mbind, GoM_bind.
      rewrite (statement_tx _ (begun w) _ Hf eq_refl eq_refl). unfold checked, select. simpl.
      rewrite Hv, Hk. simpl. erewrite statement_tx by done.
      unfold checked, update_row. simpl. rewrite Hk. simpl.
      fold n'. rewrite Hv'. simpl. reflexivity.
    + simpl. unfold both. simpl. by rewrite Hvn, int64_succ_lt by lia.
  - set (n' := MkNonce wid c 1 0 1 (pg_clock (pw_Calls w))).
    assert (valid (put_nonces (pw_DB w) (<[k := n']> (pg_nonces (pw_DB w)))) = true) as Hv'
      by by apply valid_put_nonce.
    eexists n', _. split; [|by split_and!].
    eapply (pg_InTx_run _ w _ _ (MkTx (pw_DB w) _ _ false)); try done.
    unfold query_row, attempt, mbind, GoM_bind.
    rewrite (statement_tx _ (begun w) _ Hf eq_refl eq_refl). unfold checked, select. simpl.
    rewrite Hv, Hk. simpl. erewrite statement_tx by done.
    unfold checked, insert_row. simpl. rewrite Hk. simpl. fold n'. rewrite Hv'. reflexivity.
Qed.

(** What the specification says of a row, and of none. *)
Lemma pg_abs_counters wids room w st k :
  pg_abs wids room w st →
  counters st k = match pg_nonces (pw_DB w) !! k with Some n => both n | None => (0, 0) end.
Proof.
  intros Ha. unfold counters. rewrite <-(pa_rows _ _ _ _ Ha). by destruct (_ !! k).
Qed.

#[export] Instance pg_step_refines wids :
  Refines spec_step (admissible wids) pg_step (pg_abs wids).
Proof.
  intros room op w st Ha Hroom Hadm. pose proof Ha as [Ht Hv Hr Hver Hw Hmax].
  destruct op as [wid c|wid c n|wid c n|wid c]; simpl in *;
    pose proof (pg_abs_counters _ _ _ _ (wid, c) Ha) as Hk; rewrite Hk in *.
  - destruct (pg_reserve_run wid c w Ht Hv (Hw wid (proj1 Hadm))) as (n' & m & Hrun & Hex & Hn').
    { intros n Hn. rewrite Hn in Hadm. simpl in Hadm. specialize (Hver _ _ Hn). lia. }
    unfold mbind, GoM_bind. rewrite Hrun.
    destruct (pg_nonces (pw_DB w) !! (wid, c)) as [n|] eqn:Hn; destruct Hn' as [Hb Hvn'];
      simpl; (eexists; split; [done|]).
    + specialize (Hver _ _ Hn). apply pg_abs_put; [done..|lia|lia|done].
    + apply pg_abs_put; [done..|lia|lia|done].
  - destruct Hadm as [Hs Hn]. rewrite <-Hr in Hs.
    destruct (pg_nonces (pw_DB w) !! (wid, c)) as [x|] eqn:Hx; [|by destruct Hs].
    unfold pg_AdvanceBroadcastNonce, mbind, GoM_bind. specialize (Hver _ _ Hx).
    erewrite update_nonce_run; [|done..|unfold int4; simpl; lia]. simpl.
    eexists. split; [done|].
    apply pg_abs_put; [done| |simpl; lia|lia|simpl; by eapply row_wallet].
    unfold both. simpl. by rewrite int64_succ_lt by lia.
  - unfold pg_RollbackPendingNonce, mbind, GoM_bind.
    assert (in_int64 (n + 1)) as Hin by (unfold in_int64; lia).
    assert ((0 =? n + 1) = false) as Hz by (apply Z.eqb_neq; lia).
    destruct (pg_nonces (pw_DB w) !! (wid, c)) as [x|] eqn:Hx.
    + specialize (Hver _ _ Hx). simpl.
      assert (∀ f, statement (λ now d, if bool_decide (in_int64 (n + 1)) then f now d
        else Err ErrRange) w = statement f w) as ->.
      { intros f. unfold statement, checked. by rewrite bool_decide_true. }
      erewrite update_nonce_run; [|done..|unfold int4; simpl; lia].
      destruct (n_PendingNonce x =? n + 1) eqn:Hp; (eexists; split; [done|]).
      * apply pg_abs_put; [done|done|simpl; lia|lia|simpl; by eapply row_wallet].
      * by apply pg_abs_same.
    + cbn beta iota. rewrite Hz.
      erewrite statement_ok; [|done|done| |exact Hv].
      2: { rewrite bool_decide_true by done. unfold update_row. by rewrite Hx. }
      eexists. split; [done|]. by apply pg_abs_same.
  - unfold pg_GetNonce, mbind, GoM_bind, attempt. rewrite query_row_auto by done.
    destruct (pg_nonces (pw_DB w) !! (wid, c)) as [x|] eqn:Hx; simpl;
      (eexists; split; [done|]); by apply pg_abs_same.
Qed.

(** The two stores refine one specification.  From an in-memory store and a
    Postgres database that hold the same nonce counters, with a server that neither
    fails nor has other clients, every sequence of admissible reservations,
    commits, rollbacks and reads gets the answers of the abstract counters from
    both, and leaves both holding the same counters. *)
Theorem nonce_stores_refine wids ops st w pw :
  mem_abs w st → pg_abs wids (Z.of_nat (length ops)) pw st →
  all_admissible spec_step (admissible wids) ops st →
  let '(answers, st') := spec_run spec_step ops st in
  ∃ w' pw', run_all mem_step ops w = (Ok answers, w') ∧
    run_all pg_step ops pw = (Ok answers, pw') ∧
    mem_abs w' st' ∧ pg_abs wids 0 pw' st'.
Proof.
  intros Hm Hp Hadm.
  destruct (run_refines spec_step (admissible wids) mem_step (λ _, mem_abs) ops w st Hm Hadm)
    as (w' & Hr & Hm').
  destruct (run_refines spec_step (admissible wids) pg_step (pg_abs wids) ops pw st Hp Hadm)
    as (pw' & Hr' & Hp').
  destruct (spec_run spec_step ops st). by exists w', pw'.
Qed.
End stores.

(** ** What a client of either store can rely on *)
Lemma counters_insert st k k' v :
  counters (<[k := v]> st) k' = if decide (k' = k) then v else counters st k'.
Proof.
  unfold counters. case_decide; [subst; by rewrite lookup_insert_eq|].
  by rewrite lookup_insert_ne.
Qed.

(** The counter stays above a nonce that has been handed out, unless that one is
    rolled back. *)
Lemma above_step wid c n op st :
  n < (counters st (wid, c)).1 → op ≠ Rollback wid c n →
  n < (counters (spec_step op st).2 (wid, c)).1.
Proof.
  intros Hn Hop. destruct op as [wid' c'|wid' c' m|wid' c' m|wid' c']; simpl;
    destruct (counters st (wid', c')) as [p b] eqn:Hk; simpl.
  - rewrite counters_insert. case_decide as Heq; [|done]. injection Heq as -> ->.
    rewrite Hk in Hn. simpl in *. lia.
  - rewrite counters_insert. case_decide as Heq; [|done]. injection Heq as -> ->.
    by rewrite Hk in Hn.
  - destruct (Z.eqb_spec p (m + 1)); [|done]. simpl. rewrite counters_insert.
    case_decide as Heq; [|done]. injection Heq as -> ->. rewrite Hk in Hn. simpl in *.
    assert (m ≠ n) by congruence. lia.
  - done.
Qed.

Lemma above_run wid c n ops st :
  n < (counters st (wid, c)).1 → Rollback wid c n ∉ ops →
  n < (counters (spec_run spec_step ops st).2 (wid, c)).1.
Proof.
  revert st. induction ops as [|op ops IH]; intros st Hn Hops; [done|].
  apply not_elem_of_cons in Hops as [Hop Hops]. simpl.
  pose proof (above_step wid c n op st Hn (not_eq_sym Hop)) as H1.
  destruct (spec_step op st) as [a st1]. specialize (IH st1 H1 Hops).
  by destruct (spec_run spec_step ops st1).
Qed.

(** A nonce is handed out twice only when it was returned, on every store that
    implements the counters: if two reservations for a wallet and chain answer the
    same nonce, that nonce was rolled back in between, whatever else was called. *)
Theorem nonces_reserved_once {S} (step : NonceOp → GoM S NonceAnswer) adm abs
    `{!Refines spec_step adm step abs} st w wid c mid n answers w' :
  let ops := Reserve wid c :: mid ++ [Reserve wid c] in
  abs (Z.of_nat (length ops)) w st → all_admissible spec_step adm ops st →
  run_all step ops w = (Ok answers, w') →
  head answers = Some (Reserved n) → last answers = Some (Reserved n) →
  Rollback wid c n ∈ mid.
Proof.
  intros ops Ha Hadm Hrun Hfirst Hlast.
  destruct (run_refines spec_step adm step abs ops w st Ha Hadm) as (w1 & Hr & _).
  rewrite Hrun in Hr. injection Hr as Hans _. revert Hfirst Hlast. subst answers. subst ops.
  cbn [spec_run spec_step]. destruct (counters st (wid, c)) as [p b] eqn:Hk.
  rewrite spec_run_app. set (st1 := <[(wid, c) := (p + 1, b)]> st).
  destruct (decide (Rollback wid c n ∈ mid)) as [Hin|Hin]; [done|].
  intros Hfirst Hlast. exfalso.
  assert (p = n) as ->.
  { destruct (spec_run spec_step mid st1) as [lm st2]. simpl in Hfirst.
    destruct (counters st2 (wid, c)). simpl in Hfirst. congruence. }
  assert (n < (counters st1 (wid, c)).1) as H1.
  { unfold st1. rewrite counters_insert, decide_True by done. simpl. lia. }
  pose proof (above_run wid c n mid st1 H1 Hin) as H2.
  destruct (spec_run spec_step mid st1) as [lm st2]. simpl in *.
  destruct (counters st2 (wid, c)) as [p2 b2]. simpl in *.
  rewrite app_comm_cons, last_snoc in Hlast. injection Hlast as ->. lia.
Qed.

(** ** Witnesses *)
Section witnesses.
#[local] Existing Instances ref_runtime ref_uuid ref_env ref_pg.
#[local] Abbreviation mem_step := (nonce_step (S := World)).
#[local] Abbreviation pg_step := (nonce_step (S := PgWorld)).

Definition nonce_ops : list NonceOp :=
  [Reserve (uuid_of_Z 1) "ethereum"; Reserve (uuid_of_Z 1) "ethereum";
   Rollback (uuid_of_Z 1) "ethereum" 1; Commit (uuid_of_Z 1) "ethereum" 0;
   Read (uuid_of_Z 1) "ethereum"].

Definition one_wallet : PgWorld :=
  MkPg (put_wallets empty_db {[uuid_of_Z 1 := pg_wallet]}) None 0.

Lemma one_wallet_counters room :
  room ≤ 2 ^ 31 - 1 → pg_abs {[uuid_of_Z 1]} room one_wallet ∅.
Proof.
  intros Hroom. split.
  - reflexivity.
  - vm_compute. reflexivity.
  - intros k. reflexivity.
  - intros k n Hk. change (pg_nonces (pw_DB one_wallet)) with (∅ : gmap (uuid * string) Nonce) in Hk.
    by rewrite lookup_empty in Hk.
  - intros wid ->%elem_of_singleton. exists pg_wallet. reflexivity.
  - exact Hroom.
Qed.

Lemma nonce_stores_refine_witness :
  let '(answers, st') := spec_run spec_step nonce_ops ∅ in
  ∃ w' pw', run_all mem_step nonce_ops initial_world = (Ok answers, w') ∧
    run_all pg_step nonce_ops one_wallet = (Ok answers, pw') ∧
    mem_abs w' st' ∧ pg_abs {[uuid_of_Z 1]} 0 pw' st'.
Proof.
  apply (nonce_stores_refine ref_pg_no_faults ref_commits_alone {[uuid_of_Z 1]} nonce_ops ∅
    initial_world one_wallet).
  - intros wid c. reflexivity.
  - by apply one_wallet_counters.
  - split_and!; try set_solver; try done; try (vm_compute; by eexists).
Defined.

(** A client of the Postgres store that reserves, returns and reserves again. *)
Definition reserve_again : list NonceOp :=
  [Reserve (uuid_of_Z 1) "ethereum"; Rollback (uuid_of_Z 1) "ethereum" 0;
   Reserve (uuid_of_Z 1) "ethereum"].

Lemma nonces_reserved_once_witness :
  Rollback (uuid_of_Z 1) "ethereum" 0 ∈ [Rollback (uuid_of_Z 1) "ethereum" 0].
Proof.
  pose proof (pg_step_refines ref_pg_no_faults ref_commits_alone {[uuid_of_Z 1]}) as Href.
  apply (nonces_reserved_once pg_step (admissible {[uuid_of_Z 1]}) (pg_abs {[uuid_of_Z 1]}) ∅
    one_wallet (uuid_of_Z 1) "ethereum" [Rollback (uuid_of_Z 1) "ethereum" 0] 0
    [Reserved 0; RolledBack 1; Reserved 0] (run_all pg_step reserve_again one_wallet).2).
  - by apply one_wallet_counters.
  - split_and!; try set_solver; done.
  - apply run_eq. vm_compute. reflexivity.
  - reflexivity.
  - reflexivity.
Defined.
(** A nonce that is reserved, rolled back and reserved again has version 3 in memory and
    version 2 in Postgres: a rollback counts as a change in one store and not in the
    other. *)
Definition again {S : Type} `{!StoreAPI S} : GoM S (Z * Z) :=
  st_IncrementPendingNonce (uuid_of_Z 1) "ethereum";;
  st_RollbackPendingNonce (uuid_of_Z 1) "ethereum" 0;;
  st_IncrementPendingNonce (uuid_of_Z 1) "ethereum".

Lemma nonce_versions_differ :
  (again (S := World) initial_world).1 = Ok (0, 3) ∧
  (again (S := PgWorld) one_wallet).1 = Ok (0, 2).
Proof. split; vm_compute; reflexivity. Qed.
End witnesses.
