(* ===== verification/UtxoRefinement.v ===== *)
(** * UtxoRefinement: both stores implement the same table of outputs

    The abstract table holds the rows themselves: owner, value, script type,
    confirmations, lock state and transaction hash, with two things put in a form the
    stores share.  A value is the text NUMERIC(38,18) prints for it, since the in-memory
    store keeps the text it was given; and of the times of locking and spending only
    whether they are set is kept, since each store has its own clock.  The in-memory
    store and the Postgres store simulate this table for every sequence of insertions,
    reservations, spends, releases, prunings and listings of the kind the service makes. *)
From stdpp Require Import base tactics numbers gmap strings pretty list sorting fin_maps.
From Stdlib Require Import ZArith Lia Sorted.
From S2P Require Import Prelude.
From S2P Require Import GoLang.
From S2P Require Import Domain.
From S2P Require Import World.
From S2P Require Import Reference.
From S2P Require Import MemStore.
From S2P Require Import MemStoreFacts.
From S2P Require Import MemStoreProps.
From S2P Require Import Utxo.
From S2P Require Import PgEngine.
From S2P Require Import PgReference.
From S2P Require Import Postgres.
From S2P Require Import PostgresFacts.
From S2P Require Import PostgresProps.
From S2P Require Import PostgresRuns.
From S2P Require Import PostgresServices.
From S2P Require Import StoreInterface.
From S2P Require Import Refinement.
From S2P Require Import NonceRefinement.

#[local] Open Scope string_scope.
#[local] Open Scope list_scope.
#[local] Open Scope Z_scope.

(** ** The specification *)
Abbreviation Outputs := (gmap string UTXO).

Inductive UtxoOp : Type :=
  | Track (u : UTXO)
  | LockAll (ops : list string)
  | Spend (ops : list string) (tx : string)
  | Release (ops : list string)
  | Prune (ops : list string)
  | ListFree (wid : uuid).

Inductive UtxoAnswer : Type :=
  | Done
  | Refused
  | Listed (l : list UTXO).

Definition string_le (s t : string) : Prop := string_lt t s = false.

#[export] Instance string_le_dec s t : Decision (string_le s t).
Proof. unfold string_le. apply _. Defined.

(** A time that is set. *)
Definition stamped : option time → option time := fmap (λ _, 0).

Section specification.
Context `{PgServer}.

(** A row without its clock readings, its value as NUMERIC prints it. *)
Definition view (u : UTXO) : UTXO :=
  MkUTXO (u_Outpoint u) (u_WalletID u) (default (u_Value u) (numeric (u_Value u)))
    (u_ScriptType u) (u_Confirmations u) (u_LockState u) (stamped (u_LockedAt u))
    (stamped (u_SpentAt u)) (u_TxHash u) 0.

Definition row_locked (u : UTXO) : UTXO :=
  MkUTXO (u_Outpoint u) (u_WalletID u) (u_Value u) (u_ScriptType u) (u_Confirmations u)
    UTXOLockStateLocked (Some 0) (u_SpentAt u) (u_TxHash u) 0.
Definition row_spent (tx : string) (u : UTXO) : UTXO :=
  MkUTXO (u_Outpoint u) (u_WalletID u) (u_Value u) (u_ScriptType u) (u_Confirmations u)
    UTXOLockStateSpent (u_LockedAt u) (Some 0) tx 0.
Definition row_released (u : UTXO) : UTXO :=
  MkUTXO (u_Outpoint u) (u_WalletID u) (u_Value u) (u_ScriptType u) (u_Confirmations u)
    UTXOLockStateFree None None "" 0.

Definition set_rows (g : UTXO → UTXO) (ops : list string) (st : Outputs) : Outputs :=
  foldl (λ st op, alter g op st) st ops.

Definition all_free (st : Outputs) (ops : list string) : bool :=
  forallb (λ op, bool_decide (u_LockState <$> st !! op = Some UTXOLockStateFree)) ops.

(** The free outputs of a wallet in the order of their outpoints. *)
Definition free_outpoints (wid : uuid) (st : Outputs) : list string :=
  merge_sort string_le
    (fst <$> List.filter (λ kv, free_of wid kv.2) (map_to_list st)).

Definition free_outputs (wid : uuid) (st : Outputs) : list UTXO :=
  omap (λ op, st !! op) (free_outpoints wid st).

Definition utxo_spec (op : UtxoOp) (st : Outputs) : UtxoAnswer * Outputs :=
  match op with
  | Track u =>
      match st !! u_Outpoint u with
      | Some _ => (Refused, st)
      | None => (Done, <[u_Outpoint u := view u]> st)
      end
  | LockAll ops =>
      if all_free st ops then (Done, set_rows row_locked ops st) else (Refused, st)
  | Spend ops tx => (Done, set_rows (row_spent tx) ops st)
  | Release ops => (Done, set_rows row_released ops st)
  | Prune ops => (Done, foldl (λ st op, delete op st) st ops)
  | ListFree wid => (Listed (free_outputs wid st), st)
  end.

(** ** Tables of rows *)
Definition table_abs (m : gmap string UTXO) (st : Outputs) : Prop :=
  view <$> m = st ∧ utxos_ok m.

Lemma table_lookup m st op : table_abs m st → st !! op = view <$> m !! op.
Proof. intros [<- _]. apply lookup_fmap. Qed.

Lemma table_insert m st u u' :
  table_abs m st → view u' = view u → u_Outpoint u' = u_Outpoint u →
  table_abs (<[u_Outpoint u := u']> m) (<[u_Outpoint u := view u]> st).
Proof.
  intros [<- Hok] Hv Hop. split; [by rewrite fmap_insert, Hv|].
  intros op x [[<- <-]|[_ Hx]]%lookup_insert_Some; [done|by apply Hok].
Qed.

(** A row that is replaced. *)
Lemma table_update m st op u u' g :
  table_abs m st → m !! op = Some u → view u' = g (view u) → u_Outpoint u' = u_Outpoint u →
  table_abs (<[op := u']> m) (alter g op st).
Proof.
  intros [<- Hok] Hu Hv Hop. split.
  - rewrite fmap_insert, Hv. apply map_eq. intros k. rewrite lookup_insert, lookup_alter.
    case_decide; [subst|done]. by rewrite lookup_fmap, Hu.
  - intros k x [[<- <-]|[_ Hx]]%lookup_insert_Some; [|by apply Hok].
    rewrite Hop. by apply Hok.
Qed.

Lemma table_alter m st op f g :
  (∀ u, view (f u) = g (view u) ∧ u_Outpoint (f u) = u_Outpoint u) →
  table_abs m st → table_abs (alter f op m) (alter g op st).
Proof.
  intros Hf [<- Hok]. split.
  - apply map_eq. intros k. rewrite lookup_fmap, !lookup_alter, !lookup_fmap.
    case_decide; [subst|done]. destruct (m !! k) as [u|]; [|done]. simpl. by rewrite (proj1 (Hf u)).
  - intros k x. rewrite lookup_alter. case_decide; [subst|by apply Hok].
    destruct (m !! k) as [u|] eqn:Hu; [|done]. intros [= <-].
    rewrite (proj2 (Hf u)). by apply Hok.
Qed.

Lemma table_delete m st op : table_abs m st → table_abs (delete op m) (delete op st).
Proof.
  intros [<- Hok]. split; [apply fmap_delete|]. intros k u [_ Hu]%lookup_delete_Some.
  by apply Hok.
Qed.

Lemma table_free m st op :
  table_abs m st →
  bool_decide (u_LockState <$> st !! op = Some UTXOLockStateFree) =
    match m !! op with Some u => u_LockState u =s UTXOLockStateFree | None => false end.
Proof.
  intros Ha. rewrite (table_lookup _ _ _ Ha). destruct (m !! op) as [u|]; simpl.
  - apply bool_decide_ext. split; [by intros [= ->]|by intros ->].
  - done.
Qed.

Lemma set_rows_known g ops st op :
  is_Some (st !! op) → is_Some (set_rows g ops st !! op).
Proof.
  revert st. induction ops as [|o ops IH]; intros st Hs; [done|]. apply IH.
  rewrite lookup_alter. case_decide; subst; [by apply fmap_is_Some|done].
Qed.

Lemma all_free_alter st op ops f :
  op ∉ ops → all_free (alter f op st) ops = all_free st ops.
Proof.
  intros Hn. unfold all_free. induction ops as [|o ops IH]; [done|]. simpl.
  apply not_elem_of_cons in Hn as [Hne Hn].
  rewrite lookup_alter_ne by done. by rewrite IH.
Qed.

(** *** The order of the listing *)
#[export] Instance string_le_antisymm : AntiSymm (=) string_le.
Proof.
  intros x. unfold string_le. induction x as [|a x IH]; intros [|b y]; simpl; try done.
  rewrite (N.compare_antisym (Ascii.N_of_ascii a)).
  destruct (N.compare_spec (Ascii.N_of_ascii a) (Ascii.N_of_ascii b)) as [Hab|Hab|Hab];
    simpl; try done.
  intros Hx Hy. f_equal; [|by apply IH].
  rewrite <-(Ascii.ascii_N_embedding a), Hab. apply Ascii.ascii_N_embedding.
Qed.

#[export] Instance string_le_total : Total string_le.
Proof.
  intros x y. unfold string_le. destruct (string_lt y x) eqn:Hyx; [|by left]. right.
  destruct (string_lt x y) eqn:Hxy; [|done]. exfalso.
  pose proof (sw_trans _ string_lt_strict_weak _ _ _ Hxy Hyx) as Hxx.
  by rewrite (sw_irrefl _ string_lt_strict_weak) in Hxx.
Qed.

#[export] Instance string_le_trans : Transitive string_le.
Proof.
  intros x y z. unfold string_le. intros Hyx Hzy.
  destruct (string_lt z x) eqn:Hzx; [|done].
  destruct (sw_negtrans _ string_lt_strict_weak _ y _ Hzx); congruence.
Qed.

Lemma free_rows_perm m st wid :
  table_abs m st → u_Outpoint <$> List.filter (free_of wid) (rows_of m) ≡ₚ free_outpoints wid st.
Proof.
  intros [<- Hok]. unfold free_outpoints, rows_of. rewrite merge_sort_Permutation.
  assert (Forall (λ kv, u_Outpoint kv.2 = kv.1) (map_to_list m)) as Hl.
  { apply Forall_forall. intros [k u] Hin%elem_of_map_to_list. by apply Hok. }
  rewrite map_to_list_fmap. revert Hl. generalize (map_to_list m) as l.
  induction l as [|[k u] l IH]; intros Hl; [done|]. apply Forall_cons in Hl as [Hku Hl].
  simpl in *. specialize (IH Hl). change (free_of wid (view u)) with (free_of wid u).
  destruct (free_of wid u); simpl; [by rewrite Hku, IH|done].
Qed.

(** The rows a listing returns, from their outpoints. *)
Lemma rows_listed m st (l : list UTXO) :
  table_abs m st → (∀ u, u ∈ l → u ∈ rows_of m) →
  omap (λ op, st !! op) (u_Outpoint <$> l) = view <$> l.
Proof.
  intros [<- Hok] Hl. induction l as [|u l IH]; [done|]. csimpl.
  assert (u ∈ rows_of m) as ([k u'] & -> & Hu%elem_of_map_to_list)%list_elem_of_fmap
    by (apply Hl; set_solver).
  simpl in *. rewrite (Hok _ _ Hu), lookup_fmap, Hu. simpl. f_equal. apply IH.
  intros x Hx. apply Hl. set_solver.
Qed.

(** A sorted listing of the free rows is the listing of the specification. *)
Lemma listing_unique m st wid l :
  table_abs m st → l ≡ₚ List.filter (free_of wid) (rows_of m) →
  StronglySorted (λ x y, string_lt (u_Outpoint y) (u_Outpoint x) = false) l →
  view <$> l = free_outputs wid st.
Proof.
  intros Ha Hp Hs. rewrite <-(rows_listed m st l Ha).
  - unfold free_outputs. f_equal. apply (StronglySorted_unique string_le).
    + by apply (StronglySorted_map string_le u_Outpoint).
    + apply StronglySorted_merge_sort; apply _.
    + by rewrite Hp, (free_rows_perm m st wid Ha).
  - intros u. rewrite Hp. intros Hu%list_elem_of_In%filter_In.
    apply list_elem_of_In, Hu.
Qed.

End specification.

(** ** The two stores *)

(** Whether the call succeeded. *)
Definition answer {S} (m : GoM S unit) : GoM S UtxoAnswer :=
  r ← attempt m; mret (if is_ok r then Done else Refused).

(** The calls, on any store. *)
Definition utxo_step `{PgServer} {S : Type} `{!StoreAPI S} (op : UtxoOp) : GoM S UtxoAnswer :=
  match op with
  | Track u => answer (st_InsertUTXO u)
  | LockAll ops => answer (st_LockUTXOs ops)
  | Spend ops tx => answer (st_MarkUTXOsSpent ops tx)
  | Release ops => answer (st_RestoreUTXOs ops)
  | Prune ops => answer (st_PruneUTXOs ops)
  | ListFree wid => l ← st_ListFreeUTXOs wid; mret (Listed (view <$> l))
  end.

Section stores.
Context `{GoRuntime} `{UUIDLib} `{Environment} `{PgServer}.
#[local] Abbreviation mem_utxo_step := (utxo_step (S := World)).
#[local] Abbreviation pg_utxo_step := (utxo_step (S := PgWorld)).


(** The calls on which the stores agree: outputs of known wallets with a value the
    schema can hold, reservations of distinct outputs, spends and releases of known
    ones. *)
Definition utxo_admissible (wids : gset uuid) (op : UtxoOp) (st : Outputs) : Prop :=
  match op with
  | Track u => u_WalletID u ∈ wids ∧ int4 (u_Confirmations u) = true ∧ is_Some (numeric (u_Value u))
  | LockAll ops => NoDup ops
  | Spend ops _ | Release ops => Forall (λ op, is_Some (st !! op)) ops
  | Prune _ | ListFree _ => True
  end.

#[export] Instance utxo_admissible_dec wids op st : Decision (utxo_admissible wids op st).
Proof. destruct op; simpl; apply _. Defined.

Definition mem_outputs (w : World) (st : Outputs) : Prop := table_abs (utxos (store w)) st.

Record pg_outputs (wids : gset uuid) (w : PgWorld) (st : Outputs) : Prop := {
  po_tx : pw_Tx w = None;
  po_valid : valid (pw_DB w) = true;
  po_table : table_abs (pg_utxos (pw_DB w)) st;
  po_wallets wid : wid ∈ wids → is_Some (pg_wallets (pw_DB w) !! wid)
}.

Lemma answer_ok {S} (m : GoM S unit) w w' : m w = (Ok tt, w') → answer m w = (Ok Done, w').
Proof. intros Hm. unfold answer, attempt, mbind, GoM_bind. by rewrite Hm. Qed.

Lemma answer_err {S} (m : GoM S unit) w e w' : m w = (Err e, w') → answer m w = (Ok Refused, w').
Proof. intros Hm. unfold answer, attempt, mbind, GoM_bind. by rewrite Hm. Qed.

(** *** The in-memory store *)
Lemma update_utxo_refines f g op w st :
  (∀ u, view (f u) = g (view u) ∧ u_Outpoint (f u) = u_Outpoint u) →
  mem_outputs w st → is_Some (st !! op) →
  ∃ w', update_utxo f op w = (Ok tt, w') ∧ mem_outputs w' (alter g op st).
Proof.
  intros Hf Ha Hs. rewrite (table_lookup _ _ _ Ha) in Hs.
  destruct (utxos (store w) !! op) as [u|] eqn:Hu; [|by destruct Hs].
  unfold update_utxo. go_run. rewrite Hu. eexists. split; [done|]. unfold mem_outputs. simpl.
  by eapply table_update; [..|apply (Hf u)|apply (Hf u)].
Qed.

Lemma mem_loop_refines f g ops w st :
  (∀ u, view (f u) = g (view u) ∧ u_Outpoint (f u) = u_Outpoint u) →
  mem_outputs w st → Forall (λ op, is_Some (st !! op)) ops →
  ∃ w', for_each ops (update_utxo f) w = (Ok tt, w') ∧ mem_outputs w' (set_rows g ops st).
Proof.
  intros Hf. apply (for_each_refines mem_outputs (λ op st, is_Some (st !! op))).
  - intros op w1 st1. by apply update_utxo_refines.
  - intros op y st1 Hs. by apply (set_rows_known g [y]).
Qed.

Lemma all_free_Forall w st ops :
  mem_outputs w st → all_free st ops = true ↔ Forall (Utxo.is_free w) ops.
Proof.
  intros Ha. unfold all_free. rewrite forallb_forall, Forall_forall.
  apply forall_proper. intros op. rewrite list_elem_of_In.
  rewrite (table_free _ _ _ Ha). unfold Utxo.is_free, utxo_at.
  destruct (utxos (store w) !! op) as [u|].
  - rewrite bool_decide_eq_true. naive_solver.
  - naive_solver.
Qed.

(** Reserving distinct outputs one after another or all at once is the same. *)
Lemma lock_table now ops m st :
  table_abs m st → table_abs (alter_all (lock_utxo now) ops m)
    (set_rows row_locked ops st).
Proof.
  revert m st. induction ops as [|op ops IH]; intros m st Ha; [done|]. apply IH.
  by apply table_alter.
Qed.

#[export] Instance mem_utxo_refines wids :
  Refines utxo_spec (utxo_admissible wids) mem_utxo_step (λ _, mem_outputs).
Proof.
  intros _ op w st Ha _ Hadm. destruct op as [u|ops|ops tx|ops|ops|wid]; simpl in *.
  - rewrite (table_lookup _ _ _ Ha). unfold InsertUTXO.
    destruct (utxos (store w) !! u_Outpoint u) as [u'|] eqn:Hu; simpl.
    + exists w. split; [|done]. eapply answer_err. go_run. by rewrite Hu.
    + eexists. split; [eapply answer_ok; go_run; by rewrite Hu|]. unfold mem_outputs. simpl.
      by apply table_insert.
  - destruct (LockUTXOs_spec ops w) as [[Hall Hr]|[Hall [e Hr]]];
      rewrite <-(all_free_Forall w st ops Ha) in Hall.
    + rewrite Hall. eexists. split; [by apply answer_ok|]. by apply lock_table.
    + apply not_true_is_false in Hall. rewrite Hall. exists w. by split; [eapply answer_err|].
  - destruct (mem_loop_refines (spend_utxo (clock (ticks w)) tx) (row_spent tx) ops
      (time_Now w).2 st) as (w' & Hr & Ha'); [done..|].
    exists w'. split; [|done]. apply answer_ok. exact Hr.
  - destruct (mem_loop_refines (restore_utxo (clock (ticks w))) row_released ops
      (time_Now w).2 st) as (w' & Hr & Ha'); [done..|].
    exists w'. split; [|done]. apply answer_ok. exact Hr.
  - destruct (for_each_refines mem_outputs (λ _ _, True) (λ op, upd_store (λ s,
      set_utxos s (delete op (utxos s)))) (λ st op, delete op st)) with (l := ops) (w := w) (st := st)
      as (w' & Hr & Ha'); [|done..|by apply Forall_true|].
    { intros op w1 st1 Ha1 _. eexists. split; [done|]. by apply table_delete. }
    exists w'. split; [by apply answer_ok|done].
  - exists w. split; [|done]. unfold ListFreeUTXOs. go_run. do 2 f_equal. apply (f_equal Listed).
    eapply listing_unique; [exact Ha| |].
    + rewrite sort_Slice_perm. unfold range_filter, rows_of. by rewrite range_map_perm.
    + apply (sort_Slice_sorted (λ x y, string_lt (u_Outpoint x) (u_Outpoint y))).
      apply strict_weak_on, string_lt_strict_weak.
Qed.

(** *** The Postgres store *)
(** What the schema asks of a row of [utxos]. *)
Definition row_ok (d : PgDB) (u : UTXO) : Prop :=
  is_Some (pg_wallets d !! u_WalletID u) ∧ int4 (u_Confirmations u) = true.

Lemma utxos_valid_rows d m :
  utxos_valid (put_utxos d m) = true ↔ map_Forall (λ _ u, row_ok d u) m.
Proof.
  unfold utxos_valid, references. simpl. rewrite andb_true_iff.
  change (forallb ?p (rows_of m)) with (all_rows p m).
  rewrite !all_rows_Forall. unfold row_ok. split.
  - intros [Hw Hc] k u Hu. split; [eapply bool_decide_eq_true, Hw|eapply Hc]; exact Hu.
  - intros Hall. split; intros k u Hu; [apply bool_decide_eq_true|]; by eapply Hall.
Qed.

Lemma valid_rows d : valid d = true → map_Forall (λ _ u, row_ok d u) (pg_utxos d).
Proof.
  intros Hv. apply utxos_valid_rows. unfold valid in Hv. rewrite !andb_true_iff in Hv.
  destruct_and! Hv. by destruct d.
Qed.

Lemma valid_put_utxos d m :
  valid d = true → map_Forall (λ _ u, row_ok d u) m → valid (put_utxos d m) = true.
Proof.
  intros Hv Hm%utxos_valid_rows. unfold valid in *. rewrite !andb_true_iff in Hv |- *.
  destruct_and! Hv. by split_and!.
Qed.

Context (wids : gset uuid) (Hf : no_faults) (Hc : commits_alone).
Context (Hb : bytewise_collation).

Lemma pg_outputs_put w st m st' n :
  pg_outputs wids w st → map_Forall (λ _ u, row_ok (pw_DB w) u) m → table_abs m st' →
  pg_outputs wids (MkPg (put_utxos (pw_DB w) m) None n) st'.
Proof. intros [Ht Hv Ha Hw] Hm Ha'. split; try done. by apply valid_put_utxos. Qed.

(** An UPDATE of one row that exists: the row as read is what the specification says,
    and its owner, outpoint and confirmations stay. *)
Definition updates (f : time → UTXO → UTXO) (g : UTXO → UTXO) : Prop := ∀ now u,
  view (f now u) = g (view u) ∧ u_Outpoint (f now u) = u_Outpoint u ∧
  u_WalletID (f now u) = u_WalletID u ∧ u_Confirmations (f now u) = u_Confirmations u.

Lemma pg_update_refines f g op w st :
  updates f g → pg_outputs wids w st → is_Some (st !! op) →
  ∃ w', (statement (update_row pg_utxos put_utxos op always f);; mret tt) w = (Ok tt, w') ∧
    pg_outputs wids w' (alter g op st).
Proof.
  intros Hfu Hp Hs. pose proof Hp as [Ht Hv Ha Hw]. rewrite (table_lookup _ _ _ Ha) in Hs.
  destruct (pg_utxos (pw_DB w) !! op) as [u|] eqn:Hu; [|by destruct Hs].
  destruct (Hfu (pg_clock (pw_Calls w)) u) as (Hview & Hop & Hwid & Hconf).
  pose proof (valid_rows _ Hv op u Hu) as [Hwu Hcu].
  assert (map_Forall (λ _ u, row_ok (pw_DB w) u)
    (<[op := f (pg_clock (pw_Calls w)) u]> (pg_utxos (pw_DB w)))) as Hrows.
  { apply map_Forall_insert_2; [|by apply valid_rows].
    split; [by rewrite Hwid|by rewrite Hconf]. }
  eexists. split.
  - erewrite bind_Ok; [done|]. apply statement_ok; [done|done| |by apply valid_put_utxos].
    unfold update_row. rewrite Hu. done.
  - eapply pg_outputs_put; [done..|]. by eapply table_update.
Qed.

Lemma pg_loop_refines f g ops w st :
  updates f g → pg_outputs wids w st → Forall (λ op, is_Some (st !! op)) ops →
  ∃ w', for_each ops (λ op,
      statement (update_row pg_utxos put_utxos op always f);; mret tt) w = (Ok tt, w') ∧
    pg_outputs wids w' (set_rows g ops st).
Proof.
  intros Hfu. apply (for_each_refines (pg_outputs wids) (λ op st, is_Some (st !! op))).
  - intros op w1 st1. by apply pg_update_refines.
  - intros op y st1 Hs. by apply (set_rows_known g [y]).
Qed.

(** One output, inside the transaction. *)
Lemma lock_one_run op w tx :
  pw_Tx w = Some tx → tx_Failed tx = false → valid (tx_Work tx) = true →
  match pg_utxos (tx_Work tx) !! op with
  | Some u =>
      if u_LockState u =s UTXOLockStateFree then
        lock_one op w = (Ok tt, MkPg (pw_DB w) (Some (MkTx (tx_Start tx) (put_utxos (tx_Work tx)
          (<[op := sql_lock (tx_Now tx) u]> (pg_utxos (tx_Work tx)))) (tx_Now tx) false))
          (S (pw_Calls w)))
      else ∃ e w', lock_one op w = (Err e, w') ∧ pw_DB w' = pw_DB w
  | None => ∃ e w', lock_one op w = (Err e, w') ∧ pw_DB w' = pw_DB w
  end.
Proof.
  intros Htx Hok Hv. unfold lock_one, mbind, GoM_bind. erewrite statement_tx by done.
  unfold checked, update_row.
  destruct (pg_utxos (tx_Work tx) !! op) as [u|] eqn:Hu; [|rewrite Hv; by eexists _, _].
  change "FREE" with UTXOLockStateFree.
  destruct (u_LockState u =s UTXOLockStateFree); [|rewrite Hv; by eexists _, _].
  rewrite valid_put_utxos; [done..|]. apply map_Forall_insert_2; [|by apply valid_rows].
  exact (valid_rows _ Hv op u Hu).
Qed.

Lemma lock_loop ops w tx st :
  pw_Tx w = Some tx → tx_Failed tx = false → valid (tx_Work tx) = true →
  table_abs (pg_utxos (tx_Work tx)) st → NoDup ops →
  if all_free st ops then
    ∃ m n, for_each ops lock_one w = (Ok tt, MkPg (pw_DB w)
        (Some (MkTx (tx_Start tx) (put_utxos (tx_Work tx) m) (tx_Now tx) false)) n) ∧
      map_Forall (λ _ u, row_ok (tx_Work tx) u) m ∧
      table_abs m (set_rows row_locked ops st)
  else ∃ e w', for_each ops lock_one w = (Err e, w') ∧ pw_DB w' = pw_DB w.
Proof.
  revert w tx st. induction ops as [|op ops IH]; intros w tx st Htx Hok Hv Ha Hnd; simpl.
  { exists (pg_utxos (tx_Work tx)), (pw_Calls w). split_and!; [|by apply valid_rows|done..].
    unfold mret, GoM_ret. f_equal. destruct w as [d t n], tx as [s0 d0 now failed]. simpl in *.
    subst. by destruct d0. }
  apply NoDup_cons in Hnd as [Hn Hnd]. rewrite (table_free _ _ _ Ha).
  pose proof (lock_one_run op w tx Htx Hok Hv) as Hone. unfold mbind, GoM_bind.
  destruct (pg_utxos (tx_Work tx) !! op) as [u|] eqn:Hu; simpl.
  2: { destruct Hone as (e & w' & -> & Hd). by exists e, w'. }
  destruct (u_LockState u =s UTXOLockStateFree); simpl.
  2: { destruct Hone as (e & w' & -> & Hd). by exists e, w'. }
  rewrite Hone. set (m1 := <[op := sql_lock (tx_Now tx) u]> (pg_utxos (tx_Work tx))) in *.
  assert (map_Forall (λ _ u, row_ok (tx_Work tx) u) m1) as Hm1.
  { apply map_Forall_insert_2; [|by apply valid_rows]. exact (valid_rows _ Hv op u Hu). }
  assert (table_abs m1 (alter row_locked op st)) as Ha1
    by by eapply table_update.
  specialize (IH (MkPg (pw_DB w) (Some (MkTx (tx_Start tx) (put_utxos (tx_Work tx) m1)
    (tx_Now tx) false)) (S (pw_Calls w))) _ _ eq_refl eq_refl (valid_put_utxos _ _ Hv Hm1) Ha1 Hnd).
  rewrite all_free_alter in IH by done. simpl in IH. destruct (all_free st ops); exact IH.
Qed.

Lemma pg_LockUTXOs_refines ops w st :
  pg_outputs wids w st → NoDup ops →
  if all_free st ops then
    ∃ w', pg_LockUTXOs ops w = (Ok tt, w') ∧
      pg_outputs wids w' (set_rows row_locked ops st)
  else ∃ e w', pg_LockUTXOs ops w = (Err e, w') ∧ pg_outputs wids w' st.
Proof.
  intros Hp Hnd. pose proof Hp as [Ht Hv Ha Hw].
  destruct ops as [|op ops]; [by exists w|]. unfold pg_LockUTXOs.
  pose proof (lock_loop (op :: ops) (begun w) _ st eq_refl eq_refl Hv Ha Hnd) as Hl.
  destruct (all_free st (op :: ops)).
  - destruct Hl as (m & n & Hrun & Hm & Ha'). eexists. split.
    + eapply (pg_InTx_run _ w tt n (MkTx (pw_DB w) (put_utxos (pw_DB w) m) _ false)); try done.
      by apply valid_put_utxos.
    + by eapply pg_outputs_put.
  - destruct Hl as (e & w1 & Hrun & Hd). eexists e, _. split.
    + unfold pg_InTx. rewrite Hf. fold (begun w). by rewrite Hrun.
    + split; simpl; rewrite ?Hd; done.
Qed.

Lemma bytewise_sorted (l : list UTXO) :
  StronglySorted (λ x y, collate_lt (u_Outpoint y) (u_Outpoint x) = false) l →
  StronglySorted (λ x y, string_lt (u_Outpoint y) (u_Outpoint x) = false) l.
Proof.
  induction 1 as [|x l Hl IH Hx]; constructor; [done|].
  eapply Forall_impl; [exact Hx|]. intros y. simpl. by rewrite Hb.
Qed.

#[export] Instance pg_utxo_refines :
  Refines utxo_spec (utxo_admissible wids) pg_utxo_step (λ _, pg_outputs wids).
Proof.
  intros _ op w st Hp _ Hadm. pose proof Hp as [Ht Hv Ha Hw].
  destruct op as [u|ops|ops tx|ops|ops|wid]; simpl in *.
  - destruct Hadm as (Hwu & Hcu & [value Hval]). rewrite (table_lookup _ _ _ Ha).
    unfold pg_InsertUTXO, with_numeric. rewrite Hval.
    destruct (pg_utxos (pw_DB w) !! u_Outpoint u) as [u'|] eqn:Hu; simpl.
    + eexists. split; [eapply answer_err; rewrite statement_auto by done;
        unfold checked, insert_row; by rewrite Hu|]. by split.
    + eexists. split; [eapply answer_ok, statement_ok; [done|done| |]|].
      * unfold insert_row. by rewrite Hu.
      * apply valid_put_utxos; [done|]. apply map_Forall_insert_2; [|by apply valid_rows].
        split; [by apply Hw|done].
      * eapply pg_outputs_put; [done| |].
        { apply map_Forall_insert_2; [|by apply valid_rows]. split; [by apply Hw|done]. }
        apply table_insert; [done| |done]. unfold view. simpl.
        rewrite (numeric_idem _ _ Hval), Hval. by destruct (u_LockedAt u), (u_SpentAt u).
  - pose proof (pg_LockUTXOs_refines ops w st Hp Hadm) as Hl. destruct (all_free st ops).
    + destruct Hl as (w' & Hr & Hp'). exists w'. by split; [apply answer_ok|].
    + destruct Hl as (e & w' & Hr & Hp'). exists w'. by split; [eapply answer_err|].
  - edestruct (pg_loop_refines (λ now u, set_utxo "SPENT" (u_LockedAt u) (Some now) tx now u)
      (row_spent tx) ops w st) as (w' & Hr & Hp'); [done..|].
    exists w'. by split; [apply answer_ok|].
  - edestruct (pg_loop_refines (λ now u, set_utxo "FREE" None None "" now u)
      row_released ops w st) as (w' & Hr & Hp'); [done..|].
    exists w'. by split; [apply answer_ok|].
  - destruct (for_each_refines (pg_outputs wids) (λ _ _, True) (λ op, statement (λ _ d,
      Ok (tt, put_utxos d (delete op (pg_utxos d))))) (λ st op, delete op st))
      with (l := ops) (w := w) (st := st) as (w' & Hr & Hp'); [|done..|by apply Forall_true|].
    { intros op w1 st1 Hp1 _. pose proof Hp1 as [Ht1 Hv1 Ha1 Hw1].
      assert (map_Forall (λ _ u, row_ok (pw_DB w1) u) (delete op (pg_utxos (pw_DB w1)))) as Hm
        by by apply map_Forall_delete, valid_rows.
      eexists. split; [apply statement_ok; [done..|by apply valid_put_utxos]|].
      eapply pg_outputs_put; [done..|]. by apply table_delete. }
    exists w'. by split; [apply answer_ok|].
  - eexists. split.
    + erewrite bind_Ok; [|apply statement_ok; [done|done|done|exact Hv]]. simpl. unfold mret, GoM_ret.
      do 2 f_equal. apply (f_equal Listed). eapply listing_unique; [exact Ha| |].
      * apply order_by_perm.
      * pose proof (order_by_sorted (λ x y, collate_lt (u_Outpoint x) (u_Outpoint y))
          (List.filter (free_of wid) (rows_of (pg_utxos (pw_DB w))))
          (strict_weak_on _ _ collate_order)) as Hs.
        by eapply bytewise_sorted.
    + by split.
Qed.

(** C15. The two stores refine one table of outputs.  Take an in-memory store and a
    Postgres database that hold the same rows, up to the text of a value (compared as
    NUMERIC(38,18) prints it) and to the clock readings (compared only in whether a
    time of locking or spending is set), a server that neither fails nor has other
    clients, and a bytewise collation.  Every sequence of insertions of outputs of
    known wallets with a value and confirmations the schema can hold, reservations of
    distinct outpoints, spends and releases of known outpoints, prunings and listings
    then gets the answers of the abstract table from both, refusals, the rows listed
    and their order included, and leaves both holding the same rows. *)
Theorem utxo_stores_refine ops st w pw :
  mem_outputs w st → pg_outputs wids pw st →
  all_admissible utxo_spec (utxo_admissible wids) ops st →
  let '(answers, st') := spec_run utxo_spec ops st in
  ∃ w' pw', run_all mem_utxo_step ops w = (Ok answers, w') ∧
    run_all pg_utxo_step ops pw = (Ok answers, pw') ∧
    mem_outputs w' st' ∧ pg_outputs wids pw' st'.
Proof.
  intros Hm Hp Hadm.
  destruct (run_refines utxo_spec (utxo_admissible wids) mem_utxo_step (λ _, mem_outputs)
    ops w st Hm Hadm) as (w' & Hr & Hm').
  destruct (run_refines utxo_spec (utxo_admissible wids) pg_utxo_step (λ _, pg_outputs wids)
    ops pw st Hp Hadm) as (pw' & Hr' & Hp').
  destruct (spec_run utxo_spec ops st). by exists w', pw'.
Qed.
End stores.

(** ** What a client of either store can rely on *)

(** The operation makes the output available again. *)
Definition frees (o : string) (op : UtxoOp) : Prop :=
  match op with Release ops | Prune ops => o ∈ ops | _ => False end.

#[export] Instance frees_dec o op : Decision (frees o op).
Proof. destruct op; simpl; apply _. Defined.

Section clients.
Context `{PgServer}.

(** The table has the output, and it is not free. *)
Definition taken (o : string) (st : Outputs) : Prop :=
  ∃ x, st !! o = Some x ∧ u_LockState x ≠ UTXOLockStateFree.

Lemma set_rows_lookup g ops st o :
  o ∉ ops → set_rows g ops st !! o = st !! o.
Proof.
  revert st. induction ops as [|op ops IH]; intros st Hn; [done|].
  apply not_elem_of_cons in Hn as [Hne Hn]. cbn [set_rows foldl].
  fold (set_rows g ops (alter g op st)). rewrite IH by done. by rewrite lookup_alter_ne.
Qed.

Lemma foldl_delete_lookup ops (st : Outputs) o :
  o ∉ ops → foldl (λ st op, delete op st) st ops !! o = st !! o.
Proof.
  revert st. induction ops as [|op ops IH]; intros st Hn; [done|].
  apply not_elem_of_cons in Hn as [Hne Hn]. simpl. rewrite IH by done.
  by rewrite lookup_delete_ne.
Qed.

(** A change that leaves no row free keeps what is taken, and takes what it is about. *)
Lemma set_rows_taken g ops st o :
  (∀ x, u_LockState (g x) ≠ UTXOLockStateFree) →
  taken o st ∨ (o ∈ ops ∧ is_Some (st !! o)) → taken o (set_rows g ops st).
Proof.
  intros Hg. revert st. induction ops as [|op ops IH]; intros st Ht.
  { destruct Ht as [Ht|[Hin _]]; [done|by apply elem_of_nil in Hin]. }
  apply IH. destruct (decide (op = o)) as [->|Hne].
  - left. assert (is_Some (st !! o)) as [x Hx] by (destruct Ht as [(x & -> & _)|[_ Hx]]; done).
    exists (g x). by rewrite lookup_alter_eq, Hx.
  - destruct Ht as [(x & Hx & Hf)|[Hin Hx]].
    + left. exists x. by rewrite lookup_alter_ne.
    + right. rewrite lookup_alter_ne by done. set_solver.
Qed.

Lemma taken_step o op st : taken o st → ¬ frees o op → taken o (utxo_spec op st).2.
Proof.
  intros Ht Hn. destruct op as [u|ops|ops tx|ops|ops|wid]; simpl in *.
  - destruct (st !! u_Outpoint u) eqn:Hu; [done|]. destruct Ht as (x & Hx & Hne).
    exists x. split; [|done]. simpl. rewrite lookup_insert_ne; [done|congruence].
  - destruct (all_free st ops); [|done]. apply set_rows_taken; [done|by left].
  - apply set_rows_taken; [done|by left].
  - destruct Ht as (x & Hx & Hne). exists x. by rewrite set_rows_lookup.
  - destruct Ht as (x & Hx & Hne). exists x. by rewrite foldl_delete_lookup.
  - done.
Qed.

Lemma taken_run o ops st :
  taken o st → Forall (λ op, ¬ frees o op) ops → taken o (spec_run utxo_spec ops st).2.
Proof.
  revert st. induction ops as [|op ops IH]; intros st Ht Hall; [done|].
  apply Forall_cons in Hall as [Hop Hall]. simpl.
  pose proof (taken_step o op st Ht Hop) as Ht1. destruct (utxo_spec op st) as [a st1].
  specialize (IH st1 Ht1 Hall). by destruct (spec_run utxo_spec ops st1).
Qed.

Lemma taken_not_free o ops st : taken o st → o ∈ ops → all_free st ops = false.
Proof.
  intros (x & Hx & Hne) Hin. apply not_true_is_false. unfold all_free.
  rewrite forallb_forall. intros Hall. specialize (Hall o (proj1 (list_elem_of_In _ _) Hin)).
  rewrite Hx in Hall. apply bool_decide_eq_true in Hall. by injection Hall.
Qed.

Lemma all_free_taken o ops st :
  all_free st ops = true → o ∈ ops → taken o (set_rows row_locked ops st).
Proof.
  unfold all_free. rewrite forallb_forall. intros Hall Hin.
  apply set_rows_taken; [done|]. right. split; [done|].
  specialize (Hall o (proj1 (list_elem_of_In _ _) Hin)). apply bool_decide_eq_true in Hall.
  by destruct (st !! o).
Qed.

(** An output is reserved for one caller at a time, on every store that implements
    the table: between two successful reservations that both contain it, whatever else
    was called, it was released or pruned. *)
Theorem outputs_reserved_once {S} (step : UtxoOp → GoM S UtxoAnswer) adm abs
    `{!Refines utxo_spec adm step abs} st w l1 mid l2 o answers w' :
  let ops := LockAll l1 :: mid ++ [LockAll l2] in
  abs (Z.of_nat (length ops)) w st → all_admissible utxo_spec adm ops st →
  run_all step ops w = (Ok answers, w') →
  head answers = Some Done → last answers = Some Done → o ∈ l1 → o ∈ l2 →
  Exists (frees o) mid.
Proof.
  intros ops Ha Hadm Hrun Hfirst Hlast Ho1 Ho2.
  destruct (run_refines utxo_spec adm step abs ops w st Ha Hadm) as (w1 & Hr & _).
  rewrite Hrun in Hr. injection Hr as Hans _. revert Hfirst Hlast. subst answers. subst ops.
  cbn [spec_run utxo_spec]. destruct (all_free st l1) eqn:Hfree.
  2: { destruct (spec_run _ _ st). done. }
  pose proof (all_free_taken o l1 st Hfree Ho1) as Ht.
  destruct (Exists_dec (frees o) mid) as [He|He]; [done|].
  apply Forall_Exists_neg in He. intros _ Hlast. exfalso. revert Hlast.
  pose proof (taken_run o mid _ Ht He) as Ht'. rewrite spec_run_app.
  destruct (spec_run utxo_spec mid _) as [lm st2]. simpl in *.
  rewrite (taken_not_free o l2 st2 Ht' Ho2). simpl. rewrite app_comm_cons, last_snoc. done.
Qed.
End clients.

(** ** Witnesses *)
Section witnesses.
#[local] Existing Instances ref_runtime ref_uuid ref_env ref_pg.
#[local] Abbreviation mem_utxo_step := (utxo_step (S := World)).
#[local] Abbreviation pg_utxo_step := (utxo_step (S := PgWorld)).

Definition utxo_ops : list UtxoOp :=
  [Track (pg_utxo "b:1"); Track (pg_utxo "a:0"); Track (pg_utxo "a:0");
   ListFree (uuid_of_Z 1); LockAll ["a:0"; "b:1"]; LockAll ["b:1"]; Release ["b:1"];
   ListFree (uuid_of_Z 1); Spend ["a:0"] "tx"; Prune ["a:0"; "c:2"]].

Lemma one_wallet_outputs : pg_outputs {[uuid_of_Z 1]} one_wallet ∅.
Proof.
  split.
  - reflexivity.
  - vm_compute. reflexivity.
  - split; [reflexivity|apply map_Forall_empty].
  - intros wid ->%elem_of_singleton. exists pg_wallet. reflexivity.
Qed.

Lemma utxo_stores_refine_witness :
  let '(answers, st') := spec_run utxo_spec utxo_ops ∅ in
  ∃ w' pw', run_all mem_utxo_step utxo_ops initial_world = (Ok answers, w') ∧
    run_all pg_utxo_step utxo_ops one_wallet = (Ok answers, pw') ∧
    mem_outputs w' st' ∧ pg_outputs {[uuid_of_Z 1]} pw' st'.
Proof.
  apply (utxo_stores_refine {[uuid_of_Z 1]} ref_pg_no_faults ref_commits_alone ref_bytewise
    utxo_ops ∅
    initial_world one_wallet).
  - split; [reflexivity|apply map_Forall_empty].
  - apply one_wallet_outputs.
  - apply (bool_decide_unpack _). vm_compute. exact I.
Defined.

(** Two outputs in the table, and a client that reserves, releases and reserves. *)
Definition two_outputs : PgWorld :=
  (run_all pg_utxo_step [Track (pg_utxo "b:1"); Track (pg_utxo "a:0")] one_wallet).2.

Definition two_outputs_spec : Outputs :=
  (spec_run utxo_spec [Track (pg_utxo "b:1"); Track (pg_utxo "a:0")] ∅).2.

Lemma ref_pg_refines : Refines utxo_spec (utxo_admissible {[uuid_of_Z 1]}) pg_utxo_step
  (λ _, pg_outputs {[uuid_of_Z 1]}).
Proof.
  apply pg_utxo_refines; [apply ref_pg_no_faults|apply ref_commits_alone|apply ref_bytewise].
Qed.

#[local] Existing Instance ref_pg_refines.

Lemma two_outputs_hold : pg_outputs {[uuid_of_Z 1]} two_outputs two_outputs_spec.
Proof.
  destruct (run_refines utxo_spec (utxo_admissible {[uuid_of_Z 1]}) pg_utxo_step
    (λ _, pg_outputs {[uuid_of_Z 1]}) [Track (pg_utxo "b:1"); Track (pg_utxo "a:0")]
    one_wallet ∅) as (w' & Hr & Hp).
  - apply one_wallet_outputs.
  - apply (bool_decide_unpack _). vm_compute. exact I.
  - unfold two_outputs, two_outputs_spec. by rewrite Hr.
Qed.

Definition reserve_twice : list UtxoOp :=
  [LockAll ["a:0"; "b:1"]; Release ["a:0"]; LockAll ["a:0"]].

Lemma outputs_reserved_once_witness : Exists (frees "a:0") [Release ["a:0"]].
Proof.
  apply (outputs_reserved_once pg_utxo_step (utxo_admissible {[uuid_of_Z 1]})
    (λ _, pg_outputs {[uuid_of_Z 1]}) two_outputs_spec two_outputs ["a:0"; "b:1"]
    [Release ["a:0"]] ["a:0"] "a:0" [Done; Done; Done]
    (run_all pg_utxo_step reserve_twice two_outputs).2).
  - apply two_outputs_hold.
  - apply (bool_decide_unpack _). vm_compute. exact I.
  - apply run_eq. vm_compute. reflexivity.
  - reflexivity.
  - reflexivity.
  - by left.
  - by left.
Defined.
End witnesses.
