(* ===== verification/AuditRefinement.v ===== *)
(** * AuditRefinement: both stores implement the same audit outbox

    The abstract outbox maps the id of a row to its event id, wallet, type, payload and
    sequence number and whether it was delivered, and a wallet to its last sequence
    number.  Of a listing, whose order among rows of different wallets each store chooses
    for itself, the number of rows is compared. *)
From stdpp Require Import base tactics numbers gmap strings pretty list fin_maps.
From Stdlib Require Import ZArith Lia.
From S2P Require Import Prelude.
From S2P Require Import GoLang.
From S2P Require Import Domain.
From S2P Require Import World.
From S2P Require Import Reference.
From S2P Require Import MemStore.
From S2P Require Import AuditOutbox.
From S2P Require Import PgEngine.
From S2P Require Import PgReference.
From S2P Require Import Postgres.
From S2P Require Import PostgresFacts.
From S2P Require Import PostgresProps.
From S2P Require Import PostgresRuns.
From S2P Require Import PostgresServices.
From S2P Require Import StoreInterface.
From S2P Require Import Refinement.
From S2P Require Import NonceRefinement.
From S2P Require Import UtxoRefinement.

#[local] Open Scope string_scope.
#[local] Open Scope list_scope.
#[local] Open Scope Z_scope.

(** ** The specification *)
Record AuditRow : Type := MkAuditRow {
  ar_EventID : uuid;
  ar_WalletID : option uuid;
  ar_EventType : string;
  ar_Payload : list (string * any);
  ar_Seq : Z;
  ar_Delivered : bool
}.

Record Outbox : Type := MkOutbox {
  ob_rows : gmap uuid AuditRow;
  ob_seq : gmap uuid Z
}.

Inductive AuditOp : Type :=
  | NextSeq (wid : uuid)
  | Append (e : AuditOutboxEvent)
  | MarkDelivered (id : uuid)
  | CountPending (limit : Z).

Inductive AuditAnswer : Type :=
  | Numbered (n : Z)
  | Recorded
  | Duplicate
  | Marked
  | Pending (n : Z).

Definition row_view (e : AuditOutboxEvent) : AuditRow :=
  MkAuditRow (ae_EventID e) (ae_WalletID e) (ae_EventType e) (ae_Payload e) (ae_Seq e)
    (ae_Delivered e).

Definition delivered_row (r : AuditRow) : AuditRow :=
  MkAuditRow (ar_EventID r) (ar_WalletID r) (ar_EventType r) (ar_Payload r) (ar_Seq r) true.

Definition has_event (id : uuid) (rows : gmap uuid AuditRow) : bool :=
  existsb (λ r, bool_decide (ar_EventID r = id)) (rows_of rows).

Definition pending_count (rows : gmap uuid AuditRow) : Z :=
  Z.of_nat (length (List.filter (λ r, negb (ar_Delivered r)) (rows_of rows))).

Definition audit_spec (op : AuditOp) (st : Outbox) : AuditAnswer * Outbox :=
  match op with
  | NextSeq wid =>
      let n := default 0 (ob_seq st !! wid) + 1 in
      (Numbered n, MkOutbox (ob_rows st) (<[wid := n]> (ob_seq st)))
  | Append e =>
      if has_event (ae_EventID e) (ob_rows st) then (Duplicate, st)
      else (Recorded, MkOutbox (<[ae_ID e := row_view e]> (ob_rows st)) (ob_seq st))
  | MarkDelivered id => (Marked, MkOutbox (alter delivered_row id (ob_rows st)) (ob_seq st))
  | CountPending limit => (Pending (Z.min limit (pending_count (ob_rows st))), st)
  end.

(** New rows have fresh ids and are not delivered, marks are of known rows, limits are
    positive. *)
Definition audit_admissible (op : AuditOp) (st : Outbox) : Prop :=
  match op with
  | NextSeq wid => 0 ≤ default 0 (ob_seq st !! wid) < 2 ^ 63 - 1
  | Append e => ob_rows st !! ae_ID e = None ∧ ae_Delivered e = false
  | MarkDelivered id => is_Some (ob_rows st !! id)
  | CountPending limit => 0 < limit
  end.

#[export] Instance audit_admissible_dec op st : Decision (audit_admissible op st).
Proof. destruct op; simpl; apply _. Defined.

(** The calls, on any store. *)
Definition audit_step {S : Type} `{!StoreAPI S} (op : AuditOp) : GoM S AuditAnswer :=
  match op with
  | NextSeq wid => n ← st_NextAuditSeq wid; mret (Numbered n)
  | Append e =>
      r ← attempt (st_AppendAuditEvent e); mret (if is_ok r then Recorded else Duplicate)
  | MarkDelivered id => st_MarkAuditDelivered id;; mret Marked
  | CountPending limit =>
      l ← st_ListUndeliveredAuditEvents limit; mret (Pending (Z.of_nat (length l)))
  end.

(** ** The in-memory store *)
Section stores.
Context `{GoRuntime} `{UUIDLib} `{Environment} `{PgServer}.

Definition row_entry (e : AuditOutboxEvent) : uuid * AuditRow := (ae_ID e, row_view e).

Definition mem_outbox (w : World) (st : Outbox) : Prop :=
  NoDup (row_ids w) ∧ list_to_map (row_entry <$> auditOutbox (store w)) = ob_rows st ∧
  auditSeqCounters (store w) = ob_seq st.

Lemma row_entry_ids l : (row_entry <$> l).*1 = ae_ID <$> l.
Proof. rewrite <-list_fmap_compose. done. Qed.

(** The rows of the table, as a list of rows of the specification. *)
Lemma mem_rows_perm w st :
  mem_outbox w st → rows_of (ob_rows st) ≡ₚ row_view <$> auditOutbox (store w).
Proof.
  intros (Hnd & <- & _). unfold rows_of. rewrite map_to_list_to_map.
  - rewrite <-list_fmap_compose. done.
  - by rewrite row_entry_ids.
Qed.

Lemma has_event_list rows (l : list AuditOutboxEvent) id :
  rows_of rows ≡ₚ row_view <$> l →
  has_event id rows = existsb (λ ex, bool_decide (ae_EventID ex = id)) l.
Proof.
  intros Hp. apply eq_iff_eq_true. unfold has_event. rewrite !existsb_exists. split.
  - intros (r & Hr & He). apply list_elem_of_In in Hr. rewrite Hp in Hr.
    apply list_elem_of_fmap in Hr as (e & -> & Hin). exists e.
    by rewrite <-list_elem_of_In.
  - intros (e & Hin & He). exists (row_view e). split; [|done].
    apply list_elem_of_In. rewrite Hp. apply list_elem_of_fmap_2. by apply list_elem_of_In.
Qed.

Lemma pending_count_list rows (l : list AuditOutboxEvent) :
  rows_of rows ≡ₚ row_view <$> l →
  pending_count rows = Z.of_nat (length (List.filter (λ e, negb (ae_Delivered e)) l)).
Proof.
  intros Hp. unfold pending_count. rewrite Hp. f_equal. clear Hp.
  induction l as [|e l IH]; [done|]. csimpl. destruct (ae_Delivered e); simpl; by rewrite IH.
Qed.

Lemma deliver_first_rows now id l :
  id ∈ ae_ID <$> l →
  ∃ l', deliver_first now id l = Some l' ∧ ae_ID <$> l' = ae_ID <$> l ∧
    (list_to_map (row_entry <$> l') : gmap uuid AuditRow) =
      alter delivered_row id (list_to_map (row_entry <$> l)).
Proof.
  induction l as [|e l IH]; csimpl; intros Hin; [by apply elem_of_nil in Hin|].
  case_bool_decide as He.
  - eexists. split; [done|]. csimpl. split; [done|]. subst id.
    by rewrite alter_insert_eq.
  - apply elem_of_cons in Hin as [->|Hin]; [done|].
    destruct (IH Hin) as (l' & -> & Hids & Hmap). exists (e :: l'). csimpl.
    split; [done|]. rewrite Hids, Hmap. split; [done|]. by rewrite alter_insert_ne.
Qed.

Lemma append_rows l e :
  NoDup (ae_ID <$> l) → (list_to_map (row_entry <$> l) : gmap uuid AuditRow) !! ae_ID e = None →
  NoDup (ae_ID <$> l ++ [e]) ∧
  (list_to_map (row_entry <$> l ++ [e]) : gmap uuid AuditRow) =
    <[ae_ID e := row_view e]> (list_to_map (row_entry <$> l)).
Proof.
  intros Hnd Hn%not_elem_of_list_to_map_2. rewrite row_entry_ids in Hn. rewrite !fmap_app. split.
  - apply NoDup_app. split; [done|]. split; [|apply NoDup_singleton].
    by intros x Hx ->%list_elem_of_singleton.
  - change (row_entry <$> [e]) with [(ae_ID e, row_view e)].
    rewrite list_to_map_snoc; [done|]. by rewrite row_entry_ids.
Qed.

#[export] Instance mem_audit_refines :
  Refines audit_spec audit_admissible (audit_step (S := World)) (λ _, mem_outbox).
Proof.
  intros _ op w st Ha _ Hadm. pose proof Ha as (Hnd & Hrows & Hseq).
  pose proof (mem_rows_perm w st Ha) as Hperm.
  destruct op as [wid|e|id|limit]; simpl in *.
  - unfold NextAuditSeq. go_run. rewrite Hseq, int64_succ_lt by done.
    eexists. split; [done|]. by split_and!.
  - destruct Hadm as [Hfresh Hdel]. rewrite (has_event_list _ _ _ Hperm).
    unfold AppendAuditEvent, or_now. go_run.
    destruct (existsb _ _); [by exists w|].
    rewrite <-Hrows in Hfresh |- *.
    destruct (time_IsZero (ae_CreatedAt e)); simpl; (eexists; split; [done|]);
      unfold mem_outbox, row_ids; simpl;
      match goal with |- context [_ ++ [?x]] =>
        destruct (append_rows (auditOutbox (store w)) x Hnd Hfresh) as [Hnd' Hmap] end;
      by split_and!.
  - assert (id ∈ ae_ID <$> auditOutbox (store w)) as Hin.
    { rewrite <-row_entry_ids. apply dec_stable. intros Hn.
      rewrite <-Hrows, not_elem_of_list_to_map_1 in Hadm by done. by destruct Hadm. }
    destruct (deliver_first_rows (clock (ticks w)) id _ Hin) as (l' & Hd & Hids & Hmap).
    unfold MarkAuditDelivered. go_run.
    assert (existsb (λ e, bool_decide (ae_ID e = id)) (auditOutbox (store w)) = true) as ->.
    { apply existsb_exists. apply list_elem_of_fmap in Hin as (e & -> & Hin). exists e.
      split; [by apply list_elem_of_In|]. by apply bool_decide_eq_true. }
    rewrite Hd. eexists. split; [done|]. unfold mem_outbox, row_ids. simpl.
    rewrite Hids, Hmap, Hrows. by split_and!.
  - exists w. split; [|done]. unfold ListUndeliveredAuditEvents. go_run.
    rewrite (pending_count_list _ _ Hperm). do 3 f_equal.
    rewrite (proj2 (Z.ltb_lt 0 limit) Hadm). simpl.
    set (p := λ e, negb (ae_Delivered e)).
    rewrite <-(Permutation_length (sort_Slice_perm (λ x y, ae_Seq x <? ae_Seq y)
      (List.filter p (auditOutbox (store w))))).
    set (out := sort_Slice _ _). destruct (Z.ltb_spec limit (Z.of_nat (length out))).
    + rewrite length_take. lia.
    + lia.
Qed.

(** ** The Postgres store *)
Record pg_outbox (room : Z) (w : PgWorld) (st : Outbox) : Prop := {
  px_tx : pw_Tx w = None;
  px_valid : valid (pw_DB w) = true;
  px_rows : row_view <$> pg_audit (pw_DB w) = ob_rows st;
  px_seq : pg_audit_seq (pw_DB w) = ob_seq st;
  px_attempts : map_Forall (λ _ e, 0 ≤ ae_Attempts e ≤ 2 ^ 31 - 1 - room) (pg_audit (pw_DB w));
  px_room : room ≤ 2 ^ 31 - 1
}.

Lemma pg_rows_perm room w st :
  pg_outbox room w st → rows_of (ob_rows st) ≡ₚ row_view <$> rows_of (pg_audit (pw_DB w)).
Proof.
  intros Hp. rewrite <-(px_rows _ _ _ Hp). unfold rows_of. rewrite map_to_list_fmap.
  rewrite <-!list_fmap_compose. done.
Qed.

Lemma valid_audit d : valid d = true → audit_valid d = true.
Proof. unfold valid. rewrite !andb_true_iff. intros Hv. by destruct_and! Hv. Qed.

Lemma valid_put_audit d m : valid d = true → valid (put_audit d m) = audit_valid (put_audit d m).
Proof.
  intros Hv. apply eq_iff_eq_true. split; [apply valid_audit|]. intros Ha.
  unfold valid in *. rewrite !andb_true_iff in Hv |- *. destruct_and! Hv. by split_and!.
Qed.

Lemma pg_outbox_weaken room w st : pg_outbox (room + 1) w st →
  map_Forall (λ _ e, 0 ≤ ae_Attempts e ≤ 2 ^ 31 - 1 - room) (pg_audit (pw_DB w)).
Proof.
  intros Hp k e Hk. pose proof (px_attempts _ _ _ Hp k e Hk) as Hb. simpl in Hb. lia.
Qed.

Lemma pg_outbox_same room w st n :
  pg_outbox (room + 1) w st → pg_outbox room (MkPg (pw_DB w) None n) st.
Proof.
  intros Hp. pose proof (pg_outbox_weaken _ _ _ Hp). destruct Hp. split; try done. lia.
Qed.

(** A table of audit rows that satisfies the schema, put in place. *)
Lemma pg_outbox_put room w st m rows n :
  pg_outbox (room + 1) w st → audit_valid (put_audit (pw_DB w) m) = true →
  row_view <$> m = rows → map_Forall (λ _ e, 0 ≤ ae_Attempts e ≤ 2 ^ 31 - 1 - room) m →
  pg_outbox room (MkPg (put_audit (pw_DB w) m) None n) (MkOutbox rows (ob_seq st)).
Proof.
  intros Hp Hv Hr Hm. destruct Hp. split; simpl; try done; [|lia]. by rewrite valid_put_audit.
Qed.

Context (Hf : no_faults).

Lemma pg_append_run e w :
  pw_Tx w = None → valid (pw_DB w) = true → pg_audit (pw_DB w) !! ae_ID e = None →
  let e' := MkAudit (ae_ID e) (ae_EventID e) (ae_WalletID e) (ae_EventType e) (ae_Payload e)
    (ae_Seq e) false 0 (timestamptz (ae_CreatedAt e)) None in
  let m' := <[ae_ID e := e']> (pg_audit (pw_DB w)) in
  if existsb (λ ex, bool_decide (ae_EventID ex = ae_EventID e)) (rows_of (pg_audit (pw_DB w)))
  then ∃ err, pg_AppendAuditEvent e w = (Err err, MkPg (pw_DB w) None (S (pw_Calls w)))
  else audit_valid (put_audit (pw_DB w) m') = true ∧
    pg_AppendAuditEvent e w = (Ok tt, MkPg (put_audit (pw_DB w) m') None (S (pw_Calls w))).
Proof.
  intros Ht Hv Hk e' m'. pose proof (valid_audit _ Hv) as Hav.
  unfold audit_valid in Hav. apply andb_prop in Hav as [Hu Ha].
  destruct (existsb _ _) eqn:He.
  - apply existsb_exists in He as (ex & Hin & Hex). apply list_elem_of_In, rows_of_elem in Hin as [k Hex'].
    apply bool_decide_eq_true in Hex. eexists. unfold pg_AppendAuditEvent.
    rewrite statement_auto by done. unfold checked, insert_row. rewrite Hk. fold e'. fold m'.
    rewrite valid_put_audit by done. destruct (audit_valid _) eqn:Hbad; [|done]. exfalso.
    unfold audit_valid in Hbad. apply andb_prop in Hbad as [Hu' _].
    assert (k ≠ ae_ID e) as Hne by (intros ->; congruence).
    destruct Hne. eapply (unique_spec _ m' k (ae_ID e) ex e' (ae_EventID e) Hu'); unfold m'.
    + rewrite lookup_insert_ne; [done|]. intros <-. congruence.
    + apply lookup_insert_eq.
    + simpl. by rewrite Hex.
    + done.
  - assert (audit_valid (put_audit (pw_DB w) m') = true) as Hv'.
    { unfold audit_valid. simpl. apply andb_true_intro. split.
      - apply unique_insert; [done..|]. intros b [= <-] r' Hin [= Hr'].
        apply not_true_iff_false in He. apply He, existsb_exists. exists r'.
        split; [by apply list_elem_of_In|]. by apply bool_decide_eq_true.
      - by apply all_rows_insert. }
    split; [done|]. unfold pg_AppendAuditEvent. apply statement_ok; [done|done| |].
    + unfold insert_row. by rewrite Hk.
    + by rewrite valid_put_audit.
Qed.

Lemma pg_mark_run id e w :
  pw_Tx w = None → valid (pw_DB w) = true → pg_audit (pw_DB w) !! id = Some e →
  0 ≤ ae_Attempts e < 2 ^ 31 - 1 →
  ∃ e', row_view e' = delivered_row (row_view e) ∧ ae_Attempts e' = ae_Attempts e + 1 ∧
    audit_valid (put_audit (pw_DB w) (<[id := e']> (pg_audit (pw_DB w)))) = true ∧
    pg_MarkAuditDelivered id w = (Ok tt,
      MkPg (put_audit (pw_DB w) (<[id := e']> (pg_audit (pw_DB w)))) None (S (pw_Calls w))).
Proof.
  intros Ht Hv Hk Hatt. pose proof (valid_audit _ Hv) as Hav.
  unfold audit_valid in Hav. apply andb_prop in Hav as [Hu Ha].
  set (e' := MkAudit (ae_ID e) (ae_EventID e) (ae_WalletID e) (ae_EventType e) (ae_Payload e)
    (ae_Seq e) true (ae_Attempts e + 1) (ae_CreatedAt e) (Some (pg_clock (pw_Calls w)))).
  assert (audit_valid (put_audit (pw_DB w) (<[id := e']> (pg_audit (pw_DB w)))) = true) as Hv'.
  { unfold audit_valid. simpl. apply andb_true_intro. split.
    - by eapply unique_update.
    - apply all_rows_insert; [done|]. unfold int4. simpl. lia. }
  exists e'. split_and!; [done..|]. unfold pg_MarkAuditDelivered.
  erewrite bind_Ok; [done|]. apply statement_ok; [done|done| |by rewrite valid_put_audit].
  unfold update_row. by rewrite Hk.
Qed.

Lemma pg_next_run wid w :
  pw_Tx w = None → valid (pw_DB w) = true →
  let n := default 0 (pg_audit_seq (pw_DB w) !! wid) in
  0 ≤ n < 2 ^ 63 - 1 →
  pg_NextAuditSeq wid w = (Ok (n + 1),
    MkPg (put_audit_seq (pw_DB w) (<[wid := n + 1]> (pg_audit_seq (pw_DB w)))) None
      (S (pw_Calls w))).
Proof.
  intros Ht Hv n Hn. unfold pg_NextAuditSeq. apply statement_ok; [done|done| |exact Hv].
  assert (match pg_audit_seq (pw_DB w) !! wid with Some s => s + 1 | None => 1 end = n + 1)
    as -> by (unfold n; by destruct (pg_audit_seq (pw_DB w) !! wid)).
  simpl. rewrite bool_decide_true; [done|]. unfold in_int64. lia.
Qed.

#[export] Instance pg_audit_refines :
  Refines audit_spec audit_admissible (audit_step (S := PgWorld)) pg_outbox.
Proof.
  intros room op w st Hp Hroom Hadm. pose proof Hp as [Ht Hv Hrows Hseq Hatt Hmax].
  pose proof (pg_outbox_weaken _ _ _ Hp) as Hatt'.
  destruct op as [wid|e|id|limit]; simpl in *.
  - rewrite <-Hseq in Hadm |- *. eexists.
    split; [erewrite bind_Ok; [|by apply pg_next_run]; done|].
    split; simpl; try done. lia.
  - destruct Hadm as [Hfresh Hdel].
    rewrite (has_event_list _ _ _ (pg_rows_perm _ _ _ Hp)).
    assert (pg_audit (pw_DB w) !! ae_ID e = None) as Hk.
    { rewrite <-Hrows, lookup_fmap in Hfresh. by destruct (pg_audit (pw_DB w) !! ae_ID e). }
    pose proof (pg_append_run e w Ht Hv Hk) as Hrun.
    destruct (existsb _ _).
    + destruct Hrun as [err Hrun]. eexists.
      split; [unfold attempt, mbind, GoM_bind; by rewrite Hrun|]. by apply pg_outbox_same.
    + destruct Hrun as [Hval Hrun]. eexists.
      split; [unfold attempt, mbind, GoM_bind; by rewrite Hrun|].
      eapply pg_outbox_put; [done|done| |].
      * rewrite fmap_insert, Hrows. unfold row_view at 1. simpl. unfold row_view. by rewrite Hdel.
      * apply map_Forall_insert_2; [simpl; lia|done].
  - rewrite <-Hrows, lookup_fmap in Hadm.
    destruct (pg_audit (pw_DB w) !! id) as [e|] eqn:Hk; [|by destruct Hadm].
    pose proof (Hatt id e Hk) as Hb. simpl in Hb.
    destruct (pg_mark_run id e w Ht Hv Hk ltac:(lia)) as (e' & Hview & Ha & Hval & Hrun).
    eexists. split; [erewrite bind_Ok; [|exact Hrun]; done|].
    eapply pg_outbox_put; [done|done| |].
    + rewrite fmap_insert, Hview, <-Hrows. apply map_eq. intros k.
      rewrite lookup_insert, lookup_alter. case_decide; [subst|done].
      by rewrite lookup_fmap, Hk.
    + apply map_Forall_insert_2; [simpl; lia|done].
  - eexists. split.
    + erewrite bind_Ok; [|apply statement_ok; [done|done| |exact Hv]].
      2: { unfold select. by rewrite (proj2 (Z.ltb_ge limit 0)) by lia. }
      unfold mret, GoM_ret. rewrite (pending_count_list _ _ (pg_rows_perm _ _ _ Hp)).
      do 3 f_equal. rewrite length_take, (Permutation_length (order_by_perm _ _)). lia.
    + by apply pg_outbox_same.
Qed.

(** The two stores refine one audit outbox.  From an in-memory store and a
    Postgres database that hold the same rows and counters, with a server that does not
    fail, every sequence of numberings, insertions, marks and listings of the kind the
    emitter makes gets the same numbers, the same refusals of duplicate events and
    batches of the same size from both, and leaves the same rows delivered. *)
Theorem audit_stores_refine ops st w pw :
  mem_outbox w st → pg_outbox (Z.of_nat (length ops)) pw st →
  all_admissible audit_spec audit_admissible ops st →
  let '(answers, st') := spec_run audit_spec ops st in
  ∃ w' pw', run_all audit_step ops w = (Ok answers, w') ∧
    run_all audit_step ops pw = (Ok answers, pw') ∧
    mem_outbox w' st' ∧ pg_outbox 0 pw' st'.
Proof.
  intros Hm Hp Hadm.
  destruct (run_refines audit_spec audit_admissible audit_step (λ _, mem_outbox) ops w st Hm Hadm)
    as (w' & Hr & Hm').
  destruct (run_refines audit_spec audit_admissible audit_step pg_outbox ops pw st Hp Hadm)
    as (pw' & Hr' & Hp').
  destruct (spec_run audit_spec ops st). by exists w', pw'.
Qed.
End stores.

(** ** Witness *)
Section witnesses.
#[local] Existing Instances ref_runtime ref_uuid ref_env ref_pg.

Definition audit_event (n : Z) : AuditOutboxEvent :=
  MkAudit (uuid_of_Z n) (uuid_of_Z (n / 2)) None "wallet.created" [] n false 0 1 None.

Definition audit_ops : list AuditOp :=
  [NextSeq (uuid_of_Z 7); NextSeq (uuid_of_Z 7); Append (audit_event 2); Append (audit_event 3);
   Append (audit_event 4); CountPending 100; CountPending 1; MarkDelivered (uuid_of_Z 2);
   CountPending 100].

Lemma audit_stores_refine_witness :
  let '(answers, st') := spec_run audit_spec audit_ops (MkOutbox ∅ ∅) in
  ∃ w' pw', run_all audit_step audit_ops initial_world = (Ok answers, w') ∧
    run_all audit_step audit_ops pg_start = (Ok answers, pw') ∧
    mem_outbox w' st' ∧ pg_outbox 0 pw' st'.
Proof.
  apply (audit_stores_refine ref_pg_no_faults audit_ops (MkOutbox ∅ ∅) initial_world pg_start).
  - split_and!; [constructor|reflexivity|reflexivity].
  - split.
    + reflexivity.
    + vm_compute. reflexivity.
    + reflexivity.
    + reflexivity.
    + apply map_Forall_empty.
    + vm_compute. discriminate.
  - apply (bool_decide_unpack _). vm_compute. exact I.
Defined.
End witnesses.
