(* ===== verification/KeyRefinement.v ===== *)
(** * KeyRefinement: both stores implement the same key rings

    The abstract ring of a wallet is its current key and the set of the keys that are
    cooling off.  The in-memory store and the Postgres store simulate it for every
    sequence of bindings of CURRENT mappings and rotations, for wallets that exist, and
    resolutions.  Expiry compares deadlines with the
    clock of the process in one store and with that of the server in the other, so it is
    not an operation here. *)
From stdpp Require Import base tactics numbers gmap strings pretty list fin_maps.
From Stdlib Require Import ZArith Lia.
From S2P Require Import Prelude.
From S2P Require Import GoLang.
From S2P Require Import Domain.
From S2P Require Import World.
From S2P Require Import Reference.
From S2P Require Import MemStore.
From S2P Require Import KeyMapping.
From S2P Require Import PgEngine.
From S2P Require Import PgReference.
From S2P Require Import Postgres.
From S2P Require Import PostgresFacts.
From S2P Require Import PostgresProps.
From S2P Require Import PostgresRuns.
From S2P Require Import StoreInterface.
From S2P Require Import Refinement.
From S2P Require Import NonceRefinement.

#[local] Open Scope string_scope.
#[local] Open Scope list_scope.
#[local] Open Scope Z_scope.

(** ** The specification *)
Record Ring : Type := MkRing {
  rg_current : string;
  rg_cooling : gset string
}.

Abbreviation Rings := (gmap uuid Ring).

Inductive KeyOp : Type :=
  | BindKey (m : KeyMapping)
  | RotateKey (wid : uuid) (key : string) (cooling : duration)
  | ResolveKeys (wid : uuid).

Inductive KeyAnswer : Type :=
  | Bound
  | AlreadyBound
  | Rotated
  | ActiveKeys (current : option string) (cooling : gset string)
  | NoKey.

Definition rotate_ring (key : string) (r : option Ring) : Ring :=
  match r with
  | Some r => MkRing key (({[rg_current r]} ∪ rg_cooling r) ∖ {[key]})
  | None => MkRing key ∅
  end.

Definition key_spec (op : KeyOp) (st : Rings) : KeyAnswer * Rings :=
  match op with
  | BindKey m =>
      match st !! km_WalletID m with
      | Some _ => (AlreadyBound, st)
      | None => (Bound, <[km_WalletID m := MkRing (km_KeyID m) ∅]> st)
      end
  | RotateKey wid key _ => (Rotated, <[wid := rotate_ring key (st !! wid)]> st)
  | ResolveKeys wid =>
      (match st !! wid with
       | Some r => ActiveKeys (Some (rg_current r)) (rg_cooling r)
       | None => NoKey
       end, st)
  end.

(** Mappings are bound as the service does, as CURRENT, to wallets that exist. *)
Definition key_admissible (wids : gset uuid) (op : KeyOp) (_ : Rings) : Prop :=
  match op with
  | BindKey m => km_RotationState m = RotationStateCurrent ∧ km_WalletID m ∈ wids
  | RotateKey wid _ _ => wid ∈ wids
  | ResolveKeys _ => True
  end.

#[export] Instance key_admissible_dec wids op st : Decision (key_admissible wids op st).
Proof. destruct op; simpl; apply _. Defined.

(** What a client reads off the mappings it is given, whatever their order. *)
Definition ring_answer (out : list KeyMapping) : KeyAnswer :=
  ActiveKeys (km_KeyID <$> List.find is_current out)
    (list_to_set (km_KeyID <$> List.filter is_cooling out)).

(** The calls, on any store. *)
Definition key_op {S : Type} `{!StoreAPI S} (op : KeyOp) : GoM S KeyAnswer :=
  match op with
  | BindKey m =>
      r ← attempt (st_BindKeyMapping m); mret (if is_ok r then Bound else AlreadyBound)
  | RotateKey wid key cooling => st_RotateKeyMapping wid key cooling;; mret Rotated
  | ResolveKeys wid =>
      r ← attempt (st_ResolveActiveKey wid);
      mret (match r with Ok out => ring_answer out | Err _ => NoKey end)
  end.

(** ** Mappings that make up a ring *)
Definition ring_state (current key : string) : string :=
  if decide (key = current) then RotationStateCurrent else RotationStateCooling.

Record holds_ring (l : list KeyMapping) (r : Ring) : Prop := {
  hr_nodup : NoDup (km_KeyID <$> l);
  hr_keys k : k ∈ km_KeyID <$> l ↔ k = rg_current r ∨ k ∈ rg_cooling r;
  hr_state m : m ∈ l → km_RotationState m = ring_state (rg_current r) (km_KeyID m);
  hr_current : rg_current r ∉ rg_cooling r
}.

#[export] Instance holds_ring_proper : Proper ((≡ₚ) ==> (=) ==> iff) holds_ring.
Proof.
  assert (∀ l l' r, l ≡ₚ l' → holds_ring l r → holds_ring l' r) as Hp.
  { intros l l' r Hl []. split; try done.
    - by rewrite <-Hl.
    - intros k. by rewrite <-Hl.
    - intros m. rewrite <-Hl. eauto. }
  intros l l' Hl r _ <-. split; apply Hp; [done|by symmetry].
Qed.

Lemma ring_is_current c k : (ring_state c k =s RotationStateCurrent) = (k =s c).
Proof. unfold ring_state. case_decide; by repeat case_bool_decide. Qed.

Lemma ring_is_cooling c k : (ring_state c k =s RotationStateCooling) = negb (k =s c).
Proof. unfold ring_state. case_decide; by repeat case_bool_decide. Qed.

(** Every mapping of a ring is active. *)
Lemma holds_ring_active l r :
  holds_ring l r → List.filter (λ m, is_current m || is_cooling m) l = l.
Proof.
  intros Hr. assert (Forall (λ m, is_current m || is_cooling m = true) l) as Hall.
  { apply Forall_forall. intros m Hm. unfold is_current, is_cooling.
    rewrite (hr_state _ _ Hr m Hm), ring_is_current, ring_is_cooling.
    by destruct (bool_decide _). }
  clear Hr. induction Hall as [|m l Hm _ IH]; [done|]. simpl. by rewrite Hm, IH.
Qed.

(** The answer of a listing of the mappings, in any order. *)
Lemma holds_ring_answer l r :
  holds_ring l r → ring_answer l = ActiveKeys (Some (rg_current r)) (rg_cooling r).
Proof.
  intros Hr. unfold ring_answer. f_equal.
  - assert (∃ m, m ∈ l ∧ km_KeyID m = rg_current r) as (m & Hm & Hk).
    { destruct (proj1 (list_elem_of_fmap _ _ _)
        (proj2 (hr_keys _ _ Hr (rg_current r)) (or_introl eq_refl))) as (m & Hk & Hm).
      by exists m. }
    destruct (List.find is_current l) as [m'|] eqn:Hf.
    + apply find_some in Hf as [Hin%list_elem_of_In Hc]. unfold is_current in Hc.
      rewrite (hr_state _ _ Hr m' Hin), ring_is_current, bool_decide_eq_true in Hc. simpl. congruence.
    + pose proof (find_none _ _ Hf m (proj1 (list_elem_of_In _ _) Hm)) as Hc. unfold is_current in Hc.
      rewrite (hr_state _ _ Hr m), ring_is_current, Hk, bool_decide_true in Hc by done. done.
  - apply set_eq. intros k. rewrite elem_of_list_to_set, list_elem_of_fmap. split.
    + intros (m & -> & [Hin Hc]%list_elem_of_In%filter_In). apply list_elem_of_In in Hin.
      unfold is_cooling in Hc.
      rewrite (hr_state _ _ Hr m Hin), ring_is_cooling, negb_true_iff, bool_decide_eq_false in Hc.
      assert (km_KeyID m ∈ km_KeyID <$> l) as Hk by by apply list_elem_of_fmap_2.
      apply (hr_keys _ _ Hr) in Hk. by destruct Hk.
    + intros Hk. assert (k ∈ km_KeyID <$> l) as (m & -> & Hm)%list_elem_of_fmap
        by (apply (hr_keys _ _ Hr); by right).
      exists m. split; [done|]. apply list_elem_of_In, filter_In.
      split; [by apply list_elem_of_In|]. unfold is_cooling.
      rewrite (hr_state _ _ Hr m Hm), ring_is_cooling, negb_true_iff, bool_decide_eq_false.
      intros Heq. apply (hr_current _ _ Hr). congruence.
Qed.

(** ** The in-memory store *)
Lemma cool_mapping_key t m : km_KeyID (cool_mapping t m) = km_KeyID m.
Proof. unfold cool_mapping. by destruct (is_current m). Qed.

Lemma revive_first_ring now k l l' :
  NoDup (km_KeyID <$> l) → revive_first now k l = Some l' →
  k ∈ km_KeyID <$> l ∧ km_KeyID <$> l' = km_KeyID <$> l ∧
  ∀ m, m ∈ l' → (km_KeyID m = k ∧ km_RotationState m = RotationStateCurrent) ∨
    (km_KeyID m ≠ k ∧ m ∈ l).
Proof.
  revert l'. induction l as [|x l IH]; intros l'; csimpl; [done|]. rewrite NoDup_cons. intros [Hx Hnd].
  case_bool_decide as Hk; csimpl.
  - intros [= <-]. csimpl. split_and!; [rewrite Hk; by left|done|].
    intros m [->|Hm]%elem_of_cons; [by left|]. right. split; [|by right].
    intros Heq. apply Hx. rewrite Hk, <-Heq. by apply list_elem_of_fmap_2.
  - destruct (revive_first now k l) as [l1|]; [|done]. intros [= <-].
    destruct (IH l1 Hnd eq_refl) as (Hin & Hids & Hm). csimpl. rewrite Hids.
    split_and!; [by right|done|]. intros m [->|Hin']%elem_of_cons.
    + right. split; [done|by left].
    + destruct (Hm m Hin') as [?|[? ?]]; [by left|]. right. split; [done|by right].
Qed.

Lemma rotate_ring_keys k r k' :
  k' = k ∨ k' ∈ (({[rg_current r]} ∪ rg_cooling r) ∖ {[k]} : gset string) ↔
  k' = k ∨ (k' = rg_current r ∨ k' ∈ rg_cooling r).
Proof. destruct (decide (k' = k)); set_solver. Qed.

(** What cooling leaves: no current mapping. *)
Lemma cooled_state t l r m :
  holds_ring l r → m ∈ cool_mapping t <$> l → km_RotationState m = RotationStateCooling.
Proof.
  intros Hr (x & -> & Hx)%list_elem_of_fmap. unfold cool_mapping, is_current.
  rewrite (hr_state _ _ Hr x Hx), ring_is_current. case_bool_decide as Hk; simpl; [done|].
  rewrite (hr_state _ _ Hr x Hx). unfold ring_state. by rewrite decide_False.
Qed.

Lemma rotate_mappings_ring now cooling wid k l r :
  holds_ring l r → holds_ring (rotate_mappings now cooling wid k l) (rotate_ring k (Some r)).
Proof.
  intros Hr. unfold rotate_mappings. set (t := time_Add now cooling).
  pose proof (cooled_state t l r) as Hcool. set (l1 := cool_mapping t <$> l) in *.
  assert (km_KeyID <$> l1 = km_KeyID <$> l) as Hids.
  { unfold l1. rewrite <-list_fmap_compose. apply list_fmap_ext. intros i x _.
    apply cool_mapping_key. }
  pose proof (hr_nodup _ _ Hr) as Hnd. rewrite <-Hids in Hnd.
  destruct (revive_first now k l1) as [l2|] eqn:Hrev.
  - destruct (revive_first_ring now k l1 l2 Hnd Hrev) as (Hin & Hids2 & Hm).
    split; simpl; [by rewrite Hids2| | |set_solver].
    + intros k'. rewrite rotate_ring_keys, Hids2, Hids, (hr_keys _ _ Hr). split; [by right|].
      intros [->|?]; [|done]. rewrite Hids in Hin. by apply (hr_keys _ _ Hr).
    + intros m Hm2. unfold ring_state. destruct (Hm m Hm2) as [[-> ?]|[Hne Hin']];
        [by rewrite decide_True|]. rewrite decide_False by done. eauto.
  - assert (k ∉ km_KeyID <$> l1) as Hn.
    { intros (m & Hk & Hm)%list_elem_of_fmap. by apply (revive_first_None now k l1 m Hrev Hm). }
    split; simpl; [| | |set_solver].
    + rewrite fmap_app. apply NoDup_app. split_and!; [done| |apply NoDup_singleton].
      by intros x Hx ->%list_elem_of_singleton.
    + intros k'. rewrite rotate_ring_keys, fmap_app, elem_of_app, Hids, (hr_keys _ _ Hr). csimpl.
      rewrite list_elem_of_singleton. tauto.
    + intros m [Hm| ->%list_elem_of_singleton]%elem_of_app; unfold ring_state; simpl;
        [|by rewrite decide_True]. rewrite decide_False; [eauto|].
      intros Heq. apply Hn. rewrite <-Heq. by apply list_elem_of_fmap_2.
Qed.

Lemma single_ring m :
  km_RotationState m = RotationStateCurrent → holds_ring [m] (MkRing (km_KeyID m) ∅).
Proof.
  intros Hs. split; csimpl; [apply NoDup_singleton| | |set_solver].
  - intros k. rewrite list_elem_of_singleton. set_solver.
  - intros m' ->%list_elem_of_singleton. unfold ring_state. by rewrite decide_True.
Qed.

Section memory.
Context `{GoRuntime} `{UUIDLib} `{Environment}.

Definition mem_rings (w : World) (st : Rings) : Prop := ∀ wid,
  match st !! wid with
  | Some r => holds_ring (mappings_of (store w) wid) r
  | None => mappings_of (store w) wid = []
  end.

(** The mappings of one wallet replaced. *)
Lemma mem_rings_put w w' st wid r :
  mem_rings w st → holds_ring (mappings_of (store w') wid) r →
  (∀ wid', wid' ≠ wid → mappings_of (store w') wid' = mappings_of (store w) wid') →
  mem_rings w' (<[wid := r]> st).
Proof.
  intros Ha Hr Hother wid'. destruct (decide (wid' = wid)) as [->|Hne].
  - by rewrite lookup_insert_eq.
  - rewrite lookup_insert_ne by done. rewrite Hother by done. apply Ha.
Qed.

Lemma mappings_of_put s wid l wid' :
  mappings_of (set_keyMappings s (<[wid := l]> (keyMappings s))) wid' =
    if decide (wid' = wid) then l else mappings_of s wid'.
Proof.
  unfold mappings_of. simpl. case_decide as Hw.
  - subst. by rewrite lookup_insert_eq.
  - by rewrite lookup_insert_ne.
Qed.

Lemma mem_rotate_ring now cooling wid k w st :
  mem_rings w st →
  holds_ring (rotate_mappings now cooling wid k (mappings_of (store w) wid))
    (rotate_ring k (st !! wid)).
Proof.
  intros Ha. specialize (Ha wid). destruct (st !! wid) as [r|].
  - by apply rotate_mappings_ring.
  - rewrite Ha. by apply (single_ring (MkKeyMapping wid k now None RotationStateCurrent now)).
Qed.

(** A wallet has a current mapping exactly when it has a ring. *)
Lemma ring_has_current l r m :
  holds_ring l r → is_current m = true → existsb (λ ex, is_current ex && is_current m) l = true.
Proof.
  intros Hr Hm. apply existsb_exists.
  assert (rg_current r ∈ km_KeyID <$> l) as (ex & Hk & Hin)%list_elem_of_fmap
    by (apply (hr_keys _ _ Hr); by left).
  exists ex. split; [by apply list_elem_of_In|]. rewrite Hm, andb_true_r. unfold is_current.
  by rewrite (hr_state _ _ Hr ex Hin), ring_is_current, bool_decide_true.
Qed.

#[export] Instance mem_key_refines wids :
  Refines key_spec (key_admissible wids) (key_op (S := World)) (λ _, mem_rings).
Proof.
  intros _ op w st Ha _ Hadm. destruct op as [m|wid k cooling|wid]; simpl in *.
  - destruct Hadm as [Hs _]. pose proof (Ha (km_WalletID m)) as Hw.
    assert (is_current m = true) as Hm by by apply bool_decide_eq_true.
    unfold BindKeyMapping, or_now. go_run. destruct (st !! km_WalletID m) as [r|].
    + rewrite (ring_has_current _ r m Hw Hm). by exists w.
    + rewrite Hw. simpl.
      destruct (time_IsZero (km_CreatedAt m)), (time_IsZero (km_ActiveFrom m)); simpl;
        (eexists; split; [done|]); (apply (mem_rings_put w); [done|..]); simpl;
        try (intros wid' Hne; rewrite mappings_of_put; by rewrite decide_False);
        rewrite mappings_of_put, decide_True, Hw by done; simpl;
        match goal with |- holds_ring [?x] _ => exact (single_ring x Hs) end.
  - unfold RotateKeyMapping. go_run. eexists. split; [done|].
    apply (mem_rings_put w); [done|..]; simpl.
    + rewrite mappings_of_put, decide_True by done. by apply mem_rotate_ring.
    + intros wid' Hne. rewrite mappings_of_put. by rewrite decide_False.
  - exists w. split; [|done]. specialize (Ha wid). unfold ResolveActiveKey. go_run.
    destruct (st !! wid) as [r|].
    + rewrite (holds_ring_active _ _ Ha).
      destruct (mappings_of (store w) wid) as [|m l] eqn:Hl.
      { exfalso. by apply (elem_of_nil (rg_current r)), (hr_keys _ _ Ha); left. }
      do 2 f_equal. apply holds_ring_answer. by rewrite sort_Slice_perm.
    + by rewrite Ha.
Qed.
End memory.

(** ** The Postgres store *)
Abbreviation MappingTable := (gmap (uuid * string) KeyMapping).

(** The rows of one wallet, by key. *)
Record table_ring (M : MappingTable) (wid : uuid) (r : Ring) : Prop := {
  tr_keys k : is_Some (M !! (wid, k)) ↔ k = rg_current r ∨ k ∈ rg_cooling r;
  tr_state k m : M !! (wid, k) = Some m → km_RotationState m = ring_state (rg_current r) k;
  tr_current : rg_current r ∉ rg_cooling r
}.

Record rings_table (M : MappingTable) (st : Rings) : Prop := {
  rt_keys wid k m : M !! (wid, k) = Some m → km_WalletID m = wid ∧ km_KeyID m = k;
  rt_ring wid r : st !! wid = Some r → table_ring M wid r;
  rt_none wid k : st !! wid = None → M !! (wid, k) = None
}.

Lemma rings_table_row M st wid k m :
  rings_table M st → M !! (wid, k) = Some m →
  ∃ r, st !! wid = Some r ∧ km_RotationState m = ring_state (rg_current r) k.
Proof.
  intros Ht Hm. destruct (st !! wid) as [r|] eqn:Hw.
  - exists r. split; [done|]. by eapply tr_state; [eapply rt_ring|].
  - by rewrite (rt_none _ _ Ht wid k Hw) in Hm.
Qed.

Lemma rings_table_active M st m :
  rings_table M st → m ∈ rows_of M → one_of ["CURRENT"; "COOLING"] (km_RotationState m) = true.
Proof.
  intros Ht [[wid k] Hm]%rows_of_elem. destruct (rings_table_row _ _ _ _ _ Ht Hm) as (r & _ & ->).
  unfold ring_state. by case_decide.
Qed.

Definition wallet_rows (M : MappingTable) (wid : uuid) : list KeyMapping :=
  List.filter (λ m, bool_decide (km_WalletID m = wid)) (rows_of M).

Lemma elem_of_wallet_rows M st wid m :
  rings_table M st → m ∈ wallet_rows M wid ↔ M !! (wid, km_KeyID m) = Some m.
Proof.
  intros Ht. unfold wallet_rows. rewrite list_elem_of_In, filter_In, <-list_elem_of_In.
  rewrite bool_decide_eq_true, rows_of_elem. split.
  - intros [[[wid' k] Hm] <-]. by destruct (rt_keys _ _ Ht _ _ _ Hm) as [-> ->].
  - intros Hm. split; [by eexists|]. by apply (rt_keys _ _ Ht _ _ _ Hm).
Qed.

Lemma rings_rows_NoDup M st : rings_table M st → NoDup (rows_of M).
Proof.
  intros Ht. unfold rows_of. apply NoDup_fmap_2_strong; [|apply NoDup_map_to_list].
  intros [[w1 k1] m1] [[w2 k2] m2] H1%elem_of_map_to_list H2%elem_of_map_to_list. simpl. intros ->.
  destruct (rt_keys _ _ Ht _ _ _ H1) as [<- <-], (rt_keys _ _ Ht _ _ _ H2) as [<- <-]. done.
Qed.

Lemma filter_NoDup {A} (p : A → bool) l : NoDup l → NoDup (List.filter p l).
Proof.
  induction 1 as [|x l Hx _ IH]; simpl; [constructor|]. destruct (p x); [|done].
  constructor; [|done]. by intros [Hin%list_elem_of_In _]%list_elem_of_In%filter_In.
Qed.

Lemma wallet_rows_ring M st wid r :
  rings_table M st → st !! wid = Some r → holds_ring (wallet_rows M wid) r.
Proof.
  intros Ht Hw. pose proof (rt_ring _ _ Ht wid r Hw) as [Hk Hs Hc]. split; [..|done].
  - apply NoDup_fmap_2_strong.
    + intros x y Hx%(elem_of_wallet_rows _ _ _ _ Ht) Hy%(elem_of_wallet_rows _ _ _ _ Ht) Heq.
      rewrite Heq in Hx. congruence.
    + by eapply filter_NoDup, rings_rows_NoDup.
  - intros k. rewrite <-Hk, list_elem_of_fmap. split.
    + intros (m & -> & Hm%(elem_of_wallet_rows _ _ _ _ Ht)). by eexists.
    + intros [m Hm]. exists m. destruct (rt_keys _ _ Ht _ _ _ Hm) as [_ <-].
      split; [done|]. by apply (elem_of_wallet_rows _ _ _ _ Ht).
  - intros m Hm%(elem_of_wallet_rows _ _ _ _ Ht). by eapply Hs.
Qed.

Lemma wallet_rows_none M st wid : rings_table M st → st !! wid = None → wallet_rows M wid = [].
Proof.
  intros Ht Hw. destruct (wallet_rows M wid) as [|m l] eqn:Hl; [done|].
  assert (m ∈ wallet_rows M wid) as Hm%(elem_of_wallet_rows _ _ _ _ Ht) by (rewrite Hl; by left).
  by rewrite (rt_none _ _ Ht wid _ Hw) in Hm.
Qed.

(** At most one row of a wallet is current. *)
Lemma rings_table_unique M st :
  rings_table M st →
  unique (λ m, only (km_RotationState m =s "CURRENT") (km_WalletID m)) M = true.
Proof.
  intros Ht. apply unique_intro. intros [w1 k1] [w2 k2] m1 m2 wid H1 H2. unfold only.
  destruct (rings_table_row _ _ _ _ _ Ht H1) as (r1 & Hr1 & ->).
  destruct (rings_table_row _ _ _ _ _ Ht H2) as (r2 & Hr2 & ->).
  change "CURRENT" with RotationStateCurrent. rewrite !ring_is_current.
  do 2 case_bool_decide; try done. intros [= E1] [= E2].
  destruct (rt_keys _ _ Ht _ _ _ H1) as [F1 _], (rt_keys _ _ Ht _ _ _ H2) as [F2 _].
  congruence.
Qed.

(** *** Rows that change *)

(** The first binding of a wallet. *)
Lemma rings_table_bind M st m :
  rings_table M st → st !! km_WalletID m = None → km_RotationState m = RotationStateCurrent →
  rings_table (<[(km_WalletID m, km_KeyID m) := m]> M)
    (<[km_WalletID m := MkRing (km_KeyID m) ∅]> st).
Proof.
  intros Ht Hn Hs. split.
  - intros wid k m' [[[= <- <-] <-]|[_ Hm']]%lookup_insert_Some; [done|]. by apply (rt_keys _ _ Ht).
  - intros wid r [[<- <-]|[Hne Hr]]%lookup_insert_Some.
    + split; simpl; [| |set_solver].
      * intros k. destruct (decide (k = km_KeyID m)) as [->|Hk].
        { rewrite lookup_insert_eq. naive_solver. }
        rewrite lookup_insert_ne by congruence. rewrite (rt_none _ _ Ht _ k Hn).
        split; [by intros [? ?]|]. intros [?|?]; [done|set_solver].
      * intros k m' [[[= <-] <-]|[_ Hm']]%lookup_insert_Some.
        { unfold ring_state. by rewrite decide_True. }
        by rewrite (rt_none _ _ Ht _ k Hn) in Hm'.
    + destruct (rt_ring _ _ Ht wid r Hr) as [Hk Hst Hc]. split; [..|done].
      * intros k. rewrite lookup_insert_ne by congruence. apply Hk.
      * intros k m'. rewrite lookup_insert_ne by congruence. apply Hst.
  - intros wid k [Hw Hne]%lookup_insert_None. rewrite lookup_insert_ne by congruence.
    by apply (rt_none _ _ Ht).
Qed.

(** The UPDATE of [RotateKeyMapping]. *)
Definition cool_rows (wid : uuid) (activeTo : time) (M : MappingTable) : MappingTable :=
  (λ m, if bool_decide (km_WalletID m = wid) && (km_RotationState m =s "CURRENT")
        then set_mapping (km_ActiveFrom m) (Some activeTo) "COOLING" m else m) <$> M.

Lemma cool_rows_other wid t M st wid' k :
  rings_table M st → wid' ≠ wid → cool_rows wid t M !! (wid', k) = M !! (wid', k).
Proof.
  intros Ht Hne. unfold cool_rows. rewrite lookup_fmap.
  destruct (M !! (wid', k)) as [m|] eqn:Hm; [|done]. simpl.
  destruct (rt_keys _ _ Ht _ _ _ Hm) as [-> _]. by rewrite bool_decide_false.
Qed.

Lemma cool_rows_own wid t M st k m' :
  rings_table M st → cool_rows wid t M !! (wid, k) = Some m' →
  ∃ m, M !! (wid, k) = Some m ∧ km_WalletID m' = wid ∧ km_KeyID m' = k ∧
    km_RotationState m' = RotationStateCooling.
Proof.
  intros Ht. unfold cool_rows. rewrite lookup_fmap.
  destruct (M !! (wid, k)) as [m|] eqn:Hm; [|done]. simpl. intros [= <-]. exists m.
  destruct (rings_table_row _ _ _ _ _ Ht Hm) as (r & _ & Hs).
  destruct (rt_keys _ _ Ht _ _ _ Hm) as [Hw Hk]. rewrite bool_decide_true, Hs by done. simpl.
  unfold ring_state in *. case_decide; simpl; [by rewrite Hw|]. by split_and!.
Qed.

Lemma cool_rows_is_Some wid t M wid' k :
  is_Some (cool_rows wid t M !! (wid', k)) ↔ is_Some (M !! (wid', k)).
Proof. unfold cool_rows. by rewrite lookup_fmap, fmap_is_Some. Qed.

Lemma rings_table_rotate M st wid k t m :
  rings_table M st → km_WalletID m = wid → km_KeyID m = k →
  km_RotationState m = RotationStateCurrent →
  rings_table (<[(wid, k) := m]> (cool_rows wid t M)) (<[wid := rotate_ring k (st !! wid)]> st).
Proof.
  intros Ht Hmw Hmk Hms. split.
  - intros wid' k' m' [[[= <- <-] <-]|[_ Hm']]%lookup_insert_Some; [done|].
    destruct (decide (wid' = wid)) as [->|Hne].
    + destruct (cool_rows_own _ _ _ _ _ _ Ht Hm') as (_ & _ & ? & ? & _). done.
    + rewrite (cool_rows_other _ _ _ _ _ _ Ht Hne) in Hm'. by apply (rt_keys _ _ Ht).
  - intros wid' r [[<- <-]|[Hne Hr]]%lookup_insert_Some.
    + split.
      * intros k'. destruct (decide (k' = k)) as [->|Hk'].
        { rewrite lookup_insert_eq. destruct (st !! wid); simpl; naive_solver. }
        rewrite lookup_insert_ne, cool_rows_is_Some by congruence.
        destruct (st !! wid) as [r|] eqn:Hw; simpl.
        -- rewrite (tr_keys _ _ _ (rt_ring _ _ Ht wid r Hw)), rotate_ring_keys. tauto.
        -- rewrite (rt_none _ _ Ht _ k' Hw), is_Some_alt. set_solver.
      * intros k' m' [[[= <-] <-]|[Hne Hm']]%lookup_insert_Some.
        { rewrite Hms. unfold ring_state. destruct (st !! wid); simpl; by rewrite decide_True. }
        destruct (cool_rows_own _ _ _ _ _ _ Ht Hm') as (_ & _ & _ & _ & ->).
        unfold ring_state. destruct (st !! wid); simpl; rewrite decide_False; congruence.
      * destruct (st !! wid); simpl; set_solver.
    + destruct (rt_ring _ _ Ht wid' r Hr) as [Hk Hs Hc]. split; [..|done].
      * intros k'. rewrite lookup_insert_ne, cool_rows_is_Some by congruence. apply Hk.
      * intros k' m'. rewrite lookup_insert_ne by congruence.
        rewrite (cool_rows_other _ _ _ _ _ _ Ht) by congruence. apply Hs.
  - intros wid' k' [Hw Hne]%lookup_insert_None. rewrite lookup_insert_ne by congruence.
    rewrite (cool_rows_other _ _ _ _ _ _ Ht) by congruence. by apply (rt_none _ _ Ht).
Qed.

(** *** The schema *)
Lemma key_mappings_rows d M :
  key_mappings_valid (put_key_mappings d M) = true ↔
  unique (λ m, only (km_RotationState m =s "CURRENT") (km_WalletID m)) M = true ∧
  map_Forall (λ _ m, is_Some (pg_wallets d !! km_WalletID m)) M.
Proof. unfold key_mappings_valid. by rewrite andb_true_iff, references_Forall. Qed.

Lemma valid_key_rows d :
  valid d = true →
  unique (λ m, only (km_RotationState m =s "CURRENT") (km_WalletID m)) (pg_key_mappings d) = true ∧
  map_Forall (λ _ m, is_Some (pg_wallets d !! km_WalletID m)) (pg_key_mappings d).
Proof. intros Hv%valid_key_mappings. apply key_mappings_rows. by destruct d. Qed.

Lemma rings_valid d M st :
  valid d = true → rings_table M st →
  map_Forall (λ _ m, is_Some (pg_wallets d !! km_WalletID m)) M →
  valid (put_key_mappings d M) = true.
Proof.
  intros Hv Ht HM. apply valid_put_key_mappings; [done|]. apply key_mappings_rows.
  split; [by eapply rings_table_unique|done].
Qed.

Lemma cool_rows_wallets d wid t M :
  map_Forall (λ _ m, is_Some (pg_wallets d !! km_WalletID m)) M →
  map_Forall (λ _ m, is_Some (pg_wallets d !! km_WalletID m)) (cool_rows wid t M).
Proof.
  intros HM. apply map_Forall_fmap. intros k m Hm. specialize (HM k m Hm). simpl in *.
  by destruct (_ && _).
Qed.

(** Cooling rows off makes no row current. *)
Lemma cool_rows_valid d wid t :
  valid d = true → valid (put_key_mappings d (cool_rows wid t (pg_key_mappings d))) = true.
Proof.
  intros Hv. destruct (valid_key_rows _ Hv) as [Hu Hw]. apply valid_put_key_mappings; [done|].
  apply key_mappings_rows. split; [|by apply cool_rows_wallets]. apply unique_intro.
  assert (∀ k m b, cool_rows wid t (pg_key_mappings d) !! k = Some m →
    only (km_RotationState m =s "CURRENT") (km_WalletID m) = Some b →
    ∃ m0, pg_key_mappings d !! k = Some m0 ∧
      only (km_RotationState m0 =s "CURRENT") (km_WalletID m0) = Some b) as Hback.
  { intros k m b. unfold cool_rows. rewrite lookup_fmap.
    destruct (pg_key_mappings d !! k) as [m0|]; [|done]. simpl. intros [= <-] Hb. exists m0.
    split; [done|]. by destruct (_ && _). }
  intros k1 k2 m1 m2 b H1 H2 Hb1 Hb2.
  destruct (Hback k1 m1 b H1 Hb1) as (n1 & ? & ?), (Hback k2 m2 b H2 Hb2) as (n2 & ? & ?).
  by eapply unique_spec.
Qed.

Section postgres.
Context `{PgServer}.

Record pg_rings (wids : gset uuid) (w : PgWorld) (st : Rings) : Prop := {
  pk_tx : pw_Tx w = None;
  pk_valid : valid (pw_DB w) = true;
  pk_table : rings_table (pg_key_mappings (pw_DB w)) st;
  pk_wallets wid : wid ∈ wids → is_Some (pg_wallets (pw_DB w) !! wid)
}.

Lemma pg_rings_put wids w st M st' n :
  pg_rings wids w st → valid (put_key_mappings (pw_DB w) M) = true → rings_table M st' →
  pg_rings wids (MkPg (put_key_mappings (pw_DB w) M) None n) st'.
Proof. intros [Ht Hv Ha Hw] HM Ha'. by split. Qed.

Lemma pg_rings_same wids w st n :
  pg_rings wids w st → pg_rings wids (MkPg (pw_DB w) None n) st.
Proof. intros []. by split. Qed.

Context (Hf : no_faults) (Hc : commits_alone).

Lemma pg_rotate_run wid k cooling w st :
  pw_Tx w = None → valid (pw_DB w) = true → rings_table (pg_key_mappings (pw_DB w)) st →
  is_Some (pg_wallets (pw_DB w) !! wid) →
  ∃ t m n, let M := <[(wid, k) := m]> (cool_rows wid t (pg_key_mappings (pw_DB w))) in
    pg_RotateKeyMapping wid k cooling w = (Ok tt, MkPg (put_key_mappings (pw_DB w) M) None n) ∧
    valid (put_key_mappings (pw_DB w) M) = true ∧
    rings_table M (<[wid := rotate_ring k (st !! wid)]> st).
Proof.
  intros Htx Hv Ht Hw. destruct (valid_key_rows _ Hv) as [_ HM].
  set (t := timestamptz (time_Add (app_clock (pw_Calls w)) cooling)).
  set (now := pg_clock (S (pw_Calls w))).
  set (M1 := cool_rows wid t (pg_key_mappings (pw_DB w))).
  set (m := match M1 !! (wid, k) with
            | Some m => set_mapping now None "CURRENT" m
            | None => MkKeyMapping wid k now None "CURRENT" now
            end).
  assert (km_WalletID m = wid ∧ km_KeyID m = k ∧ km_RotationState m = RotationStateCurrent)
    as (Hmw & Hmk & Hms).
  { unfold m. destruct (M1 !! (wid, k)) as [m1|] eqn:Hm1; [|done].
    by destruct (cool_rows_own _ _ _ _ _ _ Ht Hm1) as (_ & _ & ? & ? & _). }
  pose proof (rings_table_rotate _ _ wid k t m Ht Hmw Hmk Hms) as Hrot. fold M1 in Hrot.
  assert (valid (put_key_mappings (pw_DB w) (<[(wid, k) := m]> M1)) = true) as Hv2.
  { eapply rings_valid; [done..|]. apply map_Forall_insert_2; [by rewrite Hmw|].
    by apply cool_rows_wallets. }
  exists t, m, (S (S (S (S (S (pw_Calls w)))))). split_and!; [|done..].
  unfold pg_RotateKeyMapping, pg_time_Now. unfold mbind at 1, GoM_bind at 1.
  eapply (pg_InTx_run _ (MkPg (pw_DB w) (pw_Tx w) (S (pw_Calls w))) _ _
    (MkTx (pw_DB w) (put_key_mappings (pw_DB w) (<[(wid, k) := m]> M1)) now false)); try done.
  unfold mbind, GoM_bind. rewrite (statement_tx _ (begun _) _ Hf eq_refl eq_refl).
  unfold checked, update_rows. simpl. fold t.
  change (_ <$> pg_key_mappings (pw_DB w)) with M1.
  pose proof (cool_rows_valid (pw_DB w) wid t Hv) as Hv1. fold M1 in Hv1. rewrite Hv1. simpl.
  erewrite statement_tx by done. unfold checked. simpl. fold now. fold m.
  change (put_key_mappings (put_key_mappings (pw_DB w) M1) (<[(wid, k) := m]> M1))
    with (put_key_mappings (pw_DB w) (<[(wid, k) := m]> M1)).
  by rewrite Hv2.
Qed.

(** The row [BindKeyMapping] stores. *)
Definition stored_mapping (m : KeyMapping) : KeyMapping :=
  MkKeyMapping (km_WalletID m) (km_KeyID m) (timestamptz (km_ActiveFrom m))
    (timestamptz <$> km_ActiveTo m) (km_RotationState m) (timestamptz (km_CreatedAt m)).

(** A second current mapping is refused, by the primary key or by the partial index. *)
Lemma bind_refused m w st r :
  pw_Tx w = None → rings_table (pg_key_mappings (pw_DB w)) st → st !! km_WalletID m = Some r →
  km_RotationState m = RotationStateCurrent →
  ∃ e, pg_BindKeyMapping m w = (Err e, MkPg (pw_DB w) None (S (pw_Calls w))).
Proof.
  intros Htx Ht Hr Hs. unfold pg_BindKeyMapping. rewrite statement_auto by done.
  unfold checked, insert_row. fold (stored_mapping m). set (k := (km_WalletID m, km_KeyID m)).
  destruct (pg_key_mappings (pw_DB w) !! k) eqn:Hk; [by eexists|].
  destruct (valid _) eqn:Hv; [|by eexists]. exfalso.
  destruct (valid_key_rows _ Hv) as [Hu _]. simpl in Hu.
  destruct (rt_ring _ _ Ht _ _ Hr) as [Hkeys Hst _].
  destruct (proj2 (Hkeys (rg_current r)) (or_introl eq_refl)) as [m0 Hm0].
  assert (k ≠ (km_WalletID m, rg_current r)) as Hne by congruence.
  destruct Hne. eapply (unique_spec _ _ _ _ (stored_mapping m) m0 (km_WalletID m) Hu).
  - apply lookup_insert_eq.
  - rewrite lookup_insert_ne; [done|]. congruence.
  - simpl. by rewrite Hs.
  - rewrite (Hst _ _ Hm0). unfold ring_state. rewrite decide_True by done. simpl.
    by rewrite (proj1 (rt_keys _ _ Ht _ _ _ Hm0)).
Qed.

Lemma bind_stored m w st :
  pw_Tx w = None → valid (pw_DB w) = true → rings_table (pg_key_mappings (pw_DB w)) st →
  st !! km_WalletID m = None → is_Some (pg_wallets (pw_DB w) !! km_WalletID m) →
  km_RotationState m = RotationStateCurrent →
  let M := <[(km_WalletID m, km_KeyID m) := stored_mapping m]> (pg_key_mappings (pw_DB w)) in
  pg_BindKeyMapping m w = (Ok tt, MkPg (put_key_mappings (pw_DB w) M) None (S (pw_Calls w))) ∧
  valid (put_key_mappings (pw_DB w) M) = true ∧
  rings_table M (<[km_WalletID m := MkRing (km_KeyID m) ∅]> st).
Proof.
  intros Htx Hv Ht Hn Hw Hs M.
  pose proof (rings_table_bind _ _ (stored_mapping m) Ht Hn Hs) as Ht'.
  assert (valid (put_key_mappings (pw_DB w) M) = true) as Hv'.
  { eapply rings_valid; [done..|]. apply map_Forall_insert_2; [done|]. by apply valid_key_rows. }
  split_and!; [|done..]. apply statement_ok; [done|done| |done].
  unfold insert_row. by rewrite (rt_none _ _ Ht _ _ Hn).
Qed.

Lemma pg_resolve_run wid w st :
  pw_Tx w = None → valid (pw_DB w) = true → rings_table (pg_key_mappings (pw_DB w)) st →
  ∃ n, attempt (pg_ResolveActiveKey wid) w =
    (Ok (match st !! wid with
         | Some _ => Ok (order_by (λ x y, time_Before (km_ActiveFrom x) (km_ActiveFrom y))
             (wallet_rows (pg_key_mappings (pw_DB w)) wid))
         | None => Err ErrNoRows
         end), MkPg (pw_DB w) None n).
Proof.
  intros Htx Hv Ht. exists (S (pw_Calls w)). unfold attempt, pg_ResolveActiveKey.
  erewrite bind_Ok; [|by apply statement_ok].
  assert (List.filter (λ m, bool_decide (km_WalletID m = wid) &&
      one_of ["CURRENT"; "COOLING"] (km_RotationState m)) (rows_of (pg_key_mappings (pw_DB w)))
    = wallet_rows (pg_key_mappings (pw_DB w)) wid) as ->.
  { apply filter_ext_in. intros m Hm%list_elem_of_In.
    by rewrite (rings_table_active _ _ m Ht Hm), andb_true_r. }
  set (lt := λ x y, time_Before _ _).
  pose proof (order_by_perm lt (wallet_rows (pg_key_mappings (pw_DB w)) wid)) as Hp.
  destruct (st !! wid) as [r|] eqn:Hw.
  - pose proof (wallet_rows_ring _ _ _ _ Ht Hw) as Hr. rewrite <-Hp in Hr.
    destruct (order_by lt _) as [|m l]; [|done].
    exfalso. by apply (elem_of_nil (rg_current r)), (hr_keys _ _ Hr); left.
  - rewrite (wallet_rows_none _ _ _ Ht Hw) in Hp |- *.
    symmetry in Hp. by apply Permutation_nil_l in Hp as <-.
Qed.

#[export] Instance pg_key_refines wids :
  Refines key_spec (key_admissible wids) (key_op (S := PgWorld)) (λ _, pg_rings wids).
Proof.
  intros _ op w st Hp _ Hadm. pose proof Hp as [Htx Hv Ht Hw].
  destruct op as [m|wid k cooling|wid]; simpl in *.
  - destruct Hadm as [Hs Hin]. unfold attempt, mbind, GoM_bind.
    destruct (st !! km_WalletID m) as [r|] eqn:Hr.
    + destruct (bind_refused m w st r Htx Ht Hr Hs) as [e ->]. eexists. split; [done|].
      by apply pg_rings_same.
    + destruct (bind_stored m w st Htx Hv Ht Hr (Hw _ Hin) Hs) as (-> & Hv' & Ht').
      eexists. split; [done|]. by eapply pg_rings_put.
  - destruct (pg_rotate_run wid k cooling w st Htx Hv Ht (Hw _ Hadm)) as (t & m & n & Hrun & Hv' & Ht').
    eexists. split; [erewrite bind_Ok by exact Hrun; done|]. by eapply pg_rings_put.
  - destruct (pg_resolve_run wid w st Htx Hv Ht) as [n Hrun]. eexists.
    split; [erewrite bind_Ok by exact Hrun|by apply pg_rings_same].
    destruct (st !! wid) as [r|] eqn:Hr; [|done]. unfold mret, GoM_ret.
    rewrite (holds_ring_answer _ r); [done|]. rewrite order_by_perm. by eapply wallet_rows_ring.
Qed.
End postgres.

(** ** Both stores *)
Section theorems.
Context `{GoRuntime} `{UUIDLib} `{Environment} `{PgServer}.
Context (Hf : no_faults) (Hc : commits_alone).

(** C16. The two stores refine one table of key rings.  From an in-memory store and a
    Postgres database that hold the same rings, with a server that neither fails nor has
    other clients, every sequence of bindings of CURRENT mappings to wallets that exist
    in Postgres, rotations of such wallets and resolutions of any wallet gets the answers
    of the abstract rings from both: a wallet is bound once and refused after that, a
    rotation makes the new key the only current one and cools the one before off, and a
    resolution returns the current key and exactly the keys that are cooling; and both
    stores are left holding the same rings.  (For a wallet that does not exist the
    in-memory store accepts a binding that the foreign key of Postgres refuses.) *)
Theorem key_stores_refine wids ops st w pw :
  mem_rings w st → pg_rings wids pw st →
  all_admissible key_spec (key_admissible wids) ops st →
  let '(answers, st') := spec_run key_spec ops st in
  ∃ w' pw', run_all key_op ops w = (Ok answers, w') ∧
    run_all key_op ops pw = (Ok answers, pw') ∧
    mem_rings w' st' ∧ pg_rings wids pw' st'.
Proof.
  intros Hm Hp Hadm. pose proof (pg_key_refines Hf Hc wids) as Hpg.
  destruct (run_refines key_spec (key_admissible wids) key_op (λ _, mem_rings) ops w st Hm Hadm)
    as (w' & Hr & Hm').
  destruct (run_refines key_spec (key_admissible wids) key_op (λ _, pg_rings wids) ops pw st Hp Hadm)
    as (pw' & Hr' & Hp').
  destruct (spec_run key_spec ops st). by exists w', pw'.
Qed.
End theorems.

(** ** Witness *)
Section witnesses.
#[local] Existing Instances ref_runtime ref_uuid ref_env ref_pg.

Definition first_mapping (key : string) : KeyMapping :=
  MkKeyMapping (uuid_of_Z 1) key 5 None RotationStateCurrent 5.

(** Bind, bind again, rotate away and back. *)
Definition key_ops : list KeyOp :=
  [ResolveKeys (uuid_of_Z 1); BindKey (first_mapping "k1"); BindKey (first_mapping "k2");
   RotateKey (uuid_of_Z 1) "k2" 60; ResolveKeys (uuid_of_Z 1); RotateKey (uuid_of_Z 1) "k3" 60;
   RotateKey (uuid_of_Z 1) "k1" 60; ResolveKeys (uuid_of_Z 1)].

Lemma one_wallet_rings : pg_rings {[uuid_of_Z 1]} one_wallet ∅.
Proof.
  split.
  - reflexivity.
  - vm_compute. reflexivity.
  - split; [intros wid k m|intros wid r|intros wid k _]; [| |reflexivity].
    + change (pg_key_mappings (pw_DB one_wallet)) with (∅ : MappingTable). by rewrite lookup_empty.
    + by rewrite lookup_empty.
  - intros wid ->%elem_of_singleton. exists pg_wallet. reflexivity.
Qed.

Lemma key_stores_refine_witness :
  (spec_run key_spec key_ops ∅).1 = [NoKey; Bound; AlreadyBound; Rotated;
    ActiveKeys (Some "k2") {["k1"]}; Rotated; Rotated; ActiveKeys (Some "k1") {["k2"; "k3"]}] ∧
  let '(answers, st') := spec_run key_spec key_ops ∅ in
  ∃ w' pw', run_all key_op key_ops initial_world = (Ok answers, w') ∧
    run_all key_op key_ops one_wallet = (Ok answers, pw') ∧
    mem_rings w' st' ∧ pg_rings {[uuid_of_Z 1]} pw' st'.
Proof.
  split; [vm_compute; reflexivity|].
  apply (key_stores_refine ref_pg_no_faults ref_commits_alone {[uuid_of_Z 1]} key_ops ∅
    initial_world one_wallet).
  - intros wid. reflexivity.
  - apply one_wallet_rings.
  - repeat split; set_solver.
Defined.
(** Without the wallet: the in-memory store binds the key, the foreign key refuses it. *)
Lemma unknown_wallet_differs :
  (BindKeyMapping (first_mapping "k1") initial_world).1 = Ok tt ∧
  is_ok (pg_BindKeyMapping (first_mapping "k1") pg_start).1 = false.
Proof. split; vm_compute; reflexivity. Qed.
End witnesses.
