(* ===== verification/AddressRefinement.v ===== *)
(** * AddressRefinement: both stores implement the same address book

    The abstract book maps the id of an address to its row, less the time of creation.
    The in-memory store and the Postgres store simulate it for the calls of the wallet
    service: insertions of addresses that are new, deprecations, receipts, and the
    queries for the active address, the next index and the addresses of a wallet. *)
From stdpp Require Import base tactics numbers gmap strings pretty list sorting fin_maps.
From Stdlib Require Import ZArith Lia Sorted.
From S2P Require Import Prelude.
From S2P Require Import GoLang.
From S2P Require Import Domain.
From S2P Require Import World.
From S2P Require Import Reference.
From S2P Require Import MemStore.
From S2P Require Import Wallet.
From S2P Require Import PgEngine.
From S2P Require Import PgReference.
From S2P Require Import Postgres.
From S2P Require Import PostgresFacts.
From S2P Require Import PostgresProps.
From S2P Require Import PostgresRuns.
From S2P Require Import StoreInterface.
From S2P Require Import Refinement.
From S2P Require Import NonceRefinement.

#[local] Open Scope string_scope.
#[local] Open Scope list_scope.
#[local] Open Scope Z_scope.

(** ** The specification *)
Definition address_view (a : Address) : Address :=
  MkAddress (a_ID a) (a_WalletID a) (a_Chain a) (a_Address a) (a_DerivationPath a)
    (a_Index a) (a_Change a) (a_State a) (a_ReceiveCount a) 0.

Abbreviation Book := (gmap uuid Address).

Inductive AddressOp : Type :=
  | AddAddress (a : Address)
  | FetchAddress (id : uuid)
  | ActiveAddress (wid : uuid)
  | RetireAddress (id : uuid)
  | ReceiveOn (id : uuid)
  | NextIndex (chain : string) (change : Z)
  | AddressesOf (wid : uuid).

Inductive AddressAnswer : Type :=
  | AddressStored
  | AddressRefused
  | AddressChanged
  | AddressFound (a : option Address)
  | IndexIs (i : Z)
  | AddressList (l : list Address).

Definition active_in (wid : uuid) (b : Book) : option Address := first_row (active_of wid) b.

Definition next_index (chain : string) (change : Z) (b : Book) : Z := sql_max_index chain change
  (put_addresses empty_db b) + 1.

Definition address_le (x y : Address) : Prop := address_less y x = false.

#[export] Instance address_le_dec x y : Decision (address_le x y).
Proof. unfold address_le. apply _. Defined.

Definition addresses_of (wid : uuid) (b : Book) : list Address :=
  merge_sort address_le (List.filter (λ a, bool_decide (a_WalletID a = wid)) (rows_of b)).

Definition retire_address (a : Address) : Address :=
  set_address AddressStateDeprecated (a_ReceiveCount a) a.

Definition receive_on (a : Address) : Address := set_address (a_State a) (a_ReceiveCount a + 1) a.

Definition address_spec (op : AddressOp) (b : Book) : AddressAnswer * Book :=
  match op with
  | AddAddress a =>
      if (a_State a =s AddressStateActive) && bool_decide (is_Some (active_in (a_WalletID a) b))
      then (AddressRefused, b)
      else (AddressStored, <[a_ID a := address_view a]> b)
  | FetchAddress id => (AddressFound (b !! id), b)
  | ActiveAddress wid => (AddressFound (active_in wid b), b)
  | RetireAddress id => (AddressChanged, alter retire_address id b)
  | ReceiveOn id => (AddressChanged, alter receive_on id b)
  | NextIndex chain change => (IndexIs (next_index chain change b), b)
  | AddressesOf wid => (AddressList (addresses_of wid b), b)
  end.

(** The place of an address in the derivation tree of its wallet. *)
Definition slot (a : Address) : uuid * Z * Z := (a_WalletID a, a_Index a, a_Change a).

(** An address to insert has a new id, place and text; an address to change exists; the
    numbers fit the columns. *)
Definition address_admissible (wids : gset uuid) (op : AddressOp) (b : Book) : Prop :=
  match op with
  | AddAddress a =>
      b !! a_ID a = None ∧ a_WalletID a ∈ wids ∧
      int4 (a_Index a) && int4 (a_Change a) && int4 (a_ReceiveCount a) = true ∧
      map_Forall (λ _ x, slot x ≠ slot a ∧ (a_Chain x, a_Address x) ≠ (a_Chain a, a_Address a)) b
  | RetireAddress id => is_Some (b !! id)
  | ReceiveOn id =>
      match b !! id with Some a => - 2 ^ 31 ≤ a_ReceiveCount a < 2 ^ 31 - 1 | None => False end
  | NextIndex chain change => int4 change = true ∧ int4 (next_index chain change b) = true
  | _ => True
  end.

#[export] Instance address_admissible_dec wids op b : Decision (address_admissible wids op b).
Proof. destruct op; simpl; try case_match; apply _. Defined.

(** The calls, on any store. *)
Definition found {S} (m : GoM S Address) : GoM S AddressAnswer :=
  r ← attempt m;
  mret (AddressFound match r with Ok a => Some (address_view a) | Err _ => None end).

Definition address_op {S : Type} `{!StoreAPI S} (op : AddressOp) : GoM S AddressAnswer :=
  match op with
  | AddAddress a =>
      r ← attempt (st_InsertAddress a); mret (if is_ok r then AddressStored else AddressRefused)
  | FetchAddress id => found (st_GetAddress id)
  | ActiveAddress wid => found (st_GetActiveAddress wid)
  | RetireAddress id => st_DeprecateAddress id;; mret AddressChanged
  | ReceiveOn id => st_IncrementReceiveCount id;; mret AddressChanged
  | NextIndex chain change => i ← st_NextAddressIndex chain change; mret (IndexIs i)
  | AddressesOf wid => l ← st_ListAddresses wid; mret (AddressList (address_view <$> l))
  end.

(** ** Tables that hold the book *)
Record book_table (M : gmap uuid Address) (b : Book) : Prop := {
  bt_view : address_view <$> M = b;
  bt_slot i j x y : b !! i = Some x → b !! j = Some y → slot x = slot y → i = j;
  bt_active i j wid x y : b !! i = Some x → b !! j = Some y →
    active_of wid x = true → active_of wid y = true → i = j
}.

Lemma book_lookup M b id : book_table M b → b !! id = address_view <$> M !! id.
Proof. intros [<- _ _]. apply lookup_fmap. Qed.

Lemma book_rows M b : book_table M b → rows_of b ≡ₚ address_view <$> rows_of M.
Proof.
  intros [<- _ _]. unfold rows_of. rewrite map_to_list_fmap, <-!list_fmap_compose. done.
Qed.

(** *** Rows that change *)
Lemma book_add M b a a' :
  book_table M b → b !! a_ID a = None → address_view a' = address_view a →
  map_Forall (λ _ x, slot x ≠ slot a) b →
  (∀ i x, b !! i = Some x → active_of (a_WalletID a) x = true → a_State a ≠ AddressStateActive) →
  book_table (<[a_ID a := a']> M) (<[a_ID a := address_view a]> b).
Proof.
  intros [<- Hs Ha] Hn Hv Hslot Hact.
  assert (∀ i x wid, (address_view <$> M) !! i = Some x → active_of wid x = true →
    active_of wid (address_view a) = true → False) as Hclash.
  { intros i x wid Hx Hax. unfold active_of at 1. rewrite andb_true_iff, !bool_decide_eq_true. simpl.
    intros [<- Hst]. by eapply Hact. }
  split; [by rewrite fmap_insert, Hv|..].
  - intros i j x y [[<- <-]|[_ Hx]]%lookup_insert_Some [[<- <-]|[_ Hy]]%lookup_insert_Some Heq;
      [done|..|by eapply Hs]; [destruct (Hslot j y Hy)|destruct (Hslot i x Hx)]; done.
  - intros i j wid x y [[<- <-]|[_ Hx]]%lookup_insert_Some [[<- <-]|[_ Hy]]%lookup_insert_Some Hax Hay;
      [done|..|by eapply Ha]; exfalso; eauto.
Qed.

(** Updates that keep the place and the text of an address and do not activate it. *)
Record keeps_place (g : Address → Address) : Prop := {
  kp_slot x : slot (g x) = slot x;
  kp_text x : (a_Chain (g x), a_Address (g x)) = (a_Chain x, a_Address x);
  kp_state x : a_State (g x) = AddressStateActive → a_State x = AddressStateActive
}.

Lemma retire_keeps_place : keeps_place retire_address.
Proof. by split. Qed.

Lemma receive_keeps_place : keeps_place receive_on.
Proof. by split. Qed.

Lemma kp_active g wid x : keeps_place g → active_of wid (g x) = true → active_of wid x = true.
Proof.
  intros Hg. unfold active_of. rewrite !andb_true_iff, !bool_decide_eq_true.
  pose proof (kp_slot g Hg x) as Hs. injection Hs as -> _ _.
  intros [? ?]. split; [done|]. by apply (kp_state g Hg).
Qed.

Lemma book_change M b id a a' g :
  book_table M b → M !! id = Some a → address_view a' = g (address_view a) → keeps_place g →
  book_table (<[id := a']> M) (alter g id b).
Proof.
  intros [<- Hs Ha] Hid Hv Hg. pose proof (kp_slot g Hg) as Hslot.
  pose proof (λ wid x, kp_active g wid x Hg) as Hact.
  assert (∀ i x, alter g id (address_view <$> M) !! i = Some x → ∃ y,
    (address_view <$> M) !! i = Some y ∧ slot x = slot y ∧
    ∀ wid, active_of wid x = true → active_of wid y = true) as Hback.
  { intros i x. destruct (decide (i = id)) as [->|Hne].
    - rewrite lookup_alter_eq. intros (y & Hy & ->)%fmap_Some. exists y. eauto.
    - rewrite lookup_alter_ne by done. eauto. }
  split.
  - apply map_eq. intros i. rewrite fmap_insert, lookup_insert, lookup_alter.
    case_decide; [subst|done]. rewrite lookup_fmap, Hid. simpl. by rewrite Hv.
  - intros i j x y (x' & Hx & Hsx & _)%Hback (y' & Hy & Hsy & _)%Hback Heq.
    eapply (Hs i j x' y'); congruence.
  - intros i j wid x y (x' & Hx & _ & Hax)%Hback (y' & Hy & _ & Hay)%Hback H1 H2.
    eapply (Ha i j wid x' y'); eauto.
Qed.

(** *** Queries *)
Lemma active_of_view wid a : active_of wid (address_view a) = active_of wid a.
Proof. done. Qed.

(** What a search of the table for an active row has found. *)
Lemma book_active M b wid o :
  book_table M b →
  match o with
  | Some a => active_of wid a = true ∧ ∃ i, M !! i = Some a
  | None => map_Forall (λ _ a, active_of wid a = false) M
  end → active_in wid b = address_view <$> o.
Proof.
  intros Hb. destruct o as [a|].
  - intros [Ha [i Hi]]. assert (b !! i = Some (address_view a)) as Hx
      by by rewrite (book_lookup _ _ _ Hb), Hi.
    apply (first_row_unique _ _ i); [|done..]. intros j y Hj Hy. by eapply (bt_active _ _ Hb i j wid).
  - intros Hall. apply first_row_None. intros i x Hx. rewrite (book_lookup _ _ _ Hb) in Hx.
    apply fmap_Some in Hx as (a & Hi & ->). rewrite active_of_view. by apply (Hall i a).
Qed.

(** The largest index, by its upper bounds. *)
Lemma sql_max_index_le chain change d z :
  sql_max_index chain change d ≤ z ↔ -1 ≤ z ∧ ∀ k a, pg_addresses d !! k = Some a →
    a_Chain a = chain → a_Change a = change → a_Index a ≤ z.
Proof.
  assert (∀ l, foldr (λ a m, Z.max (a_Index a) m) (-1) (List.filter
    (λ a, (a_Chain a =s chain) && (a_Change a =? change)) l) ≤ z ↔
    -1 ≤ z ∧ ∀ a, a ∈ l → a_Chain a = chain → a_Change a = change → a_Index a ≤ z) as Hl.
  { induction l as [|x l IH]; simpl.
    - split; [|tauto]. intros Hz. split; [done|]. by intros ? ?%elem_of_nil.
    - setoid_rewrite elem_of_cons. destruct (_ && _) eqn:Hx; simpl.
      + rewrite andb_true_iff, bool_decide_eq_true, Z.eqb_eq in Hx.
        rewrite Z.max_lub_iff, IH. naive_solver.
      + rewrite andb_false_iff, bool_decide_eq_false, Z.eqb_neq in Hx.
        rewrite IH. naive_solver. }
  unfold sql_max_index. rewrite Hl. setoid_rewrite rows_of_elem. naive_solver.
Qed.

Lemma max_index_eq x y : (∀ z, x ≤ z ↔ y ≤ z) → x = y.
Proof. intros Hxy. apply Z.le_antisymm; apply Hxy; lia. Qed.

Lemma book_max_index M b chain change d :
  book_table M b → pg_addresses d = M → sql_max_index chain change d + 1 = next_index chain change b.
Proof.
  intros Hb HM. unfold next_index. f_equal. apply max_index_eq. intros z.
  rewrite !sql_max_index_le, HM. simpl. apply and_iff_compat_l. split.
  - intros Hall k x Hx. rewrite (book_lookup _ _ _ Hb) in Hx.
    apply fmap_Some in Hx as (a & Ha & ->). exact (Hall k a Ha).
  - intros Hall k a Ha. apply (Hall k (address_view a)). by rewrite (book_lookup _ _ _ Hb), Ha.
Qed.

(** *** Listings *)
Lemma address_less_spec x y :
  address_less x y = true ↔
  a_Change x < a_Change y ∨ (a_Change x = a_Change y ∧ a_Index x < a_Index y).
Proof. unfold address_less. destruct (Z.eqb_spec (a_Change x) (a_Change y)); lia. Qed.

Lemma address_le_spec x y :
  address_le x y ↔ a_Change x < a_Change y ∨ (a_Change x = a_Change y ∧ a_Index x ≤ a_Index y).
Proof. unfold address_le. rewrite <-not_true_iff_false, address_less_spec. lia. Qed.

Lemma address_less_strict_weak : strict_weak address_less.
Proof.
  split.
  - intros x. apply not_true_iff_false. rewrite address_less_spec. lia.
  - intros x y z. rewrite !address_less_spec. lia.
  - intros x y z. rewrite !address_less_spec. lia.
Qed.

#[export] Instance address_le_total : Total address_le.
Proof. intros x y. rewrite !address_le_spec. lia. Qed.

#[export] Instance address_le_trans : Transitive address_le.
Proof. intros x y z. rewrite !address_le_spec. lia. Qed.

(** A sorted listing of the rows of a wallet is the listing of the specification. *)
Lemma book_listing M b wid l :
  book_table M b → l ≡ₚ List.filter (λ a, bool_decide (a_WalletID a = wid)) (rows_of M) →
  StronglySorted (λ x y, address_less y x = false) l →
  address_view <$> l = addresses_of wid b.
Proof.
  intros Hb Hp Hs.
  assert (address_view <$> l ≡ₚ
    List.filter (λ a, bool_decide (a_WalletID a = wid)) (rows_of b)) as Hpv.
  { rewrite Hp, (book_rows _ _ Hb). clear. induction (rows_of M) as [|a r IH]; [done|]. csimpl.
    change (a_WalletID (address_view a)) with (a_WalletID a).
    case_bool_decide; csimpl; by rewrite IH. }
  assert (∀ x, x ∈ List.filter (λ a, bool_decide (a_WalletID a = wid)) (rows_of b) →
    a_WalletID x = wid ∧ ∃ i, b !! i = Some x) as Hin.
  { intros x [Hx Hw]%list_elem_of_In%filter_In. apply bool_decide_eq_true in Hw.
    apply list_elem_of_In, rows_of_elem in Hx. done. }
  apply (StronglySorted_unique_strong address_le).
  - intros x y. unfold addresses_of. rewrite Hpv, merge_sort_Permutation.
    intros [Hwx [i Hi]]%Hin [Hwy [j Hj]]%Hin. rewrite !address_le_spec. intros Hxy Hyx.
    assert (i = j) as <-; [|congruence]. apply (bt_slot _ _ Hb i j x y); [done..|].
    unfold slot. f_equal; [f_equal|]; [congruence|lia|lia].
  - apply (StronglySorted_map address_le address_view). done.
  - apply StronglySorted_merge_sort; apply _.
  - unfold addresses_of. by rewrite merge_sort_Permutation.
Qed.

(** ** The in-memory store *)
Section memory.
Context `{GoRuntime} `{UUIDLib} `{Environment}.

Definition mem_book (w : World) (b : Book) : Prop := book_table (addresses (store w)) b.

Lemma mem_find_active wid w b :
  mem_book w b → active_in wid b = address_view <$> range_find (active_of wid) (addresses (store w)).
Proof.
  intros Hb. eapply book_active; [exact Hb|]. destruct (range_find _ _) eqn:Hf.
  - by apply range_find_Some.
  - intros i a. rewrite range_find_None in Hf. apply Hf.
Qed.

Lemma mem_any_active wid w b :
  mem_book w b →
  range_any (active_of wid) (addresses (store w)) = bool_decide (is_Some (active_in wid b)).
Proof.
  intros Hb. rewrite (mem_find_active _ _ _ Hb). apply eq_iff_eq_true.
  rewrite bool_decide_eq_true, fmap_is_Some. destruct (range_find _ _) as [a|] eqn:Hf.
  - apply range_find_Some in Hf as [Ha [i Hi]]. rewrite range_any_true. naive_solver.
  - rewrite range_find_None in Hf. rewrite (proj2 (range_any_false _ _) Hf).
    split; [done|by intros [? ?]].
Qed.

(** A refusal or a new row, as the active addresses of the wallet decide. *)
Lemma inactive_or_free (a : Address) (b : Book) :
  (a_State a =s AddressStateActive) && bool_decide (is_Some (active_in (a_WalletID a) b)) = false →
  ∀ i x, b !! i = Some x → active_of (a_WalletID a) x = true → a_State a ≠ AddressStateActive.
Proof.
  rewrite andb_false_iff, !bool_decide_eq_false, <-eq_None_not_Some. unfold active_in.
  rewrite first_row_None.
  intros [Hs|Hn] i x Hx Hax; [done|]. specialize (Hn i x Hx). simpl in Hn. congruence.
Qed.

Lemma mem_change g f id w b :
  mem_book w b → is_Some (b !! id) → keeps_place g →
  (∀ a, b !! id = Some (address_view a) → address_view (f a) = g (address_view a)) →
  ∃ a, addresses (store w) !! id = Some a ∧
    book_table (<[id := f a]> (addresses (store w))) (alter g id b).
Proof.
  intros Hb Hid Hg Hf. rewrite (book_lookup _ _ _ Hb) in Hid.
  destruct (addresses (store w) !! id) as [a|] eqn:Ha; [|by destruct Hid].
  exists a. split; [done|]. eapply book_change; [done|done| |done]. apply Hf.
  by rewrite (book_lookup _ _ _ Hb), Ha.
Qed.

#[export] Instance mem_address_refines wids :
  Refines address_spec (address_admissible wids) (address_op (S := World)) (λ _, mem_book).
Proof.
  intros _ op w b Hb _ Hadm. destruct op as [a|id|wid|id|id|chain change|wid]; simpl in *.
  - destruct Hadm as (Hn & _ & _ & Hfresh). pose proof Hn as Hn'. rewrite (book_lookup _ _ _ Hb) in Hn'.
    apply fmap_None in Hn'. unfold InsertAddress. go_run.
    rewrite Hn', (mem_any_active _ _ _ Hb).
    destruct (_ && _) eqn:Hact; [by exists w|].
    destruct (time_IsZero (a_CreatedAt a)); simpl; (eexists; split; [done|]); unfold mem_book; simpl;
      (eapply book_add; [done..| |by apply inactive_or_free]);
      intros i x Hx; by apply (Hfresh i x Hx).
  - exists w. split; [|done]. rewrite (book_lookup _ _ _ Hb). unfold found, GetAddress. go_run.
    by destruct (addresses (store w) !! id).
  - exists w. split; [|done]. rewrite (mem_find_active _ _ _ Hb). unfold found, GetActiveAddress.
    go_run. by destruct (range_find _ _).
  - destruct (mem_change retire_address (with_address_state AddressStateDeprecated) id w b Hb Hadm)
      as (a & Ha & Hb'); [apply retire_keeps_place|done|].
    unfold DeprecateAddress. go_run. rewrite Ha. by eexists.
  - destruct (b !! id) as [x|] eqn:Hx; [rename Hadm into Hc|done].
    destruct (mem_change receive_on bump_receive_count id w b Hb) as (a & Ha & Hb');
      [by eexists|apply receive_keeps_place| |].
    { intros a Ha. rewrite Hx in Ha. injection Ha as ->. simpl in Hc.
      unfold bump_receive_count, receive_on, set_address, address_view. simpl.
      rewrite int64_id; [done|]. unfold in_int64. lia. }
    unfold IncrementReceiveCount. go_run. rewrite Ha. by eexists.
  - exists w. split; [|done]. destruct Hadm as [_ Hi]. unfold NextAddressIndex. go_run.
    assert (max_index chain change (addresses (store w)) =
      sql_max_index chain change (put_addresses empty_db (addresses (store w)))) as ->.
    { apply max_index_eq. intros z. by rewrite max_index_le, sql_max_index_le. }
    rewrite (book_max_index _ _ chain change (put_addresses empty_db (addresses (store w))) Hb eq_refl). unfold int4 in Hi.
    rewrite int64_id; [done|]. unfold in_int64. lia.
  - exists w. split; [|done]. unfold ListAddresses. go_run. do 2 f_equal. apply (f_equal AddressList).
    eapply book_listing; [exact Hb| |apply sort_Slice_sorted, address_less_strict_weak].
    rewrite sort_Slice_perm. unfold range_filter, rows_of. by rewrite range_map_perm.
Qed.
End memory.

(** ** The Postgres store *)

(** What the schema asks of one row, beside the indexes. *)
Definition address_row_ok (d : PgDB) (a : Address) : Prop :=
  is_Some (pg_wallets d !! a_WalletID a) ∧
  int4 (a_Index a) && int4 (a_Change a) && int4 (a_ReceiveCount a) = true.

Record addresses_ok (d : PgDB) (M : gmap uuid Address) : Prop := {
  ao_slot : unique (λ a, Some (a_WalletID a, a_Index a, a_Change a)) M = true;
  ao_text : unique (λ a, Some (a_Chain a, a_Address a)) M = true;
  ao_active : unique (λ a, only (a_State a =s "ACTIVE") (a_WalletID a)) M = true;
  ao_rows : map_Forall (λ _ a, address_row_ok d a) M
}.

Lemma addresses_ok_valid d M :
  addresses_valid (put_addresses d M) = true ↔ addresses_ok d M.
Proof.
  unfold addresses_valid. rewrite !andb_true_iff, references_Forall, all_rows_Forall. simpl. split.
  - intros ((((? & ?) & ?) & Hr) & Hi). split; [done..|]. intros k a Hk.
    split; [by eapply Hr|by eapply Hi].
  - intros [? ? ? Hall]. split_and!; [done..| |]; intros k a Hk; by apply (Hall k a Hk).
Qed.

Lemma valid_addresses_ok d : valid d = true → addresses_ok d (pg_addresses d).
Proof. intros Hv%valid_addresses. apply addresses_ok_valid. by destruct d. Qed.

Lemma addresses_ok_put d M :
  valid d = true → addresses_ok d M → valid (put_addresses d M) = true.
Proof. intros Hv HM. apply valid_put_addresses; [done|]. by apply addresses_ok_valid. Qed.

(** An UPDATE that keeps what the indexes cover, or takes the row out of one. *)
Lemma book_keys_update d M k a a' :
  addresses_ok d M → M !! k = Some a → slot a' = slot a →
  a_Chain a' = a_Chain a → a_Address a' = a_Address a →
  (a_State a' = AddressStateActive → a_State a = AddressStateActive) →
  int4 (a_ReceiveCount a') = true → addresses_ok d (<[k := a']> M).
Proof.
  intros [Hs Ht Ha Hr] Hk [= Hw Hi Hc] Hch Had Hst Hn.
  pose proof (Hr k a Hk) as [Hwal Hint]. rewrite !andb_true_iff in Hint. split.
  - eapply unique_update; [done| |done]. by rewrite Hw, Hi, Hc.
  - eapply unique_update; [done| |done]. by rewrite Hch, Had.
  - eapply unique_weaken; [done| |done]. unfold only. intros b. case_bool_decide as Hact; [|done].
    rewrite Hw. by rewrite (bool_decide_true _ (Hst Hact)).
  - apply map_Forall_insert_2; [|done]. split; [by rewrite Hw|].
    destruct Hint as [[Hi1 Hi2] _]. by rewrite Hi, Hc, Hn, Hi1, Hi2.
Qed.

Section postgres.
Context `{PgServer}.

Record pg_book (wids : gset uuid) (w : PgWorld) (b : Book) : Prop := {
  pb_tx : pw_Tx w = None;
  pb_valid : valid (pw_DB w) = true;
  pb_table : book_table (pg_addresses (pw_DB w)) b;
  pb_wallets wid : wid ∈ wids → is_Some (pg_wallets (pw_DB w) !! wid)
}.

Lemma pg_book_put wids w b M b' n :
  pg_book wids w b → addresses_ok (pw_DB w) M → book_table M b' →
  pg_book wids (MkPg (put_addresses (pw_DB w) M) None n) b'.
Proof. intros [Ht Hv Hb Hw] HM Hb'. split; try done. by apply addresses_ok_put. Qed.

Lemma pg_book_same wids w b n : pg_book wids w b → pg_book wids (MkPg (pw_DB w) None n) b.
Proof. intros []. by split. Qed.

(** The row [InsertAddress] stores. *)
Definition stored_address (a : Address) : Address :=
  MkAddress (a_ID a) (a_WalletID a) (a_Chain a) (a_Address a) (a_DerivationPath a)
    (a_Index a) (a_Change a) (a_State a) (a_ReceiveCount a) (timestamptz (a_CreatedAt a)).

(** A new row that clashes with no other satisfies the schema. *)
Lemma book_keys_insert d M b a :
  addresses_ok d M → book_table M b → M !! a_ID a = None → address_row_ok d a →
  map_Forall (λ _ x, slot x ≠ slot a ∧ (a_Chain x, a_Address x) ≠ (a_Chain a, a_Address a)) b →
  (∀ i x, b !! i = Some x → active_of (a_WalletID a) x = true → a_State a ≠ AddressStateActive) →
  addresses_ok d (<[a_ID a := stored_address a]> M).
Proof.
  intros [Hs Ht Ha Hr] Hb Hn Hrow Hfresh Hact.
  assert (∀ x, x ∈ rows_of M → ∃ i, b !! i = Some (address_view x)) as Hview.
  { intros x [i Hi]%rows_of_elem. exists i. by rewrite (book_lookup _ _ _ Hb), Hi. }
  split; [apply unique_insert; [done..|]..|by apply map_Forall_insert_2].
  - intros k [= <-] x [i Hi]%Hview [= ? ? ?]. destruct (proj1 (Hfresh i _ Hi)).
    unfold slot. simpl. congruence.
  - intros k [= <-] x [i Hi]%Hview [= ? ?]. destruct (proj2 (Hfresh i _ Hi)). simpl. congruence.
  - intros k. unfold only. simpl. case_bool_decide as Hst; [|done]. intros [= <-] x [i Hi]%Hview.
    case_bool_decide as Hx; [|done]. intros [= Hw]. eapply (Hact i _ Hi); [|exact Hst].
    unfold active_of. simpl. by rewrite !bool_decide_true.
Qed.

Context (Hf : no_faults).

Lemma pg_insert_stored wids a w b :
  pg_book wids w b → address_admissible wids (AddAddress a) b →
  (∀ i x, b !! i = Some x → active_of (a_WalletID a) x = true → a_State a ≠ AddressStateActive) →
  ∃ w', pg_InsertAddress a w = (Ok tt, w') ∧ pg_book wids w' (<[a_ID a := address_view a]> b).
Proof.
  intros Hp (Hn & Hw & Hint & Hfresh) Hact. pose proof Hp as [Ht Hv Hb Hws].
  assert (pg_addresses (pw_DB w) !! a_ID a = None) as Hn'.
  { rewrite (book_lookup _ _ _ Hb) in Hn. by apply fmap_None in Hn. }
  assert (addresses_ok (pw_DB w) (<[a_ID a := stored_address a]> (pg_addresses (pw_DB w)))) as Hok.
  { eapply book_keys_insert; try done; [by apply valid_addresses_ok|]. split; [by apply Hws|done]. }
  eexists. split.
  - apply statement_ok; [done|done| |by apply addresses_ok_put]. unfold insert_row. by rewrite Hn'.
  - eapply pg_book_put; [done..|]. eapply book_add; [done..| |done].
    intros i x Hx. by apply (Hfresh i x Hx).
Qed.

Lemma pg_insert_refused wids a w b :
  pg_book wids w b → b !! a_ID a = None → a_State a = AddressStateActive →
  is_Some (active_in (a_WalletID a) b) →
  ∃ e, pg_InsertAddress a w = (Err e, MkPg (pw_DB w) None (S (pw_Calls w))).
Proof.
  intros [Ht Hv Hb _] Hn Hst [x Hx]. unfold pg_InsertAddress. rewrite statement_auto by done.
  assert (pg_addresses (pw_DB w) !! a_ID a = None) as Hn'.
  { rewrite (book_lookup _ _ _ Hb) in Hn. by apply fmap_None in Hn. }
  unfold checked, insert_row. rewrite Hn'. fold (stored_address a).
  destruct (valid (put_addresses _ _)) eqn:Hv'; [|by eexists]. exfalso.
  apply valid_addresses_ok in Hv' as [_ _ Hu _]. simpl in Hu.
  apply first_row_Some in Hx as [Hax [i Hi]]. rewrite (book_lookup _ _ _ Hb) in Hi.
  apply fmap_Some in Hi as (x0 & Hi & ->). rewrite active_of_view in Hax.
  unfold active_of in Hax. rewrite andb_true_iff, !bool_decide_eq_true in Hax. destruct Hax as [Hw Hs].
  assert (i ≠ a_ID a) as Hne by (intros ->; congruence). destruct Hne.
  eapply (unique_spec _ _ _ _ x0 (stored_address a) (a_WalletID a) Hu).
  - rewrite lookup_insert_ne; congruence.
  - apply lookup_insert_eq.
  - unfold only. rewrite Hs, Hw. done.
  - unfold only. simpl. by rewrite Hst.
Qed.

(** An UPDATE of one row. *)
Lemma pg_change wids g f id w b :
  pg_book wids w b → is_Some (b !! id) → keeps_place g →
  (∀ now a, address_view (f now a) = g (address_view a)) →
  (∀ x, b !! id = Some x → int4 (a_ReceiveCount x) = true → int4 (a_ReceiveCount (g x)) = true) →
  ∃ w', (statement (update_row pg_addresses put_addresses id always f);; mret tt) w = (Ok tt, w') ∧
    pg_book wids w' (alter g id b).
Proof.
  intros Hp Hid Hg Hview Hcount. pose proof Hp as [Ht Hv Hb _].
  pose proof (book_lookup _ _ id Hb) as Hl. rewrite Hl in Hid.
  destruct (pg_addresses (pw_DB w) !! id) as [a|] eqn:Ha; [|by destruct Hid]. simpl in Hl.
  set (a' := f (pg_clock (pw_Calls w)) a). pose proof (Hview (pg_clock (pw_Calls w)) a) as Hva.
  fold a' in Hva. pose proof (valid_addresses_ok _ Hv) as Hok.
  pose proof (ao_rows _ _ Hok id a Ha) as [_ Hint]. rewrite !andb_true_iff in Hint.
  pose proof (kp_text g Hg (address_view a)) as [= Hch Had]. rewrite <-Hva in Hch, Had.
  assert (addresses_ok (pw_DB w) (<[id := a']> (pg_addresses (pw_DB w)))) as Hok'.
  { eapply book_keys_update; [done..| |done|done| |].
    - change (slot (address_view a') = slot (address_view a)). rewrite Hva. apply (kp_slot g Hg).
    - change (a_State (address_view a') = AddressStateActive → a_State (address_view a) = AddressStateActive).
      rewrite Hva. apply (kp_state g Hg).
    - change (int4 (a_ReceiveCount (address_view a')) = true). rewrite Hva. apply Hcount; [done|].
      apply Hint. }
  eexists. split.
  - erewrite bind_Ok; [done|]. apply statement_ok; [done|done| |by apply addresses_ok_put].
    unfold update_row. by rewrite Ha.
  - eapply pg_book_put; [done..|]. by eapply book_change.
Qed.

Lemma pg_active_run wids wid w b :
  pg_book wids w b →
  ∃ w', found (pg_GetActiveAddress wid) w = (Ok (AddressFound (active_in wid b)), w') ∧
    pg_book wids w' b.
Proof.
  intros Hp. pose proof Hp as [Ht Hv Hb _].
  eexists. split; [|by apply pg_book_same].
  unfold found, pg_GetActiveAddress, attempt, mbind, GoM_bind. rewrite query_row_auto by done.
  change (head _) with (first_row (active_of wid) (pg_addresses (pw_DB w))).
  rewrite (book_active _ b wid (first_row (active_of wid) (pg_addresses (pw_DB w))) Hb);
    [by destruct (first_row _ _)|].
  destruct (first_row _ _) eqn:Ha; [by apply first_row_Some|by apply first_row_None].
Qed.

(** ORDER BY change, index. *)
Lemma sql_order_sorted (l : list Address) :
  let lt x y := (a_Change x <? a_Change y) ||
    ((a_Change x =? a_Change y) && (a_Index x <? a_Index y)) in
  StronglySorted (λ x y, address_less y x = false) (order_by lt l).
Proof.
  intros lt. assert (∀ x y, lt x y = address_less x y) as Hlt.
  { intros x y. apply eq_iff_eq_true. rewrite address_less_spec. unfold lt.
    rewrite orb_true_iff, andb_true_iff, !Z.ltb_lt, Z.eqb_eq. done. }
  assert (strict_weak lt) as Hsw.
  { destruct address_less_strict_weak as [H1 H2 H3]. split; intros *; rewrite !Hlt; eauto. }
  pose proof (order_by_sorted lt l Hsw) as Hs.
  induction Hs as [|x l' _ IH Hall]; constructor; [done|].
  eapply Forall_impl; [exact Hall|]. intros y. simpl. by rewrite Hlt.
Qed.

#[export] Instance pg_address_refines wids :
  Refines address_spec (address_admissible wids) (address_op (S := PgWorld)) (λ _, pg_book wids).
Proof.
  intros _ op w b Hp _ Hadm. pose proof Hp as [Ht Hv Hb Hw].
  destruct op as [a|id|wid|id|id|chain change|wid]; simpl.
  - unfold attempt, mbind, GoM_bind.
    destruct (_ && _) eqn:Hact.
    + rewrite andb_true_iff, !bool_decide_eq_true in Hact. destruct Hact as [Hst Hsome].
      destruct (pg_insert_refused wids a w b Hp (proj1 Hadm) Hst Hsome) as [e ->].
      eexists. split; [done|]. by apply pg_book_same.
    + destruct (pg_insert_stored wids a w b Hp Hadm (inactive_or_free a b Hact)) as (w' & -> & Hp').
      by exists w'.
  - eexists. split; [|by apply pg_book_same].
    unfold found, pg_GetAddress, attempt, mbind, GoM_bind. rewrite query_row_auto by done.
    rewrite (book_lookup _ _ id Hb). by destruct (pg_addresses (pw_DB w) !! id).
  - by apply pg_active_run.
  - destruct (pg_change wids retire_address (λ _ a, set_address "DEPRECATED" (a_ReceiveCount a) a) id w b)
      as (w' & Hr & Hp'); [done|done|apply retire_keeps_place|done|done|].
    exists w'. split; [|done]. unfold pg_DeprecateAddress. by erewrite bind_Ok by exact Hr.
  - simpl in Hadm. destruct (b !! id) as [x|] eqn:Hx; [rename Hadm into Hc|done].
    destruct (pg_change wids receive_on (λ _ a, set_address (a_State a) (a_ReceiveCount a + 1) a) id w b)
      as (w' & Hr & Hp'); [done|by eexists|apply receive_keeps_place|done| |].
    { intros y Hy _. rewrite Hx in Hy. injection Hy as <-. unfold int4. simpl. lia. }
    exists w'. split; [|done]. unfold pg_IncrementReceiveCount. by erewrite bind_Ok by exact Hr.
  - destruct Hadm as [Hch Hi]. eexists. split; [|by apply pg_book_same].
    unfold pg_NextAddressIndex. erewrite bind_Ok; [|apply statement_ok; [done|done| |exact Hv]].
    2: { unfold select. rewrite (book_max_index _ _ chain change _ Hb eq_refl), Hch, Hi. done. }
    done.
  - eexists. split; [|by apply pg_book_same].
    unfold pg_ListAddresses. erewrite bind_Ok; [|by apply statement_ok].
    unfold mret, GoM_ret. do 2 f_equal. apply (f_equal AddressList).
    eapply book_listing; [exact Hb|by rewrite order_by_perm|apply sql_order_sorted].
Qed.
End postgres.

(** ** Both stores *)
Section theorems.
Context `{GoRuntime} `{UUIDLib} `{Environment} `{PgServer}.
Context (Hf : no_faults).

(** Where the stores differ: an address of another wallet.  Postgres has an address once
    per chain and refuses it to a second wallet, for which the in-memory store takes it.
    Every Solana wallet derives the same address, so that on Postgres the first one keeps
    it and the others have none. *)
Lemma address_taken a x w pw :
  pw_Tx pw = None → pg_addresses (pw_DB pw) !! a_ID x = Some x → a_ID x ≠ a_ID a →
  (a_Chain x, a_Address x) = (a_Chain a, a_Address a) →
  addresses (store w) !! a_ID a = None →
  map_Forall (λ _ y, a_WalletID y ≠ a_WalletID a) (addresses (store w)) →
  (∃ w', InsertAddress a w = (Ok tt, w')) ∧
  ∃ e, pg_InsertAddress a pw = (Err e, MkPg (pw_DB pw) None (S (pw_Calls pw))).
Proof.
  intros Htx Hx Hne Heq Hn Hother. split.
  - unfold InsertAddress. go_run. rewrite Hn.
    rewrite (proj2 (range_any_false _ _)), andb_false_r; [by destruct (time_IsZero _); eexists|].
    intros i y Hy. unfold active_of. by rewrite bool_decide_false by by apply (Hother i y).
  - unfold pg_InsertAddress. rewrite statement_auto by done. unfold checked, insert_row.
    destruct (pg_addresses (pw_DB pw) !! a_ID a) eqn:Ha; [by eexists|].
    destruct (valid (put_addresses _ _)) eqn:Hv; [|by eexists]. exfalso.
    apply valid_addresses_ok in Hv as [_ Hu _ _]. simpl in Hu. apply Hne.
    eapply (unique_spec _ _ _ _ x (stored_address a) (a_Chain a, a_Address a) Hu).
    + rewrite lookup_insert_ne; congruence.
    + apply lookup_insert_eq.
    + by rewrite Heq.
    + done.
Qed.

(** C17. The two stores refine one address book.  Take an in-memory store and a Postgres
    database that hold the same addresses, the time of creation apart, a server that
    does not fail, and any sequence of calls in which an inserted address has a new id,
    belongs to a wallet that exists, has a place (wallet, index, branch) and a text
    (chain, address) that no stored address has, addresses that are retired or received
    on exist, and branches, indices and receive counts stay within 32 bits.  Both then give the answers
    of the abstract book: an address is stored unless it is a second active one of its
    wallet and then it is refused, the active address is found or reported missing, the
    next index is one above all that are used on the branch, and the addresses of a
    wallet are listed in the same order; and both stores are left holding the same
    addresses.  ([address_taken] is the case left out: an address text that is stored
    already, which one store accepts and the other refuses.) *)
Theorem address_stores_refine wids ops b w pw :
  mem_book w b → pg_book wids pw b →
  all_admissible address_spec (address_admissible wids) ops b →
  let '(answers, b') := spec_run address_spec ops b in
  ∃ w' pw', run_all address_op ops w = (Ok answers, w') ∧
    run_all address_op ops pw = (Ok answers, pw') ∧
    mem_book w' b' ∧ pg_book wids pw' b'.
Proof.
  intros Hm Hp Hadm. pose proof (pg_address_refines Hf wids) as Hpg.
  destruct (run_refines address_spec (address_admissible wids) address_op (λ _, mem_book) ops w b
    Hm Hadm) as (w' & Hr & Hm').
  destruct (run_refines address_spec (address_admissible wids) address_op (λ _, pg_book wids) ops pw b
    Hp Hadm) as (pw' & Hr' & Hp').
  destruct (spec_run address_spec ops b). by exists w', pw'.
Qed.
End theorems.

(** ** Witness *)
Section witnesses.
#[local] Existing Instances ref_runtime ref_uuid ref_env ref_pg.

Definition book_address (n : Z) (text : string) : Address :=
  MkAddress (uuid_of_Z (10 + n)) (uuid_of_Z 1) ChainBitcoin text "m/84'/0'/0'/0" n 0
    AddressStateActive 0 7.

(** An address, a second one that is refused, a rotation, a receipt. *)
Definition book_ops : list AddressOp :=
  [NextIndex ChainBitcoin 0; AddAddress (book_address 0 "bc1a"); ReceiveOn (uuid_of_Z 10);
   AddAddress (book_address 1 "bc1b"); RetireAddress (uuid_of_Z 10); ActiveAddress (uuid_of_Z 1);
   NextIndex ChainBitcoin 0; AddAddress (book_address 1 "bc1b"); ActiveAddress (uuid_of_Z 1);
   AddressesOf (uuid_of_Z 1)].

Lemma one_wallet_book : pg_book {[uuid_of_Z 1]} one_wallet ∅.
Proof.
  split.
  - reflexivity.
  - vm_compute. reflexivity.
  - by split.
  - intros wid ->%elem_of_singleton. exists pg_wallet. reflexivity.
Qed.

Lemma address_stores_refine_witness :
  let retired := set_address AddressStateDeprecated 1 (address_view (book_address 0 "bc1a")) in
  let fresh := address_view (book_address 1 "bc1b") in
  (spec_run address_spec book_ops ∅).1 = [IndexIs 0; AddressStored; AddressChanged; AddressRefused;
    AddressChanged; AddressFound None; IndexIs 1; AddressStored; AddressFound (Some fresh);
    AddressList [retired; fresh]] ∧
  let '(answers, b') := spec_run address_spec book_ops ∅ in
  ∃ w' pw', run_all address_op book_ops initial_world = (Ok answers, w') ∧
    run_all address_op book_ops one_wallet = (Ok answers, pw') ∧
    mem_book w' b' ∧ pg_book {[uuid_of_Z 1]} pw' b'.
Proof.
  intros retired fresh. split; [vm_compute; reflexivity|].
  apply (address_stores_refine ref_pg_no_faults {[uuid_of_Z 1]} book_ops ∅
    initial_world one_wallet).
  - by split.
  - apply one_wallet_book.
  - apply (bool_decide_unpack _). vm_compute. exact I.
Defined.
End witnesses.
