(* ===== verification/FundingRefinement.v ===== *)
(** * FundingRefinement: both stores implement the same funding requests

    The abstract table maps the id of a request to its row, with the amount as
    NUMERIC(38,18) prints it and without the times.  The in-memory store and the Postgres store
    simulate it for the requests the funding service opens, looks for and settles. *)
From stdpp Require Import base tactics numbers gmap strings pretty list fin_maps.
From Stdlib Require Import ZArith Lia.
From S2P Require Import Prelude.
From S2P Require Import GoLang.
From S2P Require Import Domain.
From S2P Require Import World.
From S2P Require Import Reference.
From S2P Require Import MemStore.
From S2P Require Import PgEngine.
From S2P Require Import PgReference.
From S2P Require Import Postgres.
From S2P Require Import PostgresFacts.
From S2P Require Import PostgresProps.
From S2P Require Import PostgresRuns.
From S2P Require Import StoreInterface.
From S2P Require Import Refinement.
From S2P Require Import NonceRefinement.

#[local] Open Scope string_scope.
#[local] Open Scope list_scope.
#[local] Open Scope Z_scope.

(** ** The specification *)
Abbreviation Requests := (gmap uuid FundingRequest).

Inductive FundingOp : Type :=
  | OpenFunding (f : FundingRequest)
  | FindFunding (wid : uuid) (asset : string)
  | SettleFunding (id : uuid) (state batch : string).

Inductive FundingAnswer : Type :=
  | FundingOpened
  | FundingRefused
  | FundingFound (f : option FundingRequest)
  | FundingUpdated.

Section specification.
Context `{PgServer}.

(** A request without its clock readings, its amount as NUMERIC prints it. *)
Definition funding_view (f : FundingRequest) : FundingRequest :=
  MkFunding (fr_ID f) (fr_WalletID f) (fr_Asset f)
    (default (fr_Amount f) (numeric (fr_Amount f))) (fr_State f) (fr_TreasuryBatchID f)
    (fr_Reason f) 0 0.

Definition open_in (wid : uuid) (asset : string) (st : Requests) : option FundingRequest :=
  first_row (open_funding wid asset) st.

Definition settle (state batch : string) (f : FundingRequest) : FundingRequest :=
  MkFunding (fr_ID f) (fr_WalletID f) (fr_Asset f) (fr_Amount f) state
    (coalesce batch (fr_TreasuryBatchID f)) (fr_Reason f) (fr_CreatedAt f) (fr_UpdatedAt f).

Definition funding_spec (op : FundingOp) (st : Requests) : FundingAnswer * Requests :=
  match op with
  | OpenFunding f =>
      match open_in (fr_WalletID f) (fr_Asset f) st with
      | Some _ => (FundingRefused, st)
      | None => (FundingOpened, <[fr_ID f := funding_view f]> st)
      end
  | FindFunding wid asset => (FundingFound (open_in wid asset st), st)
  | SettleFunding id state batch => (FundingUpdated, alter (settle state batch) id st)
  end.

(** A request is opened as REQUESTED under a new id for a wallet that exists; a request
    that is settled exists, and is not opened again. *)
Definition funding_admissible (wids : gset uuid) (op : FundingOp) (st : Requests) : Prop :=
  match op with
  | OpenFunding f => st !! fr_ID f = None ∧ fr_State f = FundingStateRequested ∧
      fr_WalletID f ∈ wids ∧ is_Some (numeric (fr_Amount f))
  | FindFunding _ _ => True
  | SettleFunding id state _ => is_Some (st !! id) ∧ state ≠ FundingStateRequested
  end.

#[export] Instance funding_admissible_dec wids op st :
  Decision (funding_admissible wids op st).
Proof. destruct op; simpl; apply _. Defined.

(** The calls, on any store. *)
Definition funding_op {S : Type} `{!StoreAPI S} (op : FundingOp) : GoM S FundingAnswer :=
  match op with
  | OpenFunding f =>
      r ← attempt (st_CreateFundingRequest f); mret (if is_ok r then FundingOpened else FundingRefused)
  | FindFunding wid asset =>
      r ← attempt (st_GetOpenFundingRequest wid asset);
      mret (FundingFound match r with Ok f => Some (funding_view f) | Err _ => None end)
  | SettleFunding id state batch => st_UpdateFundingState id state batch;; mret FundingUpdated
  end.

(** ** Tables of requests *)
Record requests_table (M st : Requests) : Prop := {
  rq_view : funding_view <$> M = st;
  rq_open i j wid asset x y : st !! i = Some x → st !! j = Some y →
    open_funding wid asset x = true → open_funding wid asset y = true → i = j
}.

Lemma requests_lookup M st id : requests_table M st → st !! id = funding_view <$> M !! id.
Proof. intros [<- _]. apply lookup_fmap. Qed.

(** What a search of the table for an open request has found. *)
Lemma requests_open M st wid asset o :
  requests_table M st →
  match o with
  | Some f => open_funding wid asset f = true ∧ ∃ i, M !! i = Some f
  | None => map_Forall (λ _ f, open_funding wid asset f = false) M
  end → open_in wid asset st = funding_view <$> o.
Proof.
  intros Ht. destruct o as [f|].
  - intros [Ha [i Hi]]. assert (st !! i = Some (funding_view f)) as Hx
      by by rewrite (requests_lookup _ _ _ Ht), Hi.
    apply (first_row_unique _ _ i); [|done..]. intros j y Hj Hy.
    by eapply (rq_open _ _ Ht i j wid asset).
  - intros Hall. apply first_row_None. intros i x Hx. rewrite (requests_lookup _ _ _ Ht) in Hx.
    apply fmap_Some in Hx as (f & Hi & ->). exact (Hall i f Hi).
Qed.

Lemma requests_add M st f f' :
  requests_table M st → funding_view f' = funding_view f →
  open_in (fr_WalletID f) (fr_Asset f) st = None →
  requests_table (<[fr_ID f := f']> M) (<[fr_ID f := funding_view f]> st).
Proof.
  intros [<- Ho] Hv Hn. unfold open_in in Hn. rewrite first_row_None in Hn.
  assert (∀ i x wid asset, (funding_view <$> M) !! i = Some x → open_funding wid asset x = true →
    open_funding wid asset (funding_view f) = true → False) as Hclash.
  { intros i x wid asset Hx Hox. unfold open_funding at 1.
    rewrite !andb_true_iff, !bool_decide_eq_true. simpl. intros [[<- <-] _].
    specialize (Hn i x Hx). simpl in Hn. congruence. }
  split; [by rewrite fmap_insert, Hv|].
  intros i j wid asset x y [[<- <-]|[_ Hx]]%lookup_insert_Some [[<- <-]|[_ Hy]]%lookup_insert_Some
    Hax Hay; [done|..|by eapply Ho]; exfalso; eauto.
Qed.

Lemma requests_settle M st id f f' state batch :
  requests_table M st → M !! id = Some f → state ≠ FundingStateRequested →
  funding_view f' = settle state batch (funding_view f) →
  requests_table (<[id := f']> M) (alter (settle state batch) id st).
Proof.
  intros [<- Ho] Hid Hs Hv.
  assert (∀ i x wid asset, alter (settle state batch) id (funding_view <$> M) !! i = Some x →
    open_funding wid asset x = true → (funding_view <$> M) !! i = Some x) as Hback.
  { intros i x wid asset. destruct (decide (i = id)) as [->|Hne].
    - rewrite lookup_alter_eq. intros (y & Hy & ->)%fmap_Some. unfold open_funding.
      rewrite !andb_true_iff, !bool_decide_eq_true. simpl. by intros [_ ?].
    - by rewrite lookup_alter_ne. }
  split.
  - apply map_eq. intros i. rewrite fmap_insert, lookup_insert, lookup_alter.
    case_decide; [subst|done]. rewrite lookup_fmap, Hid. simpl. by rewrite Hv.
  - intros i j wid asset x y Hx Hy Hox Hoy.
    by eapply (Ho i j wid asset x y); [eapply Hback|eapply Hback|..].
Qed.

End specification.

(** ** The in-memory store *)
Section memory.
Context `{GoRuntime} `{UUIDLib} `{Environment} `{PgServer}.

Definition mem_requests (w : World) (st : Requests) : Prop := requests_table (fundingReq (store w)) st.

Lemma mem_find_open wid asset w st :
  mem_requests w st →
  open_in wid asset st = funding_view <$> range_find (open_funding wid asset) (fundingReq (store w)).
Proof.
  intros Ht. eapply requests_open; [exact Ht|]. destruct (range_find _ _) eqn:Hf.
  - by apply range_find_Some.
  - intros i f. rewrite range_find_None in Hf. apply Hf.
Qed.

#[export] Instance mem_funding_refines wids :
  Refines funding_spec (funding_admissible wids) (funding_op (S := World)) (λ _, mem_requests).
Proof.
  intros _ op w st Ht _ Hadm. destruct op as [f|wid asset|id state batch]; simpl in *.
  - rewrite (mem_find_open _ _ _ _ Ht). unfold CreateFundingRequest, or_now. go_run.
    destruct (range_find _ _) as [x|] eqn:Hx; simpl.
    + apply range_find_Some in Hx as [Ho [i Hi]].
      rewrite (proj2 (range_any_true _ _)) by eauto. by exists w.
    + assert (open_in (fr_WalletID f) (fr_Asset f) st = None) as Hn
        by by rewrite (mem_find_open _ _ _ _ Ht), Hx.
      rewrite range_find_None in Hx. rewrite (proj2 (range_any_false _ _) Hx).
      destruct (time_IsZero (fr_CreatedAt f)); simpl; (eexists; split; [done|]);
        by eapply requests_add.
  - exists w. split; [|done]. rewrite (mem_find_open _ _ _ _ Ht). unfold GetOpenFundingRequest.
    go_run. by destruct (range_find _ _).
  - destruct Hadm as [Hid Hs]. rewrite (requests_lookup _ _ _ Ht) in Hid.
    unfold UpdateFundingState. go_run.
    destruct (fundingReq (store w) !! id) as [f|] eqn:Hf; [|by destruct Hid].
    eexists. split; [done|]. by eapply requests_settle.
Qed.
End memory.

(** ** The Postgres store *)
Definition funding_key (f : FundingRequest) : option (uuid * string) :=
  only (fr_State f =s "REQUESTED") (fr_WalletID f, fr_Asset f).

Lemma funding_rows d M :
  funding_valid (put_funding d M) = true ↔
  unique funding_key M = true ∧ map_Forall (λ _ f, is_Some (pg_wallets d !! fr_WalletID f)) M.
Proof. unfold funding_valid. by rewrite andb_true_iff, references_Forall. Qed.

Lemma valid_funding_rows d :
  valid d = true →
  unique funding_key (pg_funding d) = true ∧
  map_Forall (λ _ f, is_Some (pg_wallets d !! fr_WalletID f)) (pg_funding d).
Proof. intros Hv%valid_funding. apply funding_rows. by destruct d. Qed.

Lemma funding_key_open f k : funding_key f = Some k ↔ open_funding k.1 k.2 f = true.
Proof.
  unfold funding_key, only, open_funding. destruct k as [wid asset]. simpl.
  rewrite !andb_true_iff, !bool_decide_eq_true. case_bool_decide; naive_solver.
Qed.

Section postgres.
Context `{PgServer}.

Record pg_requests (wids : gset uuid) (w : PgWorld) (st : Requests) : Prop := {
  pr_tx : pw_Tx w = None;
  pr_valid : valid (pw_DB w) = true;
  pr_table : requests_table (pg_funding (pw_DB w)) st;
  pr_wallets wid : wid ∈ wids → is_Some (pg_wallets (pw_DB w) !! wid)
}.

Lemma pg_requests_put wids w st M st' n :
  pg_requests wids w st → valid (put_funding (pw_DB w) M) = true → requests_table M st' →
  pg_requests wids (MkPg (put_funding (pw_DB w) M) None n) st'.
Proof. intros [] HM Ht'. by split. Qed.

Lemma pg_requests_same wids w st n :
  pg_requests wids w st → pg_requests wids (MkPg (pw_DB w) None n) st.
Proof. intros []. by split. Qed.

Lemma pg_find_open wid asset M st :
  requests_table M st →
  open_in wid asset st = funding_view <$> first_row (open_funding wid asset) M.
Proof.
  intros Ht. apply (requests_open M st); [done|].
  destruct (first_row _ _) eqn:Hf; [by apply first_row_Some|by apply first_row_None].
Qed.

Context (Hf : no_faults).

(** A second open request of the wallet and asset is refused by the partial index. *)
Lemma pg_open_run wids f w st :
  pg_requests wids w st → funding_admissible wids (OpenFunding f) st →
  match open_in (fr_WalletID f) (fr_Asset f) st with
  | Some _ => ∃ e, pg_CreateFundingRequest f w = (Err e, MkPg (pw_DB w) None (S (pw_Calls w)))
  | None => ∃ w', pg_CreateFundingRequest f w = (Ok tt, w') ∧
      pg_requests wids w' (<[fr_ID f := funding_view f]> st)
  end.
Proof.
  intros Hp (Hn & Hs & Hw & [t Hnum]). pose proof Hp as [Htx Hv Ht Hws].
  destruct (valid_funding_rows _ Hv) as [Hu Hrefs].
  assert (pg_funding (pw_DB w) !! fr_ID f = None) as Hn'.
  { rewrite (requests_lookup _ _ _ Ht) in Hn. by apply fmap_None in Hn. }
  unfold pg_CreateFundingRequest, with_numeric. rewrite Hnum. set (f' := MkFunding _ _ _ _ _ _ _ _ _).
  assert (funding_key f' = Some (fr_WalletID f, fr_Asset f)) as Hk
    by (unfold funding_key; simpl; by rewrite Hs).
  destruct (open_in _ _ st) eqn:Ho.
  - rewrite (pg_find_open _ _ _ _ Ht) in Ho. apply fmap_Some in Ho as (x & Hx & _).
    apply first_row_Some in Hx as [Hox [i Hi]]. rewrite statement_auto by done.
    unfold checked, insert_row. rewrite Hn'.
    destruct (valid (put_funding _ _)) eqn:Hv'; [|by eexists]. exfalso.
    apply valid_funding_rows in Hv' as [Hu' _]. simpl in Hu'.
    assert (i ≠ fr_ID f) as Hne by (intros ->; congruence). destruct Hne.
    eapply (unique_spec _ _ _ _ x f' (fr_WalletID f, fr_Asset f) Hu').
    + rewrite lookup_insert_ne; congruence.
    + apply lookup_insert_eq.
    + by apply funding_key_open.
    + done.
  - assert (valid (put_funding (pw_DB w) (<[fr_ID f := f']> (pg_funding (pw_DB w)))) = true) as Hv'.
    { apply valid_put_funding; [done|]. apply funding_rows.
      split; [|apply map_Forall_insert_2; [by apply Hws|done]].
      apply unique_insert; [done..|]. rewrite Hk. intros k [= <-] x [i Hi]%rows_of_elem Hx.
      apply funding_key_open in Hx. simpl in Hx. rewrite (pg_find_open _ _ _ _ Ht) in Ho.
      apply fmap_None in Ho. rewrite first_row_None in Ho. specialize (Ho i x Hi).
      simpl in Ho. congruence. }
    eexists. split.
    + apply statement_ok; [done|done| |exact Hv']. unfold insert_row. by rewrite Hn'.
    + eapply pg_requests_put; [done..|]. eapply requests_add; [done| |done].
      unfold funding_view. simpl. by rewrite (numeric_idem _ _ Hnum), Hnum.
Qed.

#[export] Instance pg_funding_refines wids :
  Refines funding_spec (funding_admissible wids) (funding_op (S := PgWorld)) (λ _, pg_requests wids).
Proof.
  intros _ op w st Hp _ Hadm. pose proof Hp as [Htx Hv Ht Hw].
  destruct op as [f|wid asset|id state batch].
  - pose proof (pg_open_run wids f w st Hp Hadm) as Hrun. simpl. unfold attempt, mbind, GoM_bind.
    destruct (open_in _ _ st).
    + destruct Hrun as [e ->]. eexists. split; [done|]. by apply pg_requests_same.
    + destruct Hrun as (w' & -> & Hp'). by exists w'.
  - simpl. eexists. split; [|by apply pg_requests_same].
    unfold pg_GetOpenFundingRequest, attempt, mbind, GoM_bind. rewrite query_row_auto by done.
    change (head _) with (first_row (open_funding wid asset) (pg_funding (pw_DB w))).
    rewrite (pg_find_open _ _ _ _ Ht). by destruct (first_row _ _).
  - simpl in *. destruct Hadm as [Hid Hs]. rewrite (requests_lookup _ _ _ Ht) in Hid.
    destruct (pg_funding (pw_DB w) !! id) as [f|] eqn:Hf'; [|by destruct Hid].
    destruct (valid_funding_rows _ Hv) as [Hu Hrefs].
    set (f' := MkFunding (fr_ID f) (fr_WalletID f) (fr_Asset f) (fr_Amount f) state
      (coalesce batch (fr_TreasuryBatchID f)) (fr_Reason f) (fr_CreatedAt f)
      (pg_clock (pw_Calls w))).
    assert (valid (put_funding (pw_DB w) (<[id := f']> (pg_funding (pw_DB w)))) = true) as Hv'.
    { apply valid_put_funding; [done|]. apply funding_rows. split.
      - eapply unique_weaken; [done| |done]. intros k. unfold funding_key. simpl.
        by rewrite bool_decide_false.
      - apply map_Forall_insert_2; [|done]. exact (Hrefs id f Hf'). }
    eexists. split.
    + unfold pg_UpdateFundingState, mbind, GoM_bind.
      erewrite statement_ok; [done|done|done| |exact Hv']. unfold update_row. by rewrite Hf'.
    + eapply pg_requests_put; [done..|]. by eapply requests_settle.
Qed.
End postgres.
