(* ===== verification/StoreRefinement.v ===== *)
(** * StoreRefinement: both stores implement one specification of six tables

    The nonces, the outputs, the audit outbox, the key rings, the addresses and the funding
    requests together: admissible calls on these tables in any order get the same answers
    from the in-memory store and from the Postgres store, in the form in which the
    specifications of the tables compare them.  The simulations of the single tables are
    combined with frames: a call changes the tables of its own component only. *)
From stdpp Require Import base tactics numbers gmap strings pretty list fin_maps.
From Stdlib Require Import ZArith Lia.
From S2P Require Import Prelude.
From S2P Require Import GoLang.
From S2P Require Import Domain.
From S2P Require Import World.
From S2P Require Import Reference.
From S2P Require Import MemStore.
From S2P Require Import MemStoreFrames.
From S2P Require Import Nonce.
From S2P Require Import PgEngine.
From S2P Require Import PgReference.
From S2P Require Import Postgres.
From S2P Require Import PostgresFacts.
From S2P Require Import PostgresProps.
From S2P Require Import PostgresRuns.
From S2P Require Import StoreInterface.
From S2P Require Import Refinement.
From S2P Require Import NonceRefinement.
From S2P Require Import UtxoRefinement.
From S2P Require Import AuditRefinement.
From S2P Require Import KeyRefinement.
From S2P Require Import AddressRefinement.
From S2P Require Import FundingRefinement.

#[local] Open Scope string_scope.
#[local] Open Scope list_scope.
#[local] Open Scope Z_scope.

(** ** Frames of the in-memory store *)
Section memory.
Context `{GoRuntime} `{UUIDLib} `{Environment} `{PgServer}.

(** The steps stay within every relation that does not see their tables. *)
Class MemWrites {Op Ans} (step : Op → Go Ans) (blind : relation World → Prop) : Prop :=
  mem_writes R op : FrameRel R → blind R → within R (step op).

(** What the store holds for the specification is in one part of it. *)
Class MemReads {St T} (abs : Z → World → St → Prop) (get : Store → T) : Prop :=
  mem_reads n w w' st : get (store w') = get (store w) → abs (n + 1) w st → abs n w' st.

Lemma mem_frame {Op Ans St T} (step : Op → Go Ans) blind (abs : Z → World → St → Prop)
    (get : Store → T) :
  MemWrites step blind → MemReads abs get → blind (unchanged get) → Frame step abs.
Proof.
  intros Hw Hr Hb n op w a w' st Hs _. apply (mem_reads n w w' st).
  pose proof (mem_writes (unchanged get) op _ Hb w) as Hu. by rewrite Hs in Hu.
Qed.

#[export] Instance nonce_writes : MemWrites (nonce_step (S := World)) (ignores set_nonces).
Proof. intros R [] HR Hb; simpl; solve_within. Qed.

#[export] Instance utxo_writes : MemWrites (utxo_step (S := World)) (ignores set_utxos).
Proof. intros R [] HR Hb; simpl; unfold answer; solve_within. Qed.

#[export] Instance audit_writes : MemWrites (audit_step (S := World))
  (λ R, ignores set_auditOutbox R ∧ ignores set_auditSeqCounters R).
Proof. intros R [] HR [Ho Hq]; simpl; solve_within. Qed.

#[export] Instance key_writes : MemWrites (key_op (S := World)) (ignores set_keyMappings).
Proof. intros R [] HR Hb; simpl; solve_within. Qed.

#[export] Instance address_writes : MemWrites (address_op (S := World)) (ignores set_addresses).
Proof. intros R [] HR Hb; simpl; unfold found; solve_within. Qed.

#[export] Instance funding_writes : MemWrites (funding_op (S := World)) (ignores set_fundingReq).
Proof. intros R [] HR Hb; simpl; solve_within. Qed.

#[export] Instance nonce_reads : MemReads (λ _, mem_abs) nonces.
Proof.
  intros n w w' st Hs Ha wid c. rewrite <-Ha. unfold pending, broadcast, nonce_row. by rewrite Hs.
Qed.

#[export] Instance utxo_reads : MemReads (λ _, mem_outputs) utxos.
Proof. intros n w w' st Hs. unfold mem_outputs. by rewrite Hs. Qed.

#[export] Instance audit_reads : MemReads (λ _, mem_outbox) (λ s, (auditOutbox s, auditSeqCounters s)).
Proof.
  intros n w w' st [= Ho Hq]. unfold mem_outbox, AuditOutbox.row_ids. by rewrite Ho, Hq.
Qed.

#[export] Instance key_reads : MemReads (λ _, mem_rings) keyMappings.
Proof.
  intros n w w' st Hs Ha wid. specialize (Ha wid). unfold mappings_of in *. by rewrite Hs.
Qed.

#[export] Instance address_reads : MemReads (λ _, mem_book) addresses.
Proof. intros n w w' st Hs. unfold mem_book. by rewrite Hs. Qed.

#[export] Instance funding_reads : MemReads (λ _, mem_requests) fundingReq.
Proof. intros n w w' st Hs. unfold mem_requests. by rewrite Hs. Qed.
End memory.

(** Disjointness is by computation. *)
#[local] Hint Extern 1 (Frame (S := World) _ _) =>
  (eapply mem_frame; [apply _|apply _|try split; intros ? ?; reflexivity]) : typeclass_instances.

(** ** Frames of the Postgres store *)

(** A call keeps the part [get] of the committed database and of the transaction. *)
Definition pg_keeps {T} (get : PgDB → T) : relation PgWorld := λ w w',
  get (pw_DB w') = get (pw_DB w) ∧
  match pw_Tx w, pw_Tx w' with
  | Some tx, Some tx' => get (tx_Work tx') = get (tx_Work tx)
  | None, None => True
  | _, _ => False
  end.

#[export] Instance pg_keeps_preorder {T} (get : PgDB → T) : PreOrder (pg_keeps get).
Proof.
  split.
  - intros w. split; [done|]. by destruct (pw_Tx w).
  - intros x y z [Hd Ht] [Hd' Ht']. split; [congruence|].
    destruct (pw_Tx x), (pw_Tx y), (pw_Tx z); try done. congruence.
Qed.

(** Statements that write other tables. *)
Definition stmt_keeps {T A} (get : PgDB → T) (f : Stmt A) : Prop := ∀ now d a d',
  f now d = Ok (a, d') → get d' = get d.

Section postgres.
Context `{PgServer}.

Lemma keeps_statement {T A} (get : PgDB → T) (f : Stmt A) :
  stmt_keeps get f → within (pg_keeps get) (statement f).
Proof.
  intros Hf w. unfold statement, checked.
  assert (∀ now d, match f now d with
    | Ok (_, d') => get d' = get d | Err _ => True end) as Hk.
  { intros now d. destruct (f now d) as [[a d']|] eqn:Hr; [|done]. by eapply Hf. }
  destruct (pw_Tx w) as [tx|] eqn:Ht.
  - specialize (Hk (tx_Now tx) (tx_Work tx)). destruct (tx_Failed tx); [by split; rewrite ?Ht|].
    destruct (pg_fault _); [by split; rewrite ?Ht|].
    destruct (f _ _) as [[a d']|]; [destruct (valid d')|]; by split; rewrite ?Ht.
  - specialize (Hk (pg_clock (pw_Calls w)) (pw_DB w)).
    destruct (f _ _) as [[a d']|]; [destruct (valid d')|];
      destruct (pg_fault _) as [[? []]|]; by split; rewrite ?Ht.
Qed.

Lemma keeps_InTx {T A} (get : PgDB → T) (fn : Pg A) :
  tx_local fn → within (pg_keeps get) fn → within (pg_keeps get) (pg_InTx fn).
Proof.
  intros Hl Hfn w. pose proof (pg_InTx_cases fn w Hl) as Hc. destruct (pg_InTx fn w) as [r w'].
  destruct Hc as [Ht Hc]. simpl. split.
  - destruct Hc as [[-> _]|(a & w1 & tx1 & Hr & Htx & _ & Hd & _)]; [done|].
    specialize (Hfn (begun w)). rewrite Hr in Hfn. destruct Hfn as [_ Hk].
    simpl in Hk. rewrite Htx in Hk. by rewrite Hd.
  - rewrite Ht. by destruct (pw_Tx w).
Qed.

Lemma keeps_time_Now {T} (get : PgDB → T) : within (pg_keeps get) pg_time_Now.
Proof. intros w. split; [done|]. simpl. by destruct (pw_Tx w). Qed.
End postgres.

#[export] Hint Resolve keeps_statement keeps_InTx keeps_time_Now : within.

(** A statement of one of the shapes of [Postgres], by cases. *)
Ltac stmt_cases :=
  intros ? ? ? ?;
  unfold select_rows, select, insert_row, update_row, update_rows, with_numeric;
  repeat case_match; simplify_eq; try done; intros; simplify_eq; auto.

(** The body of a transaction, from its statements. *)
Ltac solve_local :=
  repeat first
    [ apply tx_local_statement | apply tx_local_ret | apply tx_local_throw
    | apply tx_local_attempt | apply tx_local_for_each; intros ?
    | apply tx_local_bind; [|intros ?] | progress unfold query_row, lock_one | case_match ].

Ltac solve_keeps :=
  repeat first
    [ apply keeps_statement; stmt_cases
    | apply keeps_InTx; [solve [solve_local]|]
    | progress unfold query_row, lock_one
    | progress solve_within ].

(** The methods behind the operations. *)
Ltac open_calls := simpl;
  unfold answer, found, pg_IncrementPendingNonce, next_nonce, pg_AdvanceBroadcastNonce,
    pg_RollbackPendingNonce, pg_GetNonce, pg_InsertUTXO, pg_LockUTXOs, pg_MarkUTXOsSpent,
    pg_RestoreUTXOs, pg_PruneUTXOs, pg_ListFreeUTXOs, pg_NextAuditSeq, pg_AppendAuditEvent,
    pg_MarkAuditDelivered, pg_ListUndeliveredAuditEvents, pg_BindKeyMapping,
    pg_RotateKeyMapping, pg_ResolveActiveKey, pg_InsertAddress, pg_GetAddress,
    pg_GetActiveAddress, pg_DeprecateAddress, pg_IncrementReceiveCount,
    pg_NextAddressIndex, pg_ListAddresses, pg_CreateFundingRequest,
    pg_GetOpenFundingRequest, pg_UpdateFundingState, query_row.

Ltac solve_kept := open_calls; try case_match; solve_keeps.
Ltac solve_valid :=
  open_calls; try case_match; solve_within; apply within_pg_InTx; solve_within.

Section writers.
Context `{PgServer}.

Class PgWrites {Op Ans} (step : Op → Pg Ans) (blind : ∀ T, (PgDB → T) → Prop) : Prop := {
  pg_writes T (get : PgDB → T) op : blind T get → within (pg_keeps get) (step op);
  pg_writes_valid op : within keeps_schema (step op)
}.

#[export] Instance pg_nonce_writes : PgWrites (nonce_step (S := PgWorld))
  (λ T get, ∀ d x, get (put_nonces d x) = get d).
Proof. split; [intros T get [] Hb; solve_kept|intros []; solve_valid]. Qed.

#[export] Instance pg_utxo_writes : PgWrites (utxo_step (S := PgWorld))
  (λ T get, ∀ d x, get (put_utxos d x) = get d).
Proof. split; [intros T get [] Hb; solve_kept|intros []; solve_valid]. Qed.

#[export] Instance pg_audit_writes : PgWrites (audit_step (S := PgWorld))
  (λ T get, (∀ d x, get (put_audit d x) = get d) ∧ ∀ d x, get (put_audit_seq d x) = get d).
Proof. split; [intros T get [] [Hb Hq]; solve_kept|intros []; solve_valid]. Qed.

#[export] Instance pg_key_writes : PgWrites (key_op (S := PgWorld))
  (λ T get, ∀ d x, get (put_key_mappings d x) = get d).
Proof. split; [intros T get [] Hb; solve_kept|intros []; solve_valid]. Qed.

#[export] Instance pg_address_writes : PgWrites (address_op (S := PgWorld))
  (λ T get, ∀ d x, get (put_addresses d x) = get d).
Proof. split; [intros T get [] Hb; solve_kept|intros []; solve_valid]. Qed.

#[export] Instance pg_funding_writes : PgWrites (funding_op (S := PgWorld))
  (λ T get, ∀ d x, get (put_funding d x) = get d).
Proof. split; [intros T get [] Hb; solve_kept|intros []; solve_valid]. Qed.

(** What the database holds for the specification is in its tables [get]. *)
Class PgReads {St T} (abs : Z → PgWorld → St → Prop) (get : PgDB → T) : Prop := {
  pg_reads_idle n w st : abs n w st → pw_Tx w = None ∧ valid (pw_DB w) = true;
  pg_reads n w w' st :
    get (pw_DB w') = get (pw_DB w) → pw_Tx w' = None → valid (pw_DB w') = true →
    abs (n + 1) w st → abs n w' st
}.

Lemma pg_frame {Op Ans St T} (step : Op → Pg Ans) blind (abs : Z → PgWorld → St → Prop)
    (get : PgDB → T) :
  PgWrites step blind → PgReads abs get → blind T get → Frame step abs.
Proof.
  intros Hw Hr Hb n op w a w' st Hs _ Ha. destruct (pg_reads_idle _ _ _ Ha) as [Ht Hv].
  pose proof (pg_writes T get op Hb w) as [Hd Htx]. pose proof (pg_writes_valid op w) as Hok.
  rewrite Hs in Hd, Htx, Hok. simpl in *. rewrite Ht in Htx.
  apply (pg_reads n w w' st); [done|by destruct (pw_Tx w')| |done].
  apply Hok. split; [done|]. by rewrite Ht.
Qed.

#[export] Instance pg_nonce_reads wids :
  PgReads (pg_abs wids) (λ d, (pg_nonces d, pg_wallets d)).
Proof.
  split; [by intros n w st []|]. intros n w w' st [= Hm Hw] Ht Hv [_ _ Hr Hver Hws Hroom].
  split; [done|done| | | |lia]; rewrite ?Hm, ?Hw; try done.
  intros k r Hk. specialize (Hver k r Hk). lia.
Qed.

#[export] Instance pg_utxo_reads wids :
  PgReads (λ _, pg_outputs wids) (λ d, (pg_utxos d, pg_wallets d)).
Proof.
  split; [by intros n w st []|]. intros n w w' st [= Hm Hw] Ht Hv [_ _ Ha Hws].
  split; [done|done|by rewrite Hm|by rewrite Hw].
Qed.

#[export] Instance pg_audit_reads : PgReads pg_outbox (λ d, (pg_audit d, pg_audit_seq d)).
Proof.
  split; [by intros n w st []|]. intros n w w' st [= Hm Hq] Ht Hv Ha.
  pose proof (pg_outbox_weaken _ _ _ Ha) as Hatt. destruct Ha as [_ _ Hr Hs _ Hroom].
  split; [done|done|by rewrite Hm|by rewrite Hq|by rewrite Hm|lia].
Qed.

#[export] Instance pg_key_reads wids :
  PgReads (λ _, pg_rings wids) (λ d, (pg_key_mappings d, pg_wallets d)).
Proof.
  split; [by intros n w st []|]. intros n w w' st [= Hm Hw] Ht Hv [_ _ Ha Hws].
  split; [done|done|by rewrite Hm|by rewrite Hw].
Qed.

#[export] Instance pg_address_reads wids :
  PgReads (λ _, pg_book wids) (λ d, (pg_addresses d, pg_wallets d)).
Proof.
  split; [by intros n w st []|]. intros n w w' st [= Hm Hw] Ht Hv [_ _ Ha Hws].
  split; [done|done|by rewrite Hm|by rewrite Hw].
Qed.

#[export] Instance pg_funding_reads wids :
  PgReads (λ _, pg_requests wids) (λ d, (pg_funding d, pg_wallets d)).
Proof.
  split; [by intros n w st []|]. intros n w w' st [= Hm Hw] Ht Hv [_ _ Ha Hws].
  split; [done|done|by rewrite Hm|by rewrite Hw].
Qed.
End writers.

#[local] Hint Extern 1 (Frame (S := PgWorld) _ _) =>
  (eapply pg_frame; [apply _|apply _|try split; intros ? ?; reflexivity]) : typeclass_instances.

(** ** The specification of the six tables *)
Abbreviation StoreOp := (NonceOp + (UtxoOp + (AuditOp + (KeyOp + (AddressOp + FundingOp)))))%type.
Abbreviation StoreAnswer :=
  (NonceAnswer + (UtxoAnswer + (AuditAnswer + (KeyAnswer + (AddressAnswer + FundingAnswer)))))%type.
Abbreviation Tables := (Counters * (Outputs * (Outbox * (Rings * (Book * Requests)))))%type.

Definition store_spec `{PgServer} : StoreOp → Tables → StoreAnswer * Tables :=
  either_spec spec_step (either_spec utxo_spec (either_spec audit_spec
    (either_spec key_spec (either_spec address_spec funding_spec)))).

Definition store_op `{PgServer} {S : Type} `{!StoreAPI S} : StoreOp → GoM S StoreAnswer :=
  either_step nonce_step (either_step utxo_step (either_step audit_step
    (either_step key_op (either_step address_op funding_op)))).

Section theorems.
Context `{GoRuntime} `{UUIDLib} `{Environment} `{PgServer}.
Context (wids : gset uuid) (Hf : no_faults) (Hc : commits_alone) (Hb : bytewise_collation).

Definition store_admissible : StoreOp → Tables → Prop :=
  either_admissible (admissible wids) (either_admissible (utxo_admissible wids)
    (either_admissible audit_admissible
      (either_admissible (key_admissible wids)
        (either_admissible (address_admissible wids) (funding_admissible wids))))).

Definition mem_tables : Z → World → Tables → Prop :=
  both_abs (λ _, mem_abs) (both_abs (λ _, mem_outputs) (both_abs (λ _, mem_outbox)
    (both_abs (λ _, mem_rings) (both_abs (λ _, mem_book) (λ _, mem_requests))))).

Definition pg_tables : Z → PgWorld → Tables → Prop :=
  both_abs (pg_abs wids) (both_abs (λ _, pg_outputs wids) (both_abs pg_outbox
    (both_abs (λ _, pg_rings wids) (both_abs (λ _, pg_book wids) (λ _, pg_requests wids))))).

#[export] Instance mem_store_refines :
  Refines store_spec store_admissible (store_op (S := World)) mem_tables.
Proof. unfold store_spec, store_admissible, store_op, mem_tables. apply _. Qed.

#[export] Instance pg_store_refines :
  Refines store_spec store_admissible (store_op (S := PgWorld)) pg_tables.
Proof.
  pose proof (pg_step_refines Hf Hc wids). pose proof (pg_utxo_refines wids Hf Hc Hb).
  pose proof (pg_audit_refines Hf). pose proof (pg_key_refines Hf Hc wids).
  pose proof (pg_address_refines Hf wids). pose proof (pg_funding_refines Hf wids).
  unfold store_spec, store_admissible, store_op, pg_tables. apply _.
Qed.

#[export] Instance store_admissible_dec op st : Decision (store_admissible op st).
Proof. unfold store_admissible. apply _. Defined.

End theorems.

(** ** Witness *)
Section witnesses.
#[local] Existing Instances ref_runtime ref_uuid ref_env ref_pg.

Definition no_rows : Tables := (∅, (∅, (MkOutbox ∅ ∅, (∅, (∅, ∅))))).

Definition top_up (n : Z) : FundingRequest :=
  MkFunding (uuid_of_Z n) (uuid_of_Z 1) "btc" "5" FundingStateRequested "" "low" 7 7.

(** A client that works on all the tables: it binds a key, tracks two outputs, reserves
    the first one that is listed, stores an address at the next index, asks for funds,
    and returns the nonce it reserved with the output and the index. *)
Definition busy_client : Client StoreOp StoreAnswer (option (Z * string * Z)) :=
  let wid := uuid_of_Z 1 in
  Call (inr (inr (inr (inl (BindKey (first_mapping "k1")))))) (λ _,
  Call (inr (inl (Track (pg_utxo "b:1")))) (λ _,
  Call (inr (inl (Track (pg_utxo "a:0")))) (λ _,
  Call (inr (inl (ListFree wid))) (λ free,
  Call (inr (inr (inr (inr (inl (NextIndex ChainBitcoin 0)))))) (λ index,
  Call (inl (Reserve wid "ethereum")) (λ nonce,
  match free, index, nonce with
  | inr (inl (Listed (o :: _))), inr (inr (inr (inr (inl (IndexIs i))))), inl (Reserved n) =>
      Call (inr (inl (LockAll [u_Outpoint o]))) (λ _,
      Call (inr (inr (inr (inr (inl (AddAddress (book_address i "bc1a"))))))) (λ _,
      Call (inr (inr (inl (NextSeq wid)))) (λ _,
      Call (inr (inr (inr (inr (inr (OpenFunding (top_up 1))))))) (λ _,
      Return (Some (n, u_Outpoint o, i))))))
  | _, _, _ => Return None
  end)))))).

Lemma one_wallet_requests : pg_requests {[uuid_of_Z 1]} one_wallet ∅.
Proof.
  split.
  - reflexivity.
  - vm_compute. reflexivity.
  - by split.
  - intros wid ->%elem_of_singleton. exists pg_wallet. reflexivity.
Qed.

End witnesses.
