(* ===== verification/Clients.v ===== *)
(** * Clients: the clients of the outside services

    The policy client ([internal/policy/policy.go]), the treasury client
    ([internal/funding/funding.go]), the signing and gateway clients
    ([internal/clients/clients.go]) and the Solana blockhash fetcher
    ([internal/withdrawal/solana_rpc.go]).  What a server answers is a parameter; what
    is modelled is what the clients send and what they make of the answer. *)
From stdpp Require Import base tactics numbers gmap strings pretty list.
From Stdlib Require Import ZArith Lia Ascii.
From S2P Require Import Prelude.
From S2P Require Import GoLang.
From S2P Require Import GoText.
From S2P Require Import Crypto.
From S2P Require Import Domain.
From S2P Require Import Json.
From S2P Require Import World.
From S2P Require Import Reference.
From S2P Require Import AuthToken.

#[local] Open Scope string_scope.
#[local] Open Scope list_scope.
#[local] Open Scope Z_scope.

(** ** HTTP *)
Record HttpRequest : Type := MkHttpRequest {
  hq_Method : string;
  hq_URL : string;
  hq_Headers : list (string * string);
  hq_Body : string
}.

Record HttpResponse : Type := MkHttpResponse { hr_Status : Z; hr_Body : string }.

(** [net/http]: whether [http.NewRequest] accepts the URL, and what
    [http.Client.Do] returns: an answer of the server or an error of the transport. *)
Record Transport : Type := MkTransport {
  tr_URL : string → result unit;
  tr_Do : HttpRequest → result HttpResponse
}.

(** [http.NewRequestWithContext] followed by [Do]. *)
Definition http_send (tr : Transport) (req : HttpRequest) : result HttpResponse :=
  _ ← tr_URL tr (hq_URL req); tr_Do tr req.

Definition json_header : string * string := ("Content-Type", "application/json").

(** [fmt.Errorf("...: %d %s", status, body)]. *)
Definition rejected (msg : string) (r : HttpResponse) : error :=
  ErrNew (msg +:+ ": " +:+ pretty (hr_Status r) +:+ " " +:+ hr_Body r).

(** ** Policy *)
Definition CheckRequest_json (q : CheckRequest) : json :=
  JObject [("wallet_id", JString (cq_WalletID q)); ("to_address", JString (cq_ToAddress q));
    ("asset", JString (cq_Asset q)); ("amount", JString (cq_Amount q))].

Definition decode_CheckResponse (body : string) : result CheckResponse :=
  l ← json_Decode body ≫= members;
  approved ← field as_bool "approved" false l;
  decision ← field as_string "decision_id" "" l;
  reason ← field as_string "reason" "" l;
  Ok (MkCheckResponse approved decision reason).

Definition CheckWhitelist (tr : Transport) (url : string) (q : CheckRequest) :
    result CheckResponse :=
  resp ← http_send tr (MkHttpRequest "POST" (url +:+ "/v1/whitelist/check") [json_header]
    (json_print (CheckRequest_json q)));
  if 400 <=? hr_Status resp then Err (rejected "policy engine rejected" resp)
  else decode_CheckResponse (hr_Body resp).

(** ** Treasury *)
Definition TreasuryRequest_json `{UUIDLib} (q : TreasuryRequest) : json :=
  JObject [("funding_request_id", JString (uuid_String (tq_FundingRequestID q)));
    ("wallet_id", JString (uuid_String (tq_WalletID q))); ("asset", JString (tq_Asset q));
    ("amount", JString (tq_Amount q)); ("idempotency_key", JString (tq_IdempotencyKey q));
    ("reason", JString (tq_Reason q))].

Definition RequestFunding `{UUIDLib} (tr : Transport) (url : string) (q : TreasuryRequest) :
    result unit :=
  resp ← http_send tr (MkHttpRequest "POST" (url +:+ "/v1/funding-requests")
    [json_header; ("Idempotency-Key", tq_IdempotencyKey q)]
    (json_print (TreasuryRequest_json q)));
  if 400 <=? hr_Status resp then Err (rejected "treasury rejected funding request" resp)
  else Ok tt.

(** [httpHealthPing], of both HTTP clients. *)
Definition httpHealthPing (tr : Transport) (url : string) : result unit :=
  resp ← http_send tr (MkHttpRequest "GET" url [] "");
  if 500 <=? hr_Status resp then
    Err (ErrNew ("healthz status " +:+ pretty (hr_Status resp)))
  else Ok tt.

(** ** Signer and gateway *)

(** The generated stubs: [walletpb.SignRequest] and [walletpb.BroadcastTxRequest]. *)
Record PbSignRequest : Type := MkPbSign {
  ps_KeyId : string; ps_TxBytes : list byte; ps_WalletId : string }.
Record PbBroadcastTxRequest : Type := MkPbBroadcast {
  pb_Chain : string; pb_TxBytes : list byte; pb_WalletId : string }.

Definition Sign `{UUIDLib} (raw : PbSignRequest → result (list byte * string))
    (q : SignRequest) : result SignResponse :=
  '(sig, signer) ← raw (MkPbSign (sq_KeyID q) (sq_TxBytes q) (uuid_String (sq_WalletID q)));
  Ok (MkSignResponse sig signer).

Definition BroadcastTx `{UUIDLib} (raw : PbBroadcastTxRequest → result string)
    (q : BroadcastRequest) : result BroadcastResponse :=
  hash ← raw (MkPbBroadcast (bq_Chain q) (bq_TxBytes q) (uuid_String (bq_WalletID q)));
  Ok (MkBroadcastResponse hash).

(** The states of a connection; the other two are [Connecting] and
    [TransientFailure]. *)
Inductive ConnState : Type := ConnIdle | Connecting | TransientFailure | Ready | Shutdown.

(** [grpcConnReady]: [state i] is the [i]-th reading of the state and [changed i] whether
    the wait after it saw a change before the context ended; [n] readings are made at
    most. *)
Fixpoint grpcConnReady (state : nat → ConnState) (changed : nat → bool) (ctxErr : error)
    (n i : nat) : option (result unit) :=
  match n with
  | O => None
  | S n =>
      match state i with
      | Ready => Some (Ok tt)
      | Shutdown => Some (Err (ErrNew "grpc: connection shut down"))
      | _ =>
          if changed i then grpcConnReady state changed ctxErr n (S i)
          else Some (Err (ErrWrap "grpc: not ready" ctxErr))
      end
  end.

(** The connection of a client, [None] once it is closed; [Close] and [Ping]. *)
Definition Client_Close (close : result unit) : GoM (option unit) unit := λ conn,
  match conn with
  | Some _ => (close, None)
  | None => (Ok tt, None)
  end.

Definition Client_Ping (service : string) (ready : result unit) : GoM (option unit) unit :=
  λ conn,
  match conn with
  | None => (Err (ErrNew (service +:+ ": connection closed")), conn)
  | Some _ => (ready, conn)
  end.

Definition MPCSigningClient_Close : result unit → GoM (option unit) unit := Client_Close.
Definition GatewayClient_Close : result unit → GoM (option unit) unit := Client_Close.
Definition MPCSigningClient_Ping (ready : result unit) : GoM (option unit) unit :=
  Client_Ping "mpc-signing" ready.
Definition GatewayClient_Ping (ready : result unit) : GoM (option unit) unit :=
  Client_Ping "blockchain-gateway" ready.

(** The probes of the HTTP clients. *)
Definition PolicyClient_Ping (tr : Transport) (url : string) : result unit :=
  httpHealthPing tr (url +:+ "/healthz").
Definition TreasuryClient_Ping (tr : Transport) (url : string) : result unit :=
  httpHealthPing tr (url +:+ "/healthz").

(** ** The Solana blockhash *)

(** [SolanaRPCBlockhashFetcher]: its state, and the times it reads. *)
Record Fetcher : Type := MkFetcher {
  fe_cached : list byte;
  fe_cachedAt : option time      (** [None] is the zero time *)
}.

Definition new_fetcher : Fetcher := MkFetcher (replicate 32 0) None.

Definition solanaBlockhashCacheTTL : duration := 30 * 1000000000.

Definition getLatestBlockhash : json :=
  JObject [("id", JNum "1"); ("jsonrpc", JString "2.0");
    ("method", JString "getLatestBlockhash"); ("params", JArray [])].

(** A struct field: the members its value is filled from, after the values before. *)
Definition as_members (cur : list (string * json)) : Assign (list (string * json)) := λ v,
  match v with
  | JObject l => Ok (Some (cur ++ l))
  | JNull => Ok None
  | _ => Err type_error
  end.

(** The members of the struct field [name]: repeated members fill the same struct. *)
Fixpoint struct_field (name : string) (cur : list (string * json))
    (l : list (string * json)) : result (list (string * json)) :=
  match l with
  | [] => Ok cur
  | (k, v) :: l =>
      if names_field name k then
        o ← as_members cur v; struct_field name (default cur o) l
      else struct_field name cur l
  end.

(** The pointer field [error]: [null] resets it. *)
Fixpoint error_field (cur : option string) (l : list (string * json)) :
    result (option string) :=
  match l with
  | [] => Ok cur
  | (k, v) :: l =>
      if names_field "error" k then
        match v with
        | JNull => error_field None l
        | JObject m => msg ← field as_string "message" (default "" cur) m; error_field (Some msg) l
        | _ => Err type_error
        end
      else error_field cur l
  end.

Definition decode_blockhash `{CryptoLib} (body : string) : result (list byte) :=
  l ← wrap_result "decode getLatestBlockhash" (json_Decode body ≫= members);
  res ← wrap_result "decode getLatestBlockhash" (struct_field "result" [] l);
  val ← wrap_result "decode getLatestBlockhash" (struct_field "value" [] res);
  hash ← wrap_result "decode getLatestBlockhash" (field as_string "blockhash" "" val);
  err ← wrap_result "decode getLatestBlockhash" (error_field None l);
  match err with
  | Some msg => Err (ErrNew ("solana rpc error: " +:+ msg))
  | None =>
      if hash =s "" then Err (ErrNew "solana rpc: empty blockhash")
      else
        let decoded := base58_Decode hash in
        if bool_decide (length decoded = 32%nat) then Ok decoded
        else Err (ErrNew ("solana rpc: blockhash " +:+ quote hash +:+ " decodes to " +:+
          pretty (length decoded) +:+ " bytes, want 32"))
  end.

(** The cached hash is younger than the TTL, and not the zero array. *)
Definition cached_fresh (f : Fetcher) (now : time) : bool :=
  match fe_cachedAt f with
  | Some at' => (now - at' <? solanaBlockhashCacheTTL) &&
      negb (bool_decide (fe_cached f = replicate 32 0))
  | None => false
  end.

Definition blockhash_request (rpcURL : string) : HttpRequest :=
  MkHttpRequest "POST" rpcURL [json_header] (json_print getLatestBlockhash).

(** [FetchRecentBlockhash], with the reading of the clock before the request and
    the one after it. *)
Definition FetchRecentBlockhash `{CryptoLib} (tr : Transport) (rpcURL : string)
    (before after : time) : GoM Fetcher (list byte) := λ f,
  if rpcURL =s "" then (Err ErrNoSolanaRPC, f)
  else
    if cached_fresh f before then (Ok (fe_cached f), f)
    else
      match wrap_result "build rpc request" (tr_URL tr rpcURL) with
      | Err e => (Err e, f)
      | Ok _ =>
          match tr_Do tr (blockhash_request rpcURL) with
          | Err e => (Err (ErrWrap "solana rpc" e), f)
          | Ok resp =>
              if negb (hr_Status resp =? 200) then
                (Err (ErrNew ("solana rpc: HTTP " +:+ pretty (hr_Status resp) +:+ ": " +:+
                  hr_Body resp)), f)
              else match decode_blockhash (hr_Body resp) with
              | Err e => (Err e, f)
              | Ok hash => (Ok hash, MkFetcher hash (Some after))
              end
          end
      end.

(** ** Theorems *)

(** The wait for a connection ends with the context: when the wait after reading [k] is
    the first that sees no change, [k + 1] readings give the answer. *)
Lemma grpcConnReady_returns state changed e k i :
  changed (i + k)%nat = false →
  ∃ r, grpcConnReady state changed e (S k) i = Some r.
Proof.
  revert i. induction k as [|k IH]; intros i Hk; cbn [grpcConnReady].
  - rewrite Nat.add_0_r in Hk. rewrite Hk. destruct (state i); by eexists.
  - destruct (IH (S i)) as [r Hr]; [by rewrite <- Hk; f_equal; lia|].
    destruct (state i), (changed i); try (by eexists); by exists r.
Qed.

(** A client is closed once; afterwards it is not ready. *)
Lemma Client_closed service close ready conn :
  let conn' := (Client_Close close conn).2 in
  (Client_Close close conn').1 = Ok tt ∧ (Client_Close close conn').2 = conn' ∧
  ∃ e, Client_Ping service ready conn' = (Err e, conn').
Proof. destruct conn; simpl; split_and!; try done; by eexists. Qed.

(** A probe passes exactly when the service answered below 500. *)
Lemma PolicyClient_Ping_ok tr url :
  PolicyClient_Ping tr url = Ok tt ↔
  ∃ resp, http_send tr (MkHttpRequest "GET" (url +:+ "/healthz") [] "") = Ok resp ∧
    hr_Status resp < 500.
Proof.
  unfold PolicyClient_Ping, httpHealthPing. destruct (http_send tr _) as [resp|e]; simpl.
  - destruct (Z.leb_spec 500 (hr_Status resp)); split; try done; [|by eexists].
    intros (? & [= <-] & ?). lia.
  - split; [done|]. by intros (? & ? & _).
Qed.

(** The policy client fails closed.  It reports an approval only when the engine
    answered with a status below 400 and a JSON object whose member [approved] is
    true; and what it sent is the request, as the engine's own decoder would read
    it back. *)
Theorem CheckWhitelist_fails_closed tr url q r :
  CheckWhitelist tr url q = Ok r → cp_Approved r = true →
  ∃ req resp l, tr_Do tr req = Ok resp ∧ hr_Status resp < 400 ∧
    json_Decode (hr_Body resp) = Ok (JObject l) ∧ field as_bool "approved" false l = Ok true ∧
    hq_Method req = "POST" ∧ hq_URL req = url +:+ "/v1/whitelist/check" ∧
    (forallb ascii_text [cq_WalletID q; cq_ToAddress q; cq_Asset q; cq_Amount q] = true →
     json_Unmarshal (hq_Body req) = Ok (CheckRequest_json q)).
Proof.
  unfold CheckWhitelist, http_send. set (req := MkHttpRequest _ _ _ _).
  destruct (tr_URL tr _) as [[]|]; [|done]. simpl. destruct (tr_Do tr req) as [resp|] eqn:Hd; [|done]. simpl.
  destruct (400 <=? hr_Status resp) eqn:Hs; [done|]. unfold decode_CheckResponse.
  destruct (json_Decode (hr_Body resp)) as [v|] eqn:Hj; [|done]. simpl.
  destruct v as [| | | | |l]; simpl; try done; [by intros [= <-]|].
  destruct (field as_bool "approved" false l) as [a|] eqn:Ha; [|done]. simpl.
  destruct (field as_string "decision_id" "" l); [|done]. simpl.
  destruct (field as_string "reason" "" l); [|done]. simpl. intros [= <-] Happ.
  simpl in Happ. subst a. exists req, resp, l. split_and!; try done; [lia|].
  intros Htext. apply json_Unmarshal_print.
  - cbn [forallb] in Htext. simpl. rewrite !andb_true_iff in *. naive_solver.
  - simpl. unfold max_depth. lia.
Qed.

Section solana.
Context `{CryptoLib}.

Lemma decode_blockhash_length body h : decode_blockhash body = Ok h → length h = 32%nat.
Proof.
  unfold decode_blockhash. destruct (wrap_result _ (_ ≫= members)) as [l|]; [|done]. simpl.
  destruct (wrap_result _ (struct_field "result" _ _)) as [res|]; [|done]. simpl.
  destruct (wrap_result _ (struct_field "value" _ _)) as [val|]; [|done]. simpl.
  destruct (wrap_result _ (field _ _ _ _)) as [hash|]; [|done]. simpl.
  destruct (wrap_result _ (error_field _ _)) as [[]|]; [done| |done]. simpl.
  case_bool_decide; [done|]. case_bool_decide; [|done]. by intros [= <-].
Qed.

(** The calls made of a fetcher: the two readings of the clock and the server of
    each. *)
Record FetchCall : Type := MkCall { ca_before : time; ca_after : time; ca_tr : Transport }.

Definition fetch_call (url : string) (c : FetchCall) : GoM Fetcher (list byte) :=
  FetchRecentBlockhash (ca_tr c) url (ca_before c) (ca_after c).

(** [h] is the hash the server of call [c] answered with. *)
Definition answered (url : string) (c : FetchCall) (h : list byte) : Prop :=
  ∃ resp, tr_Do (ca_tr c) (blockhash_request url) = Ok resp ∧ hr_Status resp = 200 ∧ decode_blockhash (hr_Body resp) = Ok h.

(** The fetcher holds the answer of an earlier call. *)
Definition fetcher_ok (url : string) (past : list FetchCall) (f : Fetcher) : Prop :=
  ∀ t, fe_cachedAt f = Some t →
    ∃ c, c ∈ past ∧ ca_after c = t ∧ answered url c (fe_cached f).

Fixpoint fetch_all (url : string) (calls : list FetchCall) (f : Fetcher) : Fetcher :=
  match calls with
  | [] => f
  | c :: calls => fetch_all url calls (fetch_call url c f).2
  end.

Lemma fetch_call_ok url past c f :
  fetcher_ok url past f → fetcher_ok url (past ++ [c]) (fetch_call url c f).2.
Proof.
  intros Hf. assert (fetcher_ok url (past ++ [c]) f) as Hf'.
  { intros t Ht. destruct (Hf t Ht) as (c' & Hin & ?). exists c'. split; [set_solver|done]. }
  unfold fetch_call, FetchRecentBlockhash.
  destruct (url =s ""); [done|]. destruct (cached_fresh f _); [done|].
  destruct (wrap_result _ _); [|done].
  destruct (tr_Do (ca_tr c) _) as [resp|] eqn:Hd; [|done].
  destruct (hr_Status resp =? 200) eqn:Hs; [|done]. simpl.
  destruct (decode_blockhash _) as [h|] eqn:Hh; [|done]. intros t [= <-].
  exists c. split; [set_solver|]. split; [done|]. exists resp.
  split_and!; [done|by apply Z.eqb_eq|done].
Qed.

Lemma fetch_all_ok url calls past f :
  fetcher_ok url past f → fetcher_ok url (past ++ calls) (fetch_all url calls f).
Proof.
  revert past f. induction calls as [|c calls IH]; intros past f Hf; simpl.
  - by rewrite app_nil_r.
  - rewrite (cons_middle c past calls), app_assoc. by apply IH, fetch_call_ok.
Qed.

(** C38. A blockhash that is signed over is recent.  After any calls of a fetcher, a
    call that succeeds returns 32 bytes that the RPC server answered with, either in
    this call or in an earlier one that ended less than thirty seconds before this
    call looked at the clock. *)
Theorem blockhash_recent url past c f' h :
  fetch_call url c (fetch_all url past new_fetcher) = (Ok h, f') →
  length h = 32%nat ∧
  (answered url c h ∨
   ∃ c', c' ∈ past ∧ answered url c' h ∧
     ca_before c - ca_after c' < solanaBlockhashCacheTTL).
Proof.
  assert (fetcher_ok url past (fetch_all url past new_fetcher)) as Hok.
  { apply (fetch_all_ok url past []). intros t [=]. }
  set (f := fetch_all url past new_fetcher) in *.
  unfold fetch_call, FetchRecentBlockhash. destruct (url =s ""); [done|].
  destruct (cached_fresh f _) eqn:Hfresh.
  - unfold cached_fresh in Hfresh. destruct (fe_cachedAt f) as [t|] eqn:Ht; [|done]. apply andb_true_iff in Hfresh as [Hage _].
    intros [= <- <-]. destruct (Hok t Ht) as (c' & Hin & Hafter & Hans).
    split; [destruct Hans as (resp & _ & _ & Hd); by eapply decode_blockhash_length|].
    right. exists c'. split_and!; [done|done|]. rewrite Hafter. lia.
  - destruct (wrap_result _ _); [|done]. destruct (tr_Do (ca_tr c) _) as [resp|] eqn:Hd; [|done].
    destruct (hr_Status resp =? 200) eqn:Hs; [|done]. simpl.
    destruct (decode_blockhash _) as [x|] eqn:Hx; [|done]. intros [= <- <-].
    split; [by eapply decode_blockhash_length|]. left. exists resp.
    split_and!; [done|by apply Z.eqb_eq|done].
Qed.
End solana.

(** ** Witnesses *)
Definition approving_transport : Transport := MkTransport (λ _, Ok tt)
  (λ _, Ok (MkHttpResponse 200 (json_print (JObject [("approved", JBool true);
    ("decision_id", JString "d-1"); ("reason", JString "")])))).

Definition demo_check : CheckRequest :=
  MkCheckRequest "wallet-1" "0xabc" "USDC" "12.5".

Lemma CheckWhitelist_fails_closed_witness :
  ∃ req resp l, tr_Do approving_transport req = Ok resp ∧ hr_Status resp < 400 ∧
    json_Decode (hr_Body resp) = Ok (JObject l) ∧ field as_bool "approved" false l = Ok true ∧
    hq_Method req = "POST" ∧ hq_URL req = "https://policy" +:+ "/v1/whitelist/check" ∧
    (forallb ascii_text [cq_WalletID demo_check; cq_ToAddress demo_check;
       cq_Asset demo_check; cq_Amount demo_check] = true →
     json_Unmarshal (hq_Body req) = Ok (CheckRequest_json demo_check)).
Proof.
  apply (CheckWhitelist_fails_closed approving_transport "https://policy" demo_check
    (MkCheckResponse true "d-1" "")).
  - vm_compute. reflexivity.
  - reflexivity.
Defined.

(** A server whose blockhash is the block of thirty-two bytes [7]. *)
Definition solana_server : Transport := MkTransport (λ _, Ok tt)
  (λ _, Ok (MkHttpResponse 200 (json_print (JObject [("result", JObject [("value",
    JObject [("blockhash", JString (toy_base58_Encode (replicate 32 7)))])])])))).

Definition dead_server : Transport := MkTransport (λ _, Ok tt) (λ _, Err (ErrNew "refused")).

(** Twenty seconds after the first answer the server is down: the cached hash is used. *)
Lemma blockhash_recent_witness :
  length (replicate 32 7) = 32%nat ∧
  (@answered ref_crypto "http://sol" (MkCall 20000000100 20000000200 dead_server)
     (replicate 32 7) ∨
   ∃ c', c' ∈ [MkCall 100 200 solana_server] ∧
     @answered ref_crypto "http://sol" c' (replicate 32 7) ∧
     20000000100 - ca_after c' < solanaBlockhashCacheTTL).
Proof.
  apply (@blockhash_recent ref_crypto "http://sol" [MkCall 100 200 solana_server]
    (MkCall 20000000100 20000000200 dead_server) (MkFetcher (replicate 32 7) (Some 200))).
  vm_compute. reflexivity.
Defined.
