(* ===== verification/GoTime.v ===== *)
(** * GoTime: dates and durations as text

    What the sources print of package [time]: a time stamp in UTC with the layout
    [time.RFC3339Nano], and [Duration.String].  The calendar is checked against the
    definition of the Gregorian calendar over its whole cycle of 400 years. *)
From stdpp Require Import base tactics numbers strings pretty list.
From Stdlib Require Import ZArith Lia Ascii.
From S2P Require Import Prelude.
From S2P Require Import GoLang.
From S2P Require Import GoText.

#[local] Open Scope string_scope.
#[local] Open Scope list_scope.
#[local] Open Scope Z_scope.

(** ** The calendar *)
Definition is_leap (y : Z) : bool :=
  (y mod 4 =? 0) && (negb (y mod 100 =? 0) || (y mod 400 =? 0)).

Definition month_lengths (y : Z) : list Z :=
  [31; if is_leap y then 29 else 28; 31; 30; 31; 30; 31; 31; 30; 31; 30; 31].

(** The month (from [m] on) and the day of the month of the [d]-th day. *)
Fixpoint month_of (m : Z) (lengths : list Z) (d : Z) : Z * Z :=
  match lengths with
  | [] => (m, d + 1)
  | n :: lengths => if d <? n then (m, d + 1) else month_of (m + 1) lengths (d - n)
  end.

(** Year, month and day of the day [d] days after January 1 of year 1, by cycles of
    400, 100, 4 and 1 years. *)
Definition civil (d : Z) : Z * Z * Z :=
  let n400 := d / 146097 in
  let d := d mod 146097 in
  let n100 := Z.min 3 (d / 36524) in
  let d := d - 36524 * n100 in
  let n4 := d / 1461 in
  let d := d - 1461 * n4 in
  let n1 := Z.min 3 (d / 365) in
  let d := d - 365 * n1 in
  let year := 400 * n400 + 100 * n100 + 4 * n4 + n1 + 1 in
  let '(month, day) := month_of 1 (month_lengths year) d in
  (year, month, day).

(** ** Text *)
Fixpoint pad_zeros (n : nat) (s : string) : string :=
  match n with O => s | S n => String "0" (pad_zeros n s) end.

(** [%0nd]. *)
Definition pad (n : nat) (z : Z) : string :=
  let s := pretty z in pad_zeros (n - String.length s) s.

Fixpoint drop_zero_chars (l : list ascii) : list ascii :=
  match l with
  | c :: l' => if bool_decide (c = "0"%char) then drop_zero_chars l' else l
  | [] => []
  end.

(** The digits of a fraction without the zeros at its end, after a dot. *)
Definition trim_fraction (digits : string) : string :=
  let s := String.string_of_list_ascii
    (reverse (drop_zero_chars (reverse (String.list_ascii_of_string digits)))) in
  if bool_decide (s = "") then "" else "." +:+ s.

Definition format_RFC3339Nano (t : time) : string :=
  let second := 1000000000 in
  let '(year, month, day) := civil (t / (86400 * second)) in
  let s := t / second mod 86400 in
  pad 4 year +:+ "-" +:+ pad 2 month +:+ "-" +:+ pad 2 day +:+ "T" +:+
  pad 2 (s / 3600) +:+ ":" +:+ pad 2 (s / 60 mod 60) +:+ ":" +:+ pad 2 (s mod 60) +:+
  trim_fraction (pad 9 (t mod second)) +:+ "Z".

(** [Duration.String]. *)
Definition micro_sign : string := String "194" (String "181" "").

Definition duration_String (d : duration) : string :=
  let second := 1000000000 in
  let u := Z.abs d in
  let sign := if d <? 0 then "-" else "" in
  if u =? 0 then "0s"
  else if u <? 1000 then sign +:+ pretty u +:+ "ns"
  else if u <? 1000000 then
    sign +:+ pretty (u / 1000) +:+ trim_fraction (pad 3 (u mod 1000)) +:+ micro_sign +:+ "s"
  else if u <? second then
    sign +:+ pretty (u / 1000000) +:+ trim_fraction (pad 6 (u mod 1000000)) +:+ "ms"
  else
    let s := u / second in
    let seconds := pretty (s mod 60) +:+ trim_fraction (pad 9 (u mod second)) +:+ "s" in
    let minutes := pretty (s / 60 mod 60) +:+ "m" in
    let hours := pretty (s / 3600) +:+ "h" in
    sign +:+ (if s <? 60 then seconds
              else if s <? 3600 then minutes +:+ seconds
              else hours +:+ minutes +:+ seconds).

(** ** The calendar is the Gregorian one *)

(** The days before a date, by the definition of the calendar. *)
Definition days_before_year (y : Z) : Z :=
  let n := y - 1 in 365 * n + n / 4 - n / 100 + n / 400.

Definition days_before (y m d : Z) : Z :=
  days_before_year y + foldr Z.add 0 (take (Z.to_nat (m - 1)) (month_lengths y)) + (d - 1).

Definition valid_date (y m d : Z) : bool :=
  (1 <=? m) && (m <=? 12) && (1 <=? d) &&
  (d <=? default 0 (month_lengths y !! Z.to_nat (m - 1))).

(** Linear arithmetic with division and remainder. *)
Ltac lia_div := Z.to_euclidean_division_equations; lia.

Lemma leap_shift y q : is_leap (400 * q + y) = is_leap y.
Proof.
  unfold is_leap.
  replace (400 * q + y) with (y + (100 * q) * 4) at 1 by lia.
  replace (400 * q + y) with (y + (4 * q) * 100) at 1 by lia.
  replace (400 * q + y) with (y + q * 400) by lia.
  by rewrite !Z_mod_plus_full.
Qed.

Lemma month_of_sound m lengths d :
  0 ≤ d < foldr Z.add 0 lengths →
  let '(m', k) := month_of m lengths d in
  ∃ i n, m' = m + Z.of_nat i ∧ lengths !! i = Some n ∧ 1 ≤ k ≤ n ∧
    foldr Z.add 0 (take i lengths) + (k - 1) = d.
Proof.
  revert m d. induction lengths as [|n lengths IH]; intros m d Hd; [simpl in Hd; lia|].
  simpl. destruct (Z.ltb_spec d n).
  - exists 0%nat, n. simpl. split_and!; try done; lia.
  - specialize (IH (m + 1) (d - n)). simpl in Hd.
    destruct (month_of (m + 1) lengths (d - n)) as [m' k].
    destruct IH as (i & n' & -> & Hi & Hk & Hsum); [lia|].
    exists (S i), n'. simpl. split_and!; try done; lia.
Qed.

Lemma month_of_exact y d :
  0 ≤ d < (if is_leap y then 366 else 365) →
  let '(m, k) := month_of 1 (month_lengths y) d in
  valid_date y m k = true ∧
  foldr Z.add 0 (take (Z.to_nat (m - 1)) (month_lengths y)) + (k - 1) = d.
Proof.
  intros Hd. pose proof (month_of_sound 1 (month_lengths y) d) as Hm.
  destruct (month_of _ _ _) as [m k]. destruct Hm as (i & n & -> & Hi & Hk & Hsum).
  { unfold month_lengths. simpl. destruct (is_leap y); lia. }
  replace (Z.to_nat (1 + Z.of_nat i - 1)) with i by lia. split; [|done].
  pose proof (lookup_lt_Some _ _ _ Hi) as Hlt. change (length (month_lengths y)) with 12%nat in Hlt.
  unfold valid_date. replace (Z.to_nat (1 + Z.of_nat i - 1)) with i by lia.
  rewrite Hi. simpl default. lia.
Qed.

(** The cycles give the year, and the days left over are days of that year. *)
Lemma civil_year e q n100 n4 n1 d :
  0 ≤ e < 146097 → n100 = Z.min 3 (e / 36524) →
  n4 = (e - 36524 * n100) / 1461 →
  n1 = Z.min 3 ((e - 36524 * n100 - 1461 * n4) / 365) →
  d = e - 36524 * n100 - 1461 * n4 - 365 * n1 →
  let y := 400 * q + 100 * n100 + 4 * n4 + n1 + 1 in
  days_before_year y + d = 146097 * q + e ∧
  0 ≤ d < (if is_leap y then 366 else 365).
Proof.
  intros He H100 H4 H1 Hd. cbv zeta.
  assert (0 ≤ n100 ≤ 3 ∧ 0 ≤ e - 36524 * n100 ≤ 36524 ∧
    (e - 36524 * n100 = 36524 → n100 = 3)) as (Hn100 & He4 & Hend) by (clear -He H100; lia_div).
  set (e4 := e - 36524 * n100) in *.
  assert (0 ≤ n4 ≤ 24 ∧ 0 ≤ e4 - 1461 * n4 ≤ 1460 ∧ (n4 = 24 → e4 - 1461 * n4 = 1460 →
    e4 = 36524)) as (Hn4 & He1 & Hend4) by (clear -He4 H4; lia_div).
  set (e1 := e4 - 1461 * n4) in *.
  assert (0 ≤ n1 ≤ 3 ∧ 0 ≤ d ≤ 365 ∧ (d = 365 → n1 = 3 ∧ e1 = 1460)) as (Hn1 & Hd' & Hlast)
    by (clear -He1 H1 Hd; lia_div).
  split.
  - unfold days_before_year.
    replace (400 * q + 100 * n100 + 4 * n4 + n1 + 1 - 1)
      with (400 * q + 100 * n100 + 4 * n4 + n1) by lia.
    assert ((400 * q + 100 * n100 + 4 * n4 + n1) / 4 = 100 * q + 25 * n100 + n4) as ->
      by (clear -Hn1; lia_div).
    assert ((400 * q + 100 * n100 + 4 * n4 + n1) / 100 = 4 * q + n100) as ->
      by (clear -Hn1 Hn4; lia_div).
    assert ((400 * q + 100 * n100 + 4 * n4 + n1) / 400 = q) as ->
      by (clear -Hn1 Hn4 Hn100; lia_div).
    lia.
  - destruct (decide (d = 365)) as [Heq|]; [|destruct (is_leap _); lia].
    destruct (Hlast Heq) as [-> Hfull].
    replace (400 * q + 100 * n100 + 4 * n4 + 3 + 1)
      with (400 * q + (100 * n100 + 4 * n4 + 4)) by lia.
    rewrite leap_shift. assert (is_leap (100 * n100 + 4 * n4 + 4) = true) as ->; [|lia].
    assert (n4 < 24 ∨ n100 = 3 ∧ n4 = 24) as [H24|[-> ->]] by lia; [|done].
    unfold is_leap. apply andb_true_intro. split.
    + apply Z.eqb_eq. clear. lia_div.
    + apply orb_true_intro. left. apply negb_true_iff, Z.eqb_neq. clear -Hn4 H24. lia_div.
Qed.

(** The date computed for a day is a date of the calendar, and the days before it are
    that many. *)
Lemma civil_exact d : 0 ≤ d →
  let '(y, m, k) := civil d in valid_date y m k = true ∧ days_before y m k = d.
Proof.
  intros Hd. pose proof (Z.div_mod d 146097 ltac:(lia)) as Hdiv.
  pose proof (Z.mod_pos_bound d 146097 ltac:(lia)) as He. unfold civil. cbv zeta.
  set (q := d / 146097) in *. set (e := d mod 146097) in *.
  set (n100 := Z.min 3 (e / 36524)). set (n4 := (e - 36524 * n100) / 1461).
  set (n1 := Z.min 3 ((e - 36524 * n100 - 1461 * n4) / 365)).
  destruct (civil_year e q n100 n4 n1 _ He eq_refl eq_refl eq_refl eq_refl) as [Hy Hk].
  pose proof (month_of_exact _ _ Hk) as Hm.
  destruct (month_of _ _ _) as [m k]. destruct Hm as [Hv Hs].
  split; [done|]. unfold days_before. lia.
Qed.

(** The Unix epoch, and a time stamp with a fraction. *)
Lemma format_examples :
  format_RFC3339Nano 62135596800000000000 = "1970-01-01T00:00:00Z" ∧
  format_RFC3339Nano (62135596800000000000 + 1709208000120000000) =
    "2024-02-29T12:00:00.12Z" ∧
  duration_String (24 * 3600 * 1000000000) = "24h0m0s" ∧
  duration_String 90500000000 = "1m30.5s" ∧ duration_String 1500000 = "1.5ms".
Proof. vm_compute. split_and!; reflexivity. Qed.
