(* ===== verification/AuditSink.v ===== *)
(** * AuditSink: the Kafka sink of [internal/audit/audit.go]

    The JSON payload of an event, the envelope [buildEnvelope] wraps it in, and
    [KafkaSink.Deliver].  The Kafka writer is a parameter.  [json.Marshal] compacts a
    [json.RawMessage]; [json_compact] is that scanner. *)
From stdpp Require Import base tactics numbers gmap strings pretty list.
From Stdlib Require Import ZArith Lia Ascii.
From S2P Require Import Prelude.
From S2P Require Import GoLang.
From S2P Require Import GoText.
From S2P Require Import GoBytes.
From S2P Require Import GoTime.
From S2P Require Import Crypto.
From S2P Require Import Domain.
From S2P Require Import Json.
From S2P Require Import World.
From S2P Require Import Reference.
From S2P Require Import AuditOutbox.

#[local] Open Scope string_scope.
#[local] Open Scope list_scope.
#[local] Open Scope Z_scope.

(** ** [json.Marshal] of maps and raw messages *)

(** The members of a map, by ascending key. *)
Fixpoint insert_member {A} (kv : string * A) (l : list (string * A)) : list (string * A) :=
  match l with
  | [] => [kv]
  | kv' :: l' => if string_lt kv.1 kv'.1 then kv :: l else kv' :: insert_member kv l'
  end.

Definition sort_members {A} (l : list (string * A)) : list (string * A) :=
  foldr insert_member [] l.

(** Where the scanner is: outside strings, inside one, after a backslash. *)
Inductive Scan : Type := Outside | Inside | Escape.

Definition next_scan (st : Scan) (c : ascii) : Scan :=
  match st with
  | Outside => if bool_decide (c = dquote) then Inside else Outside
  | Inside => if bool_decide (c = dquote) then Outside
              else if bool_decide (c = "\"%char) then Escape else Inside
  | Escape => Inside
  end.

Definition is_html (c : ascii) : bool :=
  let b := byte_of c in (b =? 60) || (b =? 62) || (b =? 38).

Definition skipped (st : Scan) (c : ascii) : bool :=
  match st with Outside => is_space c | _ => false end.

(** [compact] with HTML escaping, on a text that is valid JSON. *)
Fixpoint compact_from (st : Scan) (s : string) : string :=
  match s with
  | EmptyString => ""
  | String c t =>
      if skipped st c then compact_from st t
      else if is_html c then u_escape (byte_of c) +:+ compact_from (next_scan st c) t
      else
        match t with
        | String c1 (String c2 t') =>
            if (byte_of c =? 0xE2) && (byte_of c1 =? 0x80) &&
               ((byte_of c2 =? 0xA8) || (byte_of c2 =? 0xA9))
            then u_escape (0x2028 + (byte_of c2 - 0xA8)) +:+ compact_from (next_scan st c) t'
            else String c (compact_from (next_scan st c) t)
        | _ => String c (compact_from (next_scan st c) t)
        end
  end.

Definition json_compact (s : string) : result string :=
  match json_Unmarshal s with
  | Ok _ => Ok (compact_from Outside s)
  | Err e => Err e
  end.

(** ** The payload of an event *)
Section payload.
Context `{UUIDLib}.

(** A [nil] slice is [null]; the sources put no other empty slice in a payload. *)
Definition any_json (a : any) : json :=
  match a with
  | AString s => JString s
  | AInt z => JNum (pretty z)
  | ABool b => JBool b
  | AUUID u => JString (uuid_String u)
  | AStrings [] => JNull
  | AStrings l => JArray (JString <$> l)
  | ADuration d => JString (duration_String d)
  end.

Definition payload_json (l : list (string * any)) : json :=
  JObject (prod_map id any_json <$> sort_members l).

(** The bytes [Emit] passes to the store.  The in-memory store gives them back; the JSONB
    column of the Postgres schema gives back its own rendering of the value. *)
Definition payload_bytes (ev : AuditOutboxEvent) : string :=
  json_print (payload_json (ae_Payload ev)).
End payload.

(** ** The sink *)
Definition AuditTopic : string := "audit.v1".

Record Message : Type := MkMessage { ms_Key : string; ms_Value : string }.

Section sink.
Context `{UUIDLib} `{CryptoLib}.
(** The payload column of a row, as the store returns it. *)
Context (Payload : AuditOutboxEvent → string).

Definition payload_hash (raw : string) : string :=
  "sha256:" +:+ hex_EncodeToString (Sha256 (string_bytes raw)).

(** A value of the envelope: a string, or a raw message that may be absent. *)
Inductive Field : Type := FString (s : string) | FRaw (raw : option string).

(** [newID] is the UUID drawn when the event has none. *)
Definition buildEnvelope (newID : uuid) (ev : AuditOutboxEvent) :
    list (string * Field) * string :=
  let raw := Payload ev in
  let targetID := match ae_WalletID ev with Some w => uuid_String w | None => "" end in
  let id := uuid_String (ae_EventID ev) in
  let id := if (id =s "") || (id =s uuid_String uuid_Nil) then uuid_String newID else id in
  let payload := if (0 <? Z.of_nat (String.length raw)) then Some raw else None in
  ([("schema_version", FString "1");
    ("id", FString id);
    ("ts", FString (format_RFC3339Nano (ae_CreatedAt ev)));
    ("source_service", FString "wallet-management");
    ("actor_id", FString "wallet-management");
    ("action", FString (ae_EventType ev));
    ("target_type", FString "wallet");
    ("target_id", FString targetID);
    ("payload_hash", FString (payload_hash raw));
    ("payload", FRaw payload)], id).

Definition marshal_Field (v : Field) : result string :=
  match v with
  | FString s => Ok (json_quote s)
  | FRaw None => Ok "null"
  | FRaw (Some raw) => json_compact raw
  end.

Fixpoint marshal_members (l : list (string * Field)) : result (list string) :=
  match l with
  | [] => Ok []
  | (k, v) :: l =>
      t ← marshal_Field v;
      ts ← marshal_members l;
      Ok ((json_quote k +:+ ":" +:+ t) :: ts)
  end.

(** [json.Marshal] of the envelope. *)
Definition marshal_envelope (l : list (string * Field)) : result string :=
  ts ← marshal_members (sort_members l);
  Ok ("{" +:+ String.concat "," ts +:+ "}").

Definition build_message (newID : uuid) (ev : AuditOutboxEvent) : result Message :=
  let '(envelope, key) := buildEnvelope newID ev in
  body ← wrap_result "audit kafka encode" (marshal_envelope envelope);
  Ok (MkMessage key body).

Fixpoint build_messages (newID : nat → uuid) (i : nat) (events : list AuditOutboxEvent) :
    result (list Message) :=
  match events with
  | [] => Ok []
  | ev :: events =>
      m ← build_message (newID i) ev;
      ms ← build_messages newID (S i) events;
      Ok (m :: ms)
  end.

(** [NewKafkaSink]: no writer without brokers. *)
Record KafkaSink : Type := MkKafkaSink {
  ks_writer : option (list Message → result unit);
  ks_brokers : list string
}.

Definition NewKafkaSink (dial : list string → list Message → result unit)
    (brokers : list string) : KafkaSink :=
  match brokers with
  | [] => MkKafkaSink None []
  | _ => MkKafkaSink (Some (dial brokers)) brokers
  end.

(** [Ping]: dials the first broker. *)
Definition KafkaSink_Ping (DialContext : string → result unit) (s : KafkaSink) : result unit :=
  match ks_writer s, ks_brokers s with
  | Some _, b :: _ => DialContext b
  | _, _ => Err (ErrNew "audit kafka: not configured")
  end.

Definition KafkaSink_Deliver (s : KafkaSink) (newID : nat → uuid)
    (events : list AuditOutboxEvent) : result unit :=
  match ks_writer s with
  | None => Err (ErrNew "audit kafka: not connected")
  | Some WriteMessages =>
      msgs ← build_messages newID 0 events;
      wrap_result "audit kafka publish" (WriteMessages msgs)
  end.
End sink.

(** ** Printed JSON is compact *)
Lemma compact_plain st c t :
  byte_of c <> 0xE2 → is_html c = false → skipped st c = false →
  compact_from st (String c t) = String c (compact_from (next_scan st c) t).
Proof.
  intros Hc Hh Hs. cbn [compact_from]. rewrite Hh, Hs.
  destruct t as [|c1 [|c2 t']]; [done|done|].
  by rewrite (proj2 (Z.eqb_neq _ _) Hc).
Qed.

(** A character of a string literal, as it is printed. *)
Lemma compact_quote_char c t :
  byte_of c < 0x80 →
  compact_from Inside (quote_char c +:+ t) = quote_char c +:+ compact_from Inside t.
Proof.
  destruct c as [[] [] [] [] [] [] [] []]; intros Hc; try (exfalso; revert Hc; vm_compute; congruence);
    cbv -[compact_from String.append];
    repeat change (String ?x ?s +:+ ?t) with (String x (s +:+ t));
    repeat change ("" +:+ ?t) with t;
    repeat (rewrite compact_plain by (vm_compute; congruence)); reflexivity.
Qed.

Lemma compact_quote_chars s n t :
  ascii_text s = true → (String.length s ≤ n)%nat →
  compact_from Inside (quote_chars n s +:+ t) = quote_chars n s +:+ compact_from Inside t.
Proof.
  revert n. induction s as [|c s IH]; intros n Ha Hn; [by destruct n|].
  destruct n as [|n]; [simpl in Hn; lia|]. unfold ascii_text in Ha. simpl in Ha.
  apply andb_prop in Ha as [Hc Ha]. simpl. rewrite Hc, !string_app_assoc.
  rewrite compact_quote_char by lia. rewrite IH; [done|done|simpl in Hn; lia].
Qed.

Lemma compact_json_quote s t :
  ascii_text s = true →
  compact_from Outside (json_quote s +:+ t) = json_quote s +:+ compact_from Outside t.
Proof.
  intros Ha. unfold json_quote.
  change (String dquote ?a +:+ ?b) with (String dquote (a +:+ b)).
  rewrite compact_plain by done. rewrite !string_app_assoc.
  rewrite compact_quote_chars by done.
  change (String dquote "" +:+ ?b) with (String dquote b). by rewrite compact_plain by done.
Qed.

(** Characters that stay outside strings. *)
Definition bare (c : ascii) : bool :=
  negb (is_space c) && negb (is_html c) && (byte_of c <? 0x80) && negb (bool_decide (c = dquote)).

Lemma compact_bare s t :
  forallb bare (String.list_ascii_of_string s) = true →
  compact_from Outside (s +:+ t) = s +:+ compact_from Outside t.
Proof.
  induction s as [|c s IH]; [done|]. cbn [String.list_ascii_of_string forallb].
  intros [Hc Hs]%andb_prop. unfold bare in Hc. rewrite !andb_true_iff, !negb_true_iff in Hc.
  destruct Hc as [[[Hsp Hh] Hb] Hq].
  change (String c s +:+ t) with (String c (s +:+ t)).
  rewrite compact_plain by (try done; lia). simpl. rewrite Hq, IH by done. done.
Qed.

Lemma bare_pretty (z : Z) : forallb bare (String.list_ascii_of_string (pretty z)) = true.
Proof.
  assert (∀ x : N, forallb bare (String.list_ascii_of_string (pretty x)) = true) as HN.
  { intros x. apply forallb_forall. intros c Hc%list_elem_of_In.
    destruct (pretty_N_digits x) as [Hd _]. rewrite list.Forall_forall in Hd.
    specialize (Hd c Hc). clear -Hd. by destruct c as [[] [] [] [] [] [] [] []]. }
  destruct z as [|p|p]; [done|apply (HN (N.pos p))|].
  change (pretty (Z.neg p)) with (String "-" (pretty (N.pos p))). simpl.
  by rewrite HN.
Qed.

Lemma compact_concat {A} (f : A → string) l t :
  Forall (λ x, ∀ t, compact_from Outside (f x +:+ t) = f x +:+ compact_from Outside t) l →
  compact_from Outside (String.concat "," (f <$> l) +:+ t) =
    String.concat "," (f <$> l) +:+ compact_from Outside t.
Proof.
  induction 1 as [|x l Hx Hl IH]; [done|]. destruct l as [|y l]; [apply Hx|].
  change (String.concat "," (f <$> x :: y :: l))
    with (f x +:+ "," +:+ String.concat "," (f <$> y :: l)).
  rewrite !string_app_assoc, Hx, (compact_bare ",") by done. by rewrite IH.
Qed.

Lemma compact_print v t :
  printable v = true →
  compact_from Outside (json_print v +:+ t) = json_print v +:+ compact_from Outside t.
Proof.
  revert v t. fix IH 1. intros [|[]|lit|s|l|l] t Hp; cbn [json_print].
  - by apply compact_bare.
  - by apply compact_bare.
  - by apply compact_bare.
  - simpl in Hp. destruct (big_SetString lit); [|done].
    apply bool_decide_eq_true in Hp as ->. apply compact_bare, bare_pretty.
  - by apply compact_json_quote.
  - rewrite !string_app_assoc, (compact_bare "[") by done. f_equal.
    rewrite compact_concat; [by rewrite (compact_bare "]")|].
    simpl in Hp. clear -IH Hp. induction l as [|x l IHl]; constructor.
    + intros t. apply IH. by apply andb_prop in Hp as [].
    + apply IHl. by apply andb_prop in Hp as [].
  - rewrite !string_app_assoc, (compact_bare "{") by done. f_equal.
    rewrite compact_concat; [by rewrite (compact_bare "}")|].
    simpl in Hp. clear -IH Hp. induction l as [|[k x] l IHl]; constructor.
    + apply andb_prop in Hp as [Hkx _]. simpl in Hkx. apply andb_prop in Hkx as [Hk Hx].
      intros t. cbn [fst snd]. rewrite !string_app_assoc, compact_json_quote by done.
      by rewrite (compact_bare ":"), IH.
    + apply IHl. by apply andb_prop in Hp as [].
Qed.

Lemma json_compact_print v :
  printable v = true → json_depth v ≤ max_depth → json_compact (json_print v) = Ok (json_print v).
Proof.
  intros Hp Hd. unfold json_compact. rewrite json_Unmarshal_print by done.
  pose proof (compact_print v "" Hp) as Hc. rewrite !string_app_nil_r in Hc. by rewrite Hc.
Qed.

(** ** What is published *)
Section theorems.
Context `{UUIDLib} `{CryptoLib}.
(** The payload column of a row, as the store returns it, and the value it renders. *)
Context (Payload : AuditOutboxEvent → string) (value : AuditOutboxEvent → json).

(** The envelope of an event, as a consumer of the topic reads it. *)
Definition envelope (ev : AuditOutboxEvent) : json := JObject
  [("action", JString (ae_EventType ev));
   ("actor_id", JString "wallet-management");
   ("id", JString (uuid_String (ae_EventID ev)));
   ("payload", value ev);
   ("payload_hash", JString (payload_hash (Payload ev)));
   ("schema_version", JString "1");
   ("source_service", JString "wallet-management");
   ("target_id", JString (match ae_WalletID ev with Some w => uuid_String w | None => "" end));
   ("target_type", JString "wallet");
   ("ts", JString (format_RFC3339Nano (ae_CreatedAt ev)))].

(** The event has an id; its column is a text of the value, up to blanks; its strings
    are ASCII and it is nested within the limit of the parser. *)
Record event_ok (ev : AuditOutboxEvent) : Prop := {
  event_id : ae_EventID ev ≠ uuid_Nil;
  event_column : json_compact (Payload ev) = Ok (json_print (value ev));
  event_printable : printable (envelope ev) = true;
  event_depth : json_depth (envelope ev) ≤ max_depth
}.

Lemma json_compact_nonempty raw t : json_compact raw = Ok t → (0 < String.length raw)%nat.
Proof. destruct raw; [by vm_compute|simpl; lia]. Qed.

Lemma build_message_envelope newID ev : event_ok ev →
  build_message Payload newID ev =
    Ok (MkMessage (uuid_String (ae_EventID ev)) (json_print (envelope ev))).
Proof.
  intros [Hnil Hc _ _]. unfold build_message, buildEnvelope.
  assert (uuid_String (ae_EventID ev) ≠ "") as Hne.
  { intros He. pose proof (uuid_String_length (ae_EventID ev)) as Hl. by rewrite He in Hl. }
  assert (uuid_String (ae_EventID ev) ≠ uuid_String uuid_Nil) as Hnn.
  { intros He. apply Hnil. apply (f_equal uuid_Parse) in He.
    rewrite !uuid_Parse_String in He. by injection He. }
  rewrite (bool_decide_false _ Hne), (bool_decide_false _ Hnn). cbv zeta. cbn [orb].
  unfold marshal_envelope. cbn [sort_members foldr insert_member fst string_lt].
  rewrite (proj2 (Z.ltb_lt 0 (Z.of_nat (String.length (Payload ev)))))
    by (apply json_compact_nonempty in Hc; lia).
  cbv - [json_quote json_compact format_RFC3339Nano payload_hash uuid_String
    json_print envelope].
  rewrite Hc. reflexivity.
Qed.

Lemma build_messages_envelopes newID i evs : Forall event_ok evs →
  build_messages Payload newID i evs =
    Ok ((λ ev, MkMessage (uuid_String (ae_EventID ev)) (json_print (envelope ev))) <$> evs).
Proof.
  intros Hok. revert i. induction Hok as [|ev evs Hev _ IH]; intros i; [done|].
  cbn [build_messages]. rewrite build_message_envelope by done. simpl. by rewrite IH.
Qed.

(** C32. What is published.  Take events with ids, with ASCII strings nested within the
    parser's limit, whose payload column holds a text of some JSON value, in the bytes
    [Emit] wrote or as a JSONB column renders it.  The batch goes to the broker as one
    message per event, in order, or not at all; a consumer that parses a message reads
    the envelope of its event: the event's id, which is also the message key, its type,
    its wallet and its time, the value of the payload column, and as [payload_hash] the
    SHA-256 of the bytes of that column.  What is published of the payload are not those
    bytes but the compact text of the value. *)
Theorem KafkaSink_publishes s newID evs write :
  ks_writer s = Some write → Forall event_ok evs →
  ∃ msgs, KafkaSink_Deliver Payload s newID evs =
      wrap_result "audit kafka publish" (write msgs) ∧
    Forall2 (λ ev m, ms_Key m = uuid_String (ae_EventID ev) ∧
      ms_Value m = json_print (envelope ev) ∧
      json_Unmarshal (ms_Value m) = Ok (envelope ev)) evs msgs.
Proof.
  intros Hw Hok. unfold KafkaSink_Deliver. rewrite Hw, build_messages_envelopes by done.
  eexists. split; [reflexivity|].
  apply Forall2_fmap_r, Forall_Forall2_diag. apply (Forall_impl _ _ _ Hok).
  intros ev [_ _ Hp Hd]. split_and!; [done|done|]. exact (json_Unmarshal_print _ Hp Hd).
Qed.
End theorems.

(** On the in-memory store the hash is that of the published bytes: the column holds the
    compact text. *)
Lemma payload_bytes_compact `{UUIDLib} ev :
  printable (payload_json (ae_Payload ev)) = true →
  json_depth (payload_json (ae_Payload ev)) ≤ max_depth →
  json_compact (payload_bytes ev) = Ok (payload_bytes ev).
Proof. apply json_compact_print. Qed.

(** With the payload in a JSONB column the bytes that are hashed are the server's
    rendering of the value, with blanks, and the bytes that are published are not. *)
Definition jsonb_text : string :=
  "{" +:+ json_quote "chain" +:+ ": " +:+ json_quote "bitcoin" +:+ "}".

Lemma jsonb_payload_rewritten :
  json_compact jsonb_text =
    Ok ("{" +:+ json_quote "chain" +:+ ":" +:+ json_quote "bitcoin" +:+ "}") ∧
  json_compact jsonb_text ≠ Ok jsonb_text.
Proof. split; [by vm_compute|]. vm_compute. congruence. Qed.

(** ** Witness *)
Section witnesses.
#[local] Existing Instances ref_uuid ref_crypto.

Definition published_event : AuditOutboxEvent :=
  MkAudit (uuid_of_Z 5) (uuid_of_Z 6) (Some (uuid_of_Z 7)) "wallet.created"
    [("type", AString "HOT"); ("chain", AString "bitcoin")] 1 false 0
    62135596800000000000 None.

(** The column as JSONB renders it: shorter keys first, with blanks. *)
Definition jsonb_column (ev : AuditOutboxEvent) : string :=
  "{" +:+ json_quote "type" +:+ ": " +:+ json_quote "HOT" +:+ ", " +:+
  json_quote "chain" +:+ ": " +:+ json_quote "bitcoin" +:+ "}".

Definition jsonb_value (ev : AuditOutboxEvent) : json :=
  JObject [("type", JString "HOT"); ("chain", JString "bitcoin")].

Lemma KafkaSink_publishes_witness :
  ∃ msgs, KafkaSink_Deliver jsonb_column (NewKafkaSink (λ _ _, Ok tt) ["k:9092"])
      (λ _, uuid_Nil) [published_event] = wrap_result "audit kafka publish" (Ok tt) ∧
    Forall2 (λ ev m, ms_Key m = uuid_String (ae_EventID ev) ∧
      ms_Value m = json_print (envelope jsonb_column jsonb_value ev) ∧
      json_Unmarshal (ms_Value m) = Ok (envelope jsonb_column jsonb_value ev))
      [published_event] msgs.
Proof.
  apply (KafkaSink_publishes jsonb_column jsonb_value
    (NewKafkaSink (λ _ _, Ok tt) ["k:9092"]) (λ _, uuid_Nil)
    [published_event] (λ _, Ok tt) eq_refl).
  constructor; [|constructor]. split.
  - intros Hx. apply (f_equal uuid_String) in Hx. vm_compute in Hx. discriminate Hx.
  - vm_compute. reflexivity.
  - vm_compute. reflexivity.
  - vm_compute. discriminate.
Defined.
End witnesses.
