(* ===== verification/Drainer.v ===== *)
(** * Drainer: the background worker of the audit outbox, [internal/audit/audit.go]

    [EmitterService] with its [Start] and [Stop]: loops that wait for the end of the
    context, for the stop channel or for a tick, and drain the outbox at each tick, run
    interleaved with the rest of the service. *)
From stdpp Require Import base tactics numbers gmap strings list relations.
From Stdlib Require Import ZArith Lia.
From S2P Require Import Prelude.
From S2P Require Import GoLang.
From S2P Require Import Domain.
From S2P Require Import World.
From S2P Require Import Reference.
From S2P Require Import MemStore.
From S2P Require Import AuditOutbox.

#[local] Open Scope list_scope.
#[local] Open Scope Z_scope.

(** ** The service *)

(** What the stop channel and the loops of an [EmitterService] have come to.  [em_closes]
    counts [close(e.stopCh)]: closing a closed channel panics. *)
Record EmitterService : Type := MkEmitter {
  em_stopped : bool;
  em_closes : nat;
  em_ctx_done : bool;
  em_loops : list bool;    (** for each [Start], whether its goroutine still runs *)
  em_world : World
}.

Definition NewEmitter (w : World) : EmitterService := MkEmitter false 0 false [] w.

(** Under [e.mu]. *)
Definition Stop (e : EmitterService) : EmitterService :=
  if negb (em_stopped e) then
    MkEmitter true (S (em_closes e)) (em_ctx_done e) (em_loops e) (em_world e)
  else e.

Definition Start (e : EmitterService) : EmitterService :=
  MkEmitter (em_stopped e) (em_closes e) (em_ctx_done e) (em_loops e ++ [true]) (em_world e).

Definition cancel (e : EmitterService) : EmitterService :=
  MkEmitter (em_stopped e) (em_closes e) true (em_loops e) (em_world e).

(** The case of the [select] that was taken. *)
Inductive Wake : Type := CtxDone | StopClosed | Tick.

(** A case can be taken when its channel is ready; among several the choice is free. *)
Definition ready (e : EmitterService) (k : Wake) : bool :=
  match k with
  | CtxDone => em_ctx_done e
  | StopClosed => (0 <? Z.of_nat (em_closes e))
  | Tick => true
  end.

Section loop.
Context `{GoRuntime} `{UUIDLib} `{Environment}.
Context (f : list exchange → list AuditOutboxEvent → result unit).

(** One round of loop [i]; the error of [Drain] is dropped. *)
Definition loop_round (i : nat) (k : Wake) (e : EmitterService) : EmitterService :=
  match k with
  | CtxDone | StopClosed =>
      MkEmitter (em_stopped e) (em_closes e) (em_ctx_done e) (<[i := false]> (em_loops e))
        (em_world e)
  | Tick =>
      MkEmitter (em_stopped e) (em_closes e) (em_ctx_done e) (em_loops e)
        (ignore (Drain (Some f)) (em_world e)).2
  end.

Inductive em_step (e : EmitterService) : EmitterService → Prop :=
  | em_Start : em_step e (Start e)
  | em_Stop : em_step e (Stop e)
  | em_cancel : em_step e (cancel e)
  | em_round i k : em_loops e !! i = Some true → ready e k = true →
      em_step e (loop_round i k e)
  (** the rest of the service: events recorded, other tables changed *)
  | em_other w' : audit_step f (em_world e) w' →
      em_step e (MkEmitter (em_stopped e) (em_closes e) (em_ctx_done e) (em_loops e) w').

(** ** The life of the loops *)
Record em_inv (e : EmitterService) : Prop := {
  closed_once : em_closes e = if em_stopped e then 1%nat else 0%nat;
  exits_told i : em_loops e !! i = Some false → em_stopped e = true ∨ em_ctx_done e = true
}.

Lemma em_step_inv e e' : em_step e e' → em_inv e → em_inv e'.
Proof.
  intros Hs [Hc He]. destruct Hs as [| | |i k Hi Hk|w' Hw]; simpl.
  - split; simpl; [done|]. intros i. rewrite lookup_app_Some, list_lookup_singleton_Some.
    intros [Hl|[_ [_ ?]]]; [by eapply He|done].
  - unfold Stop. destruct (em_stopped e) eqn:Hst; simpl; split; simpl; rewrite ?Hst; auto.
  - split; simpl; [done|]. auto.
  - destruct k; simpl in *.
    + split; simpl; [done|]. auto.
    + split; simpl; [done|]. intros j _. left. destruct (em_stopped e); [done|].
      rewrite Hc in Hk. done.
    + split; simpl; auto.
  - split; simpl; auto.
Qed.

(** The stop channel is closed once however often and from however many goroutines
    [Stop] is called, so that it never panics; a loop ends only when it was told
    to; and once told, every loop that still runs can end, whatever the sink does. *)
Lemma emitter_lifecycle w e :
  rtc em_step (NewEmitter w) e →
  (em_closes e ≤ 1)%nat ∧
  (∀ i, em_loops e !! i = Some false → em_stopped e = true ∨ em_ctx_done e = true) ∧
  (em_stopped e = true → ∀ i, em_loops e !! i = Some true →
    ∃ e', em_step e e' ∧ em_loops e' !! i = Some false).
Proof.
  intros Hst. assert (em_inv e) as [Hc He].
  { eapply (rtc_ind_l (λ x, em_inv x → em_inv e)); [done| |exact Hst|].
    - eauto using em_step_inv.
    - split; [done|]. intros i Hi. done. }
  split_and!; [rewrite Hc; destruct (em_stopped e); lia|done|].
  intros Hs i Hi. exists (loop_round i StopClosed e). split.
  - apply em_round; [done|]. simpl. by rewrite Hc, Hs.
  - simpl. apply list_lookup_insert_eq. by eapply lookup_lt_Some.
Qed.

(** ** Delivery *)

(** [k] ticks, with work elsewhere in the service between them. *)
Inductive quiet_run : nat → World → World → Prop :=
  | quiet_done w : quiet_run 0 w w
  | quiet_tick k w w' :
      quiet_run k (ignore (Drain (Some f)) w).2 w' → quiet_run (S k) w w'
  | quiet_elsewhere k w w1 w' :
      auditOutbox (store w1) = auditOutbox (store w) →
      auditSeqCounters (store w1) = auditSeqCounters (store w) →
      quiet_run k w1 w' → quiet_run k w w'.

Lemma ignore_state {S A} (m : GoM S A) w : (ignore m w).2 = (m w).2.
Proof. unfold ignore. by destruct (m w). Qed.

(** C20. The background worker empties the outbox.  With a sink that accepts, each
    tick delivers a hundred rows or all there are, so that after [k] ticks a
    backlog of at most [100 k] rows is gone, with no row lost, whatever else the
    service did in between to other tables. *)
Theorem ticks_deliver_all k w w' :
  (∀ tr evs, f tr evs = Ok tt) → NoDup (row_ids w) → quiet_run k w w' →
  (length (undelivered w) ≤ 100 * k)%nat →
  undelivered w' = [] ∧ row_ids w' = row_ids w.
Proof.
  intros Hf Hnd Hr. revert Hnd. induction Hr as [w|k w w' Hr IH|k w w1 w' Ho Hq Hr IH];
    intros Hnd Hl.
  - split; [|done]. apply nil_length_inv. lia.
  - pose proof (Drain_progress f w Hnd) as Hd. rewrite Hf in Hd.
    destruct Hd as (w1 & Hrun & Hids & Hlen). rewrite ignore_state, Hrun in *. simpl in *.
    destruct IH as [Hu Hi]; [by rewrite Hids|lia|]. by rewrite Hi, Hids.
  - unfold row_ids, undelivered in *. rewrite Ho in *. auto.
Qed.
End loop.

(** ** Witness *)
Section witnesses.
#[local] Existing Instances ref_runtime ref_uuid ref_env.

Lemma ticks_deliver_all_witness :
  undelivered (Drain (Some accept) two_rows).2 = [] ∧
  row_ids (Drain (Some accept) two_rows).2 = row_ids two_rows.
Proof.
  apply (ticks_deliver_all accept 1 two_rows).
  - reflexivity.
  - apply (bool_decide_eq_true_1 _). vm_compute. reflexivity.
  - apply quiet_tick. rewrite ignore_state. apply quiet_done.
  - vm_compute. apply le_S_n. repeat constructor.
Defined.
End witnesses.
