(* ===== verification/DevMode.v ===== *)
(** * DevMode: the stand-ins of [internal/grpcclient] and [internal/policy]

    With [DEV_MODE=1] the process signs and broadcasts through [MockMPCSigner] and
    [MockGatewayClient].  The answers they give when no function is set, and what the
    withdrawal service makes of them. *)
From stdpp Require Import base tactics numbers gmap strings pretty list.
From Stdlib Require Import ZArith Lia.
From S2P Require Import Prelude.
From S2P Require Import GoLang.
From S2P Require Import GoText.
From S2P Require Import GoBytes.
From S2P Require Import Crypto.
From S2P Require Import Domain.
From S2P Require Import Evm.
From S2P Require Import World.
From S2P Require Import Decimal.
From S2P Require Import TxBuilder.
From S2P Require Import MemStore.
From S2P Require Import Withdrawal.
From S2P Require Import WithdrawalSaga.

#[local] Open Scope string_scope.
#[local] Open Scope list_scope.
#[local] Open Scope Z_scope.

(** ** The mocks *)
Record MockMPCSigner : Type := MkMockSigner {
  SignFn : option (SignRequest → result SignResponse)
}.

Definition mock_sig : list byte := string_bytes "mock-sig".

Definition Mock_Sign (m : MockMPCSigner) (req : SignRequest) : result SignResponse :=
  match SignFn m with
  | Some f => f req
  | None => Ok (MkSignResponse mock_sig "mock")
  end.

Record MockGatewayClient : Type := MkMockGateway {
  BroadcastFn : option (BroadcastRequest → result BroadcastResponse)
}.

Definition Mock_BroadcastTx (m : MockGatewayClient) (req : BroadcastRequest) :
    result BroadcastResponse :=
  match BroadcastFn m with
  | Some f => f req
  | None => Ok (MkBroadcastResponse "0xmocktx")
  end.

Record MockClient : Type := MkMockPolicy {
  CheckFn : option (CheckRequest → result CheckResponse)
}.

Definition Mock_CheckWhitelist (m : MockClient) (req : CheckRequest) : result CheckResponse :=
  match CheckFn m with
  | Some f => f req
  | None => Ok (MkCheckResponse true "mock-decision" "")
  end.

(** [&grpcclient.MockMPCSigner{}], as [initSignerAndGateway] makes it. *)
Definition dev_signer : list exchange → SignRequest → result SignResponse :=
  λ _, Mock_Sign (MkMockSigner None).

(** ** No transaction is completed by the mock signature *)
Lemma result_inv {A B} (r : result A) (f : A → result B) b :
  r ≫= f = Ok b → ∃ a, r = Ok a ∧ f a = Ok b.
Proof. destruct r; [by eexists|done]. Qed.

Section dev.
Context `{GoRuntime} `{UUIDLib} `{Environment} `{DecimalLib} `{CryptoLib}.

Lemma evm_refuses_mock w wr nonce u :
  buildEVMUnsignedTx w wr nonce = Ok u → is_ok (ut_Assemble u mock_sig) = false.
Proof.
  unfold buildEVMUnsignedTx. destruct (wrap_result _ _) as [to|]; [|done]. simpl.
  destruct (big_SetString _) as [v|]; [|done]. by intros [= <-].
Qed.

Lemma btc_refuses_mock w wr ops opts u :
  buildBTCUnsignedTx w wr ops opts = Ok u → is_ok (ut_Assemble u mock_sig) = false.
Proof.
  unfold buildBTCUnsignedTx. case_bool_decide as Hn; [done|].
  intros (amount & _ & Hr)%result_inv. apply result_inv in Hr as (script & _ & Hr).
  apply result_inv in Hr as (a & _ & Hr). apply result_inv in Hr as (txIn & Hin & Hr).
  apply result_inv in Hr as (hashes & _ & Hr). injection Hr as <-. simpl.
  apply map_result_Forall2, Forall2_length in Hin. unfold btc_assemble. simpl.
  change (length mock_sig) with 8%nat.
  by rewrite (proj2 (Z.ltb_lt _ _)) by lia.
Qed.

Lemma solana_refuses_mock w wr opts world u world' :
  buildSolanaUnsignedTx w wr opts world = (Ok u, world') →
  is_ok (ut_Assemble u mock_sig) = false.
Proof.
  unfold buildSolanaUnsignedTx. intros (to & w1 & _ & Hr)%bind_inv.
  apply bind_inv in Hr as (lamports & w2 & _ & Hr).
  apply bind_inv in Hr as (bh & w3 & _ & Hr). by injection Hr as <- <-.
Qed.

Lemma build_refuses_mock w wr nonce ops opts world u world' :
  BuildUnsignedTx w wr nonce ops opts world = (Ok u, world') →
  is_ok (ut_Assemble u mock_sig) = false.
Proof.
  unfold BuildUnsignedTx, of_result. destruct (IsEVM _); [|destruct (_ =s ChainBitcoin);
    [|destruct (_ =s ChainSolana)]].
  - intros [= Hb _]. by eapply evm_refuses_mock.
  - intros [= Hb _]. by eapply btc_refuses_mock.
  - apply solana_refuses_mock.
  - done.
Qed.

Context (C : Collaborators) (HC : co_Signer C = dev_signer).

(** With the mock signer no withdrawal is ever signed: whatever the chain and
    the request, [ConstructAndSign] returns an error, since the eight bytes of the mock
    signature complete no transaction. *)
Lemma dev_mode_never_signs id w : is_ok (ConstructAndSign C reliable id w).1 = false.
Proof.
  destruct (ConstructAndSign C reliable id w) as [[u|e] w'] eqn:Hrun; [exfalso|done].
  unfold ConstructAndSign in Hrun. apply bind_inv in Hrun as (wr & w1 & _ & Hrun).
  destruct (negb _); [done|]. apply bind_inv in Hrun as (wal & w2 & _ & Hrun).
  apply bind_inv in Hrun as (key & w3 & _ & Hrun).
  apply bind_inv in Hrun as ([n ops] & w4 & _ & Hrun).
  apply bind_inv in Hrun as (bytes & w5 & Hsign & _).
  unfold build_and_sign in Hsign. apply bind_inv in Hsign as (opts & w6 & _ & Hsign).
  apply bind_inv in Hsign as (tx & w7 & Hb%or_cleanup_Ok%build_refuses_mock & Hsign).
  apply bind_inv in Hsign as (resp & w8 & Hresp%or_cleanup_Ok & Hsign).
  apply bind_inv in Hsign as (signed & w9 & Has%or_cleanup_Ok & _).
  rewrite HC in Hresp. injection Hresp as <- <-. unfold of_result in Has. simpl in Has.
  injection Has as Has _. by rewrite Has in Hb.
Qed.
End dev.
