(* ===== verification/Telemetry.v ===== *)
(** * Telemetry: [internal/otel/otel.go]

    [Init] chooses the process-wide tracer and meter providers from the environment and
    returns the function that shuts them down.  The OpenTelemetry SDK is a parameter: the
    merge of the resource, the two exporters, and the outcome of the shutdown of each
    provider. *)
From stdpp Require Import base tactics strings list.
From Stdlib Require Import ZArith.
From S2P Require Import Prelude.
From S2P Require Import GoLang.
From S2P Require Import GoText.
From S2P Require Import Domain.

#[local] Open Scope string_scope.
#[local] Open Scope list_scope.

(** ** The global providers *)
Inductive Provider : Type :=
  | Unset
  | WithoutExporter                             (** [NewTracerProvider()], [noop] *)
  | Exporting (service endpoint : string).

Record Globals : Type := MkGlobals {
  g_tracer : Provider;
  g_meter : Provider;
  g_propagators : list string
}.

(** The function [Init] returns: nothing to do, or both providers to stop. *)
Inductive Shutdown : Type := NothingToStop | StopProviders.

Section otel.
Context (Getenv : string → string).
Context (Merge : string → result unit) (otlptracegrpc_New otlpmetricgrpc_New : string → result unit).

Definition propagators : list string := ["tracecontext"; "baggage"].

Definition Init (serviceName : string) : GoM Globals Shutdown :=
  let endpoint := strings_TrimSpace (Getenv "OTEL_EXPORTER_OTLP_ENDPOINT") in
  if endpoint =s "" then
    modify (λ _, MkGlobals WithoutExporter WithoutExporter propagators);;
    mret NothingToStop
  else
    let name := strings_TrimSpace (Getenv "OTEL_SERVICE_NAME") in
    let serviceName := if negb (name =s "") then name else serviceName in
    let endpoint := strings_TrimPrefix (strings_TrimPrefix endpoint "http://") "grpc://" in
    wrap_err "otel resource" (of_result (Merge serviceName));;
    wrap_err "otel trace exporter" (of_result (otlptracegrpc_New endpoint));;
    wrap_err "otel metric exporter" (of_result (otlpmetricgrpc_New endpoint));;
    modify (λ _, MkGlobals (Exporting serviceName endpoint) (Exporting serviceName endpoint)
      propagators);;
    mret StopProviders.

(** The returned function, with what [tp.Shutdown] and [mp.Shutdown] answer: both are
    called, and the error of the first is preferred. *)
Definition run_shutdown (s : Shutdown) (tp mp : result unit) : result unit :=
  match s with
  | NothingToStop => Ok tt
  | StopProviders =>
      let traceErr := wrap_result "trace shutdown" tp in
      let metricErr := wrap_result "metric shutdown" mp in
      match traceErr with Err e => Err e | Ok _ => metricErr end
  end.

(** ** Lemmas *)
(** Without an endpoint [Init] cannot fail, installs providers that export nothing, and
    there is nothing to shut down.  With one it either installs both exporters, under
    the configured name, or fails and leaves the providers as they were. *)
Lemma Init_outcome serviceName g :
  let endpoint := strings_TrimSpace (Getenv "OTEL_EXPORTER_OTLP_ENDPOINT") in
  let name := strings_TrimSpace (Getenv "OTEL_SERVICE_NAME") in
  let '(r, g') := Init serviceName g in
  if endpoint =s "" then
    r = Ok NothingToStop ∧ g' = MkGlobals WithoutExporter WithoutExporter propagators
  else
    (∃ service target, r = Ok StopProviders ∧
      g' = MkGlobals (Exporting service target) (Exporting service target) propagators ∧
      (name ≠ "" → service = name) ∧ (name = "" → service = serviceName) ∧
      otlptracegrpc_New target = Ok tt ∧ otlpmetricgrpc_New target = Ok tt) ∨
    (∃ e, r = Err e ∧ g' = g).
Proof.
  unfold Init. cbv zeta. destruct (_ =s ""); [done|].
  unfold wrap_err, of_result, mbind, GoM_bind, modify, mret, GoM_ret. cbv beta.
  set (svc := if negb _ then _ else _). set (ep := strings_TrimPrefix _ _).
  destruct (Merge svc) as [[]|e]; [|right; by eexists].
  destruct (otlptracegrpc_New ep) as [[]|e] eqn:Ht; [|right; by eexists].
  destruct (otlpmetricgrpc_New ep) as [[]|e] eqn:Hm; [|right; by eexists].
  left. exists svc, ep. split_and!; try done; unfold svc; case_bool_decide; done.
Qed.

(** An endpoint written with a scheme reaches the exporters without it. *)
Lemma Init_strips_scheme p host :
  p = "http://" ∨ p = "grpc://" → strings_HasPrefix host "http://" = false →
  strings_HasPrefix host "grpc://" = false →
  strings_TrimPrefix (strings_TrimPrefix (p +:+ host) "http://") "grpc://" = host.
Proof.
  intros [->| ->] Hh Hg.
  - rewrite strings_TrimPrefix_app. unfold strings_TrimPrefix. by rewrite Hg.
  - assert (strings_TrimPrefix ("grpc://" +:+ host) "http://" = "grpc://" +:+ host) as ->
      by done. apply strings_TrimPrefix_app.
Qed.

(** Both providers are shut down whatever happens to the first; the call reports success
    exactly when both succeeded. *)
Lemma run_shutdown_ok s tp mp :
  run_shutdown s tp mp = Ok tt ↔ s = NothingToStop ∨ (tp = Ok tt ∧ mp = Ok tt).
Proof. destruct s, tp as [[]|], mp as [[]|]; simpl; naive_solver. Qed.
End otel.
