(* ===== verification/Process.v ===== *)
(** * Process: start-up, [cmd/wallet-manager/main.go] and [internal/clients/clients.go]

    What [run] chooses from the environment before it serves: the cache and the locker,
    the derivers, the audit sink, the signer and the gateway with their credentials,
    the blockhash fetcher, and the readiness probes.  [log.Fatalf] ends the process: it
    is a result of its own.  The environment, the file system, the dialers and the Redis
    server are parameters. *)
From stdpp Require Import base tactics numbers gmap strings pretty list.
From Stdlib Require Import ZArith Lia Ascii.
From S2P Require Import Prelude.
From S2P Require Import GoLang.
From S2P Require Import GoText.
From S2P Require Import Crypto.
From S2P Require Import Domain.
From S2P Require Import Config.
From S2P Require Import Deriver.

#[local] Open Scope string_scope.
#[local] Open Scope list_scope.
#[local] Open Scope Z_scope.

(** ** The result of a step of the start-up *)
Inductive Startup (A : Type) : Type :=
  | Started (a : A)
  | Failed (e : error)       (** [run] returns the error *)
  | Fatal (msg : string).    (** [log.Fatalf] *)
Arguments Started {A} a.
Arguments Failed {A} e.
Arguments Fatal {A} msg.

#[export] Instance startup_ret : MRet Startup := λ _ a, Started a.
#[export] Instance startup_bind : MBind Startup := λ _ _ f m,
  match m with Started a => f a | Failed e => Failed e | Fatal msg => Fatal msg end.

Definition check_err {A} (r : result A) : Startup A :=
  match r with Ok a => Started a | Err e => Failed e end.

Lemma startup_inv {A B} (m : Startup A) (f : A → Startup B) b :
  m ≫= f = Started b → ∃ a, m = Started a ∧ f a = Started b.
Proof. destruct m; [by eexists|done|done]. Qed.

(** [splitCSV]. *)
Definition splitCSV (s : string) : list string :=
  filter (λ p, p ≠ "") (strings_TrimSpace <$> strings_Split "," s).

(** ** What was chosen *)
Inductive Backend : Type := InMemory | OnRedis (url : string).
Inductive AuditSinkChoice : Type := SinkDropped | SinkKafka (brokers : list string).
Inductive Credentials : Type := Insecure | MutualTLS.
Inductive SignerChoice : Type := MockSigner | DialedSigner (target : string) (c : Credentials).

Record Wiring : Type := MkWiring {
  wi_backend : Backend;
  wi_registry : Registry;
  wi_sink : AuditSinkChoice;
  wi_signer : SignerChoice;
  wi_gateway : SignerChoice;
  wi_blockhash : option string
}.

Section startup.
Context `{CryptoLib}.
Context (Getenv : string → string).
(** [redis.ParseURL] and [Ping] succeed. *)
Context (redis_up : string → bool).
(** [os.ReadFile], [AppendCertsFromPEM] and [tls.LoadX509KeyPair]. *)
Context (ReadFile : string → result string) (parses_PEM : string → bool).
Context (LoadX509KeyPair : string → string → result unit).
(** [grpc.NewClient]. *)
Context (NewClient : string → Credentials → result unit).

Definition devMode : bool := Getenv "DEV_MODE" =s "1".

Definition initCacheAndLocker (cfg : Config) : Backend :=
  if redis_up (cf_RedisURL cfg) then OnRedis (cf_RedisURL cfg) else InMemory.

Definition placeholder : string := "xpub-placeholder".

Definition xpubEnv (name : string) : Startup string :=
  let v := Getenv name in
  if v =s "" then
    if devMode then Started placeholder
    else Fatal (name +:+ " required in production mode; real secrets store integration " +:+
      "not yet wired — set DEV_MODE=1 for local dev")
  else Started v.

Definition buildDeriverRegistry : Startup Registry :=
  x ← xpubEnv "EVM_XPUB"; evm ← check_err (NewEVM x);
  x ← xpubEnv "SOL_XPUB"; sol ← check_err (NewSolana x);
  x ← xpubEnv "BTC_XPUB"; btc ← check_err (NewBTC x);
  Started (MkRegistry evm sol btc).

Definition initAuditSink : Startup AuditSinkChoice :=
  let brokers := Getenv "KAFKA_BROKERS" in
  if negb (brokers =s "") then Started (SinkKafka (splitCSV brokers))
  else if devMode then Started SinkDropped
  else Fatal "KAFKA_BROKERS unset and DEV_MODE not set; cannot start audit producer".

(** [defaultDialConfig]. *)
Definition defaultDialConfig (dev : bool) : Startup Credentials :=
  if dev then Started Insecure
  else
    let caPath := Getenv "TLS_CA_CERT_FILE" in
    let certPath := Getenv "TLS_CLIENT_CERT_FILE" in
    let keyPath := Getenv "TLS_CLIENT_KEY_FILE" in
    if (caPath =s "") || (certPath =s "") || (keyPath =s "") then
      Fatal ("TLS_CA_CERT_FILE, TLS_CLIENT_CERT_FILE, and TLS_CLIENT_KEY_FILE required " +:+
        "in production mode — set DEV_MODE=1 for local dev")
    else match ReadFile caPath with
    | Err _ => Fatal ("read TLS_CA_CERT_FILE " +:+ quote caPath)
    | Ok caPEM =>
        if negb (parses_PEM caPEM) then
          Fatal ("TLS_CA_CERT_FILE " +:+ quote caPath +:+ ": no PEM certificates parsed")
        else match LoadX509KeyPair certPath keyPath with
        | Err _ => Fatal ("load TLS client cert/key (" +:+ quote certPath +:+ ", " +:+
            quote keyPath +:+ ")")
        | Ok _ => Started MutualTLS
        end
    end.

(** What [NewMPCSigningClient] and [NewGatewayClient] do, by the name of the service. *)
Definition dial (service target : string) (dev : bool) : Startup Credentials :=
  if target =s "" then Failed (ErrNew ("dial " +:+ service +:+ ": empty target"))
  else
    creds ← defaultDialConfig dev;
    match NewClient target creds with
    | Err e => Failed (ErrWrap ("dial " +:+ service +:+ " " +:+ quote target) e)
    | Ok _ => Started creds
    end.

Definition NewMPCSigningClient (target : string) (dev : bool) : Startup Credentials :=
  dial "mpc-signing-service" target dev.
Definition NewGatewayClient (target : string) (dev : bool) : Startup Credentials :=
  dial "blockchain-gateway" target dev.

(** The error of a dialer is wrapped once more by the caller. *)
Definition wrap_dial {A} (service target : string) (m : Startup A) : Startup A :=
  match m with
  | Failed e => Failed (ErrWrap ("dial " +:+ service +:+ " " +:+ quote target) e)
  | _ => m
  end.

Definition initSignerAndGateway (cfg : Config) : Startup (SignerChoice * SignerChoice) :=
  if devMode then Started (MockSigner, MockSigner)
  else if cf_MPCSigningURL cfg =s "" then
    Fatal "MPC_SIGNING_URL required in production mode — set DEV_MODE=1 for local dev"
  else if cf_BlockchainGatewayURL cfg =s "" then
    Fatal "BLOCKCHAIN_GATEWAY_URL required in production mode — set DEV_MODE=1 for local dev"
  else
    c1 ← wrap_dial "mpc-signing-service" (cf_MPCSigningURL cfg)
      (NewMPCSigningClient (cf_MPCSigningURL cfg) devMode);
    c2 ← wrap_dial "blockchain-gateway" (cf_BlockchainGatewayURL cfg)
      (NewGatewayClient (cf_BlockchainGatewayURL cfg) devMode);
    Started (DialedSigner (cf_MPCSigningURL cfg) c1,
      DialedSigner (cf_BlockchainGatewayURL cfg) c2).

Definition initSolanaBlockhashFetcher : Startup (option string) :=
  let url := Getenv "SOLANA_RPC_URL" in
  if url =s "" then
    if devMode then Started None
    else Fatal "SOLANA_RPC_URL required in production mode — set DEV_MODE=1 for local dev"
  else Started (Some url).

(** The choices of [run], in its order. *)
Definition run_wiring (cfg : Config) : Startup Wiring :=
  let backend := initCacheAndLocker cfg in
  registry ← buildDeriverRegistry;
  sink ← initAuditSink;
  sg ← initSignerAndGateway cfg;
  blockhash ← initSolanaBlockhashFetcher;
  Started (MkWiring backend registry sink sg.1 sg.2 blockhash).

(** ** Readiness probes *)
Definition probe (present : bool) (name : string) : list string :=
  if present then [name] else [].

(** The names [buildReadinessChecks] registers: the store is always there, and the
    clients of the signer and the gateway when they were dialled. *)
Definition dialed (s : SignerChoice) : bool :=
  match s with DialedSigner _ _ => true | MockSigner => false end.

Definition buildReadinessChecks (cfg : Config) (w : Wiring) : list string :=
  probe true "db" ++
  probe (match wi_backend w with OnRedis _ => true | InMemory => false end) "redis" ++
  probe (match wi_sink w with SinkKafka _ => true | SinkDropped => false end) "audit_kafka" ++
  probe (negb (cf_TreasuryOrchestrationURL cfg =s "")) "treasury" ++
  probe (negb (cf_PolicyRiskEngineURL cfg =s "")) "policy_risk_engine" ++
  probe (dialed (wi_signer w)) "mpc_signer" ++
  probe (dialed (wi_gateway w)) "blockchain_gateway".

(** The client certificate is configured and loads. *)
Definition tls_ready : Prop :=
  Getenv "TLS_CA_CERT_FILE" ≠ "" ∧ Getenv "TLS_CLIENT_CERT_FILE" ≠ "" ∧
  Getenv "TLS_CLIENT_KEY_FILE" ≠ "" ∧
  (∃ pem, ReadFile (Getenv "TLS_CA_CERT_FILE") = Ok pem ∧ parses_PEM pem = true) ∧
  LoadX509KeyPair (Getenv "TLS_CLIENT_CERT_FILE") (Getenv "TLS_CLIENT_KEY_FILE") = Ok tt.

(** ** Lemmas *)
Lemma xpub_production name x : devMode = false → xpubEnv name = Started x →
  x = Getenv name ∧ Getenv name ≠ "".
Proof.
  unfold xpubEnv. intros ->. case_bool_decide; [done|]. by intros [= <-].
Qed.

Lemma check_err_inv {A} (r : result A) a : check_err r = Started a → r = Ok a.
Proof. destruct r; [by intros [= <-]|done]. Qed.

Lemma registry_production reg : devMode = false → buildDeriverRegistry = Started reg →
  Getenv "EVM_XPUB" ≠ "" ∧ Getenv "SOL_XPUB" ≠ "" ∧ Getenv "BTC_XPUB" ≠ "" ∧
  NewEVM (Getenv "EVM_XPUB") = Ok (r_evm reg) ∧
  NewSolana (Getenv "SOL_XPUB") = Ok (r_solana reg) ∧
  NewBTC (Getenv "BTC_XPUB") = Ok (r_btc reg).
Proof.
  intros Hdev Hr. unfold buildDeriverRegistry in Hr.
  apply startup_inv in Hr as (x1 & [-> H1]%(xpub_production _ _ Hdev) & Hr).
  apply startup_inv in Hr as (evm & He%check_err_inv & Hr).
  apply startup_inv in Hr as (x2 & [-> H2]%(xpub_production _ _ Hdev) & Hr).
  apply startup_inv in Hr as (sol & Hs%check_err_inv & Hr).
  apply startup_inv in Hr as (x3 & [-> H3]%(xpub_production _ _ Hdev) & Hr).
  apply startup_inv in Hr as (btc & Hb%check_err_inv & Hr).
  by injection Hr as <-.
Qed.

Lemma registry_starts reg :
  Getenv "EVM_XPUB" ≠ "" ∧ NewEVM (Getenv "EVM_XPUB") = Ok (r_evm reg) →
  Getenv "SOL_XPUB" ≠ "" ∧ NewSolana (Getenv "SOL_XPUB") = Ok (r_solana reg) →
  Getenv "BTC_XPUB" ≠ "" ∧ NewBTC (Getenv "BTC_XPUB") = Ok (r_btc reg) →
  buildDeriverRegistry = Started reg.
Proof.
  intros [H1 E1] [H2 E2] [H3 E3]. unfold buildDeriverRegistry, xpubEnv.
  rewrite !bool_decide_false by done. unfold mbind, startup_bind.
  rewrite E1. simpl. rewrite E2. simpl. rewrite E3. by destruct reg.
Qed.

Lemma sink_production s : devMode = false → initAuditSink = Started s →
  s = SinkKafka (splitCSV (Getenv "KAFKA_BROKERS")) ∧ Getenv "KAFKA_BROKERS" ≠ "".
Proof.
  unfold initAuditSink. intros ->. case_bool_decide; [done|]. by intros [= <-].
Qed.

Lemma dial_production service target c : dial service target false = Started c → c = MutualTLS.
Proof.
  unfold dial. destruct (target =s ""); [done|].
  intros (c' & Hc & Hn)%startup_inv. destruct (NewClient target c'); [|done].
  injection Hn as <-. unfold defaultDialConfig in Hc.
  destruct (_ || _); [done|]. destruct (ReadFile _); [|done].
  destruct (negb _); [done|]. destruct (LoadX509KeyPair _ _); [|done]. by injection Hc.
Qed.

Lemma wrap_dial_inv {A} service target (m : Startup A) a :
  wrap_dial service target m = Started a → m = Started a.
Proof. by destruct m. Qed.

Lemma blockhash_production b : devMode = false → initSolanaBlockhashFetcher = Started b →
  b = Some (Getenv "SOLANA_RPC_URL") ∧ Getenv "SOLANA_RPC_URL" ≠ "".
Proof.
  unfold initSolanaBlockhashFetcher. intros ->. case_bool_decide; [done|]. by intros [= <-].
Qed.

(** The checks for a missing URL of the signer or the gateway do not fire: an unset
    variable has been replaced by a local default before. *)
Lemma signer_url_never_missing ParseFloat ParseDuration :
  let cfg := FromEnv Getenv ParseFloat ParseDuration in
  cf_MPCSigningURL cfg ≠ "" ∧ cf_BlockchainGatewayURL cfg ≠ "" ∧
  (Getenv "MPC_SIGNING_URL" = "" → cf_MPCSigningURL cfg = "dns:///localhost:9091").
Proof.
  simpl. unfold envOr.
  split_and!; [case_bool_decide; [done|done]..|]. intros ->. done.
Qed.
Lemma dial_ready service target :
  target ≠ "" → tls_ready → dial service target false =
    match NewClient target MutualTLS with
    | Ok _ => Started MutualTLS
    | Err e => Failed (ErrWrap ("dial " +:+ service +:+ " " +:+ quote target) e)
    end.
Proof.
  intros Ht (Hca & Hcert & Hkey & (pem & Hpem & Hparse) & Hload).
  unfold dial. rewrite (bool_decide_false (target = "")) by done. unfold defaultDialConfig.
  rewrite !bool_decide_false by done. simpl. rewrite Hpem, Hparse. simpl. by rewrite Hload.
Qed.

Lemma dial_needs service target c :
  dial service target false = Started c → tls_ready ∧ NewClient target MutualTLS = Ok tt.
Proof.
  intros Hd. pose proof (dial_production _ _ _ Hd) as ->. revert Hd. unfold dial.
  destruct (target =s ""); [done|].
  intros (c' & Hc & Hn)%startup_inv. destruct (NewClient target c') as [[]|] eqn:Hcl; [|done].
  injection Hn as ->. split; [|done]. revert Hc. unfold defaultDialConfig, tls_ready.
  repeat case_bool_decide; try done. simpl.
  destruct (ReadFile _) as [pem|] eqn:Hpem; [|done].
  destruct (parses_PEM pem) eqn:Hp; [|done]. simpl.
  destruct (LoadX509KeyPair _ _) as [[]|] eqn:Hl; [|done]. intros _.
  split_and!; try done. by exists pem.
Qed.

Lemma signers_production cfg p : devMode = false → initSignerAndGateway cfg = Started p →
  p = (DialedSigner (cf_MPCSigningURL cfg) MutualTLS,
       DialedSigner (cf_BlockchainGatewayURL cfg) MutualTLS) ∧ tls_ready ∧
  NewClient (cf_MPCSigningURL cfg) MutualTLS = Ok tt ∧
  NewClient (cf_BlockchainGatewayURL cfg) MutualTLS = Ok tt.
Proof.
  unfold initSignerAndGateway. intros Hdev. rewrite Hdev.
  destruct (cf_MPCSigningURL cfg =s ""); [done|].
  destruct (cf_BlockchainGatewayURL cfg =s ""); [done|].
  intros (c1 & H1%wrap_dial_inv & Hr)%startup_inv.
  apply startup_inv in Hr as (c2 & H2%wrap_dial_inv & Hr). injection Hr as <-.
  destruct (dial_needs _ _ _ H1) as [Htls Hn1]. destruct (dial_needs _ _ _ H2) as [_ Hn2].
  apply dial_production in H1 as ->. apply dial_production in H2 as ->. done.
Qed.

Lemma signers_start cfg : devMode = false →
  cf_MPCSigningURL cfg ≠ "" → cf_BlockchainGatewayURL cfg ≠ "" → tls_ready →
  NewClient (cf_MPCSigningURL cfg) MutualTLS = Ok tt →
  NewClient (cf_BlockchainGatewayURL cfg) MutualTLS = Ok tt →
  initSignerAndGateway cfg = Started (DialedSigner (cf_MPCSigningURL cfg) MutualTLS,
    DialedSigner (cf_BlockchainGatewayURL cfg) MutualTLS).
Proof.
  intros Hdev Hm Hg Htls Hn1 Hn2.
  unfold initSignerAndGateway, NewMPCSigningClient, NewGatewayClient.
  rewrite Hdev, !bool_decide_false, !dial_ready by done. by rewrite Hn1, Hn2.
Qed.

(** ** Theorems *)

(** What a production process needs to start. *)
Definition production_ready (cfg : Config) (reg : Registry) : Prop :=
  (Getenv "EVM_XPUB" ≠ "" ∧ NewEVM (Getenv "EVM_XPUB") = Ok (r_evm reg)) ∧
  (Getenv "SOL_XPUB" ≠ "" ∧ NewSolana (Getenv "SOL_XPUB") = Ok (r_solana reg)) ∧
  (Getenv "BTC_XPUB" ≠ "" ∧ NewBTC (Getenv "BTC_XPUB") = Ok (r_btc reg)) ∧
  Getenv "KAFKA_BROKERS" ≠ "" ∧ tls_ready ∧
  NewClient (cf_MPCSigningURL cfg) MutualTLS = Ok tt ∧
  NewClient (cf_BlockchainGatewayURL cfg) MutualTLS = Ok tt ∧
  Getenv "SOLANA_RPC_URL" ≠ "".

(** C13. What starts without [DEV_MODE=1], and with what.  The components are chosen
    exactly when the three extended keys are set and accepted, the Kafka brokers and
    the Solana URL are set, the TLS material is set, readable and well-formed, and the
    signer and the gateway can be dialled with mutual TLS; and the choice is then the
    operator's keys, the Kafka sink, the two dialled clients and the fetcher of that
    URL, none of the development stand-ins.  Two things have a fallback even so: the
    cache and the locker are in memory when Redis does not answer, and the address of
    the signer or the gateway is a local one when its variable is unset. *)
Theorem production_start ParseFloat ParseDuration w :
  devMode = false →
  let cfg := FromEnv Getenv ParseFloat ParseDuration in
  let local k d := if Getenv k =s "" then d else Getenv k in
  let redis := local "REDIS_URL" "redis://localhost:6379/0" in
  run_wiring cfg = Started w ↔
  ∃ reg, production_ready cfg reg ∧
    w = MkWiring (if redis_up redis then OnRedis redis else InMemory) reg
      (SinkKafka (splitCSV (Getenv "KAFKA_BROKERS")))
      (DialedSigner (local "MPC_SIGNING_URL" "dns:///localhost:9091") MutualTLS)
      (DialedSigner (local "BLOCKCHAIN_GATEWAY_URL" "dns:///localhost:9092") MutualTLS)
      (Some (Getenv "SOLANA_RPC_URL")).
Proof.
  intros Hdev cfg local redis. pose proof (signer_url_never_missing ParseFloat ParseDuration)
    as (Hm & Hg & _). fold cfg in Hm, Hg. unfold run_wiring. split.
  - intros (reg & Hreg & Hrun)%startup_inv.
    apply startup_inv in Hrun as (sink & Hsink & Hrun).
    apply startup_inv in Hrun as (sg & Hsg & Hrun).
    apply startup_inv in Hrun as (bh & Hbh & Hrun). injection Hrun as <-. exists reg.
    destruct (registry_production reg Hdev Hreg) as (? & ? & ? & ? & ? & ?).
    pose proof (sink_production _ Hdev Hsink) as [-> Hk].
    pose proof (signers_production cfg _ Hdev Hsg) as (-> & Htls & Hn1 & Hn2).
    apply (blockhash_production _ Hdev) in Hbh as [-> Hurl]. by split.
  - intros (reg & (Hevm & Hsol & Hbtc & Hk & Htls & Hn1 & Hn2 & Hurl) & ->).
    rewrite (registry_starts reg) by (done || apply Hevm || apply Hsol || apply Hbtc).
    rewrite (signers_start cfg) by done. unfold initAuditSink, initSolanaBlockhashFetcher.
    by rewrite !bool_decide_false by done.
Qed.
End startup.

(** ** Witness *)
Definition production_env (k : string) : string :=
  if one_of ["EVM_XPUB"; "BTC_XPUB"; "SOL_XPUB"] k then "xpub6Example"
  else if k =s "KAFKA_BROKERS" then "k1:9092, k2:9092"
  else if k =s "SOLANA_RPC_URL" then "https://solana.example"
  else if one_of ["TLS_CA_CERT_FILE"; "TLS_CLIENT_CERT_FILE"; "TLS_CLIENT_KEY_FILE"] k
  then "/etc/tls"
  else "".

Definition production_wiring : Wiring :=
  MkWiring InMemory (MkRegistry "xpub6Example" "xpub6Example" "xpub6Example")
    (SinkKafka ["k1:9092"; "k2:9092"])
    (DialedSigner "dns:///localhost:9091" MutualTLS)
    (DialedSigner "dns:///localhost:9092" MutualTLS) (Some "https://solana.example").

(** A process with keys, brokers, certificates and a Solana URL starts; without Redis it
    locks in memory, and it dials the local defaults. *)
Lemma production_start_witness :
  @run_wiring ref_crypto production_env (λ _, false) (λ _, Ok "pem") (λ _, true)
    (λ _ _, Ok tt) (λ _ _, Ok tt)
    (FromEnv production_env (λ _, Err ErrNoRows) (λ _, Err ErrNoRows)) =
  Started production_wiring.
Proof.
  apply (@production_start ref_crypto production_env (λ _, false) (λ _, Ok "pem") (λ _, true)
    (λ _ _, Ok tt) (λ _ _, Ok tt) (λ _, Err ErrNoRows) (λ _, Err ErrNoRows)).
  - reflexivity.
  - exists (MkRegistry "xpub6Example" "xpub6Example" "xpub6Example").
    split; [|vm_compute; reflexivity].
    repeat split; try (vm_compute; discriminate); try (vm_compute; reflexivity).
    exists "pem". split; reflexivity.
Defined.
