(* ===== verification/Lifecycle.v ===== *)
(** * Lifecycle: [run] of [cmd/wallet-manager/main.go] from start to exit

    The resources [run] acquires, the functions it defers, the two servers, and the end:
    a signal, or a server that returned.  Deferred functions run in reverse order when
    [run] returns, and do not run when [log.Fatalf] ends the process.  The choices are
    those of [Process].  The account includes what nothing closes: the Redis client, and
    the listener of one server when [run] ends because the other one returned. *)
From stdpp Require Import base tactics numbers gmap strings pretty list.
From Stdlib Require Import ZArith Lia Ascii.
From S2P Require Import Prelude.
From S2P Require Import GoLang.
From S2P Require Import GoText.
From S2P Require Import Crypto.
From S2P Require Import Domain.
From S2P Require Import Config.
From S2P Require Import Reference.
From S2P Require Import Deriver.
From S2P Require Import AuthToken.
From S2P Require Import Telemetry.
From S2P Require Import Process.

#[local] Open Scope string_scope.
#[local] Open Scope list_scope.
#[local] Open Scope Z_scope.

(** ** What the process does *)
Inductive Server : Type := REST | GRPC.

#[export] Instance Server_eq_dec : EqDecision Server.
Proof. solve_decision. Defined.

Inductive Resource : Type :=
  | TelemetryProviders
  | Database
  | RootContext
  | RedisClient
  | KafkaWriter
  | AuditLoop          (** [emitter.Start] to [emitter.Stop] *)
  | SignerConn
  | GatewayConn
  | Listener (s : Server)
  | ShutdownTimer.     (** the context of the shutdown *)

#[export] Instance Resource_eq_dec : EqDecision Resource.
Proof. solve_decision. Defined.

Inductive Effect : Type :=
  | Acquire (r : Resource)
  | Release (r : Resource)
  | Serve (w : Wiring)     (** both servers are started *)
  | ShutdownREST
  | StopGRPC.

(** The effects so far, and the deferred releases, newest first. *)
Record Proc : Type := MkProc {
  p_log : list Effect;
  p_defers : list Resource
}.

Definition RunM (A : Type) : Type := Proc → Startup A * Proc.

#[export] Instance RunM_ret : MRet RunM := λ A a p, (Started a, p).
#[export] Instance RunM_bind : MBind RunM := λ A B f m p,
  match m p with
  | (Started a, p') => f a p'
  | (Failed e, p') => (Failed e, p')
  | (Fatal msg, p') => (Fatal msg, p')
  end.

Definition lift {A} (s : Startup A) : RunM A := λ p, (s, p).
Definition note (e : Effect) : RunM unit := λ p,
  (Started tt, MkProc (p_log p ++ [e]) (p_defers p)).
Definition defer (r : Resource) : RunM unit := λ p,
  (Started tt, MkProc (p_log p) (r :: p_defers p)).
(** [x := ...; defer x.Close()]. *)
Definition acquire (r : Resource) : RunM unit := note (Acquire r);; defer r.
Definition when_run (b : bool) (m : RunM unit) : RunM unit := if b then m else mret tt.

(** What ends the [select] of [run]. *)
Inductive StopEvent : Type :=
  | Signalled
  | ServerReturned (s : Server) (e : option error).

Definition ErrServerClosed : error := ErrNew "http: Server closed".

Section run.
Context `{CryptoLib}.
Context (Getenv : string → string).
(** [redis.ParseURL] succeeds, and the server answers the [Ping]. *)
Context (redis_ParseURL redis_Ping : string → bool).
Context (ReadFile : string → result string) (parses_PEM : string → bool).
Context (LoadX509KeyPair : string → string → result unit).
Context (NewClient : string → Credentials → result unit).
Context (ParseFloat : string → result float64) (ParseDuration : string → result duration).
Context (Merge otlptracegrpc_New otlpmetricgrpc_New : string → result unit).
(** [sql.Open] and [migrations.Up]. *)
Context (sql_Open : string → result unit) (migrations_Up : result unit).
(** Which of the two goroutines had opened its listener when the [select] ended. *)
Context (listening : Server → bool).

Definition redis_up (url : string) : bool := redis_ParseURL url && redis_Ping url.

Definition cfg : Config := FromEnv Getenv ParseFloat ParseDuration.

(** [postgres.New]: the pool is sized, nothing is dialled. *)
Definition postgres_New (dbURL : string) : result unit :=
  match sql_Open dbURL with
  | Err e => Err (ErrWrap "open postgres" e)
  | Ok _ => Ok tt
  end.

(** [initSignerAndGateway], with the connection that is closed again when the second
    cannot be dialled. *)
Definition dial_both (c : Config) : RunM (SignerChoice * SignerChoice) :=
  let dev := devMode Getenv in
  let NewMPC := NewMPCSigningClient Getenv ReadFile parses_PEM LoadX509KeyPair NewClient in
  let NewGateway := NewGatewayClient Getenv ReadFile parses_PEM LoadX509KeyPair NewClient in
  if dev then mret (MockSigner, MockSigner)
  else if cf_MPCSigningURL c =s "" then
    lift (Fatal "MPC_SIGNING_URL required in production mode — set DEV_MODE=1 for local dev")
  else if cf_BlockchainGatewayURL c =s "" then
    lift (Fatal
      "BLOCKCHAIN_GATEWAY_URL required in production mode — set DEV_MODE=1 for local dev")
  else
    c1 ← lift (wrap_dial "mpc-signing-service" (cf_MPCSigningURL c)
      (NewMPC (cf_MPCSigningURL c) dev));
    note (Acquire SignerConn);;
    match wrap_dial "blockchain-gateway" (cf_BlockchainGatewayURL c)
      (NewGateway (cf_BlockchainGatewayURL c) dev) with
    | Failed e => note (Release SignerConn);; lift (Failed e)
    | Fatal msg => lift (Fatal msg)
    | Started c2 =>
        note (Acquire GatewayConn);;
        mret (DialedSigner (cf_MPCSigningURL c) c1,
          DialedSigner (cf_BlockchainGatewayURL c) c2)
    end.

Definition is_kafka (s : AuditSinkChoice) : bool :=
  match s with SinkKafka _ => true | SinkDropped => false end.

(** The router and the gRPC server read the token secret. *)
Definition service_secret : Startup (string * bool) :=
  match SecretFromEnv Getenv false with
  | Some s => Started s
  | None => Fatal ("SERVICE_TOKEN_SECRET not set and DEV_MODE!=1; refusing to start " +:+
      "in production mode")
  end.

(** A server closes its listener when it is shut down or returns by itself. *)
Definition close_listener (s : Server) : RunM unit :=
  when_run (listening s) (note (Release (Listener s))).

(** The [select] at the end. *)
Definition await (stop : StopEvent) : RunM unit :=
  match stop with
  | Signalled =>
      acquire ShutdownTimer;;
      (note ShutdownREST;; close_listener REST);;
      (note StopGRPC;; close_listener GRPC)
  | ServerReturned s e =>
      close_listener s;;
      match e with
      | Some e => if negb (errors_Is e ErrServerClosed) then lift (Failed e) else mret tt
      | None => mret tt
      end
  end.

Definition run_body (stop : StopEvent) : RunM unit :=
  lift (check_err (Init Getenv Merge otlptracegrpc_New otlpmetricgrpc_New "wallet-management"
    (MkGlobals Unset Unset [])).1);;
  acquire TelemetryProviders;;
  lift (check_err (postgres_New (cf_DBURL cfg)));;
  acquire Database;;
  acquire RootContext;;
  (** a failure of the migrations is logged only *)
  let _ := migrations_Up in
  (** [redis.NewClient]; nothing closes the client, connected or not *)
  when_run (redis_ParseURL (cf_RedisURL cfg)) (note (Acquire RedisClient));;
  let backend := initCacheAndLocker redis_up cfg in
  registry ← lift (buildDeriverRegistry Getenv);
  sink ← lift (initAuditSink Getenv);
  when_run (is_kafka sink) (note (Acquire KafkaWriter));;
  acquire AuditLoop;;
  when_run (is_kafka sink) (defer KafkaWriter);;
  sg ← dial_both cfg;
  when_run (dialed sg.1) (defer SignerConn);;
  when_run (dialed sg.2) (defer GatewayConn);;
  blockhash ← lift (initSolanaBlockhashFetcher Getenv);
  lift service_secret;;
  note (Serve (MkWiring backend registry sink sg.1 sg.2 blockhash));;
  when_run (listening REST) (note (Acquire (Listener REST)));;
  when_run (listening GRPC) (note (Acquire (Listener GRPC)));;
  await stop.

(** [run]: what it returns and the effects in their order. *)
Definition run (stop : StopEvent) : Startup unit * list Effect :=
  let '(r, p) := run_body stop (MkProc [] []) in
  match r with
  | Fatal _ => (r, p_log p)
  | _ => (r, p_log p ++ (Release <$> p_defers p))
  end.

(** [main]: the exit status. *)
Definition main (stop : StopEvent) : Z :=
  match (run stop).1 with Started _ => 0 | Failed _ | Fatal _ => 1 end.

(** ** Accounts of resources *)

(** What is held after the effects; [None] when something held was acquired again, or
    something was released that was not held. *)
Fixpoint replay (held : list Resource) (l : list Effect) : option (list Resource) :=
  match l with
  | [] => Some held
  | Acquire r :: l => if bool_decide (r ∈ held) then None else replay (r :: held) l
  | Release r :: l =>
      if bool_decide (r ∈ held) then replay (filter (λ x, x ≠ r) held) l else None
  | _ :: l => replay held l
  end.

Definition acquired (l : list Effect) : list Resource :=
  omap (λ e, match e with Acquire r => Some r | _ => None end) l.

Definition releases (l : list Effect) : list Resource :=
  omap (λ e, match e with Release r => Some r | _ => None end) l.

Definition served (l : list Effect) : option Wiring :=
  head (omap (λ e, match e with Serve w => Some w | _ => None end) l).

(** What [run] returns once the servers are started. *)
Definition stop_result (stop : StopEvent) : Startup unit :=
  match stop with
  | ServerReturned _ (Some e) => if errors_Is e ErrServerClosed then Started tt else Failed e
  | _ => Started tt
  end.

(** What is never closed: the Redis client, and the listener of a server when the other
    one returned. *)
Definition leaks (stop : StopEvent) (r : Resource) : bool :=
  match r, stop with
  | RedisClient, _ => true
  | Listener s, ServerReturned s' _ => negb (bool_decide (s = s'))
  | _, _ => false
  end.

(** ** Lemmas *)
#[local] Abbreviation wiring :=
  (run_wiring Getenv redis_up ReadFile parses_PEM LoadX509KeyPair NewClient cfg).

(** The choice of the signer and the gateway is that of [Process]. *)
Lemma dial_both_choice c p :
  (dial_both c p).1 =
    initSignerAndGateway Getenv ReadFile parses_PEM LoadX509KeyPair NewClient c.
Proof.
  unfold dial_both, initSignerAndGateway. destruct (devMode Getenv); [done|].
  destruct (_ =s ""); [done|]. destruct (_ =s ""); [done|].
  unfold mbind, RunM_bind, startup_bind, lift, note, mret, RunM_ret.
  destruct (wrap_dial "mpc-signing-service" _ _); [|done|done].
  by destruct (wrap_dial "blockchain-gateway" _ _).
Qed.

(** Its effects: the connections of what was chosen, or a connection opened and closed
    again, or, when the process ends at once, whatever was open. *)
Lemma dial_both_effects c p :
  let '(r, p') := dial_both c p in
  p_defers p' = p_defers p ∧
  match r with
  | Started sg => p_log p' = p_log p ++
      (if dialed sg.1 then [Acquire SignerConn] else []) ++
      (if dialed sg.2 then [Acquire GatewayConn] else [])
  | Failed _ => p_log p' = p_log p ∨ p_log p' = p_log p ++ [Acquire SignerConn; Release SignerConn]
  | Fatal _ => p_log p' = p_log p ∨ p_log p' = p_log p ++ [Acquire SignerConn]
  end.
Proof.
  unfold dial_both. destruct (devMode Getenv);
    [split; [done|]; simpl; by rewrite app_nil_r|].
  destruct (_ =s ""); [by split; [|left]|]. destruct (_ =s ""); [by split; [|left]|].
  unfold mbind, RunM_bind, lift, note, mret, RunM_ret.
  destruct (wrap_dial "mpc-signing-service" _ _); [|by split; [|left]..].
  destruct (wrap_dial "blockchain-gateway" _ _); simpl; rewrite <-?app_assoc; auto.
Qed.

End run.

(** ** A run in production, ended by a signal: the deferred releases run in reverse order,
    the Kafka writer is closed before the loop that uses it, and the Redis client, which
    was made although the server did not answer, stays open. *)
Lemma production_shutdown :
  (@run ref_crypto (λ k, if k =s "SERVICE_TOKEN_SECRET" then "s" else production_env k)
    (λ _, true) (λ _, false) (λ _, Ok "pem") (λ _, true) (λ _ _, Ok tt) (λ _ _, Ok tt)
    (λ _, Err ErrNoRows) (λ _, Err ErrNoRows) (λ _, Ok tt) (λ _, Ok tt) (λ _, Ok tt)
    (λ _, Ok tt) (Ok tt) (λ _, true) Signalled) =
  (Started tt,
   [Acquire TelemetryProviders; Acquire Database; Acquire RootContext; Acquire RedisClient;
    Acquire KafkaWriter; Acquire AuditLoop; Acquire SignerConn; Acquire GatewayConn;
    Serve production_wiring; Acquire (Listener REST); Acquire (Listener GRPC);
    Acquire ShutdownTimer; ShutdownREST; Release (Listener REST);
    StopGRPC; Release (Listener GRPC); Release ShutdownTimer;
    Release GatewayConn; Release SignerConn; Release KafkaWriter; Release AuditLoop;
    Release RootContext; Release Database; Release TelemetryProviders]).
Proof. vm_compute. reflexivity. Qed.
