(* ===== verification/Migrations.v ===== *)
(** * Migrations: [internal/migrations] and [cmd/migrate/main.go]

    The runner that applies the embedded SQL files in the order of their names, the
    check for missing tables, and the command line tool.  Executing a statement and
    listing the tables are parameters of the runner: the texts are SQL. *)
From stdpp Require Import base tactics numbers gmap strings list sorting.
From Stdlib Require Import ZArith Lia Ascii.
From S2P Require Import Prelude.
From S2P Require Import GoLang.
From S2P Require Import GoText.
From S2P Require Import Domain.
From S2P Require Import Reference.

#[local] Open Scope string_scope.
#[local] Open Scope list_scope.
#[local] Open Scope Z_scope.

(** ** The registered files: name to SQL text *)
Record Migrations : Type := MkMigrations {
  upMigrations : gmap string string;
  downMigrations : gmap string string
}.

(** [init] of [embed.go], with the texts of the four files. *)
Definition init (initUp initDown withdrawalTxUp withdrawalTxDown : string) : Migrations :=
  MkMigrations
    (<["0002_withdrawal_tx_columns.up.sql" := withdrawalTxUp]>
      (<["0001_init_schema.up.sql" := initUp]> ∅))
    (<["0002_withdrawal_tx_columns.down.sql" := withdrawalTxDown]>
      (<["0001_init_schema.down.sql" := initDown]> ∅)).

Definition EnsureFilePresent (name ddl : string) (isDown : bool) (m : Migrations) : Migrations :=
  if isDown then MkMigrations (upMigrations m) (<[name := ddl]> (downMigrations m))
  else MkMigrations (<[name := ddl]> (upMigrations m)) (downMigrations m).

(** [StripComments]: the lines that are not comments. *)
Definition StripComments (ddl : string) : string :=
  foldr (λ line rest, line +:+ String "010" rest) ""
    (List.filter (λ line, negb (strings_HasPrefix (strings_TrimSpace line) "--"))
      (strings_Split "010" ddl)).

(** [TablesExist], given the names the server lists. *)
Definition expected_tables : list string :=
  ["wallets"; "addresses"; "balances"; "utxos"; "nonces"; "withdrawal_requests";
   "key_mappings"; "funding_requests"; "audit_outbox"; "audit_seq"; "balance_events"].

Definition missing_tables (present : list string) : list string :=
  List.filter (λ t, negb (bool_decide (t ∈ present))) expected_tables.

Section runner.
Context `{GoRuntime} {Db : Type}.
(** [db.ExecContext] of a text, and the query of [information_schema.tables]. *)
Context (ExecContext : string → GoM Db unit) (table_names : GoM Db (list string)).
Context (m : Migrations).

Definition upFiles : list string := sort_Slice string_lt (range_map (upMigrations m)).*1.

Definition downFiles : list string :=
  sort_Slice (λ a b, string_lt b a) (range_map (downMigrations m)).*1.

(** The body of the loops of [Up] and [Down]. *)
Definition apply_file (files : gmap string string) (f : string) : GoM Db unit :=
  match files !! f with
  | None => mret tt
  | Some ddl => wrap_err ("apply " +:+ f) (ExecContext ddl)
  end.

Definition Up : GoM Db unit := for_each upFiles (apply_file (upMigrations m)).
Definition Down : GoM Db unit := for_each downFiles (apply_file (downMigrations m)).

Definition RoundTrip : GoM Db unit := Up;; Down;; Up.

Definition TablesExist : GoM Db (list string) :=
  present ← table_names; mret (missing_tables present).

(** [EnsureSchema] and [ApplySchema]. *)
Definition EnsureSchema : GoM Db unit := Up.
Definition ApplySchema (ddl : string) : GoM Db unit := ExecContext ddl.

(** [run] of [cmd/migrate]: the text printed, and whether the exit status is 0. *)
Definition migrate_run (direction : string) : GoM Db (string * bool) :=
  if direction =s "up" then Up;; mret ("migrations applied", true)
  else if direction =s "down" then Down;; mret ("migrations rolled back", true)
  else if direction =s "status" then
    missing ← TablesExist;
    if bool_decide (length missing = 0%nat) then mret ("schema complete", true)
    else mret ("missing tables: [" +:+ String.concat " " missing +:+ "]", false)
  else throw (ErrNew ("unknown direction " +:+ quote direction +:+
    " (want up, down, or status)")).

(** ** Theorems *)

(** What a pass over the files sends, in order: name and text. *)
Definition sends (l : list (string * string)) : GoM Db unit :=
  for_each l (λ e, wrap_err ("apply " +:+ e.1) (ExecContext e.2)).

Lemma apply_all files names w :
  (∀ f, f ∈ names → is_Some (files !! f)) →
  for_each names (apply_file files) w =
    sends ((λ f, (f, default "" (files !! f))) <$> names) w.
Proof.
  unfold sends. revert w. induction names as [|f names IH]; intros w Hn; [done|].
  cbn [for_each fmap list_fmap]. unfold mbind, GoM_bind.
  destruct (Hn f ltac:(set_solver)) as [ddl Hddl]. unfold apply_file at 1. rewrite Hddl.
  simpl. destruct (wrap_err _ _ w) as [[[]|e] w1]; [|done]. apply IH.
  intros g Hg. apply Hn. set_solver.
Qed.

Lemma entries_perm (files : gmap string string) names :
  names ≡ₚ (map_to_list files).*1 →
  (λ f, (f, default "" (files !! f))) <$> names ≡ₚ map_to_list files.
Proof.
  intros ->. rewrite <- list_fmap_compose.
  assert (∀ l : list (string * string), (∀ kv, kv ∈ l → files !! kv.1 = Some kv.2) →
    ((λ f, (f, default "" (files !! f))) ∘ fst) <$> l = l) as Hid.
  { induction l as [|[k v] l IH]; intros Hl; [done|]. csimpl.
    assert (files !! k = Some v) as -> by (apply (Hl (k, v)); set_solver).
    simpl. f_equal. apply IH. set_solver. }
  rewrite Hid; [done|]. intros [k v]. apply elem_of_map_to_list.
Qed.

Lemma pass_in_order lt (files : gmap string string) :
  strict_weak lt →
  let names := sort_Slice lt (range_map files).*1 in
  ∃ l, l ≡ₚ map_to_list files ∧ NoDup l.*1 ∧
    StronglySorted (λ a b, lt b a = false) l.*1 ∧
    ∀ w, for_each names (apply_file files) w = sends l w.
Proof.
  intros Hlt names. assert (names ≡ₚ (map_to_list files).*1) as Hp.
  { unfold names. by rewrite sort_Slice_perm, range_map_perm. }
  exists ((λ f, (f, default "" (files !! f))) <$> names).
  assert (((λ f, (f, default "" (files !! f))) <$> names).*1 = names) as Hfst.
  { rewrite <- list_fmap_compose. apply list_fmap_id. }
  split_and!.
  - by apply entries_perm.
  - rewrite Hfst, Hp. apply NoDup_fst_map_to_list.
  - rewrite Hfst. by apply sort_Slice_sorted.
  - intros w. apply apply_all. intros f. rewrite Hp.
    intros ([k v] & -> & Hk)%list_elem_of_fmap. apply elem_of_map_to_list in Hk. by exists v.
Qed.

Lemma strict_weak_flip (lt : string → string → bool) :
  strict_weak lt → strict_weak (λ a b, lt b a).
Proof.
  intros [Hi Ht Hn]. split; [done|eauto|]. intros x y z Hz. destruct (Hn z y x Hz); auto.
Qed.

(** The migrations run in order, each once, up to the first that fails: [Up] sends
    exactly the registered texts by ascending file name, [Down] by descending name,
    whatever order the language ranges over the map in. *)
Lemma migrations_in_order :
  (∃ l, l ≡ₚ map_to_list (upMigrations m) ∧ NoDup l.*1 ∧
    StronglySorted (λ a b, string_lt b a = false) l.*1 ∧ ∀ w, Up w = sends l w) ∧
  ∃ l, l ≡ₚ map_to_list (downMigrations m) ∧ NoDup l.*1 ∧
    StronglySorted (λ a b, string_lt a b = false) l.*1 ∧ ∀ w, Down w = sends l w.
Proof.
  split.
  - apply pass_in_order, string_lt_strict_weak.
  - apply (pass_in_order (λ a b, string_lt b a)), strict_weak_flip, string_lt_strict_weak.
Qed.

(** The names reported missing are the expected ones the server does not list. *)
Lemma missing_tables_exact present t :
  t ∈ missing_tables present ↔ t ∈ expected_tables ∧ t ∉ present.
Proof.
  unfold missing_tables. rewrite list_elem_of_In, filter_In, negb_true_iff.
  by rewrite bool_decide_eq_false, <- list_elem_of_In.
Qed.
End runner.
