(* ===== verification/Redis.v ===== *)
(** * Redis: [RedisLocker] of [internal/lock/lock.go] and [RedisCache] of
    [internal/cache/cache.go]

    A method is a program of Redis commands ([Prog]): the server executes each command
    atomically, and between two commands of one program those of other processes may
    run.  [System] interleaves any number of clients of the locker with the passing of
    time and with lost replies. *)
From stdpp Require Import base tactics numbers gmap strings list relations.
From Stdlib Require Import ZArith Lia.
From S2P Require Import Prelude.
From S2P Require Import GoLang.
From S2P Require Import Domain.

#[local] Open Scope string_scope.
#[local] Open Scope list_scope.
#[local] Open Scope Z_scope.

(** ** The server *)

(** The value and, unless it is kept for ever, the time it expires at. *)
Record Redis : Type := MkRedis {
  rd_now : time;
  rd_keys : gmap string (string * option time)
}.

Definition alive (now : time) (e : string * option time) : bool :=
  match e.2 with Some exp => now <? exp | None => true end.

Definition redis_lookup (key : string) (s : Redis) : option (string * option time) :=
  e ← rd_keys s !! key; if alive (rd_now s) e then Some e else None.

Definition with_keys (m : gmap string (string * option time)) (s : Redis) : Redis :=
  MkRedis (rd_now s) m.

Inductive Command : Type :=
  | SetNX (key value : string) (ttl : duration)
  | GetKey (key : string)
  | SetKey (key value : string) (ttl : duration)
  | DelKeys (keys : list string).

(** What [go-redis] hands back: an error, a flag, a value or [redis.Nil], or nothing. *)
Inductive Reply : Type :=
  | RErr (e : error)
  | RBool (b : bool)
  | RValue (v : option string)
  | RDone.

Definition KeepTTL : duration := -1.

Definition invalid_expire : error := ErrNew "ERR invalid expire time".

(** The expiry [SET] records: none for zero, the old one for [KeepTTL]. *)
Definition new_expiry (old : option time) (ttl : duration) (s : Redis) :
    result (option time) :=
  if ttl =? 0 then Ok None
  else if ttl =? KeepTTL then Ok old
  else if ttl <? 0 then Err invalid_expire
  else Ok (Some (rd_now s + ttl)).

Definition redis_set (key value : string) (ttl : duration) (s : Redis) : result Redis :=
  exp ← new_expiry (redis_lookup key s ≫= snd) ttl s;
  Ok (with_keys (<[key := (value, exp)]> (rd_keys s)) s).

Definition exec (c : Command) (s : Redis) : Reply * Redis :=
  match c with
  | SetNX key value ttl =>
      match redis_set key value ttl s with
      | Err e => (RErr e, s)
      | Ok s' => if bool_decide (is_Some (redis_lookup key s)) then (RBool false, s)
                 else (RBool true, s')
      end
  | GetKey key => (RValue (fst <$> redis_lookup key s), s)
  | SetKey key value ttl =>
      match redis_set key value ttl s with
      | Err e => (RErr e, s)
      | Ok s' => (RDone, s')
      end
  | DelKeys keys => (RDone, with_keys (foldr delete (rd_keys s) keys) s)
  end.

(** ** Programs of commands *)
Inductive Prog (A : Type) : Type :=
  | Ret (a : A)
  | Cmd (c : Command) (k : Reply → Prog A).
Arguments Ret {A} a.
Arguments Cmd {A} c k.

(** A program with the server to itself. *)
Fixpoint run_prog {A} (p : Prog A) (s : Redis) : A * Redis :=
  match p with
  | Ret a => (a, s)
  | Cmd c k => let '(r, s') := exec c s in run_prog (k r) s'
  end.

(** A reply of another type than the command's, which the client library does not
    return. *)
Definition bad_reply : error := ErrNew "redis: unexpected reply".

(** ** [RedisLocker] *)
Definition lock_key (name : string) : string := "lock:" +:+ name.

(** The token is the UUID drawn for this call. *)
Definition Redis_Acquire (name token : string) (ttl : duration) :
    Prog (result (string * bool)) :=
  Cmd (SetNX (lock_key name) token ttl) (λ r,
    Ret match r with
        | RErr e => Err e
        | RBool ok => Ok (token, ok)
        | _ => Err bad_reply
        end).

Definition Redis_Release (name token : string) : Prog (result unit) :=
  Cmd (GetKey (lock_key name)) (λ r,
    match r with
    | RValue None => Ret (Ok tt)
    | RErr e => Ret (Err e)
    | RValue (Some cur) =>
        if negb (cur =s token) then Ret (Err (ErrNew "lock token mismatch"))
        else Cmd (DelKeys [lock_key name]) (λ r,
          Ret match r with RErr e => Err e | _ => Ok tt end)
    | _ => Ret (Err bad_reply)
    end).

(** ** [RedisCache] *)
Definition RedisCache_Get (key : string) : Prog (result (string * bool)) :=
  Cmd (GetKey key) (λ r,
    Ret match r with
        | RValue None => Ok ("", false)
        | RErr e => Err e
        | RValue (Some v) => Ok (v, true)
        | _ => Err bad_reply
        end).

(** [default_ttl] is the field [ttl] of the cache. *)
Definition RedisCache_Set (default_ttl : duration) (key value : string) (ttl : duration) :
    Prog (result unit) :=
  let ttl := if ttl <=? 0 then default_ttl else ttl in
  Cmd (SetKey key value ttl) (λ r, Ret match r with RErr e => Err e | _ => Ok tt end).

Definition RedisCache_Del (keys : list string) : Prog (result unit) :=
  match keys with
  | [] => Ret (Ok tt)
  | _ => Cmd (DelKeys keys) (λ r, Ret match r with RErr e => Err e | _ => Ok tt end)
  end.

(** ** Clients of the locker *)

(** A client takes the lock [name] with [token]; [exp] is when its lock expires, and
    [last] when the server executed the previous command of the release. *)
Inductive Phase : Type :=
  | Idle
  | Acquiring (name token : string) (ttl : duration) (p : Prog (result (string * bool)))
  | Holding (name token : string) (exp : time)
  | Releasing (name token : string) (exp : time) (last : option time)
      (p : Prog (result unit)).

Record System : Type := MkSystem {
  sy_redis : Redis;
  sy_clients : nat → Phase;
  sy_used : list string      (** the tokens drawn so far *)
}.

Definition set_client (i : nat) (ph : Phase) (f : nat → Phase) : nat → Phase :=
  λ j, if bool_decide (j = i) then ph else f j.

(** What a client does when [Acquire] returns. *)
Definition acquired (name token : string) (exp : time) (p : Prog (result (string * bool))) :
    Phase :=
  match p with Ret (Ok (_, true)) => Holding name token exp | _ => Idle end.

(** A command is executed and answered, executed with its reply lost, or lost. *)
Inductive answers (c : Command) (s : Redis) : Reply → Redis → Prop :=
  | an_reply : answers c s (exec c s).1 (exec c s).2
  | an_lost e : answers c s (RErr e) (exec c s).2
  | an_unsent e : answers c s (RErr e) s.

(** The lock of a release does not expire between two of its commands; it may have
    expired before the first one. *)
Definition prompt_reply (last : option time) (exp now : time) : Prop :=
  ∀ t0, last = Some t0 → t0 < exp → now < exp.

(** With [prompt], every release is prompt. *)
Inductive step (prompt : bool) (s : System) : System → Prop :=
  | st_tick d : 0 ≤ d →
      step prompt s (MkSystem (MkRedis (rd_now (sy_redis s) + d) (rd_keys (sy_redis s)))
        (sy_clients s) (sy_used s))
  | st_acquire i name token ttl :
      sy_clients s i = Idle → token ∉ sy_used s → 0 < ttl →
      step prompt s (MkSystem (sy_redis s)
        (set_client i (Acquiring name token ttl (Redis_Acquire name token ttl)) (sy_clients s))
        (token :: sy_used s))
  | st_setnx i name token ttl c k r rd :
      sy_clients s i = Acquiring name token ttl (Cmd c k) → answers c (sy_redis s) r rd →
      step prompt s (MkSystem rd
        (set_client i (acquired name token (rd_now (sy_redis s) + ttl) (k r)) (sy_clients s))
        (sy_used s))
  | st_release i name token exp :
      sy_clients s i = Holding name token exp →
      step prompt s (MkSystem (sy_redis s)
        (set_client i (Releasing name token exp None (Redis_Release name token)) (sy_clients s))
        (sy_used s))
  | st_releasing i name token exp last c k r rd :
      sy_clients s i = Releasing name token exp last (Cmd c k) → answers c (sy_redis s) r rd →
      (prompt = true → prompt_reply last exp (rd_now (sy_redis s))) →
      step prompt s (MkSystem rd
        (set_client i (Releasing name token exp (Some (rd_now (sy_redis s))) (k r))
          (sy_clients s)) (sy_used s))
  | st_released i name token exp last r :
      sy_clients s i = Releasing name token exp last (Ret r) →
      step prompt s (MkSystem (sy_redis s) (set_client i Idle (sy_clients s)) (sy_used s))
  | st_crash i :
      step prompt s (MkSystem (sy_redis s) (set_client i Idle (sy_clients s)) (sy_used s)).

Definition new_system : System := MkSystem (MkRedis 0 ∅) (λ _, Idle) [].

(** ** Lemmas *)
#[export] Instance lock_key_inj : Inj (=) (=) lock_key.
Proof. intros n n'. unfold lock_key. by intros [= ]. Qed.

Lemma exec_now c s : rd_now (exec c s).2 = rd_now s.
Proof.
  destruct c; simpl; unfold redis_set; try done;
    destruct (new_expiry _ _ _); simpl; try done; by case_bool_decide.
Qed.

Lemma answers_now c s r s' : answers c s r s' → rd_now s' = rd_now s.
Proof. destruct 1; auto using exec_now. Qed.

Lemma redis_lookup_Some key s v exp :
  rd_keys s !! key = Some (v, Some exp) → rd_now s < exp →
  redis_lookup key s = Some (v, Some exp).
Proof.
  intros Hk Hlt. unfold redis_lookup. rewrite Hk. simpl. unfold alive. simpl.
  by rewrite (proj2 (Z.ltb_lt _ _)).
Qed.

(** [SET NX] leaves a key that is there alone. *)
Lemma setnx_present key value ttl s :
  is_Some (redis_lookup key s) → (exec (SetNX key value ttl) s).2 = s.
Proof.
  intros Hs. simpl. destruct (redis_set _ _ _ _); [|done]. by rewrite bool_decide_true.
Qed.

Lemma setnx_other key key' value ttl s :
  key' ≠ key → rd_keys (exec (SetNX key value ttl) s).2 !! key' = rd_keys s !! key'.
Proof.
  intros Hne. simpl. unfold redis_set. destruct (new_expiry _ _ _); simpl; [|done].
  case_bool_decide; simpl; [done|]. by rewrite lookup_insert_ne.
Qed.

Lemma setnx_true key value ttl s :
  0 < ttl → (exec (SetNX key value ttl) s).1 = RBool true →
  rd_keys (exec (SetNX key value ttl) s).2 !! key = Some (value, Some (rd_now s + ttl)).
Proof.
  intros Ht. simpl. unfold redis_set, new_expiry, KeepTTL.
  rewrite (proj2 (Z.eqb_neq ttl 0)), (proj2 (Z.eqb_neq ttl (-1))),
    (proj2 (Z.ltb_ge ttl 0)) by lia. simpl.
  case_bool_decide; simpl; [done|]. intros _. by rewrite lookup_insert_eq.
Qed.

(** An attempt to take a lock adds its own token at most. *)
Lemma setnx_keys key value ttl s r s' k v x :
  0 < ttl → answers (SetNX key value ttl) s r s' → rd_keys s' !! k = Some (v, x) →
  rd_keys s !! k = Some (v, x) ∨ v = value ∧ x = Some (rd_now s + ttl).
Proof.
  intros Ht Ha. assert (rd_keys (exec (SetNX key value ttl) s).2 !! k = Some (v, x) →
    rd_keys s !! k = Some (v, x) ∨ v = value ∧ x = Some (rd_now s + ttl)) as Hx.
  { simpl. unfold redis_set, new_expiry, KeepTTL.
    rewrite (proj2 (Z.eqb_neq ttl 0)), (proj2 (Z.eqb_neq ttl (-1))),
      (proj2 (Z.ltb_ge ttl 0)) by lia. simpl. case_bool_decide; simpl; [by left|].
    intros [[_ [= <- <-]]|[_ ?]]%lookup_insert_Some; [by right|by left]. }
  destruct Ha; auto.
Qed.

Lemma del_keys key s r s' k e :
  answers (DelKeys [key]) s r s' → rd_keys s' !! k = Some e → rd_keys s !! k = Some e.
Proof. destruct 1; simpl; auto; by intros [_ ?]%lookup_delete_Some. Qed.

(** ** The invariant *)
Definition token_of (ph : Phase) : option string :=
  match ph with
  | Idle => None
  | Acquiring _ t _ _ | Holding _ t _ | Releasing _ t _ _ _ => Some t
  end.

(** The lock a client may still rely on: name, token and expiry. *)
Definition claim (ph : Phase) : option (string * string * time) :=
  match ph with
  | Holding n t e | Releasing n t e _ (Cmd _ _) => Some (n, t, e)
  | _ => None
  end.

(** The programs clients are in the middle of: a release that is about to delete has
    found its lock in force. *)
Definition shape (ph : Phase) : Prop :=
  match ph with
  | Acquiring n t ttl p => p = Redis_Acquire n t ttl ∧ 0 < ttl
  | Releasing n t e last p =>
      p = Redis_Release n t ∨ (∃ a, p = Ret a) ∨
      ∃ k t0, p = Cmd (DelKeys [lock_key n]) k ∧ (∀ r, ∃ a, k r = Ret a) ∧
        last = Some t0 ∧ t0 < e
  | _ => True
  end.

(** A claim in force is what the server has. *)
Definition backed (rd : Redis) (ph : Phase) : Prop := ∀ n t e,
  claim ph = Some (n, t, e) → rd_now rd < e → rd_keys rd !! lock_key n = Some (t, Some e).

(** What the server has under a client's token is the lock of that client. *)
Definition marked (rd : Redis) (ph : Phase) : Prop := ∀ k t x,
  rd_keys rd !! k = Some (t, x) →
  match ph with
  | Idle => True
  | Acquiring _ t' _ _ => t ≠ t'
  | Holding _ t' e | Releasing _ t' e _ _ => t = t' → x = Some e
  end.

Definition coherent (rd : Redis) (ph : Phase) : Prop := backed rd ph ∧ marked rd ph.

Definition drawn (rd : Redis) (used : list string) : Prop := ∀ k t x,
  rd_keys rd !! k = Some (t, x) → t ∈ used.

Record inv (s : System) : Prop := {
  inv_used i t : token_of (sy_clients s i) = Some t → t ∈ sy_used s;
  inv_distinct i j t :
    token_of (sy_clients s i) = Some t → token_of (sy_clients s j) = Some t → i = j;
  inv_shape i : shape (sy_clients s i);
  inv_coherent i : coherent (sy_redis s) (sy_clients s i);
  inv_drawn : drawn (sy_redis s) (sy_used s)
}.

(** One client moves: it keeps its token, drops it or takes a new one, and the server
    stays coherent with the others. *)
Lemma inv_move s i ph rd used :
  inv s → (∀ t, t ∈ sy_used s → t ∈ used) →
  (∀ t, token_of ph = Some t →
    token_of (sy_clients s i) = Some t ∨ t ∉ sy_used s ∧ t ∈ used) →
  shape ph → coherent rd ph → (∀ j, j ≠ i → coherent rd (sy_clients s j)) → drawn rd used →
  inv (MkSystem rd (set_client i ph (sy_clients s)) used).
Proof.
  intros Hinv Hused Htok Hsh Hb Hothers Hdr.
  split; unfold set_client; simpl; [| | | |done].
  - intros j t. case_bool_decide; [|intros; by eapply Hused, inv_used].
    intros [?|[_ ?]]%Htok; [by eapply Hused, inv_used|done].
  - intros j k t. do 2 case_bool_decide; subst; try done.
    + intros [Ht|[Hnew _]]%Htok Hk; [by eapply inv_distinct|].
      destruct Hnew. by eapply inv_used.
    + intros Hj [Ht|[Hnew _]]%Htok; [by eapply inv_distinct|].
      destruct Hnew. by eapply inv_used.
    + by apply inv_distinct.
  - intros j. case_bool_decide; [done|by apply inv_shape].
  - intros j. case_bool_decide; [done|by apply Hothers].
Qed.

Lemma claim_Releasing n t e last p c :
  claim (Releasing n t e last p) = Some c → c = (n, t, e).
Proof. by destruct p as [|]; intros [= <-]. Qed.

Lemma claim_token ph n t e : claim ph = Some (n, t, e) → token_of ph = Some t.
Proof. by destruct ph as [| | |? ? ? ? []]; intros [= -> -> ->]. Qed.

Lemma backed_no_claim rd ph : claim ph = None → backed rd ph.
Proof. intros Hc n t e. by rewrite Hc. Qed.

Lemma coherent_Idle rd : coherent rd Idle.
Proof. split; [by apply backed_no_claim|done]. Qed.

(** What others see of an attempt to take a lock. *)
Lemma setnx_others n t ttl rd r rd' ph :
  0 < ttl → answers (SetNX (lock_key n) t ttl) rd r rd' → token_of ph ≠ Some t →
  coherent rd ph → coherent rd' ph.
Proof.
  intros Ht Ha Hne [Hb Hm]. split.
  - intros n' t' e' Hc. rewrite (answers_now _ _ _ _ Ha). intros Hlt.
    specialize (Hb n' t' e' Hc Hlt).
    assert (rd_keys (exec (SetNX (lock_key n) t ttl) rd).2 !! lock_key n' = Some (t', Some e')) as Hx.
    { destruct (decide (n' = n)) as [->|Hn].
      - by rewrite setnx_present by (rewrite (redis_lookup_Some _ _ _ _ Hb Hlt); eauto).
      - by rewrite setnx_other by (by intros ?%(inj lock_key)). }
    by destruct Ha.
  - intros k v x [Hk|[-> _]]%(setnx_keys _ _ _ _ _ _ _ _ _ Ht Ha); [by apply (Hm k)|].
    destruct ph; simpl in Hne; try done; congruence.
Qed.

(** A client that took a lock has it. *)
Lemma setnx_claim n t ttl rd r rd' k :
  0 < ttl → Cmd (SetNX (lock_key n) t ttl) k = Redis_Acquire n t ttl →
  answers (SetNX (lock_key n) t ttl) rd r rd' →
  marked rd (Acquiring n t ttl (Redis_Acquire n t ttl)) →
  coherent rd' (acquired n t (rd_now rd + ttl) (k r)).
Proof.
  intros Ht [= ->] Ha Hm. split.
  - intros n' t' e'. destruct Ha as [|e|e]; try done.
    destruct (exec (SetNX (lock_key n) t ttl) rd).1 as [|[]| |] eqn:He; try done.
    simpl. intros [= <- <- <-] _. by apply setnx_true.
  - intros k' v x Hx. destruct r as [|[]| |]; try done. simpl. intros ->.
    apply (setnx_keys _ _ _ _ _ _ _ _ _ Ht Ha) in Hx as [Hx|[_ ?]]; [|done].
    by destruct (Hm k' t x Hx).
Qed.

(** The owner of a lock in force deletes no one else's. *)
Lemma delete_others s i j n t e r rd' :
  inv s → claim (sy_clients s i) = Some (n, t, e) → rd_now (sy_redis s) < e → j ≠ i →
  answers (DelKeys [lock_key n]) (sy_redis s) r rd' → coherent rd' (sy_clients s j).
Proof.
  intros Hinv Hi Hlt Hne Ha. destruct (inv_coherent s Hinv j) as [Hb Hm]. split.
  - intros n' t' e' Hj. rewrite (answers_now _ _ _ _ Ha). intros Hlt'.
    pose proof (proj1 (inv_coherent s Hinv i) n t e Hi Hlt) as Hbi.
    specialize (Hb n' t' e' Hj Hlt').
    assert (n' ≠ n) as Hn.
    { intros ->. rewrite Hbi in Hb. injection Hb as -> ->.
      apply Hne, (inv_distinct s Hinv _ _ t'); by eapply claim_token. }
    destruct Ha; simpl; try done;
      rewrite lookup_delete_ne by (by intros ?%(inj lock_key)); done.
  - intros k v x Hk. by eapply Hm, del_keys.
Qed.

Lemma inv_same_redis s i ph used :
  inv s → (∀ t, t ∈ sy_used s → t ∈ used) →
  (∀ t, token_of ph = Some t →
    token_of (sy_clients s i) = Some t ∨ t ∉ sy_used s ∧ t ∈ used) →
  shape ph → coherent (sy_redis s) ph →
  inv (MkSystem (sy_redis s) (set_client i ph (sy_clients s)) used).
Proof.
  intros Hinv Hu ???. apply inv_move; auto using inv_coherent.
  intros k t x Hk. by eapply Hu, inv_drawn.
Qed.

Lemma inv_setnx s i name token ttl c k r rd :
  inv s → sy_clients s i = Acquiring name token ttl (Cmd c k) → answers c (sy_redis s) r rd →
  inv (MkSystem rd
    (set_client i (acquired name token (rd_now (sy_redis s) + ttl) (k r)) (sy_clients s))
    (sy_used s)).
Proof.
  intros Hinv Hi Ha. pose proof (inv_shape s Hinv i) as Hsh. rewrite Hi in Hsh.
  destruct Hsh as [Hp Ht]. assert (c = SetNX (lock_key name) token ttl) as -> by (by injection Hp).
  assert (token_of (sy_clients s i) = Some token) as Htok by by rewrite Hi.
  apply inv_move; [done|done| | | | |].
  - rewrite Hi. unfold acquired. intros t. repeat case_match; try done. by left.
  - unfold acquired. repeat case_match; done.
  - eapply setnx_claim; [done..|]. destruct (inv_coherent s Hinv i) as [_ Hm].
    by rewrite Hi, Hp in Hm.
  - intros j Hj. eapply setnx_others; [done|exact Ha| |by apply inv_coherent].
    intros Ht'. by apply Hj, (inv_distinct s Hinv _ _ token).
  - intros k' v x [Hk|[-> _]]%(setnx_keys _ _ _ _ _ _ _ _ _ Ht Ha);
      [by eapply inv_drawn|by eapply inv_used].
Qed.

(** A release that reads its own token reads it before its lock expires. *)
Lemma read_in_force rd name token exp last p x :
  marked rd (Releasing name token exp last p) →
  redis_lookup (lock_key name) rd = Some (token, x) → rd_now rd < exp.
Proof.
  intros Hm Hl. unfold redis_lookup in Hl.
  destruct (rd_keys rd !! lock_key name) as [[t y]|] eqn:Hk; simplify_eq/=.
  destruct (alive _ _) eqn:Hal; simplify_eq. rewrite (Hm _ _ _ Hk eq_refl) in Hal.
  by apply Z.ltb_lt in Hal.
Qed.

Lemma inv_releasing s i name token exp last c k r rd :
  inv s → sy_clients s i = Releasing name token exp last (Cmd c k) →
  answers c (sy_redis s) r rd → prompt_reply last exp (rd_now (sy_redis s)) →
  inv (MkSystem rd (set_client i (Releasing name token exp (Some (rd_now (sy_redis s))) (k r))
    (sy_clients s)) (sy_used s)).
Proof.
  intros Hinv Hi Ha Hprompt. pose proof (inv_shape s Hinv i) as Hsh. rewrite Hi in Hsh.
  pose proof (inv_coherent s Hinv i) as [Hb Hm]. rewrite Hi in Hb, Hm.
  assert (claim (sy_clients s i) = Some (name, token, exp)) as Hclaim by by rewrite Hi.
  destruct Hsh as [Hp|[[a Ha']|(k' & t0 & Hp & Hk & Hlast & Ht0)]]; [|done|].
  - injection Hp as -> ->. assert (rd = sy_redis s) as -> by (by destruct Ha).
    apply inv_same_redis; [done|done|rewrite Hi; by left| |split].
    + right. destruct r as [e|b|[cur|]|]; try (left; by eexists).
      destruct (cur =s token) eqn:Hcur; [right|left; by eexists].
      apply bool_decide_eq_true in Hcur as ->.
      eexists _, _. split_and!; [done|by eexists|done|].
      inversion Ha as [Hr|?|?]. destruct (redis_lookup _ _) as [[v x]|] eqn:Hl; [|done].
      injection Hr as ->. by eapply read_in_force.
    + intros n t e [= -> -> ->]%claim_Releasing. by apply Hb.
    + exact Hm.
  - injection Hp as -> ->. destruct (Hk r) as [a Hr]. rewrite Hr.
    apply inv_move; [done|done|rewrite Hi; by left|right; left; by eexists| | |].
    + split; [by apply backed_no_claim|]. intros k v x Hx. by eapply Hm, del_keys.
    + intros j Hne. eapply delete_others; eauto.
    + intros k v x Hx. by eapply inv_drawn, del_keys.
Qed.

Lemma inv_step s s' : step true s s' → inv s → inv s'.
Proof.
  destruct 1; intros Hinv; eauto using inv_setnx, inv_releasing, coherent_Idle.
  - split; simpl; [apply Hinv..| |apply Hinv]. intros i.
    destruct (inv_coherent s Hinv i) as [Hb Hm]. split; [|exact Hm]. intros n t e Hc Hlt.
    apply Hb; [done|]. simpl in Hlt. lia.
  - apply inv_same_redis; [done|set_solver| |done|split; [by apply backed_no_claim|]].
    + intros t [= <-]. right. set_solver.
    + intros k t x Hk ->. by eapply (inv_drawn s Hinv) in Hk.
  - pose proof (inv_coherent s Hinv i) as [Hb Hm]. rewrite H in Hb, Hm.
    apply inv_same_redis; [done|done|rewrite H; by left|by left|split; [|exact Hm]].
    intros n t e Hc. by apply Hb.
  - apply inv_same_redis; auto using coherent_Idle; done.
  - apply inv_same_redis; auto using coherent_Idle; done.
Qed.

Lemma inv_reachable s : rtc (step true) new_system s → inv s.
Proof.
  intros Hst. assert (inv new_system) as H0 by (by split; try done; intros ?; split).
  revert H0. induction Hst; eauto using inv_step.
Qed.

(** C12. Mutual exclusion of the distributed lock.  However the commands of any number
    of clients interleave, with time passing, replies lost and clients crashing, and
    with releases that come long after the lock they are for has expired: as long as no
    lock expires between the two commands of one release, a client within the time to
    live of its lock is the one whose token the server has, and no two clients hold the
    same lock at once. *)
Theorem redis_mutual_exclusion s i j name ti ei tj ej :
  rtc (step true) new_system s →
  sy_clients s i = Holding name ti ei → rd_now (sy_redis s) < ei →
  sy_clients s j = Holding name tj ej → rd_now (sy_redis s) < ej →
  i = j ∧ redis_lookup (lock_key name) (sy_redis s) = Some (ti, Some ei).
Proof.
  intros Hinv%inv_reachable Hi Hlti Hj Hltj.
  assert (rd_keys (sy_redis s) !! lock_key name = Some (ti, Some ei)) as Hki
    by (apply (inv_coherent s Hinv i); [by rewrite Hi|done]).
  assert (rd_keys (sy_redis s) !! lock_key name = Some (tj, Some ej)) as Hkj
    by (apply (inv_coherent s Hinv j); [by rewrite Hj|done]).
  rewrite Hki in Hkj. injection Hkj as -> ->. split; [|by apply redis_lookup_Some].
  apply (inv_distinct s Hinv _ _ tj); [by rewrite Hi|by rewrite Hj].
Qed.

(** A run in which the lock of client 0 expires between the two commands of its
    release. *)
Definition next_redis (c : Command) (s : System) : Redis := (exec c (sy_redis s)).2.

Definition with_client (rd : Redis) (i : nat) (ph : Phase) (used : list string) (s : System) :
    System := MkSystem rd (set_client i ph (sy_clients s)) used.

Definition take_nonce (i : nat) (t : string) (s : System) : System :=
  with_client (sy_redis s) i (Acquiring "nonce" t 10 (Redis_Acquire "nonce" t 10))
    (t :: sy_used s) s.

Definition setnx_nonce (i : nat) (t : string) (exp : time) (s : System) : System :=
  with_client (next_redis (SetNX (lock_key "nonce") t 10) s) i (Holding "nonce" t exp)
    (sy_used s) s.

Definition del_nonce : Command := DelKeys [lock_key "nonce"].

Definition del_prog : Prog (result unit) :=
  Cmd del_nonce (λ r, Ret match r with RErr e => Err e | _ => Ok tt end).

Definition race1 : System := setnx_nonce 0 "A" 10 (take_nonce 0 "A" new_system).
Definition race2 : System := with_client (sy_redis race1) 0
  (Releasing "nonce" "A" 10 None (Redis_Release "nonce" "A")) (sy_used race1) race1.
Definition race3 : System := with_client (next_redis (GetKey (lock_key "nonce")) race2) 0
  (Releasing "nonce" "A" 10 (Some 0) del_prog) (sy_used race2) race2.
Definition race4 : System := MkSystem
  (MkRedis (rd_now (sy_redis race3) + 10) (rd_keys (sy_redis race3)))
  (sy_clients race3) (sy_used race3).
Definition race5 : System := setnx_nonce 1 "B" 20 (take_nonce 1 "B" race4).
Definition race6 : System := with_client (next_redis del_nonce race5) 0
  (Releasing "nonce" "A" 10 (Some 10) (Ret (Ok tt))) (sy_used race5) race5.
Definition race7 : System := setnx_nonce 2 "C" 20 (take_nonce 2 "C" race6).

(** A free lock is taken. *)
Lemma take_nonce_steps prompt i t exp s :
  sy_clients s i = Idle → bool_decide (t ∈ sy_used s) = false →
  bool_decide (is_Some (redis_lookup (lock_key "nonce") (sy_redis s))) = false →
  exp = rd_now (sy_redis s) + 10 →
  rtc (step prompt) s (setnx_nonce i t exp (take_nonce i t s)).
Proof.
  intros Hi Ht Hfree ->. apply bool_decide_eq_false in Ht.
  eapply rtc_l; [by apply (st_acquire _ _ i "nonce" t 10)|]. apply rtc_once.
  set (s1 := MkSystem _ _ _).
  assert (exec (SetNX (lock_key "nonce") t 10) (sy_redis s1) =
    (RBool true, next_redis (SetNX (lock_key "nonce") t 10) s1)) as He.
  { unfold next_redis. simpl. by rewrite Hfree. }
  pose proof (an_reply (SetNX (lock_key "nonce") t 10) (sy_redis s1)) as Ha.
  rewrite He in Ha.
  assert (sy_clients s1 i = Acquiring "nonce" t 10 (Redis_Acquire "nonce" t 10)) as Hc.
  { simpl. unfold set_client. by rewrite bool_decide_true. }
  unfold Redis_Acquire in Hc. exact (st_setnx _ s1 i "nonce" t 10 _ _ (RBool true) _ Hc Ha).
Qed.

(** The compare and the delete of [Release] are two commands.  A client whose
    lock expires between them deletes the lock of the client that took it next, and a
    third client takes it too: two clients hold the same lock, both within the time to
    live of their locks. *)
Theorem redis_release_race :
  ∃ s i j name ti ei tj ej,
    rtc (step false) new_system s ∧ i ≠ j ∧
    sy_clients s i = Holding name ti ei ∧ rd_now (sy_redis s) < ei ∧
    sy_clients s j = Holding name tj ej ∧ rd_now (sy_redis s) < ej.
Proof.
  exists race7, 1%nat, 2%nat, "nonce", "B", 20, "C", 20.
  split; [|vm_compute; split_and!; done].
  transitivity race1; [apply take_nonce_steps; vm_compute; reflexivity|].
  apply (rtc_l _ _ race2); [apply (st_release _ race1 0 "nonce" "A" 10); vm_compute; reflexivity|].
  apply (rtc_l _ _ race3).
  { refine (st_releasing _ race2 0 "nonce" "A" 10 None _ _ (RValue (Some "A"))
      (next_redis (GetKey (lock_key "nonce")) race2) eq_refl _ _); [|done].
    pose proof (an_reply (GetKey (lock_key "nonce")) (sy_redis race2)) as Ha.
    replace (exec _ _).1 with (RValue (Some "A")) in Ha by (vm_compute; reflexivity).
    exact Ha. }
  apply (rtc_l _ _ race4); [by apply (st_tick _ race3 10)|].
  transitivity race5; [apply take_nonce_steps; vm_compute; reflexivity|].
  apply (rtc_l _ _ race6).
  { by refine (st_releasing _ race5 0 "nonce" "A" 10 (Some 0) del_nonce _ RDone _ eq_refl
      (an_reply _ _) _). }
  apply take_nonce_steps; vm_compute; reflexivity.
Qed.

(** Alone with the server, a release frees the caller's own lock, reports another
    holder's, and is content with none. *)
Lemma Redis_Release_alone name token s :
  run_prog (Redis_Release name token) s =
  match redis_lookup (lock_key name) s with
  | None => (Ok tt, s)
  | Some (cur, _) =>
      if cur =s token then (Ok tt, with_keys (delete (lock_key name) (rd_keys s)) s)
      else (Err (ErrNew "lock token mismatch"), s)
  end.
Proof.
  unfold Redis_Release. simpl. destruct (redis_lookup (lock_key name) s) as [[cur exp]|]; [|done].
  simpl. by destruct (cur =s token).
Qed.

(** What was cached is found until its time to live, or the cache's own when none was
    given, has passed, and not afterwards. *)
Lemma RedisCache_Get_Set dttl key value ttl s d :
  let life := if ttl <=? 0 then dttl else ttl in
  0 < life → 0 ≤ d →
  let s1 := (run_prog (RedisCache_Set dttl key value ttl) s).2 in
  (run_prog (RedisCache_Set dttl key value ttl) s).1 = Ok tt ∧
  (run_prog (RedisCache_Get key) (MkRedis (rd_now s1 + d) (rd_keys s1))).1 =
    if d <? life then Ok (value, true) else Ok ("", false).
Proof.
  intros life Hl Hd. unfold RedisCache_Set. fold life. simpl.
  unfold redis_set, new_expiry, KeepTTL.
  rewrite (proj2 (Z.eqb_neq life 0)), (proj2 (Z.eqb_neq life (-1))),
    (proj2 (Z.ltb_ge life 0)) by lia. simpl. split; [done|].
  unfold redis_lookup. simpl. rewrite lookup_insert_eq. simpl. unfold alive. simpl.
  destruct (Z.ltb_spec (rd_now s + d) (rd_now s + life)), (Z.ltb_spec d life); try lia; done.
Qed.

Lemma redis_mutual_exclusion_witness :
  0%nat = 0%nat ∧
  redis_lookup (lock_key "nonce") (sy_redis race1) = Some ("A", Some 10).
Proof.
  apply (redis_mutual_exclusion race1 0 0 "nonce" "A" 10 "A" 10);
    try (vm_compute; reflexivity).
  apply take_nonce_steps; vm_compute; reflexivity.
Defined.
