(* ===== verification/App.v ===== *)
(** * App: the services behind the two servers of [cmd/wallet-manager/main.go]

    The services behind the REST router and the gRPC method table, the background
    drainer and the funding check the balance service starts, wired together as [run]
    wires them and run one after another in any order.  The services are those of the
    other files, over the in-memory store; [run] itself wires the Postgres store, so
    what is said about requests to the signer and the gateway is proved for any
    contents of the tables and any change made to them between two steps, and what is
    said about the rows is a statement about the in-memory store. *)
From stdpp Require Import base tactics numbers gmap strings list.
From Stdlib Require Import ZArith Lia.
From S2P Require Import Prelude.
From S2P Require Import GoLang.
From S2P Require Import GoText.
From S2P Require Import Crypto.
From S2P Require Import Domain.
From S2P Require Import Json.
From S2P Require Import Config.
From S2P Require Import World.
From S2P Require Import Reference.
From S2P Require Import Decimal.
From S2P Require Import MemStore.
From S2P Require Import MemStoreFacts.
From S2P Require Import MemStoreFrames.
From S2P Require Import Lock.
From S2P Require Import Nonce.
From S2P Require Import Utxo.
From S2P Require Import AuditOutbox.
From S2P Require Import KeyMapping.
From S2P Require Import Balance.
From S2P Require Import Cache.
From S2P Require Import Deriver.
From S2P Require Import Wallet.
From S2P Require Import Funding.
From S2P Require Import Withdrawal.
From S2P Require Import WithdrawalSaga.
From S2P Require Import WithdrawalResources.
From S2P Require Import WithdrawalProps.
From S2P Require Import Resolver.
From S2P Require Import Http.
From S2P Require Import AuthToken.
From S2P Require Import GrpcServer.
From S2P Require Import Rest.

#[local] Open Scope string_scope.
#[local] Open Scope list_scope.
#[local] Open Scope Z_scope.

(** ** Steps that leave the withdrawals alone and spend nothing *)
#[export] Instance calm_frame_rel : FrameRel elsewhere.
Proof.
  split; [split|]; unfold elsewhere.
  - intros w. split; [done|]. exists []. by rewrite app_nil_r.
  - intros w1 w2 w3 (Hr & xs & Ht & Hx) (Hr' & ys & Ht' & Hy). split; [congruence|].
    exists (xs ++ ys). rewrite Ht', Ht, <- app_assoc. split; [done|]. by apply Forall_app.
  - intros w w' -> ->. split; [done|]. exists []. by rewrite app_nil_r.
Qed.

Lemma silent_calm w w' : silent w w' → elsewhere w w'.
Proof. intros [Hr Ht]. split; [done|]. exists []. by rewrite Ht, app_nil_r. Qed.

Lemma within_silent_calm {A} (m : Go A) : within silent m → within elsewhere m.
Proof. intros Hm w. apply silent_calm, Hm. Qed.

Lemma calm_ignores {X} (set : Store → X → Store) :
  (∀ s x, rows (set s x) = rows s) → ignores set elsewhere.
Proof. intros Hs w x. apply silent_calm. split; [apply Hs|done]. Qed.

#[export] Hint Extern 0 (ignores _ elsewhere) => (by apply calm_ignores) : within typeclass_instances.

(** Asking a service that neither signs nor broadcasts. *)
Lemma calm_ask {Q A} mk f (q : Q) :
  (∀ r, spending (mk q r) = false) → within elsewhere (ask (R := A) mk f q).
Proof.
  intros Hs w. split; [done|]. eexists. split; [done|]. by repeat constructor.
Qed.

Lemma calm_InTx fn : within elsewhere fn → within elsewhere (InTx fn).
Proof.
  intros Hfn w. unfold InTx, restore. go_run. rewrite snapshot_run.
  specialize (Hfn (set_depth (S (depth w)) w)).
  destruct (fn _) as [[[]|e] w1]; simpl in *; [done|].
  case_bool_decide; simpl; [|done]. destruct Hfn as [_ Ht]. by split.
Qed.

#[export] Hint Resolve calm_InTx : within.

(** ** The services *)
Section services.
Context `{GoRuntime} `{UUIDLib} `{Environment} `{FloatLib} `{CryptoLib}.
Context (c : Cache) `{!CacheLaws c} (reg : Registry) (L : Locker) `{!LockerLaws L}.
Context (sleep : Go unit) (Hsleep : within same_visible sleep).
Context (em : option Emitter) `{!EmitterLaws em} (cfg : Config).
Context (treasury : option (list exchange → TreasuryRequest → result unit)).

Lemma emit_calm ev : within elsewhere (emit em ev).
Proof. apply within_emit; [apply _|apply _|by apply calm_ignores..]. Qed.

Lemma DeriveAddress_calm wid force :
  within elsewhere (DeriveAddress c reg L sleep em cfg wid force).
Proof.
  pose proof emit_calm as He.
  assert (within elsewhere sleep) as Hs by (by apply quiet_within; [apply _|]).
  assert (∀ W, within elsewhere (deriveNew c reg em cfg W)) as Hn.
  { intros W w0. unfold deriveNew. unfold mbind at 1, GoM_bind at 1, of_result.
    destruct (For c (ttl cfg) reg (w_Chain W)) as [d|e] eqn:Hd; [|reflexivity].
    assert (∀ idx, within elsewhere (DeriveAt d (w_ID W) (w_Chain W) idx 0)) as Hat.
    { intros idx. eapply DeriveAt_frame; [apply _|apply _|exact Hd]. }
    cbv beta iota zeta. match goal with |- elsewhere w0 (?m w0).2 =>
      assert (within elsewhere m) as Hm; [solve_within|exact (Hm w0)] end. }
  assert (∀ i W, within elsewhere (deriveNewLocked_loop c reg L sleep em cfg i W)) as Hl.
  { intros i W. induction i; simpl; unfold releasing; solve_within. }
  pose proof @shouldRotate_reads as Hsr.
  unfold DeriveAddress, ForceRotate, CurrentOrRotate, deriveNewLocked, rotate, releasing.
  destruct force; solve_within.
Qed.

Lemma Wallet_Create_calm req : within elsewhere (Wallet_Create em req).
Proof. pose proof emit_calm. unfold Wallet_Create. solve_within. Qed.

Lemma createRequest_calm W asset amount reason :
  within elsewhere (createRequest treasury em W asset amount reason).
Proof.
  pose proof emit_calm. unfold createRequest.
  assert (∀ f q, within elsewhere (ask XTreasury f q)) by (intros f q; by apply calm_ask).
  solve_within.
Qed.

Lemma ManualRequest_calm wid asset amount reason :
  within elsewhere (ManualRequest treasury em wid asset amount reason).
Proof. pose proof createRequest_calm. unfold ManualRequest. solve_within. Qed.

Lemma EvaluateAndRequest_calm wid asset :
  within elsewhere (EvaluateAndRequest treasury em cfg wid asset).
Proof. pose proof createRequest_calm. unfold EvaluateAndRequest. solve_within. Qed.

Lemma ApplyConfirmationEvent_calm decrease ev :
  (∀ f wid asset, decrease = Some f → within elsewhere (f wid asset)) →
  within elsewhere (ApplyConfirmationEvent em cfg decrease ev).
Proof.
  intros Hf. pose proof emit_calm.
  assert (within elsewhere (confirmation_tx em cfg ev)).
  { unfold confirmation_tx, get_or_zero. solve_within. }
  assert (within elsewhere (notify_decrease cfg decrease ev)).
  { unfold notify_decrease. destruct decrease; solve_within. }
  unfold ApplyConfirmationEvent. solve_within.
Qed.

Lemma ApplyReorgEvent_calm restore ev :
  (∀ f ops, restore = Some f → within elsewhere (f ops)) →
  within elsewhere (ApplyReorgEvent em restore ev).
Proof.
  intros Hf. pose proof emit_calm.
  assert (within elsewhere (reorg_tx ev)) by (unfold reorg_tx; solve_within).
  unfold ApplyReorgEvent. destruct restore; solve_within.
Qed.

Lemma Drain_calm sink : within elsewhere (Drain sink).
Proof.
  assert (∀ f q, within elsewhere (ask XDeliver f q)) by (intros f q; by apply calm_ask).
  unfold Drain, Deliver. solve_within.
Qed.
End services.

(** ** The surface of the process *)
Section process.
Context `{GoRuntime} `{UUIDLib} `{Environment} `{FloatLib} `{CryptoLib} `{ChiRouter}.
Context (c : Cache) `{!CacheLaws c} (reg : Registry) (L : Locker) `{!LockerLaws L}.
Context (sleep : Go unit) (Hsleep : within same_visible sleep) (cfg : Config).
Context (treasury : list exchange → TreasuryRequest → result unit).
Context (policy : list exchange → CheckRequest → result (option CheckResponse)).
Context (signer : list exchange → SignRequest → result SignResponse).
Context (gateway : list exchange → BroadcastRequest → result BroadcastResponse).
Context (fetcher : option (Go (list byte))).
Context (Hfetcher : ∀ m, fetcher = Some m → within same_visible m).
(** The readiness checks write no withdrawal and ask for no signature or broadcast: each
    is a ping. *)
Context (checks : list ReadinessCheck) (Hchecks : checks_within checks elsewhere).
Context (sink : option (list exchange → list AuditOutboxEvent → result unit)).

(** The emitter, the withdrawal service and the two servers of [run]. *)
Definition app_emitter : option Emitter := Some EmitterService_Emit.

Definition app_service : Collaborators :=
  wired reg L sleep policy signer gateway fetcher.

Definition app_rest : Handler :=
  dispatch c reg L sleep app_emitter cfg (Some treasury) app_service (Some (L, sleep)) checks.

(** [balanceSvc.OnConfirmedDecrease] starts a goroutine and returns. *)
Definition app_decrease : uuid → string → Go unit := λ _ _, mret tt.

Definition app_grpc (secret : string) (bypass : bool) (md : Metadata)
    (fullMethod data : string) : option (Go (Reply RpcReply)) :=
  serve app_emitter cfg (Some RestoreOnReorg) (Some app_decrease) app_service
    secret bypass md fullMethod data.

(** What the process does: it answers a request of either server, drains the audit
    outbox, or runs the funding check of a goroutine the balance service started. *)
Inductive api_step (w : World) : World → Prop :=
  | api_rest r : api_step w (app_rest r w).2
  | api_grpc secret bypass md method data h :
      app_grpc secret bypass md method data = Some h → api_step w (h w).2
  | api_drain : api_step w (Drain sink w).2
  | api_funding wid asset :
      api_step w (EvaluateAndRequest (Some treasury) app_emitter cfg wid asset w).2.

(** The same beside anything that changes the tables between two steps: another
    process, another request, another store. *)
Inductive open_step (w : World) : World → Prop :=
  | open_api w' : api_step w w' → open_step w w'
  | open_tables s : open_step w (set_store s w).

(** The part of the withdrawal service the surface reaches. *)
Inductive surface_step (w : World) : World → Prop :=
  | sf_create req : surface_step w (Create app_service req w).2
  | sf_confirm id tx : surface_step w (Confirm app_service id tx w).2
  | sf_reorg id ops : surface_step w (OnReorg id ops w).2
  | sf_elsewhere w' : elsewhere w w' → surface_step w w'.

Definition surface : relation World := rtc surface_step.

#[local] Instance surface_frame_rel : FrameRel surface.
Proof.
  split; [unfold surface; apply _|]. intros w w' Hs Ht.
  apply rtc_once, sf_elsewhere. by apply frame_rel_same.
Qed.

Lemma elsewhere_surface {A} (m : Go A) : within elsewhere m → within surface m.
Proof. intros Hm w. apply rtc_once, sf_elsewhere, Hm. Qed.

#[local] Instance app_laws : CollaboratorLaws app_service.
Proof. apply wired_laws; done. Defined.

#[local] Instance app_emitter_laws : EmitterLaws app_emitter.
Proof. apply EmitterService_laws. Qed.

Lemma Create_surface req : within surface (Create app_service req).
Proof. intros w. apply rtc_once, sf_create. Qed.

Lemma Confirm_surface id tx : within surface (Confirm app_service id tx).
Proof. intros w. apply rtc_once, sf_confirm. Qed.

Lemma OnReorg_surface id ops : within surface (OnReorg id ops).
Proof. intros w. apply rtc_once, sf_reorg. Qed.

Lemma app_rest_surface r : within surface (app_rest r).
Proof.
  unfold app_rest, dispatch. destruct (chi_Match _ _ _) as [i params|]; [|apply within_ret, _].
  destruct (routes _ _ _ _ _ _ _ _ _ _ !! i) as [[[m pat] h]|] eqn:Hl; [|apply within_ret, _].
  apply list_elem_of_lookup_2 in Hl. unfold routes in Hl. set_unfold in Hl.
  pose proof Create_surface.
  pose proof (λ wid f, elsewhere_surface _
    (DeriveAddress_calm c reg L sleep Hsleep app_emitter cfg wid f)).
  pose proof (λ q, elsewhere_surface _ (Wallet_Create_calm app_emitter q)).
  pose proof (λ wid a x r, elsewhere_surface _
    (ManualRequest_calm app_emitter (Some treasury) wid a x r)).
  assert (∀ wid chain, within surface (ReserveNonce L sleep wid chain)).
  { intros wid chain. apply elsewhere_surface, (ReserveNonce_frame app_service).
    { apply _. } by apply calm_ignores. }
  repeat destruct Hl as [Hl|Hl]; try done; injection Hl as -> -> ->;
    try (by apply elsewhere_surface, readyz_within; [apply _|]);
    unfold healthz, createWallet, getWallet, listWallets, getAddresses, deriveAddress,
      getBalances, createFundingRequest, listFundingRequests, allocateNonce,
      createWithdrawal, listWithdrawals, list_withdrawals_of, getWithdrawal, Wallet_Get,
      Wallet_List, Wallet_ListAddresses, GetBalances, derivation_reply, writeError, writeJSON;
    try (apply with_id_within; [apply _|]); unfold writeError, writeJSON; solve_within.
Qed.

Lemma app_grpc_surface secret bypass md method data h :
  app_grpc secret bypass md method data = Some h → within surface h.
Proof.
  unfold app_grpc, serve. intros Hf.
  destruct (find _ _) as [[m h']|] eqn:Hm; [|done]. injection Hf as <-.
  apply find_some in Hm as [Hin _]. unfold registerMethods in Hin. simpl in Hin.
  pose proof Confirm_surface. pose proof OnReorg_surface.
  assert (∀ ev, within surface
    (ApplyConfirmationEvent app_emitter cfg (Some app_decrease) ev)).
  { intros ev. apply elsewhere_surface, ApplyConfirmationEvent_calm; [apply _|].
    intros f wid asset [= <-]. apply within_ret, _. }
  assert (∀ ev, within surface (ApplyReorgEvent app_emitter (Some RestoreOnReorg) ev)).
  { intros ev. apply elsewhere_surface, ApplyReorgEvent_calm; [apply _|].
    intros f ops [= <-]. unfold RestoreOnReorg. solve_within. }
  destruct Hin as [Hin|[Hin|[Hin|[]]]]; injection Hin as <- <-;
    unfold resolveKeyIDHandler, onConfirmationHandler, onReorgHandler, reorg_balances,
      status_err, ResolveActive; solve_within.
Qed.

Lemma api_step_surface w w' : api_step w w' → surface w w'.
Proof.
  destruct 1 as [r|secret bypass md method data h Hh| |wid asset].
  - apply app_rest_surface.
  - by eapply app_grpc_surface.
  - apply elsewhere_surface, Drain_calm.
  - apply elsewhere_surface, EvaluateAndRequest_calm, _.
Qed.

(** ** What the surface sends *)
Definition sends_no_spend : relation World := λ w w',
  ∃ xs, trace w' = trace w ++ xs ∧ Forall (λ x, spending x = false) xs.

#[local] Instance sends_no_spend_frame : FrameRel sends_no_spend.
Proof.
  split; [split|].
  - intros w. exists []. by rewrite app_nil_r.
  - intros w1 w2 w3 (xs & Ht & Hx) (ys & Ht' & Hy). exists (xs ++ ys).
    rewrite Ht', Ht, <- app_assoc. split; [done|]. by apply Forall_app.
  - intros w w' _ Ht. exists []. by rewrite Ht, app_nil_r.
Qed.

Lemma sends_no_spend_tables {X} (set : Store → X → Store) : ignores set sends_no_spend.
Proof. intros w x. exists []. by rewrite app_nil_r. Qed.

#[local] Hint Extern 0 (ignores _ sends_no_spend) =>
  apply sends_no_spend_tables : within typeclass_instances.

Lemma surface_step_sends w w' : surface_step w w' → sends_no_spend w w'.
Proof.
  destruct 1 as [req|id tx|id ops|w' [_ Hw]]; [|..|done].
  - destruct (Create_effect app_service req w) as [[[_ Ht] _]|(id & ans & wr & _ & _ & _ & Ht & _)].
    + exists []. by rewrite Ht, app_nil_r.
    + eexists. split; [exact Ht|]. by repeat constructor.
  - assert (within sends_no_spend (Confirm app_service id tx)) as Hc; [|apply Hc].
    assert (∀ ev, within sends_no_spend (emit app_emitter ev)) as He.
    { intros ev. apply within_emit; [apply _|apply _|apply sends_no_spend_tables..]. }
    unfold Confirm. solve_within.
  - assert (within sends_no_spend (OnReorg id ops)) as Hc; [|apply Hc].
    unfold OnReorg, RestoreOnReorg. solve_within.
Qed.

Lemma open_step_sends w w' : open_step w w' → sends_no_spend w w'.
Proof.
  destruct 1 as [w' Hw%api_step_surface|s]; [|exists []; by rewrite app_nil_r].
  induction Hw as [w|w1 w2 w3 H12%surface_step_sends _ IH]; [reflexivity|by etrans].
Qed.

(** ** What the surface can do to a withdrawal *)
Definition parked (tr : list exchange) (k : string * Req) : Prop :=
  k.1 = WithdrawalStateWhitelisted ∧ approved tr k.2 ∨ k.1 = WithdrawalStateFailed.

Definition unspent (w : World) : Prop :=
  (∀ id k, rows (store w) !! id = Some k → parked (trace w) k) ∧
  Forall (λ x, spending x = false) (trace w).

Lemma parked_app tr xs k : parked tr k → parked (tr ++ xs) k.
Proof. intros [[Hw Ha]|Hf]; [left; split; [done|by apply approved_app]|by right]. Qed.

Lemma unspent_elsewhere w w' : elsewhere w w' → unspent w → unspent w'.
Proof.
  intros (Hr & xs & Ht & Hxs) [Hrows Htr]. unfold unspent. rewrite Hr, Ht. split.
  - intros id k Hk. by eapply parked_app, Hrows.
  - by apply Forall_app.
Qed.

Lemma unspent_Create req w : unspent w → unspent (Create app_service req w).2.
Proof.
  intros Hw. destruct (Create_effect app_service req w)
    as [[Hs _]|(id & ans & wr & _ & _ & _ & Ht & Hr)];
    [by eapply unspent_elsewhere, Hw; apply silent_calm|].
  destruct Hw as [Hrows Htr]. unfold unspent. rewrite Ht, Hr. split.
  - intros i k [[<- <-]|[_ Hk]]%lookup_insert_Some; [|by eapply parked_app, Hrows].
    unfold parked, WithdrawalProps.verdict. simpl. destruct (approves ans) eqn:Ha; [left|by right].
    split; [done|]. exists ans. split; [set_solver|done].
  - apply Forall_app. split; [done|]. by repeat constructor.
Qed.

(** A withdrawal that is not out cannot be confirmed or called back. *)
Lemma unspent_not_out id x w : unspent w → withdrawals (store w) !! id = Some x →
  wr_State x ≠ WithdrawalStateBroadcast ∧ wr_State x ≠ WithdrawalStateConfirmed.
Proof.
  intros [Hrows _] Hx. specialize (Hrows id (row_key x)). unfold rows in Hrows.
  rewrite lookup_fmap, Hx in Hrows. destruct (Hrows eq_refl) as [[Hs _]|Hs]; simpl in Hs;
    rewrite Hs; done.
Qed.

Lemma surface_step_unspent w w' : surface_step w w' → unspent w → unspent w'.
Proof.
  destruct 1 as [req|id tx|id ops|w' Hw]; [apply unspent_Create|..|by apply unspent_elsewhere].
  - intros Hw. unfold Confirm, mbind, GoM_bind. rewrite GetWithdrawal_run.
    destruct (withdrawals (store w) !! id) as [x|] eqn:Hx; [|done].
    destruct (unspent_not_out id x w Hw Hx) as [Hb _]. by rewrite bool_decide_false.
  - intros Hw. unfold OnReorg. unfold mbind at 1, GoM_bind at 1. rewrite GetWithdrawal_run.
    destruct (withdrawals (store w) !! id) as [x|] eqn:Hx; [|done].
    destruct (unspent_not_out id x w Hw Hx) as [_ Hc]. rewrite bool_decide_false by done.
    refine (unspent_elsewhere _ _ _ Hw). unfold RestoreOnReorg.
    match goal with |- elsewhere _ (?m w).2 => assert (within elsewhere m) as Hm; [|apply Hm] end.
    solve_within.
Qed.

(** C4. No request makes the services sign or broadcast.  Through any sequence of
    requests to the REST router and calls to the gRPC method table, drains and funding
    checks, from any tables and with any change made to the tables in between,
    nothing is sent to the signer or to the gateway; the readiness checks are taken to
    be pings, which write no withdrawal and ask for no signature or broadcast.  And on
    the in-memory store, starting empty and taking the steps one at a time, every
    withdrawal in the table is WHITELISTED, with an approval of the policy engine for
    that very request on record, or FAILED: nothing carries a withdrawal past
    WHITELISTED. *)
Theorem surface_never_spends :
  (∀ w w', rtc open_step w w' →
    ∃ xs, trace w' = trace w ++ xs ∧ ∀ x, x ∈ xs → spending x = false) ∧
  (∀ w, rtc api_step initial_world w →
    ∀ id x, withdrawals (store w) !! id = Some x →
      wr_State x = WithdrawalStateWhitelisted ∧ approved (trace w) (req_of x) ∨
      wr_State x = WithdrawalStateFailed).
Proof.
  split.
  - intros w w' Hst. assert (sends_no_spend w w') as (xs & Ht & Hx).
    { induction Hst as [w|w1 w2 w3 H12%open_step_sends _ IH]; [reflexivity|by etrans]. }
    exists xs. split; [done|]. by apply Forall_forall.
  - intros w Hst. assert (unspent initial_world) as Hinit.
    { split; [|by constructor]. intros id k. unfold rows. simpl.
      by rewrite fmap_empty, lookup_empty. }
    assert (unspent w) as [Hrows _].
    { revert Hinit. induction Hst as [|w1 w2 w3 H12%api_step_surface _ IH]; [done|].
      intros Hw. apply IH. clear IH. induction H12; eauto using surface_step_unspent. }
    intros id x Hx. apply (Hrows id (row_key x)). unfold rows. by rewrite lookup_fmap, Hx.
Qed.
End process.

(** ** Witness *)
Section witnesses.
#[local] Existing Instances ref_runtime ref_uuid ref_env ref_decimal ref_crypto toy_float ref_chi.

Definition approving (_ : list exchange) (_ : CheckRequest) : result (option CheckResponse) :=
  Ok (Some (MkCheckResponse true "d-1" "")).
Definition no_signer (_ : list exchange) (_ : SignRequest) : result SignResponse :=
  Err (ErrNew "down").
Definition no_gateway (_ : list exchange) (_ : BroadcastRequest) : result BroadcastResponse :=
  Err (ErrNew "down").

Definition live_rest : Handler := app_rest MemCache some_registry MemLocker (mret tt)
  default_config (λ _ _, Ok tt) approving no_signer no_gateway None [].

(** A wallet is created and a withdrawal from it requested. *)
Definition wallet_post : Request := request "POST" "/v1/wallets" (json_print (JObject
  [("chain", JString "ethereum"); ("type", JString "HOT"); ("label", JString "ops")])) "".
Definition live1 : World := (live_rest wallet_post initial_world).2.
Definition live_body : string := json_print (JObject
  [("wallet_id", JString (uuid_String (uuid_of_Z 1001))); ("to_address", JString to_addr);
   ("asset", JString "ETH"); ("amount", JString "5")]).
Definition live2 : World :=
  (live_rest (request "POST" "/v1/withdrawals" live_body "") live1).2.

Definition live_state : option string :=
  wr_State <$> head (map_to_list (withdrawals (store live2))).*2.

Lemma surface_never_spends_witness :
  live_state = Some WithdrawalStateWhitelisted ∧
  (∃ xs, trace live2 = trace initial_world ++ xs ∧ ∀ x, x ∈ xs → spending x = false) ∧
  (∀ id x, withdrawals (store live2) !! id = Some x →
    wr_State x = WithdrawalStateWhitelisted ∧ approved (trace live2) (req_of x) ∨
    wr_State x = WithdrawalStateFailed).
Proof.
  pose proof (surface_never_spends MemCache some_registry MemLocker (mret tt)
    (within_ret same_visible tt) default_config (λ _ _, Ok tt) approving no_signer no_gateway
    None ltac:(discriminate) [] ltac:(intros ?? Hk; by apply elem_of_nil in Hk) None)
    as [Hsend Hrows].
  split; [vm_compute; reflexivity|]. split.
  - apply Hsend. apply (rtc_l _ _ live1).
    + apply open_api, (api_rest _ _ _ _ _ _ _ _ _ _ _ _ _ wallet_post).
    + apply rtc_once, open_api, (api_rest _ _ _ _ _ _ _ _ _ _ _ _ _
        (request "POST" "/v1/withdrawals" live_body "")).
  - apply Hrows. apply (rtc_l _ _ live1).
    + apply (api_rest _ _ _ _ _ _ _ _ _ _ _ _ _ wallet_post).
    + apply rtc_once, (api_rest _ _ _ _ _ _ _ _ _ _ _ _ _
        (request "POST" "/v1/withdrawals" live_body "")).
Defined.
End witnesses.
